(* ===== verification/_CoqProject ===== *)
-Q . S2P
Prelude.v
Esca.v
Ring.v
IndirectCall.v
Request.v
Protocol.v
ProtocolInv.v
ProtocolProps.v
ProtocolRuns.v
World.v
Hook.v
HookProps.v
Kernel.v
Preload.v
Wrappers.v
Library.v
Config.v
Rings.v
ConfigProps.v
Submit.v
WrapperProps.v
WorkerProps.v
Batch.v
Init.v
Session.v
Scenario.v
Frame.v
Machine.v
Boot.v
Witnesses.v
SendmsgProps.v
Writev.v
Limits.v
Cpu.v
EchoServer.v
EchoProps.v
EchoDummy.v
Uring.v
UringInv.v
UringProps.v
UringRuns.v
Bench.v
BenchProps.v
BenchRuns.v
