(* ===== verification/Prelude.v ===== *)
(** * SAIO: asynchronous system calls through shared rings

    SAIO (ESCA) lets a server process hand system calls over to kernel threads.
    A preload library (src/wrapper) replaces libc functions such as [close],
    [sendfile] or [sendmsg]; between [batch_start] and [batch_flush] such a
    wrapper does not trap but records the call in an entry of a ring it shares
    with the kernel module (src/module), whose worker threads execute the
    entries.  A user worker owns a set of [RATIO] rings, one per kernel worker;
    the descriptor of a call selects the ring.  src/echo holds an echo server
    that uses the library, one on io_uring to compare with, and a benchmark.

    ** Parts of the program and where they are modelled

    - [Prelude]: machine integers, C arrays, outcomes ([Ret], [Fault], [Hang]),
      the state monad with its notation, generic lemmas and tactics.
    - [Esca]: module/include/esca.h, module/syscall.h and the system call
      tables: limits, configuration, entries, headers, field stores at their
      width.
    - [Ring]: the index arithmetic of preload.c [update_index] (producer) and of
      lioo.c [worker] (consumer), and its meaning modulo the ring size.
    - [IndirectCall]: lioo.c [indirect_call], from an entry to the registers of a
      system call, x86-64 and aarch64.  [Request]: the stores of a wrapper.
    - [Protocol], [ProtocolInv], [ProtocolProps], [ProtocolRuns]: one ring with
      its two threads, interleaved at single loads and stores (sequentially
      consistent memory): wrapper body, [update_index], [batch_start] with
      [sys_esca_wakeup], and the whole of [worker] with polling, sleeping,
      signals and time.  [step] is a partial function of an event; [reachable]
      is the set of states of calm executions.
    - [World]: the machine state shared by the sequential models: globals of
      preload.c and of the targets ([preload_t]), globals of lioo.c
      ([module_t]), pages of headers, regions of entries, user memory, and the
      results of allocations.
    - [Hook], [HookProps]: module load and unload ([lioo_init], [lioo_exit],
      lib/symbol.c, lib/util.c and the page attributes of aarch64).  [Cpu]: the
      CPU each worker binds itself to, the cycle counter registers of aarch64.
    - [Kernel]: the handlers of lioo.c ([sys_esca_register], [sys_esca_wakeup],
      [sys_esca_wait], [sys_esca_init_config], [sys_lioo_exit]) and a pass of
      [worker].
    - [Preload]: [init_worker], [batch_start], [batch_flush], [toggle_region],
      [update_index].  [Config], [ConfigProps]: [setup] with its [fscanf] loop
      and [init_config].
    - [Wrappers]: the functions of echo.c, lighty.c, ngx.c, ngx_tls.c,
      ngx_ktls.c, redis.c and mcached.c; [Writev]: [writev] of lighty.c, the
      alternative under #else.
    - [Library]: the interface a server is linked against, with its two
      implementations, preload.so and dummy.c.
    - [Rings], [Submit], [WrapperProps], [SendmsgProps]: the machine state as a
      family of rings and the effect of every wrapper on it; the class [Submits]
      is the interface of a wrapper.  [WorkerProps]: the effect of a worker pass.
      [Frame]: what none of them touches.
    - [Batch], [Init], [Session]: the rings of a set as queues ([set_ok]),
      proved against [Submits] only; set-up; whole sessions.
    - [Machine], [Boot]: several processes, each with its globals and its
      memory, on one module ([machine]); their calls and the passes of all
      workers interleave ([run_events]) and follow a family of queues
      ([queues]); the processes start in any order ([init_workers]).
    - [Scenario], [Witnesses], [Limits]: a concrete machine, the theorems at it,
      and the exact limits of the design.
    - [EchoServer], [EchoProps], [EchoDummy]: echo/epoll_echo_server.c from
      [main] on, as a client of either library.
    - [Uring], [UringInv], [UringProps], [UringRuns]:
      echo/io_uring_echo_server.c.  liburing is the class [liburing] with the
      laws [LiburingLaws], the kernel the class [uring_kernel] with the laws
      [UringLaws], both documented behaviour; server and kernel interleave at
      submissions, completions and handled completions ([ustep]).  What the server
      relies on beyond that is a condition on the execution, [reports_buffer].
    - [Bench], [BenchProps], [BenchRuns]: echo/rps.c, its options and message,
      and its threads interleaved at calls of the pthread library and at loads
      and stores of shared variables ([bstep]).

    ** What the theorems show

    - Several workers (C1): the whole system, started in any order and
      interleaved at calls and passes, refines one bounded queue per ring.
    - Protocol (C2, C4, C7, C18, C19, C39): calm executions of one ring, at single
      loads and stores, simulate a bounded FIFO queue whose contents are read from
      the ring ([queue]): the move of the tail puts the call the wrapper was asked
      for, an iteration of the worker takes and makes the call at the front
      ([action], [fifo_step]); the executed calls are a
      prefix of the submitted ones, each once with its own arguments; a worker
      that is awake drains the ring; [batch_start] wakes a sleeping one.  An
      execution is calm when the producer moves the tail only with room in the
      ring, and the worker does not read the tail between its two stores.  C25 and
      C39 say when the test of the code ensures that room.  C32,
      C33 and C34 are executions that show why these conditions are needed:
      overrun, torn tail, lost wake-up.
    - One worker end to end (C3, C5, C8, C11): [init_worker] leaves well-formed
      empty rings; any batch of calls of the wrappers with an instance of
      [Submits] that fits the rings, followed by the passes of the workers in any
      order, executes every request exactly once, per ring in program order,
      without fault or blocking.
    - Wrappers (C12, C13, C28, C35, C36, and the unnumbered theorems of
      [WrapperProps]): the request each submits, its result, and that copied
      payloads outlive the call; outside of a segment a wrapper is the libc
      function.
    - Module (C15, C21) and configuration (C16, C22 to C24): hooking and
      restoring, the parser (termination, round trip, errors), agreement of both
      sides.
    - Limits (C25, C31, and the unnumbered theorems of [Limits]): the full test,
      the two views of the tables, the header page, [batch_flush].
    - Epoll server (C9, C29, C30): one [send] per message, in rounds that fit the
      rings; without the library every client gets bytes of its own messages only;
      with it the deferred sends share one buffer.
    - io_uring server (C6, C10, C14, C20): as long as failed receives report their
      buffers, every message is answered in order with its own bytes, no buffer or
      connection has two owners, requests are well formed, and the handler does not
      fault with up to 1023 descriptors for connections.  C37 and C38 show what
      happens beyond these conditions.
    - Benchmark (C17, C26, C27, C40): the gate, the sum, the end of every execution
      with [MAX_THREAD] connections, and that there is no report with fewer.

    ** Bounds and fuel

    [worker_loop] takes the number of iterations as fuel; the theorems give it
    the number of pending entries or more and prove that it returns, and more
    fuel changes nothing.  [parse_config] runs [length file + 1] iterations,
    which C23 proves to be enough.  [print_int] prints ten digits, enough for an
    [int].  Sizes are bounded by [MAX_TABLE_ENTRY * MAX_TABLE_LEN <= SHRT_MAX]
    ([cfg_ok]), which the limits of esca.h imply.  In C1 the number of events is
    at most [INT_MAX], so that [batch_num] does not overflow.

    ** Not modelled

    The system calls the worker executes, the allocator, [get_user_pages],
    [kmap], thread creation and jiffies conversion are parameters ([env]), as
    are the kernel's CPU masks, liburing and io_uring; results of socket calls
    are inputs.  Memory ordering weaker than sequential consistency, messages
    printed, the lifetime of kernel threads after [do_exit], the unused macros
    of syscall.h, the patches of third-party servers and the scripts are left
    out.  A loop that waits for the other side is [Hang] in the sequential
    models and a waiting state in [Protocol].

    ** Planned extensions

    In this order: the ring protocol for several rings of one worker with the
    [wq] wake-ups of a finished set; release and acquire ordering of the entry
    status; the life of a worker thread from [create_io_thread] to its exit. *)
From stdpp Require Import base numbers list gmap.
From Stdlib Require Import ZArith Lia.

Declare Scope saio_scope.
Delimit Scope saio_scope with saio.
Global Open Scope Z_scope.

(** ** Machine integers

    A C integer of [w] bits is a [Z]; a store into a narrower object goes
    through one of these functions. *)

Definition wrap_u (w x : Z) : Z := x mod 2 ^ w.
Definition wrap_s (w x : Z) : Z := (x + 2 ^ (w - 1)) mod 2 ^ w - 2 ^ (w - 1).

Definition to_short (x : Z) : Z := wrap_s 16 x.
Definition to_int (x : Z) : Z := wrap_s 32 x.
Definition to_uint (x : Z) : Z := wrap_u 32 x.
Definition to_long (x : Z) : Z := wrap_s 64 x.
Definition to_ull (x : Z) : Z := wrap_u 64 x.

#[global] Arguments to_short : simpl never.
#[global] Arguments to_int : simpl never.
#[global] Arguments to_uint : simpl never.
#[global] Arguments to_long : simpl never.
#[global] Arguments to_ull : simpl never.

Definition SHRT_MAX : Z := 32767.
Definition INT_MAX : Z := 2147483647.
Definition INT_MIN : Z := -2147483648.

(** ** Outcomes of C code

    A piece of C code either returns, commits a fault (undefined behaviour or
    an access outside the object), or never leaves a waiting loop whose
    condition nothing else changes. *)

Inductive fault :=
| NullDeref
| OutOfBounds
| DivByZero
| SignedOverflow
| BufferOverflow
| Undefined
| WriteProtected.

Inductive outcome (A : Type) :=
| Ret (a : A)
| Fault (f : fault)
| Hang.
Arguments Ret {A} a.
Arguments Fault {A} f.
Arguments Hang {A}.

Definition M (S A : Type) : Type := S -> outcome (A * S).

Definition ret {S A} (a : A) : M S A := fun s => Ret (a, s).
Definition bind {S A B} (m : M S A) (k : A -> M S B) : M S B :=
  fun s => match m s with
           | Ret (a, s') => k a s'
           | Fault f => Fault f
           | Hang => Hang
           end.
Definition fail {S A} (f : fault) : M S A := fun _ => Fault f.
Definition hang {S A} : M S A := fun _ => Hang.
Definition gets {S A} (f : S -> A) : M S A := fun s => Ret (f s, s).
Definition modify {S} (f : S -> S) : M S unit := fun s => Ret (tt, f s).
Definition from_option_M {S A} (f : fault) (o : option A) : M S A :=
  match o with Some a => ret a | None => fail f end.

Notation "'let!' x := m 'in' k" := (bind m (fun x => k))
  (at level 10, x name, m at level 100, k at level 200,
   format "'[v' 'let!'  x  :=  m  'in' '/' k ']'") : saio_scope.
Notation "'do!' m 'in' k" := (bind m (fun _ => k))
  (at level 10, m at level 100, k at level 200,
   format "'[v' 'do!'  m  'in' '/' k ']'") : saio_scope.
Global Open Scope saio_scope.

(** [for (int i = lo; i < hi; i++) body(i)]: [n] iterations from [i]. *)
Fixpoint for_loop {S} (n : nat) (i : Z) (body : Z -> M S unit) : M S unit :=
  match n with
  | O => ret tt
  | Datatypes.S n' => do! body i in for_loop n' (i + 1) body
  end.
Definition for_range {S} (lo hi : Z) (body : Z -> M S unit) : M S unit :=
  for_loop (Z.to_nat (hi - lo)) lo body.

(** C's [/] and [%] truncate towards zero and fault on a zero divisor. *)
Definition c_div {S} (a b : Z) : M S Z :=
  if b =? 0 then fail DivByZero else ret (Z.quot a b).
Definition c_rem {S} (a b : Z) : M S Z :=
  if b =? 0 then fail DivByZero else ret (Z.rem a b).

(** A signed [int] result that does not fit is undefined behaviour. *)
Definition in_int (x : Z) : bool := (INT_MIN <=? x) && (x <=? INT_MAX).
Definition int_result {S} (x : Z) : M S Z :=
  if in_int x then ret x else fail SignedOverflow.

(** ** C arrays

    An array is a list; an index outside of it is a fault at the use. *)

Definition aget {A} (l : list A) (i : Z) : option A :=
  if i <? 0 then None else l !! Z.to_nat i.
Definition aset {A} (l : list A) (i : Z) (x : A) : option (list A) :=
  if (0 <=? i) && (i <? Z.of_nat (length l))
  then Some (<[Z.to_nat i := x]> l) else None.

(** ** Lemmas of the monad *)

Section monad_laws.
Context {S A B C : Type}.

Lemma bind_ret_l (a : A) (k : A -> M S B) s : bind (ret a) k s = k a s.
Proof. reflexivity. Qed.

Lemma bind_assoc (m : M S A) (k : A -> M S B) (l : B -> M S C) s :
  bind (bind m k) l s = bind m (fun a => bind (k a) l) s.
Proof. unfold bind. destruct (m s) as [[a s']|f|]; reflexivity. Qed.

Lemma bind_eq (m : M S A) (k : A -> M S B) s a s' :
  m s = Ret (a, s') -> bind m k s = k a s'.
Proof. unfold bind. by intros ->. Qed.

Lemma bind_fault (m : M S A) (k : A -> M S B) s f :
  m s = Fault f -> bind m k s = Fault f.
Proof. unfold bind. by intros ->. Qed.

Lemma bind_hang (m : M S A) (k : A -> M S B) s :
  m s = Hang -> bind m k s = Hang.
Proof. unfold bind. by intros ->. Qed.

Lemma bind_inv (m : M S A) (k : A -> M S B) s b s'' :
  bind m k s = Ret (b, s'') ->
  exists a s', m s = Ret (a, s') /\ k a s' = Ret (b, s'').
Proof. unfold bind. destruct (m s) as [[a s']|f|]; naive_solver. Qed.
End monad_laws.

(** A loop whose every iteration preserves an indexed invariant returns. *)
Lemma for_loop_inv {S} (I : Z -> S -> Prop) (body : Z -> M S unit) n i s :
  I i s ->
  (forall k s0, i <= k < i + Z.of_nat n -> I k s0 ->
     exists s1, body k s0 = Ret (tt, s1) /\ I (k + 1) s1) ->
  exists s', for_loop n i body s = Ret (tt, s') /\ I (i + Z.of_nat n) s'.
Proof.
  revert i s. induction n as [|n IH]; intros i s HI Hstep; simpl.
  - exists s. split; [reflexivity|]. by rewrite Z.add_0_r.
  - destruct (Hstep i s) as (s1 & Hb & HI1); [lia|done|].
    rewrite (bind_eq _ _ _ _ _ Hb).
    destruct (IH (i + 1) s1 HI1) as (s' & Hl & HI').
    { intros k s0 Hk. apply Hstep. lia. }
    exists s'. split; [done|].
    by replace (i + Z.of_nat (Datatypes.S n)) with (i + 1 + Z.of_nat n) by lia.
Qed.

Lemma for_range_inv {S} (I : Z -> S -> Prop) (body : Z -> M S unit) lo hi s :
  lo <= hi -> I lo s ->
  (forall k s0, lo <= k < hi -> I k s0 ->
     exists s1, body k s0 = Ret (tt, s1) /\ I (k + 1) s1) ->
  exists s', for_range lo hi body s = Ret (tt, s') /\ I hi s'.
Proof.
  intros Hle HI Hstep. unfold for_range.
  destruct (for_loop_inv I body (Z.to_nat (hi - lo)) lo s HI) as (s' & H & HI').
  - intros k s0 Hk. apply Hstep. lia.
  - exists s'. split; [done|]. by replace hi with (lo + Z.of_nat (Z.to_nat (hi - lo))) by lia.
Qed.

(** ** Lemmas of the integers *)

Lemma wrap_s_id w x : 0 < w -> - 2 ^ (w - 1) <= x < 2 ^ (w - 1) -> wrap_s w x = x.
Proof.
  intros Hw Hx. unfold wrap_s.
  assert (2 ^ w = 2 * 2 ^ (w - 1)) as E.
  { rewrite <- Z.pow_succ_r by lia. f_equal. lia. }
  rewrite Z.mod_small; lia.
Qed.

Lemma to_short_id x : - 32768 <= x <= SHRT_MAX -> to_short x = x.
Proof. intros H. apply wrap_s_id; unfold SHRT_MAX in H; simpl; lia. Qed.

Lemma to_int_id x : INT_MIN <= x <= INT_MAX -> to_int x = x.
Proof. intros H. apply wrap_s_id; unfold INT_MIN, INT_MAX in H; simpl; lia. Qed.

Lemma to_uint_id x : 0 <= x < 2 ^ 32 -> to_uint x = x.
Proof. apply Z.mod_small. Qed.

Lemma to_ull_id x : 0 <= x < 2 ^ 64 -> to_ull x = x.
Proof. apply Z.mod_small. Qed.

Lemma to_long_id x : - 2 ^ 63 <= x < 2 ^ 63 -> to_long x = x.
Proof. intros H. apply wrap_s_id; simpl in *; lia. Qed.

Lemma in_int_spec x : in_int x = true <-> INT_MIN <= x <= INT_MAX.
Proof. unfold in_int. rewrite andb_true_iff, !Z.leb_le. lia. Qed.

(** Numbers of one window of length [n] are told apart by their residues. *)
Lemma mod_eq_window n h k k' :
  h <= k < h + n -> h <= k' < h + n -> k mod n = k' mod n -> k = k'.
Proof.
  intros Hk Hk' E.
  pose proof (Z.div_mod k n) as Dk. pose proof (Z.div_mod k' n) as Dk'.
  assert (k - k' = n * (k / n - k' / n)) as D by lia.
  assert (k / n - k' / n = 0) by nia. nia.
Qed.

(** ** Lemmas of arrays *)

Section arrays.
Context {A : Type}.
Implicit Types (l : list A) (x : A).

Lemma aget_Some l i x :
  aget l i = Some x -> 0 <= i < Z.of_nat (length l).
Proof.
  unfold aget. destruct (Z.ltb_spec i 0); [done|].
  intros H1%lookup_lt_Some. lia.
Qed.

Lemma aget_in_range l i :
  0 <= i < Z.of_nat (length l) -> exists x, aget l i = Some x.
Proof.
  intros H. unfold aget. destruct (Z.ltb_spec i 0); [lia|].
  apply lookup_lt_is_Some_2. lia.
Qed.

Lemma aset_in_range l i x :
  0 <= i < Z.of_nat (length l) -> aset l i x = Some (<[Z.to_nat i := x]> l).
Proof.
  intros H. unfold aset.
  destruct (Z.leb_spec 0 i), (Z.ltb_spec i (Z.of_nat (length l))); simpl; done || lia.
Qed.

Lemma aset_Some l i x l' :
  aset l i x = Some l' ->
  0 <= i < Z.of_nat (length l) /\ l' = <[Z.to_nat i := x]> l.
Proof.
  unfold aset. destruct (Z.leb_spec 0 i), (Z.ltb_spec i (Z.of_nat (length l)));
    simpl; naive_solver lia.
Qed.

Lemma aset_length l i x l' : aset l i x = Some l' -> length l' = length l.
Proof. intros [_ ->]%aset_Some. apply length_insert. Qed.

Lemma aget_aset_eq l i x l' : aset l i x = Some l' -> aget l' i = Some x.
Proof.
  intros [Hi ->]%aset_Some. unfold aget. destruct (Z.ltb_spec i 0); [lia|].
  apply list_lookup_insert_eq. lia.
Qed.

Lemma aget_aset_ne l i k x l' :
  aset l i x = Some l' -> i <> k -> aget l' k = aget l k.
Proof.
  intros [Hi ->]%aset_Some Hne. unfold aget. destruct (Z.ltb_spec k 0); [done|].
  apply list_lookup_insert_ne. lia.
Qed.

Lemma aset_out_of_range l i x :
  ~ (0 <= i < Z.of_nat (length l)) -> aset l i x = None.
Proof.
  intros H. unfold aset.
  destruct (Z.leb_spec 0 i), (Z.ltb_spec i (Z.of_nat (length l))); simpl; done || lia.
Qed.

Lemma aget_out_of_range l i :
  ~ (0 <= i < Z.of_nat (length l)) -> aget l i = None.
Proof.
  intros H. unfold aget. destruct (Z.ltb_spec i 0); [done|].
  apply lookup_ge_None. lia.
Qed.
End arrays.

(** ** Lemmas of lists *)
Lemma forallb_seq_shift (f f' : nat -> bool) n k :
  (forall i, f (S i) = f' i) -> forallb f (seq (S k) n) = forallb f' (seq k n).
Proof.
  intros H. revert k. induction n as [|n IH]; intros k; simpl; [done|]. by rewrite H, IH.
Qed.

(** ** Automation *)

Create HintDb saio.
#[export] Hint Resolve to_short_id to_int_id to_uint_id to_ull_id : saio.

(** Opens conjunctions and existentials of the context. *)
Ltac destr :=
  repeat match goal with
         | H : exists _, _ |- _ => destruct H
         | H : _ /\ _ |- _ => destruct H
         end.

(** One monadic step whose value is known from an equation of the context. *)
Ltac mrun H := rewrite (bind_eq _ _ _ _ _ H).

(** Splits the boolean comparisons of the goal into arithmetic facts. *)
Ltac case_cmp :=
  repeat match goal with
         | |- context [Z.eqb ?a ?b] => destruct (Z.eqb_spec a b)
         | |- context [Z.ltb ?a ?b] => destruct (Z.ltb_spec a b)
         | |- context [Z.leb ?a ?b] => destruct (Z.leb_spec a b)
         end.

(** lia with division and modulo. *)
Ltac zlia := Z.div_mod_to_equations; nia.

(** A list is a permutation of its parts by the values of a function. *)
Lemma filter_partition {A B} `{EqDecision B} (f : A -> B) (l : list A) (ks : list B) :
  NoDup ks -> Forall (fun x => f x ∈ ks) l ->
  concat (map (fun k => filter (fun x => f x = k) l) ks) ≡ₚ l.
Proof.
  intros Hnd. revert l. induction Hnd as [|k ks Hk Hnd IH]; intros l Hl; simpl.
  - destruct l; [done|]. apply Forall_cons in Hl as [Hl _]. set_solver.
  - set (l' := filter (fun x => f x <> k) l).
    assert (map (fun k => filter (fun x => f x = k) l) ks
            = map (fun k => filter (fun x => f x = k) l') ks) as ->.
    { apply map_ext_in. intros k' Hk'%list_elem_of_In. unfold l'. rewrite list_filter_filter.
      apply list_filter_iff. intros x. split; [|by intros []]. intros <-. split; [done|]. set_solver. }
    rewrite (IH l').
    + apply filter_app_complement.
    + apply Forall_forall. intros x Hx. unfold l' in Hx. apply list_elem_of_filter in Hx as [Hne Hx].
      rewrite Forall_forall in Hl. specialize (Hl x Hx). set_solver.
Qed.
