(* ===== verification/Esca.v ===== *)
(** * Data shared by the kernel module and the preload library

    The constants and structures of [module/include/esca.h],
    [module/syscall.h] and the two system call tables
    [module/include/{x86,aarch64}_syscall.h].  A [struct] is a record, an
    array a list, a C integer a [Z].

    Pointers are modelled by what they designate: a [hptr] is a header inside
    one of the pages that hold headers, a [uptr] an entry of an entry region
    as user space addresses it, a [kptr] a page of an entry region as the
    kernel maps it. *)
From stdpp Require Import base numbers list gmap.
From S2P Require Import Prelude.

(** ** Limits *)
Definition CONFIG_ARG_MAX_BYTES : Z := 128.
Definition CPU_NUM_LIMIT : Z := 100.
Definition TABLE_LEN_LIMIT : Z := 30.
Definition TABLE_ENT_LIMIT : Z := 64.

(** ** Configuration *)
Record esca_config_t := EscaConfig {
  esca_localize : Z;
  max_table_entry : Z;
  max_table_len : Z;
  max_usr_worker : Z;
  max_ker_worker : Z;
  default_idle_time : Z;
  affinity_offset : Z;
}.

Definition default_config : esca_config_t := {|
  esca_localize := 1;
  max_table_entry := 64;
  max_table_len := 1;
  max_usr_worker := 1;
  max_ker_worker := 1;
  default_idle_time := 150;
  affinity_offset := 0;
|}.

(** ** Flags of a header *)
Definition ESCA_WORKER_NEED_WAKEUP : Z := Z.shiftl 1 1.
Definition ESCA_START_WAKEUP : Z := Z.shiftl 1 2.

(** ** Status of an entry *)
Definition BENTRY_EMPTY : Z := 0.
Definition BENTRY_BUSY : Z := 1.

(** ** System call numbers *)
Definition __NR_esca_register : Z := 400.
Definition __NR_esca_wakeup : Z := 401.
Definition __NR_esca_wait : Z := 402.
Definition __NR_esca_config : Z := 403.

Inductive arch := X86_64 | AArch64.

Record syscall_numbers := SyscallNumbers {
  __ESCA_sendfile : Z;
  __ESCA_shutdown : Z;
  __ESCA_close : Z;
  __ESCA_write : Z;
  __ESCA_sendto : Z;
  __ESCA_sendmsg : Z;
}.

Definition x86_syscall : syscall_numbers := {|
  __ESCA_sendfile := 40; __ESCA_shutdown := 48; __ESCA_close := 3;
  __ESCA_write := 1; __ESCA_sendto := 44; __ESCA_sendmsg := 46 |}.

Definition aarch64_syscall : syscall_numbers := {|
  __ESCA_sendfile := 71; __ESCA_shutdown := 210; __ESCA_close := 57;
  __ESCA_write := 64; __ESCA_sendto := 206; __ESCA_sendmsg := 211 |}.

(** The selection made at the top of [preload.c]. *)
Definition syscalls_of (a : arch) : syscall_numbers :=
  match a with X86_64 => x86_syscall | AArch64 => aarch64_syscall end.

(** ** Entries and headers *)
Record esca_table_entry_t := Entry {
  pid : Z;      (* unsigned *)
  nargs : Z;    (* short *)
  rstatus : Z;  (* short *)
  sysnum : Z;   (* unsigned *)
  sysret : Z;   (* unsigned *)
  args : list Z (* long[6] *)
}.

(** [sizeof(esca_table_entry_t)]: 4 + 2 + 2 + 4 + 4 + 6 * 8, no padding. *)
Definition sizeof_entry : Z := 64.

Record uptr := UPtr { u_region : Z; u_slot : Z }.
Record kptr := KPtr { k_region : Z; k_page : Z }.
Record hptr := HPtr { h_page : Z; h_off : Z }.

Record esca_table_t := Table {
  tables : list (option kptr);
  user_tables : list (option uptr);
  head_table : Z; (* short *)
  tail_table : Z; (* short *)
  head_entry : Z; (* short *)
  tail_entry : Z; (* short *)
  idle_time : Z;  (* unsigned *)
  flags : Z       (* unsigned int *)
}.

(** [sizeof(esca_table_t)]: 2 * 30 * 8 + 4 * 2 + 4 + 4. *)
Definition sizeof_table : Z := 496.

(** ** Field stores *)
Definition set_sysnum (v : Z) (e : esca_table_entry_t) : esca_table_entry_t :=
  Entry (pid e) (nargs e) (rstatus e) (to_uint v) (sysret e) (args e).
Definition set_nargs (v : Z) (e : esca_table_entry_t) : esca_table_entry_t :=
  Entry (pid e) (to_short v) (rstatus e) (sysnum e) (sysret e) (args e).
Definition set_rstatus (v : Z) (e : esca_table_entry_t) : esca_table_entry_t :=
  Entry (pid e) (nargs e) (to_short v) (sysnum e) (sysret e) (args e).
Definition set_sysret (v : Z) (e : esca_table_entry_t) : esca_table_entry_t :=
  Entry (pid e) (nargs e) (rstatus e) (sysnum e) (to_uint v) (args e).
Definition set_arg (k : nat) (v : Z) (e : esca_table_entry_t) : esca_table_entry_t :=
  Entry (pid e) (nargs e) (rstatus e) (sysnum e) (sysret e) (<[k := to_long v]> (args e)).

Definition set_tables (v : list (option kptr)) (h : esca_table_t) : esca_table_t :=
  Table v (user_tables h) (head_table h) (tail_table h) (head_entry h) (tail_entry h)
        (idle_time h) (flags h).
Definition set_user_tables (v : list (option uptr)) (h : esca_table_t) : esca_table_t :=
  Table (tables h) v (head_table h) (tail_table h) (head_entry h) (tail_entry h)
        (idle_time h) (flags h).
Definition set_head_table (v : Z) (h : esca_table_t) : esca_table_t :=
  Table (tables h) (user_tables h) (to_short v) (tail_table h) (head_entry h) (tail_entry h)
        (idle_time h) (flags h).
Definition set_tail_table (v : Z) (h : esca_table_t) : esca_table_t :=
  Table (tables h) (user_tables h) (head_table h) (to_short v) (head_entry h) (tail_entry h)
        (idle_time h) (flags h).
Definition set_head_entry (v : Z) (h : esca_table_t) : esca_table_t :=
  Table (tables h) (user_tables h) (head_table h) (tail_table h) (to_short v) (tail_entry h)
        (idle_time h) (flags h).
Definition set_tail_entry (v : Z) (h : esca_table_t) : esca_table_t :=
  Table (tables h) (user_tables h) (head_table h) (tail_table h) (head_entry h) (to_short v)
        (idle_time h) (flags h).
Definition set_idle_time (v : Z) (h : esca_table_t) : esca_table_t :=
  Table (tables h) (user_tables h) (head_table h) (tail_table h) (head_entry h) (tail_entry h)
        (to_uint v) (flags h).
Definition set_flags (v : Z) (h : esca_table_t) : esca_table_t :=
  Table (tables h) (user_tables h) (head_table h) (tail_table h) (head_entry h) (tail_entry h)
        (idle_time h) (to_uint v).

(** ** The configuration variables

    Both [preload.c] and [lioo.c] keep the configuration in the same eight
    globals; [RATIO] is derived. *)
Record globals := Globals {
  ESCA_LOCALIZE : Z;
  MAX_TABLE_ENTRY : Z;
  MAX_TABLE_LEN : Z;
  MAX_USR_WORKER : Z;
  MAX_CPU_NUM : Z;
  RATIO : Z;
  DEFAULT_IDLE_TIME : Z;
  AFF_OFF : Z
}.

#[global] Instance entry_eq_dec : EqDecision esca_table_entry_t.
Proof. solve_decision. Defined.
#[global] Instance uptr_eq_dec : EqDecision uptr.
Proof. solve_decision. Defined.
#[global] Instance kptr_eq_dec : EqDecision kptr.
Proof. solve_decision. Defined.
#[global] Instance hptr_eq_dec : EqDecision hptr.
Proof. solve_decision. Defined.
#[global] Instance table_eq_dec : EqDecision esca_table_t.
Proof. solve_decision. Defined.
#[global] Instance config_eq_dec : EqDecision esca_config_t.
Proof. solve_decision. Defined.
#[global] Instance globals_eq_dec : EqDecision globals.
Proof. solve_decision. Defined.
