(* ===== verification/Ring.v ===== *)
(** * The index arithmetic of a ring of entries

    A kernel worker and its user worker share [MAX_TABLE_LEN] tables of
    [MAX_TABLE_ENTRY] entries, used as one ring.  A position is a pair (table,
    entry).  The producer moves the tail in [update_index] (preload.c); the
    consumer moves the head in [worker] (lioo.c) with differently written
    code.  This file holds both routines and relates them to arithmetic
    modulo the number of entries. *)
From stdpp Require Import base numbers list.
From S2P Require Import Prelude Esca.

Section ring.
Context (MTE MTL : Z). (* MAX_TABLE_ENTRY and MAX_TABLE_LEN *)

(** The condition of the waiting loop of [update_index]. *)
Definition update_index_full (head_table head_entry tail_table tail_entry : Z) : bool :=
  (tail_entry + 1 =? head_entry) && (tail_table =? head_table).

(** The two assignments of [update_index] after the loop. *)
Definition update_index_next (tail_table tail_entry : Z) : Z * Z :=
  if tail_entry =? MTE - 1
  then (to_short (if tail_table =? MTL - 1 then 0 else tail_table + 1), 0)
  else (tail_table, to_short (tail_entry + 1)).

(** The step of the worker's [i] and [j], two [int]s. *)
Definition worker_next (i j : Z) : Z * Z :=
  if j =? MTE - 1
  then ((if i =? MTL - 1 then 0 else i + 1), 0)
  else (i, j + 1).

(** [submitted[cur_cpuid]], a [short], from the head and the tail. *)
Definition submitted_count (i j tail_table tail_entry : Z) : Z :=
  let head_index := i * MTE + j in
  let tail_index := tail_table * MTE + tail_entry in
  to_short (if tail_index >=? head_index
            then tail_index - head_index
            else MTE * MTL - head_index + tail_index).

(** ** Specification: positions as numbers modulo the ring size *)
Definition ring_size : Z := MTE * MTL.
Definition lin (p : Z * Z) : Z := p.1 * MTE + p.2.
Definition pos (k : Z) : Z * Z := ((k `mod` ring_size) `div` MTE, (k `mod` ring_size) `mod` MTE).
Definition in_ring (p : Z * Z) : Prop := 0 <= p.1 < MTL /\ 0 <= p.2 < MTE.
Definition dist (h t : Z * Z) : Z := (lin t - lin h) `mod` ring_size.

#[global] Instance in_ring_dec p : Decision (in_ring p).
Proof. unfold in_ring. apply _. Defined.

Context (HE : 0 < MTE) (HL : 0 < MTL) (HS : MTE * MTL <= SHRT_MAX).

Lemma ring_size_pos : 0 < ring_size.
Proof. unfold ring_size. nia. Qed.

Lemma MTE_short : MTE <= SHRT_MAX.
Proof. nia. Qed.

Lemma MTL_short : MTL <= SHRT_MAX.
Proof. nia. Qed.

Lemma lin_range p : in_ring p -> 0 <= lin p < ring_size.
Proof. destruct p as [i j]. unfold in_ring, lin, ring_size; simpl. nia. Qed.

Lemma lin_inj p q : in_ring p -> in_ring q -> lin p = lin q -> p = q.
Proof.
  destruct p as [i j], q as [i' j']. unfold in_ring, lin; simpl. intros Hp Hq E.
  assert (i = i') by nia. subst. f_equal. lia.
Qed.

Lemma pos_in_ring k : in_ring (pos k).
Proof.
  unfold in_ring, pos; simpl. pose proof ring_size_pos as HN.
  pose proof (Z.mod_pos_bound k ring_size HN) as Hk.
  split; [|apply Z.mod_pos_bound; lia].
  split; [apply Z.div_pos; lia|].
  apply Z.div_lt_upper_bound; [lia|]. unfold ring_size in *. lia.
Qed.

Lemma lin_pos k : lin (pos k) = k `mod` ring_size.
Proof.
  unfold lin, pos; simpl. rewrite (Z.div_mod (k `mod` ring_size) MTE) at 3 by lia. lia.
Qed.

Lemma pos_lin p : in_ring p -> pos (lin p) = p.
Proof.
  intros Hp. apply lin_inj; [apply pos_in_ring|done|].
  rewrite lin_pos. apply Z.mod_small. by apply lin_range.
Qed.

Lemma pos_eq_lin k p : in_ring p -> lin p = k `mod` ring_size -> p = pos k.
Proof. intros Hp E. apply lin_inj; [done|apply pos_in_ring|]. by rewrite lin_pos. Qed.

(** Two positions less than a ring apart coincide only if they are equal. *)
Lemma pos_inj_window k k' h :
  h <= k < h + ring_size -> h <= k' < h + ring_size -> pos k = pos k' -> k = k'.
Proof.
  intros Hk Hk' E. apply (f_equal lin) in E. rewrite !lin_pos in E.
  by apply (mod_eq_window ring_size h).
Qed.

(** ** The two ways of stepping a position agree *)
Lemma worker_next_in_ring i j : in_ring (i, j) -> in_ring (worker_next i j).
Proof. unfold in_ring, worker_next; simpl. intros. case_cmp; simpl; lia. Qed.

Lemma worker_next_lin i j :
  in_ring (i, j) -> lin (worker_next i j) = (lin (i, j) + 1) `mod` ring_size.
Proof.
  unfold in_ring, worker_next, lin; simpl. intros H. pose proof ring_size_pos.
  destruct (Z.eqb_spec j (MTE - 1)), (Z.eqb_spec i (MTL - 1)); simpl; subst.
  - replace ((MTL - 1) * MTE + (MTE - 1) + 1) with ring_size by (unfold ring_size; lia).
    rewrite Z.mod_same; lia.
  - rewrite Z.mod_small; unfold ring_size in *; nia.
  - rewrite Z.mod_small; unfold ring_size in *; nia.
  - rewrite Z.mod_small; unfold ring_size in *; nia.
Qed.

Lemma update_index_next_worker tt te :
  in_ring (tt, te) -> update_index_next tt te = worker_next tt te.
Proof.
  unfold in_ring, update_index_next, worker_next; simpl. intros H.
  pose proof MTE_short. pose proof MTL_short. unfold SHRT_MAX in *.
  case_cmp; rewrite ?to_short_id by (unfold SHRT_MAX; lia); reflexivity.
Qed.

Lemma worker_next_pos k : worker_next (pos k).1 (pos k).2 = pos (k + 1).
Proof.
  pose proof (pos_in_ring k) as Hk. pose proof ring_size_pos.
  destruct (pos k) as [i j] eqn:E; simpl.
  apply pos_eq_lin; [by apply worker_next_in_ring|].
  rewrite worker_next_lin by done. rewrite <- E, lin_pos.
  by rewrite Zplus_mod_idemp_l.
Qed.

Lemma update_index_next_pos k :
  update_index_next (pos k).1 (pos k).2 = pos (k + 1).
Proof.
  rewrite <- worker_next_pos. pose proof (pos_in_ring k) as Hk.
  destruct (pos k). by apply update_index_next_worker.
Qed.

(** ** The number of submitted entries *)
Lemma dist_range h t : 0 <= dist h t < ring_size.
Proof. apply Z.mod_pos_bound, ring_size_pos. Qed.

Lemma submitted_count_dist i j tt te :
  in_ring (i, j) -> in_ring (tt, te) ->
  submitted_count i j tt te = dist (i, j) (tt, te).
Proof.
  intros Hh Ht. pose proof (lin_range _ Hh) as Rh. pose proof (lin_range _ Ht) as Rt.
  unfold submitted_count, dist. unfold lin in *; simpl in *.
  pose proof ring_size_pos as HN. unfold ring_size in *.
  rewrite Z.geb_leb. destruct (Z.leb_spec (i * MTE + j) (tt * MTE + te)).
  - rewrite Z.mod_small by lia. apply to_short_id. unfold SHRT_MAX in *. lia.
  - rewrite to_short_id by (unfold SHRT_MAX in *; lia).
    rewrite <- (Z.mod_small (MTE * MTL - (i * MTE + j) + (tt * MTE + te)) (MTE * MTL)) by lia.
    replace (MTE * MTL - (i * MTE + j) + (tt * MTE + te))
      with (tt * MTE + te - (i * MTE + j) + 1 * (MTE * MTL)) by lia.
    apply Z_mod_plus_full.
Qed.

Lemma dist_pos h k n :
  0 <= n < ring_size -> k = h + n -> dist (pos h) (pos k) = n.
Proof.
  intros Hn ->. unfold dist. rewrite !lin_pos. pose proof ring_size_pos.
  rewrite <- Zminus_mod. replace (h + n - h) with n by lia. by apply Z.mod_small.
Qed.

(** ** The full test of [update_index] *)
Lemma update_index_full_spec ht he tt te :
  in_ring (ht, he) -> in_ring (tt, te) ->
  update_index_full ht he tt te = true <->
  (he <> 0 /\ dist (ht, he) (tt, te) = ring_size - 1).
Proof.
  intros Hh Ht. unfold update_index_full. rewrite andb_true_iff, !Z.eqb_eq.
  pose proof (lin_range _ Hh) as Rh. pose proof (lin_range _ Ht) as Rt.
  pose proof ring_size_pos as HN. unfold dist.
  unfold in_ring, lin in *; simpl in *. split.
  - intros [E ->]. split; [lia|].
    replace (ht * MTE + te - (ht * MTE + he)) with (-1) by lia.
    rewrite <- (Z_mod_plus_full _ 1), Z.mod_small; lia.
  - intros [Hne E].
    assert (te + 1 + tt * MTE = he + ht * MTE \/
            te + 1 + tt * MTE = he + ht * MTE + ring_size) as [E'|E'].
    { destruct (Z.le_gt_cases (ht * MTE + he) (tt * MTE + te)).
      - rewrite Z.mod_small in E by lia. lia.
      - rewrite <- (Z_mod_plus_full _ 1), Z.mod_small in E; lia. }
    + assert (tt = ht) by nia. lia.
    + unfold ring_size in *.
      assert (tt = MTL - 1) by nia. subst. assert (ht = 0) by nia. nia.
Qed.
End ring.

#[global] Arguments pos : simpl never.
#[global] Arguments lin : simpl never.
#[global] Arguments in_ring : simpl never.
#[global] Arguments dist : simpl never.
#[global] Arguments ring_size : simpl never.
#[global] Arguments submitted_count : simpl never.
#[global] Arguments worker_next : simpl never.
#[global] Arguments update_index_next : simpl never.
#[global] Arguments update_index_full : simpl never.
