(* ===== verification/IndirectCall.v ===== *)
(** * [indirect_call]: from an entry to the registers of a system call

    [indirect_call] (lioo.c) clears a [struct pt_regs] and fills the argument
    registers through a [switch] whose cases fall through, then calls the
    handler with the address of the registers.  Handlers read their arguments
    back from the registers, as the module's own [sys_esca_*] handlers do. *)
From stdpp Require Import base numbers list.
From S2P Require Import Prelude Esca.

(** The argument registers of both architectures. *)
Record pt_regs := PtRegs {
  di : Z; si : Z; dx : Z; r10 : Z; r8 : Z; r9 : Z; (* x86-64 *)
  xregs : list Z                                   (* aarch64: regs[31] *)
}.

#[global] Instance pt_regs_eq_dec : EqDecision pt_regs.
Proof. solve_decision. Defined.

(** [memset(&regs, 0, sizeof regs)] *)
Definition zero_regs : pt_regs := PtRegs 0 0 0 0 0 0 (replicate 31 0).

(** Whether the assignment under [case label] runs: the switch enters at
    [case argc] and falls through down to [case 1]; no case matches another
    [argc]. *)
Definition case_runs (label argc : Z) : bool :=
  (1 <=? argc) && (argc <=? 6) && (label <=? argc).

Definition arg (a : list Z) (k : nat) : Z := nth k a 0.

Definition indirect_call (m : arch) (argc : Z) (a : list Z) : pt_regs :=
  let pick label k := if case_runs label argc then arg a k else 0 in
  match m with
  | X86_64 =>
      PtRegs (pick 1 0%nat) (pick 2 1%nat) (pick 3 2%nat)
             (pick 4 3%nat) (pick 5 4%nat) (pick 6 5%nat) (replicate 31 0)
  | AArch64 =>
      PtRegs 0 0 0 0 0 0
        ([pick 1 0%nat; pick 2 1%nat; pick 3 2%nat;
          pick 4 3%nat; pick 5 4%nat; pick 6 5%nat] ++ replicate 25 0)
  end.

(** The six argument registers in the order in which a handler reads them:
    [regs->di], [regs->si], ... or [regs->regs[0]], [regs->regs[1]], ... *)
Definition regs_args (m : arch) (r : pt_regs) : list Z :=
  match m with
  | X86_64 => [di r; si r; dx r; r10 r; r8 r; r9 r]
  | AArch64 => take 6 (xregs r)
  end.

(** What the worker executes for an entry. *)
Definition call : Type := Z * pt_regs.
Definition entry_call (m : arch) (e : esca_table_entry_t) : call :=
  (sysnum e, indirect_call m (nargs e) (args e)).

(** The registers depend on the first [argc] words of the array only. *)
Lemma indirect_call_prefix m n a a' :
  take n a = take n a' ->
  indirect_call m (Z.of_nat n) a = indirect_call m (Z.of_nat n) a'.
Proof.
  intros E. assert (forall k, (k < n)%nat -> arg a k = arg a' k) as Hk.
  { intros k Hk. unfold arg. rewrite !nth_lookup. f_equal.
    rewrite <- (lookup_take_lt a n k Hk), E. by apply lookup_take_lt. }
  unfold indirect_call, case_runs.
  destruct m; do 2 f_equal;
    repeat match goal with
           | |- context [Z.leb ?x ?y] => destruct (Z.leb_spec x y); simpl
           end; try reflexivity; rewrite ?Hk by lia; reflexivity.
Qed.

(** The handler receives the first [argc] words, and zeros after them. *)
Lemma regs_args_indirect_call m n a :
  (n <= 6)%nat -> (n <= length a)%nat ->
  regs_args m (indirect_call m (Z.of_nat n) a) = take n a ++ replicate (6 - n) 0.
Proof.
  intros Hn Ha.
  do 7 (destruct n as [|n];
        [repeat (destruct a as [|? a]; [simpl in Ha; lia|]); by destruct m
        |try lia]).
Qed.

Lemma regs_args_bad_argc m argc a :
  ~ (1 <= argc <= 6) -> regs_args m (indirect_call m argc a) = replicate 6 0.
Proof.
  intros H. unfold indirect_call, case_runs.
  destruct m; simpl; case_cmp; simpl; try lia; reflexivity.
Qed.

#[global] Arguments indirect_call : simpl never.
#[global] Arguments entry_call : simpl never.
