(* ===== verification/Request.v ===== *)
(** * Requests: what a wrapper records in an entry

    Every wrapper fills an entry with the same assignments: the number of the
    system call, the number of arguments, the arguments.  This file gives the
    stores, the call a request stands for, and that the stores leave an entry
    that stands for that call. *)
From stdpp Require Import base numbers list.
From S2P Require Import Prelude Esca IndirectCall.

(** The system call a wrapper records: its number and its arguments. *)
Record request := Request { rq_num : Z; rq_args : list Z }.

Inductive store :=
| StSysnum (v : Z)
| StNargs (v : Z)
| StArg (k : nat) (v : Z).

Definition do_store (s : store) (e : esca_table_entry_t) : esca_table_entry_t :=
  match s with
  | StSysnum v => set_sysnum v e
  | StNargs v => set_nargs v e
  | StArg k v => set_arg k v e
  end.

(** The assignments of a wrapper, in program order. *)
Definition request_stores (r : request) : list store :=
  StSysnum (rq_num r) :: StNargs (Z.of_nat (length (rq_args r)))
    :: imap StArg (rq_args r).

(** The call a request stands for. *)
Definition request_call (m : arch) (r : request) : call :=
  (to_uint (rq_num r),
   indirect_call m (Z.of_nat (length (rq_args r))) (map to_long (rq_args r))).

Lemma do_store_args st e : length (args (do_store st e)) = length (args e).
Proof. destruct st; simpl; [done..|apply length_insert]. Qed.

Lemma do_store_rstatus st e : rstatus (do_store st e) = rstatus e.
Proof. by destruct st. Qed.

(** The argument stores write the words of the list from index [n] on. *)
Lemma fill_args l n e :
  (n + length l <= length (args e))%nat ->
  let e' := foldl (flip do_store) e (imap (fun k => StArg (n + k)) l) in
  sysnum e' = sysnum e /\ nargs e' = nargs e /\
  args e' = take n (args e) ++ map to_long l ++ drop (n + length l) (args e).
Proof.
  revert n e. induction l as [|x l IH]; intros n e Hn; simpl in *.
  - rewrite Nat.add_0_r, take_drop. done.
  - rewrite Nat.add_0_r.
    replace (imap _ l) with (imap (fun k => StArg (S n + k)) l)
      by (apply imap_ext; intros; simpl; f_equal; lia).
    destruct (IH (S n) (set_arg n x e)) as (H1 & H2 & H3).
    { simpl. rewrite length_insert. lia. }
    simpl in *. rewrite H1, H2, H3. split_and!; [done..|].
    rewrite (take_S_r _ _ (to_long x)) by (apply list_lookup_insert_eq; lia).
    rewrite take_insert_ge, drop_insert_lt by lia.
    rewrite <- app_assoc. simpl. do 3 f_equal. f_equal. lia.
Qed.

Lemma fill_request m r e :
  (length (rq_args r) <= 6)%nat -> length (args e) = 6%nat ->
  entry_call m (foldl (flip do_store) e (request_stores r)) = request_call m r.
Proof.
  intros Hr He. unfold request_stores, entry_call, request_call.
  pose proof (fill_args (rq_args r) 0
    (set_nargs (Z.of_nat (length (rq_args r))) (set_sysnum (rq_num r) e))) as H.
  change (fun k => StArg (0 + k)) with StArg in H. cbn [foldl flip do_store].
  destruct H as (H1 & H2 & H3); [simpl; lia|].
  rewrite H1, H2, H3. cbn [sysnum nargs args set_nargs set_sysnum]. f_equal.
  rewrite to_short_id by (unfold SHRT_MAX; lia).
  apply indirect_call_prefix. rewrite take_0, app_nil_l.
  rewrite take_app_le by (rewrite length_map; lia). done.
Qed.
