(* ===== verification/Protocol.v ===== *)
(** * The ring protocol between a user worker and a kernel worker

    One ring, one producer and one consumer, interleaved at the granularity of
    single loads and stores of the shared header and of the shared entries
    (sequentially consistent memory).  The user thread runs the body of a
    wrapper (fill the entry at the tail, [update_index], release the entry) and
    the part of [batch_start] that concerns this ring, together with
    [sys_esca_wakeup]; the kernel thread runs [worker] (lioo.c) entirely: the
    polling loop with its sleep, the snapshot of the tail, the execution of the
    submitted entries and the publication of the head.

    A thread's reads of what only it writes are not steps of their own; the
    worker reads an entry and makes its call in one step.  The scan of
    [submitted] over the set and the wake-up of [wq] do not touch the ring and
    are in [Kernel].

    Time, signals and the requests of the application are nondeterministic:
    an [event] chooses what happens next, [step] is a partial function, [None]
    meaning that the event is not enabled. *)
From stdpp Require Import base numbers list gmap.
From S2P Require Import Prelude Esca Ring IndirectCall Request.

(** ** The threads *)
Inductive upc :=
| UIdle
(* batch_start, for the header of this ring *)
| UReadFlags                      (* if (READ_ONCE(flags) & NEED_WAKEUP) *)
| UOrLoad | UOrStore (f : Z)      (* flags |= START_WAKEUP *)
| UWakeup                         (* syscall(__NR_esca_wakeup, j) *)
| UAndLoad | UAndStore (f : Z)    (* flags &= ~START_WAKEUP *)
(* a wrapper *)
| UFill (p : Z * Z) (l : list store) (r : request)
| UCheckEntry (p : Z * Z) (r : request) (* tail_entry + 1 == head_entry *)
| UCheckTable (p : Z * Z) (r : request) (* tail_table == head_table *)
| UAdvance (p : Z * Z) (r : request)    (* the store to tail_entry *)
| UAdvanceTable (p : Z * Z)             (* the store to tail_table *)
| URelease (p : Z * Z).                 (* store_release(rstatus, BUSY) *)

Inductive wpc :=
| WTop                            (* i = head_table; j = head_entry *)
| WPoll (p : Z * Z)               (* load_acquire(rstatus) == EMPTY ? *)
| WSignal (p : Z * Z)             (* signal_pending(current) ? *)
| WTime (p : Z * Z)               (* !time_after(jiffies, timeout) ? *)
| WPrepare (p : Z * Z)            (* prepare_to_wait *)
| WNeedLoad (p : Z * Z) | WNeedStore (p : Z * Z) (f : Z)
| WRecheck (p : Z * Z)            (* load_acquire(rstatus) == EMPTY ? *)
| WSchedule (p : Z * Z)           (* schedule() *)
| WFinish (p : Z * Z) (slept : bool) (* finish_wait *)
| WClearLoad (p : Z * Z) (slept : bool)
| WClearStore (p : Z * Z) (slept : bool) (f : Z)
| WTailTable (p : Z * Z)          (* tail_table, for tail_index *)
| WTailEntry (p : Z * Z) (t : Z)  (* tail_entry; submitted = ... *)
| WLoop (p : Z * Z)               (* while (submitted != 0) *)
| WClear (p : Z * Z)              (* rstatus = BENTRY_EMPTY *)
| WNext (p : Z * Z)               (* next (i, j); submitted--; timeout *)
| WPubTable (p : Z * Z)           (* head_table = i *)
| WPubEntry (p : Z * Z)           (* head_entry = j *)
| WEnd                            (* signal_pending(current) ? *)
| WExit.

Inductive task_state := TASK_RUNNING | TASK_INTERRUPTIBLE.

Record state := State {
  hdr : esca_table_t;
  ent : gmap (Z * Z) esca_table_entry_t;
  user : upc;
  wrk : wpc;
  submitted : Z;
  timeout : Z;
  jiffies : Z;
  signal : bool;
  task : task_state;
  (* history of the execution, not part of the program *)
  enqueued : list call;  (* requests made visible by moving the tail *)
  executed : list call;  (* calls made by the worker *)
  released : nat         (* calls made before the last publication of the head *)
}.

Definition with_hdr (f : esca_table_t -> esca_table_t) (s : state) : state :=
  State (f (hdr s)) (ent s) (user s) (wrk s) (submitted s) (timeout s) (jiffies s)
        (signal s) (task s) (enqueued s) (executed s) (released s).
Definition with_ent (m : gmap (Z * Z) esca_table_entry_t) (s : state) : state :=
  State (hdr s) m (user s) (wrk s) (submitted s) (timeout s) (jiffies s)
        (signal s) (task s) (enqueued s) (executed s) (released s).
Definition at_user (u : upc) (s : state) : state :=
  State (hdr s) (ent s) u (wrk s) (submitted s) (timeout s) (jiffies s)
        (signal s) (task s) (enqueued s) (executed s) (released s).
Definition at_wrk (w : wpc) (s : state) : state :=
  State (hdr s) (ent s) (user s) w (submitted s) (timeout s) (jiffies s)
        (signal s) (task s) (enqueued s) (executed s) (released s).
Definition with_submitted (n : Z) (s : state) : state :=
  State (hdr s) (ent s) (user s) (wrk s) n (timeout s) (jiffies s)
        (signal s) (task s) (enqueued s) (executed s) (released s).
Definition with_timeout (t : Z) (s : state) : state :=
  State (hdr s) (ent s) (user s) (wrk s) (submitted s) t (jiffies s)
        (signal s) (task s) (enqueued s) (executed s) (released s).
Definition with_jiffies (t : Z) (s : state) : state :=
  State (hdr s) (ent s) (user s) (wrk s) (submitted s) (timeout s) t
        (signal s) (task s) (enqueued s) (executed s) (released s).
Definition with_signal (b : bool) (s : state) : state :=
  State (hdr s) (ent s) (user s) (wrk s) (submitted s) (timeout s) (jiffies s)
        b (task s) (enqueued s) (executed s) (released s).
Definition with_task (t : task_state) (s : state) : state :=
  State (hdr s) (ent s) (user s) (wrk s) (submitted s) (timeout s) (jiffies s)
        (signal s) t (enqueued s) (executed s) (released s).
Definition log_enqueued (c : call) (s : state) : state :=
  State (hdr s) (ent s) (user s) (wrk s) (submitted s) (timeout s) (jiffies s)
        (signal s) (task s) (enqueued s ++ [c]) (executed s) (released s).
Definition log_executed (c : call) (s : state) : state :=
  State (hdr s) (ent s) (user s) (wrk s) (submitted s) (timeout s) (jiffies s)
        (signal s) (task s) (enqueued s) (executed s ++ [c]) (released s).
Definition log_released (s : state) : state :=
  State (hdr s) (ent s) (user s) (wrk s) (submitted s) (timeout s) (jiffies s)
        (signal s) (task s) (enqueued s) (executed s) (length (executed s)).

(** [time_after(a, b)]: [(long)(b - a) < 0] on [unsigned long]. *)
Definition time_after (a b : Z) : bool := to_long (b - a) <? 0.

Inductive event :=
| Submit (r : request)  (* the application calls a wrapper *)
| BatchStart            (* the application calls batch_start *)
| User                  (* the user thread runs its next access *)
| Worker                (* the kernel thread runs its next access *)
| Tick                  (* jiffies advances *)
| Signal.               (* SIGKILL becomes pending for the worker *)

Section protocol.
Context (m : arch) (MTE MTL : Z).
(** The result the kernel gives to a system call, from the calls before it. *)
Context (sys : list call -> call -> Z).

(** Applies [f] to the entry at a position; a position outside of the ring
    has no entry. *)
Definition on_entry (p : Z * Z) (f : esca_table_entry_t -> esca_table_entry_t)
    (s : state) : option state :=
  e ← ent s !! p; Some (with_ent (<[p := f e]> (ent s)) s).

Definition status_at (s : state) (p : Z * Z) : option Z := rstatus <$> ent s !! p.

Definition has_flag (h : esca_table_t) (b : Z) : bool := negb (Z.land (flags h) b =? 0).

(** [wake_up(&worker_wait[i])] *)
Definition wake_up (s : state) : state := with_task TASK_RUNNING s.

Definition user_step (s : state) : option state :=
  let h := hdr s in
  match user s with
  | UIdle => None
  | UReadFlags =>
      Some (at_user (if has_flag h ESCA_WORKER_NEED_WAKEUP then UOrLoad else UIdle) s)
  | UOrLoad => Some (at_user (UOrStore (flags h)) s)
  | UOrStore f =>
      Some (at_user UWakeup (with_hdr (set_flags (Z.lor f ESCA_START_WAKEUP)) s))
  | UWakeup =>
      Some (at_user UAndLoad (if has_flag h ESCA_START_WAKEUP then wake_up s else s))
  | UAndLoad => Some (at_user (UAndStore (flags h)) s)
  | UAndStore f =>
      Some (at_user UIdle (with_hdr (set_flags (Z.ldiff f ESCA_START_WAKEUP)) s))
  | UFill p [] r => Some (at_user (UCheckEntry p r) s)
  | UFill p (st :: l) r => at_user (UFill p l r) <$> on_entry p (do_store st) s
  | UCheckEntry p r =>
      Some (at_user (if tail_entry h + 1 =? head_entry h
                     then UCheckTable p r else UAdvance p r) s)
  | UCheckTable p r =>
      Some (at_user (if tail_table h =? head_table h
                     then UCheckEntry p r else UAdvance p r) s)
  | UAdvance p r =>
      e ← ent s !! p;
      let s' := log_enqueued (entry_call m e) s in
      if tail_entry h =? MTE - 1
      then Some (at_user (UAdvanceTable p) (with_hdr (set_tail_entry 0) s'))
      else Some (at_user (URelease p) (with_hdr (set_tail_entry (tail_entry h + 1)) s'))
  | UAdvanceTable p =>
      let t := if tail_table h =? MTL - 1 then 0 else tail_table h + 1 in
      Some (at_user (URelease p) (with_hdr (set_tail_table t) s))
  | URelease p => at_user UIdle <$> on_entry p (set_rstatus BENTRY_BUSY) s
  end.

Definition worker_step (s : state) : option state :=
  let h := hdr s in
  match wrk s with
  | WTop => Some (at_wrk (WPoll (head_table h, head_entry h)) s)
  | WPoll p =>
      st ← status_at s p;
      Some (at_wrk (if st =? BENTRY_EMPTY then WSignal p else WTailTable p) s)
  | WSignal p => Some (at_wrk (if signal s then WExit else WTime p) s)
  | WTime p =>
      Some (at_wrk (if time_after (jiffies s) (timeout s) then WPrepare p else WPoll p) s)
  | WPrepare p => Some (at_wrk (WNeedLoad p) (with_task TASK_INTERRUPTIBLE s))
  | WNeedLoad p => Some (at_wrk (WNeedStore p (flags h)) s)
  | WNeedStore p f =>
      Some (at_wrk (WRecheck p) (with_hdr (set_flags (Z.lor f ESCA_WORKER_NEED_WAKEUP)) s))
  | WRecheck p =>
      st ← status_at s p;
      Some (at_wrk (if st =? BENTRY_EMPTY then WSchedule p else WFinish p false) s)
  | WSchedule p =>
      match task s with
      | TASK_RUNNING => Some (at_wrk (WFinish p true) s)
      | TASK_INTERRUPTIBLE =>
          if signal s then Some (at_wrk (WFinish p true) s) else None
      end
  | WFinish p slept => Some (at_wrk (WClearLoad p slept) (with_task TASK_RUNNING s))
  | WClearLoad p slept => Some (at_wrk (WClearStore p slept (flags h)) s)
  | WClearStore p slept f =>
      let s' := with_hdr (set_flags (Z.ldiff f ESCA_WORKER_NEED_WAKEUP)) s in
      Some (at_wrk (WPoll p)
              (if slept then with_timeout (to_ull (jiffies s + idle_time h)) s' else s'))
  | WTailTable p => Some (at_wrk (WTailEntry p (tail_table h)) s)
  | WTailEntry p t =>
      Some (at_wrk (WLoop p)
              (with_submitted (submitted_count MTE MTL p.1 p.2 t (tail_entry h)) s))
  | WLoop p =>
      if submitted s =? 0 then Some (at_wrk (WPubTable p) s)
      else e ← ent s !! p;
           let c := entry_call m e in
           s' ← on_entry p (set_sysret (sys (executed s) c)) s;
           Some (at_wrk (WClear p) (log_executed c s'))
  | WClear p => at_wrk (WNext p) <$> on_entry p (set_rstatus BENTRY_EMPTY) s
  | WNext p =>
      Some (at_wrk (WLoop (worker_next MTE MTL p.1 p.2))
              (with_timeout (to_ull (jiffies s + idle_time h))
                 (with_submitted (to_short (submitted s - 1)) s)))
  | WPubTable p => Some (at_wrk (WPubEntry p) (log_released (with_hdr (set_head_table p.1) s)))
  | WPubEntry p => Some (at_wrk WEnd (with_hdr (set_head_entry p.2) s))
  | WEnd => Some (at_wrk (if signal s then WExit else WTop) s)
  | WExit => None
  end.

Definition step (ev : event) (s : state) : option state :=
  match ev with
  | Submit r =>
      match user s with
      | UIdle =>
          Some (at_user (UFill (tail_table (hdr s), tail_entry (hdr s))
                           (request_stores r) r) s)
      | _ => None
      end
  | BatchStart =>
      match user s with UIdle => Some (at_user UReadFlags s) | _ => None end
  | User => user_step s
  | Worker => worker_step s
  | Tick => Some (with_jiffies (to_ull (jiffies s + 1)) s)
  | Signal => Some (with_signal true s)
  end.

(** An execution is a list of events. *)
Fixpoint run (evs : list event) (s : state) : option state :=
  match evs with
  | [] => Some s
  | ev :: evs' => s' ← step ev s; run evs' s'
  end.

(** The requests submitted and not yet executed. *)
Definition pending (s : state) : list call := drop (length (executed s)) (enqueued s).
End protocol.
