(* ===== verification/ProtocolInv.v ===== *)
(** * Correctness of the ring protocol

    The invariant of calm executions of [Protocol], the refinement of a
    bounded FIFO queue, and the executions in which the code leaves it. *)
From stdpp Require Import base numbers list gmap.
From S2P Require Import Prelude Esca Ring IndirectCall Request Protocol.

(** ** Specification: a bounded FIFO queue of calls

    [waiting] are the calls in the queue, [out] those that have left it, in the
    order in which they did. *)
Record fifo := Fifo { waiting : list call; out : list call }.

Inductive fifo_action :=
| Put (c : call)   (* a call enters at the back *)
| Get              (* the call at the front leaves *)
| Silent.

(** [None]: the queue does not allow the action. *)
Definition fifo_step (cap : Z) (a : fifo_action) (Q : fifo) : option fifo :=
  match a with
  | Put c =>
      if Z.of_nat (length (waiting Q)) <? cap
      then Some (Fifo (waiting Q ++ [c]) (out Q)) else None
  | Get =>
      match waiting Q with
      | [] => None
      | c :: q => Some (Fifo q (out Q ++ [c]))
      end
  | Silent => Some Q
  end.

Section inv.
Context (m : arch) (MTE MTL : Z) (sys : list call -> call -> Z).
Abbreviation pos := (pos MTE MTL).
Abbreviation N := (ring_size MTE MTL).

(** ** Scheduling condition

    An event is calm unless it is
    - a move of the tail with no room left before the last published head,
    - a move of the tail into the next table while the worker is between its
      two loads of the tail,
    - the worker's first load of the tail while the user thread is between
      its two stores of the tail. *)
Definition enq_count (s : state) : Z := Z.of_nat (length (enqueued s)).
Definition exe_count (s : state) : Z := Z.of_nat (length (executed s)).
Definition rel_count (s : state) : Z := Z.of_nat (released s).

Definition room (s : state) : bool := enq_count s + 1 <? rel_count s + N.

Definition calm (ev : event) (s : state) : bool :=
  match ev with
  | User =>
      match user s with
      | UAdvance _ _ =>
          room s &&
          ((MTL =? 1) || negb (tail_entry (hdr s) =? MTE - 1) ||
           match wrk s with WTailEntry _ _ => false | _ => true end)
      | _ => true
      end
  | Worker =>
      match wrk s with
      | WTailTable _ =>
          (MTL =? 1) || match user s with UAdvanceTable _ => false | _ => true end
      | _ => true
      end
  | Submit r => bool_decide (length (rq_args r) <= 6)%nat
  | _ => true
  end.

(** The state [sys_esca_register] leaves: see [Kernel]. *)
Record initial (s : state) : Prop := {
  ini_head : (head_table (hdr s), head_entry (hdr s)) = (0, 0);
  ini_tail : (tail_table (hdr s), tail_entry (hdr s)) = (0, 0);
  ini_flags : flags (hdr s) = ESCA_WORKER_NEED_WAKEUP;
  ini_ent : forall p, in_ring MTE MTL p ->
    exists e, ent s !! p = Some e /\ length (args e) = 6%nat /\ rstatus e = BENTRY_EMPTY;
  ini_user : user s = UIdle;
  ini_wrk : wrk s = WTop;
  ini_task : task s = TASK_RUNNING;
  ini_logs : enqueued s = [] /\ executed s = [] /\ released s = 0%nat
}.

(** Calm executions from an initial state. *)
Inductive reachable : state -> Prop :=
| reach_initial s : initial s -> reachable s
| reach_step s ev s' :
    reachable s -> calm ev s = true -> step m MTE MTL sys ev s = Some s' -> reachable s'.

(** ** The invariant *)
Definition pub_head (s : state) : Z * Z := (head_table (hdr s), head_entry (hdr s)).
Definition tail (s : state) : Z * Z := (tail_table (hdr s), tail_entry (hdr s)).

(** The entry at [p] stands for the call [c]. *)
Definition holds (E : gmap (Z * Z) esca_table_entry_t) (p : Z * Z) (c : call) : Prop :=
  exists e, E !! p = Some e /\ entry_call m e = c.

Definition user_ok (s : state) : Prop :=
  match user s with
  | UFill p l r =>
      p = pos (enq_count s) /\ (length (rq_args r) <= 6)%nat /\
      exists e, ent s !! p = Some e /\
        entry_call m (foldl (flip do_store) e l) = request_call m r
  | UCheckEntry p r | UCheckTable p r | UAdvance p r =>
      p = pos (enq_count s) /\ holds (ent s) p (request_call m r)
  | UAdvanceTable p => 1 <= enq_count s /\ p = pos (enq_count s - 1)
  | URelease p => 1 <= enq_count s /\ p = pos (enq_count s - 1)
  | _ => True
  end.

Definition tail_ok (s : state) : Prop :=
  match user s with
  | UAdvanceTable _ =>
      tail_entry (hdr s) = 0 /\ 0 <= tail_table (hdr s) < MTL /\
      pos (enq_count s) = ((if tail_table (hdr s) =? MTL - 1 then 0
                            else tail_table (hdr s) + 1), 0)
  | _ => tail s = pos (enq_count s)
  end.

Definition wrk_ok (s : state) : Prop :=
  let P := enq_count s in let C := exe_count s in let R := rel_count s in
  match wrk s with
  | WTop | WEnd => R = C /\ pub_head s = pos C
  | WPoll p | WSignal p | WTime p | WPrepare p | WNeedLoad p | WNeedStore p _
  | WRecheck p | WSchedule p | WFinish p _ | WClearLoad p _ | WClearStore p _ _
  | WTailTable p => R = C /\ pub_head s = pos C /\ p = pos C
  | WTailEntry p t =>
      R = C /\ pub_head s = pos C /\ p = pos C /\ t = tail_table (hdr s) /\
      (MTL = 1 \/ match user s with UAdvanceTable _ => False | _ => True end)
  | WLoop p => pub_head s = pos R /\ p = pos C /\ 0 <= submitted s <= P - C
  | WClear p | WNext p =>
      pub_head s = pos R /\ p = pos (C - 1) /\ R <= C - 1 /\
      1 <= submitted s <= P - C + 1
  | WPubTable p => pub_head s = pos R /\ p = pos C
  | WPubEntry p => R = C /\ p = pos C /\ head_table (hdr s) = p.1
  | WExit => R = C /\ pub_head s = pos C
  end.

(** ** Refinement of the queue

    The action a step stands for, from where the threads are: the user thread at
    its store of [tail_entry] puts the call it was asked for; the worker at the
    head of its loop with entries left gets one. *)
Definition action (ev : event) (s : state) : fifo_action :=
  match ev with
  | User => match user s with UAdvance _ r => Put (request_call m r) | _ => Silent end
  | Worker => match wrk s with
              | WLoop _ => if submitted s =? 0 then Silent else Get
              | _ => Silent
              end
  | _ => Silent
  end.

(** The queue a state stands for: the calls that the entries of the ring hold
    from the first one not executed to the tail, and the calls made. *)
Definition ring_call (s : state) (k : Z) : call :=
  from_option (entry_call m) (0, zero_regs) (ent s !! pos k).
Definition queue (s : state) : fifo :=
  Fifo (ring_call s <$> seqZ (exe_count s) (enq_count s - exe_count s)) (executed s).

(** The user thread has moved the tail but not yet released the last entry. *)
Definition unreleased (s : state) : bool :=
  match user s with UAdvanceTable _ | URelease _ => true | _ => false end.

Record inv (s : state) : Prop := {
  inv_count : rel_count s <= exe_count s <= enq_count s /\
              enq_count s < rel_count s + N;
  inv_ent : forall p, in_ring MTE MTL p ->
    exists e, ent s !! p = Some e /\ length (args e) = 6%nat;
  inv_exec : executed s = take (length (executed s)) (enqueued s);
  inv_queue : forall k c, exe_count s <= Z.of_nat k -> enqueued s !! k = Some c ->
    holds (ent s) (pos (Z.of_nat k)) c;
  inv_busy : forall k, exe_count s <= k < enq_count s ->
    (k = enq_count s - 1 -> unreleased s = false) ->
    status_at s (pos k) = Some BENTRY_BUSY;
  inv_tail : tail_ok s;
  inv_user : user_ok s;
  inv_wrk : wrk_ok s
}.

(** ** Effects of a store into an entry *)
Implicit Types E : gmap (Z * Z) esca_table_entry_t.

Lemma holds_insert_same E p e f q c :
  E !! p = Some e -> entry_call m (f e) = entry_call m e ->
  holds E q c -> holds (<[p := f e]> E) q c.
Proof.
  intros He Hf (e' & He' & Hc). unfold holds. destruct (decide (p = q)) as [->|Hne].
  - exists (f e). rewrite lookup_insert_eq. split; [done|]. rewrite Hf. congruence.
  - exists e'. by rewrite lookup_insert_ne.
Qed.

Lemma holds_insert_ne E p e q c :
  p <> q -> holds E q c -> holds (<[p := e]> E) q c.
Proof.
  intros Hne (e' & He' & Hc). exists e'. by rewrite lookup_insert_ne.
Qed.

Lemma ent_insert E p e f :
  E !! p = Some e -> (length (args (f e)) = length (args e)) ->
  (forall q, in_ring MTE MTL q -> exists e, E !! q = Some e /\ length (args e) = 6%nat) ->
  forall q, in_ring MTE MTL q ->
    exists e', <[p := f e]> E !! q = Some e' /\ length (args e') = 6%nat.
Proof.
  intros He Hf HE q Hq. destruct (HE q Hq) as (e' & He' & Ha).
  destruct (decide (p = q)) as [->|Hne].
  - exists (f e). rewrite lookup_insert_eq. split; [done|]. rewrite Hf. congruence.
  - exists e'. by rewrite lookup_insert_ne.
Qed.

Lemma status_insert_same E p e f q v :
  E !! p = Some e -> rstatus (f e) = rstatus e ->
  rstatus <$> E !! q = Some v -> rstatus <$> <[p := f e]> E !! q = Some v.
Proof.
  intros He Hf Hv. destruct (decide (p = q)) as [->|Hne].
  - rewrite lookup_insert_eq. simpl. rewrite Hf. by rewrite He in Hv.
  - by rewrite lookup_insert_ne.
Qed.

(** ** The invariant is preserved *)
Context (HE : 0 < MTE) (HL : 0 < MTL) (HS : MTE * MTL <= SHRT_MAX).

Lemma initial_inv s : initial s -> inv s.
Proof.
  intros [Hh Ht Hf He Hu Hw Hk (Le & Lx & Lr)].
  assert (pos (Z.of_nat 0) = (0, 0)) as P0.
  { change (Z.of_nat 0) with 0. unfold Ring.pos. by rewrite !Z.mod_0_l, Z.div_0_l by (unfold ring_size; lia). }
  pose proof (ring_size_pos MTE MTL HE HL).
  constructor; unfold enq_count, exe_count, rel_count; rewrite ?Le, ?Lx, ?Lr; cbn [length].
  - lia.
  - intros p Hp. destruct (He p Hp) as (e & ? & ? & _). eauto.
  - done.
  - done.
  - lia.
  - unfold tail_ok, enq_count, tail. rewrite Hu, Le. cbn [length]. by rewrite P0.
  - unfold user_ok. by rewrite Hu.
  - unfold wrk_ok, rel_count, exe_count, pub_head. rewrite Hw, Lx, Lr.
    cbn [length]. by rewrite P0.
Qed.

(** A worker step that leaves the entries and the two logs alone keeps the
    invariant if the head has only been published further and the new program
    point is right. *)
Lemma inv_worker_quiet s s' :
  inv s ->
  enqueued s' = enqueued s -> executed s' = executed s -> ent s' = ent s ->
  user s' = user s -> tail s' = tail s ->
  rel_count s <= rel_count s' <= exe_count s -> wrk_ok s' -> inv s'.
Proof.
  intros [Hc He Hx Hq Hb Ht Hu Hw] E1 E2 E3 E4 E5 Hr Hw'.
  constructor; unfold user_ok, tail_ok, unreleased, status_at, enq_count, exe_count in *;
    rewrite ?E1, ?E2, ?E3, ?E4, ?E5; try done; try lia.
  injection E5 as E6 E7. by rewrite E6, E7.
Qed.

(** A store of the worker into an entry that keeps the call. *)
Lemma inv_worker_entry s s' p e f :
  inv s -> ent s !! p = Some e -> ent s' = <[p := f e]> (ent s) ->
  entry_call m (f e) = entry_call m e -> length (args (f e)) = length (args e) ->
  p <> pos (enq_count s) ->
  enqueued s' = enqueued s -> user s' = user s -> tail s' = tail s ->
  released s' = released s ->
  exe_count s <= exe_count s' <= enq_count s ->
  executed s' = take (length (executed s')) (enqueued s') ->
  (rstatus (f e) = rstatus e \/ forall k, exe_count s' <= k < enq_count s -> p <> pos k) ->
  wrk_ok s' -> inv s'.
Proof.
  intros [Hc He Hx Hq Hb Ht Hu Hw] Ep Eent Ecall Elen Hp E1 E4 E5 E6 Hexe Hx' Hst Hw'.
  constructor; unfold user_ok, tail_ok, unreleased, status_at, enq_count, exe_count, rel_count in *;
    rewrite ?E1, ?E4, ?E5, ?E6, ?Eent; try done.
  - lia.
  - by apply ent_insert.
  - by rewrite <- E1.
  - intros k c Hk Hkc. apply holds_insert_same; [done..|]. apply Hq; [lia|done].
  - intros k Hk Hu'. destruct Hst as [Hst|Hst].
    + apply status_insert_same; [done..|]. apply Hb; [lia|done].
    + rewrite lookup_insert_ne by (apply Hst; lia). apply Hb; [lia|done].
  - injection E5 as E6' E7. by rewrite E6', E7.
  - destruct (user s); try done.
    + destruct Hu as (-> & Hr & e0 & He0 & Hf0). split_and!; [done..|].
      exists e0. by rewrite lookup_insert_ne.
    + destruct Hu as [-> Hh]. split; [done|]. by apply holds_insert_ne.
    + destruct Hu as [-> Hh]. split; [done|]. by apply holds_insert_ne.
    + destruct Hu as [-> Hh]. split; [done|]. by apply holds_insert_ne.
Qed.

(** Positions of the window that starts at the published head. *)
Lemma pos_ne s k k' :
  inv s -> rel_count s <= k < rel_count s + N -> rel_count s <= k' < rel_count s + N ->
  k <> k' -> pos k <> pos k'.
Proof. intros _ Hk Hk' Hne E. apply Hne. by eapply (pos_inj_window MTE MTL). Qed.

Lemma pos_fst_short k : to_short (pos k).1 = (pos k).1.
Proof.
  apply to_short_id. pose proof (pos_in_ring MTE MTL HE HL k) as [H _].
  pose proof (MTL_short MTE MTL HE HL HS). unfold SHRT_MAX in *. lia.
Qed.

Lemma pos_snd_short k : to_short (pos k).2 = (pos k).2.
Proof.
  apply to_short_id. pose proof (pos_in_ring MTE MTL HE HL k) as [_ H].
  pose proof (MTE_short MTE MTL HE HL HS). unfold SHRT_MAX in *. lia.
Qed.

(** The worker's snapshot of the tail counts exactly the pending entries. *)
Lemma snapshot_count s p t :
  inv s -> wrk s = WTailEntry p t ->
  submitted_count MTE MTL p.1 p.2 t (tail_entry (hdr s)) = enq_count s - exe_count s.
Proof.
  intros [Hc He Hx Hq Hb Ht Hu Hw] Ew. unfold wrk_ok in Hw. rewrite Ew in Hw.
  destruct Hw as (HR & Hpub & -> & -> & Hor).
  assert ((tail_table (hdr s), tail_entry (hdr s)) = pos (enq_count s)) as E.
  { unfold tail_ok in Ht. destruct (user s); try exact Ht.
    destruct Hor as [H1|[]]. destruct Ht as (-> & H2 & ->).
    f_equal. destruct (Z.eqb_spec (tail_table (hdr s)) (MTL - 1)); lia. }
  pose proof (pos_in_ring MTE MTL HE HL (exe_count s)) as Hh.
  pose proof (pos_in_ring MTE MTL HE HL (enq_count s)) as Ht'.
  rewrite <- E in Ht'. rewrite submitted_count_dist by done.
  rewrite <- surjective_pairing, E. apply dist_pos; lia.
Qed.

Ltac conj := destruct_and?; split_and?; done || congruence.

(** Closes a quiet step: the counts are those of [s], the program point is
    left to [tac]. *)
Ltac quiet s tac :=
  apply (inv_worker_quiet s); [assumption|reflexivity..| |];
  [ unfold rel_count, exe_count in *; simpl; lia
  | unfold wrk_ok, enq_count, exe_count, rel_count, pub_head in *; simpl in *; tac ].

(** One call of the worker: the oldest pending request, exactly. *)
Lemma call_inv s p e :
  inv s -> wrk s = WLoop p -> submitted s <> 0 -> ent s !! p = Some e ->
  inv (at_wrk (WClear p) (log_executed (entry_call m e)
        (with_ent (<[p := set_sysret (sys (executed s) (entry_call m e)) e]> (ent s)) s))).
Proof.
  intros Hinv Ew Hsub He.
  pose proof (inv_wrk _ Hinv) as Hw. unfold wrk_ok in Hw. rewrite Ew in Hw.
  destruct Hw as (Hpub & -> & Hcnt). pose proof (inv_count _ Hinv) as Hc.
  destruct (lookup_lt_is_Some_2 (enqueued s) (length (executed s))) as [c Hk].
  { unfold enq_count, exe_count in *. lia. }
  destruct (inv_queue _ Hinv _ _ (Z.le_refl _) Hk) as (e' & He' & Hcall).
  assert (e' = e) as -> by (unfold exe_count in *; congruence).
  eapply (inv_worker_entry s _ (pos (exe_count s)) e
            (set_sysret (sys (executed s) (entry_call m e)))); try done.
  - apply (pos_ne s); [done|lia..].
  - unfold exe_count, enq_count in *; simpl. rewrite length_app; simpl. lia.
  - simpl. rewrite length_app, Nat.add_1_r; simpl.
    erewrite take_S_r by exact Hk. rewrite <- (inv_exec _ Hinv). by rewrite Hcall.
  - by left.
  - unfold wrk_ok, exe_count, enq_count, rel_count, pub_head in *; simpl.
    rewrite length_app; simpl. split_and!; [done|f_equal; lia|lia..].
Qed.

Lemma clear_inv s p e :
  inv s -> wrk s = WClear p -> ent s !! p = Some e ->
  inv (at_wrk (WNext p) (with_ent (<[p := set_rstatus BENTRY_EMPTY e]> (ent s)) s)).
Proof.
  intros Hinv Ew He.
  pose proof (inv_wrk _ Hinv) as Hw. unfold wrk_ok in Hw. rewrite Ew in Hw.
  destruct Hw as (Hpub & -> & HR & Hcnt). pose proof (inv_count _ Hinv) as Hc.
  eapply (inv_worker_entry s _ (pos (exe_count s - 1)) e (set_rstatus BENTRY_EMPTY));
    try done.
  - apply (pos_ne s); [done|lia..].
  - unfold exe_count, enq_count in *; simpl. lia.
  - simpl. apply (inv_exec _ Hinv).
  - right. intros k Hk. apply (pos_ne s); [done|unfold exe_count in *; simpl in *; lia..].
Qed.

Lemma worker_inv s s' :
  inv s -> calm Worker s = true -> worker_step m MTE MTL sys s = Some s' -> inv s'.
Proof.
  intros Hinv Hcalm Hs. pose proof (inv_wrk _ Hinv) as Hw. pose proof (inv_count _ Hinv) as Hc.
  unfold worker_step, on_entry in Hs. unfold wrk_ok in Hw. unfold calm in Hcalm.
  destruct (wrk s) eqn:Ew; simplify_option_eq;
    try (quiet s ltac:(repeat case_match; conj); fail).
  - destruct (task s), (signal s); simplify_eq; quiet s ltac:(conj).
  - destruct slept; quiet s ltac:(conj).
  - quiet s ltac:(destruct Hw as (?&?&?)). split_and!; try done.
    apply orb_true_iff in Hcalm as [Hm%Z.eqb_eq|Hm]; [by left|right; by destruct (user s)].
  - pose proof (snapshot_count _ _ _ Hinv Ew) as Hn.
    quiet s ltac:(destruct Hw as (?&?&?&?&?)). split_and!; try done; try lia; congruence.
  - destruct (Z.eqb_spec (submitted s) 0) as [Hz|Hz]; simplify_eq/=.
    + quiet s ltac:(conj).
    + destruct (ent s !! p) as [e|] eqn:He; simplify_eq/=. by apply call_inv.
  - by apply clear_inv.
  - quiet s ltac:(destruct Hw as (?&->&?&?)).
    rewrite worker_next_pos, to_short_id by (done || unfold SHRT_MAX, ring_size in *; lia).
    split_and!; [done|f_equal; lia|lia..].
  - quiet s ltac:(destruct Hw as (?&->)). by rewrite pos_fst_short.
  - quiet s ltac:(destruct Hw as (?&->&Ht)). rewrite pos_snd_short, Ht.
    split; [done|]. by destruct (pos _).
Qed.

(** ** Steps of the user thread *)

(** A step of the user thread that touches no shared location but the flags. *)
Lemma inv_user_quiet s s' :
  inv s ->
  enqueued s' = enqueued s -> executed s' = executed s -> released s' = released s ->
  ent s' = ent s -> wrk s' = wrk s -> submitted s' = submitted s ->
  tail s' = tail s -> pub_head s' = pub_head s ->
  unreleased s = false -> unreleased s' = false -> user_ok s' -> inv s'.
Proof.
  intros [Hc He Hx Hq Hb Ht Hu Hw] E1 E2 E3 E4 E5 E6 E7 E8 U U' Hu'.
  pose proof E7 as [= E9 E10]. pose proof E8 as [= E11 E12].
  constructor; unfold status_at, enq_count, exe_count, rel_count in *;
    rewrite ?E1, ?E2, ?E3, ?E4, ?U'; try done.
  - intros k Hk _. by apply Hb.
  - unfold tail_ok, enq_count in *. rewrite E7, E1.
    unfold unreleased in *. by destruct (user s), (user s').
  - unfold wrk_ok, enq_count, exe_count, rel_count in *. rewrite E1, E2, E3, E5, E6, E8, E9, E11.
    unfold unreleased in *.
    destruct (wrk s); try done. destruct Hw as (?&?&?&?&?). split_and!; try done.
    right. by destruct (user s').
Qed.

Lemma fill_inv s p st l r e :
  inv s -> user s = UFill p (st :: l) r -> ent s !! p = Some e ->
  inv (at_user (UFill p l r) (with_ent (<[p := do_store st e]> (ent s)) s)).
Proof.
  intros [Hc He Hx Hq Hb Ht Hu Hw] Eu Ep. unfold user_ok in Hu. rewrite Eu in Hu.
  destruct Hu as (-> & Hr & e0 & He0 & Hf). assert (e0 = e) as -> by congruence.
  assert (forall k, exe_count s <= k < enq_count s -> pos (enq_count s) <> pos k) as Hne.
  { intros k Hk E. assert (enq_count s = k); [|lia].
    apply (pos_inj_window MTE MTL HE) with (h := rel_count s); [lia..|done]. }
  constructor; unfold status_at, unreleased; cbn [ent user at_user with_ent enqueued executed];
    try done.
  - apply ent_insert; [done| apply do_store_args|done].
  - intros k c Hk Hc'. apply holds_insert_ne; [|by apply Hq].
    apply Hne. apply lookup_lt_Some in Hc'. unfold enq_count, exe_count in *; simpl in *. lia.
  - intros k Hk _. rewrite lookup_insert_ne by (by apply Hne).
    apply Hb; [done|]. unfold unreleased. by rewrite Eu.
  - unfold tail_ok in *. by rewrite Eu in Ht.
  - split_and!; [done..|]. exists (do_store st e).
    split; [apply lookup_insert_eq|done].
  - unfold wrk_ok in *. rewrite Eu in Hw. apply Hw.
Qed.

Lemma release_inv s p e :
  inv s -> user s = URelease p -> ent s !! p = Some e ->
  inv (at_user UIdle (with_ent (<[p := set_rstatus BENTRY_BUSY e]> (ent s)) s)).
Proof.
  intros [Hc He Hx Hq Hb Ht Hu Hw] Eu Ep. unfold user_ok in Hu. rewrite Eu in Hu.
  destruct Hu as (Hp & ->).
  constructor; unfold status_at, unreleased; cbn [ent user at_user with_ent enqueued executed];
    try done.
  - by apply ent_insert.
  - intros k c Hk Hc'. apply holds_insert_same; [done..|]. by apply Hq.
  - intros k Hk _. destruct (decide (pos (enq_count s - 1) = pos k)) as [<-|Hne].
    + by rewrite lookup_insert_eq.
    + rewrite lookup_insert_ne by done. apply Hb; [done|].
      intros ->. by destruct Hne.
  - unfold tail_ok in *. by rewrite Eu in Ht.
  - unfold wrk_ok in *. rewrite Eu in Hw. apply Hw.
Qed.

Lemma advance_table_inv s p t :
  inv s -> user s = UAdvanceTable p ->
  t = (if tail_table (hdr s) =? MTL - 1 then 0 else tail_table (hdr s) + 1) ->
  inv (at_user (URelease p) (with_hdr (set_tail_table t) s)).
Proof.
  intros [Hc He Hx Hq Hb Ht Hu Hw] Eu Et. unfold tail_ok, user_ok in *. rewrite Eu in Hu, Ht.
  destruct Ht as (Hte & Htt & Hpos). rewrite <- Et in Hpos.
  assert (to_short t = t) as Hts.
  { replace t with (pos (enq_count s)).1 by (by rewrite Hpos). apply pos_fst_short. }
  constructor; try done.
  - intros k Hk Hlast. apply Hb; [done|]. unfold unreleased in *. by rewrite Eu.
  - unfold tail_ok, tail; simpl. by rewrite Hts, Hte, <- Hpos.
  - unfold wrk_ok in *; simpl. destruct (wrk s); try done.
    destruct Hw as (?&?&?&->&Hor). rewrite Eu in Hor. destruct Hor as [Hm|[]].
    split_and!; try done; [|by left].
    rewrite Hts, Et. destruct (Z.eqb_spec (tail_table (hdr s)) (MTL - 1)); lia.
Qed.

(** The first store of the tail makes the filled entry pending. *)
Lemma advance_inv s p r s' :
  inv s -> calm User s = true -> user s = UAdvance p r ->
  user_step m MTE MTL s = Some s' ->
  inv s' /\ enqueued s' = enqueued s ++ [request_call m r] /\
  executed s' = executed s /\ released s' = released s.
Proof.
  intros Hinv Hcalm Eu Hs. destruct Hinv as [Hc He Hx Hq Hb Ht Hu Hw].
  unfold user_ok, tail_ok, unreleased, calm, user_step in *. rewrite Eu in *.
  destruct Hu as (-> & e & Hp & Hcall). rewrite Hp in Hs; simpl in Hs.
  apply andb_true_iff in Hcalm as [Hroom%Z.ltb_lt Hcalm].
  pose proof (pos_in_ring MTE MTL HE HL (enq_count s)) as Hring.
  pose proof (worker_next_pos MTE MTL HE HL (enq_count s)) as Hnext.
  unfold tail in Ht. rewrite <- Ht in Hring, Hnext; simpl in Hring, Hnext.
  assert (enqueued s' = enqueued s ++ [request_call m r] /\ executed s' = executed s /\
          released s' = released s /\ ent s' = ent s /\ wrk s' = wrk s /\
          submitted s' = submitted s /\ pub_head s' = pub_head s /\
          tail_table (hdr s') = tail_table (hdr s)) as (E1&E2&E3&E4&E5&E6&E7&E8).
  { rewrite Hcall in Hs. destruct (tail_entry (hdr s) =? MTE - 1); by simplify_eq. }
  assert (enq_count s' = enq_count s + 1) as EP.
  { unfold enq_count. rewrite E1, length_app; simpl. lia. }
  split; [|done].
  constructor; unfold status_at, exe_count, rel_count in *; rewrite ?EP, ?E2, ?E3, ?E4.
  - lia.
  - done.
  - rewrite E1, take_app_le by (unfold enq_count in *; lia). done.
  - intros k c Hk. rewrite E1, lookup_app_Some. intros [Hk'|[Hk1 Hk2]]; [by apply Hq|].
    apply list_lookup_singleton_Some in Hk2 as [Hk2 <-].
    replace (Z.of_nat k) with (enq_count s) by (unfold enq_count; lia). by exists e.
  - intros k Hk Hlast. apply Hb; [|done].
    assert (k <> enq_count s); [|lia]. intros ->.
    destruct (tail_entry (hdr s) =? MTE - 1); simplify_eq; by (specialize (Hlast ltac:(lia))).
  - unfold tail_ok. rewrite EP. unfold tail. rewrite <- Hnext. unfold worker_next.
    destruct (Z.eqb_spec (tail_entry (hdr s)) (MTE - 1)); simplify_eq; simpl.
    + split_and!; [done|apply Hring..|done].
    + rewrite to_short_id; [done|].
      pose proof (MTE_short MTE MTL HE HL HS). destruct Hring as [_ Hring].
      unfold SHRT_MAX in *; simpl in *. lia.
  - unfold user_ok. rewrite EP.
    replace (enq_count s + 1 - 1) with (enq_count s) by lia.
    unfold enq_count in *. destruct (tail_entry (hdr s) =? MTE - 1); simplify_eq; simpl; split; done || lia.
  - unfold wrk_ok, exe_count, rel_count in *. rewrite EP, E2, E3, E5, E6, E7, E8.
    assert (head_table (hdr s') = head_table (hdr s)) as -> by (by injection E7).
    destruct (wrk s); try done; try (destruct_and?; split_and!; done || lia).
    destruct Hw as (?&?&?&?&?). split_and!; try done.
    apply orb_true_iff in Hcalm as [Hcalm|Hcalm]; [|done].
    apply orb_true_iff in Hcalm as [Hm%Z.eqb_eq|Hm]; [by left|right].
    destruct (tail_entry (hdr s) =? MTE - 1); by simplify_eq.
Qed.

Ltac uquiet s Eu :=
  apply (inv_user_quiet s); try done; unfold unreleased, user_ok; rewrite ?Eu; simpl;
  try done; try assumption; try (repeat case_match; done).

Lemma user_inv s s' :
  inv s -> calm User s = true -> user_step m MTE MTL s = Some s' -> inv s'.
Proof.
  intros Hinv Hcalm Hs. pose proof (inv_user _ Hinv) as Hu. unfold user_ok in Hu.
  destruct (user s) eqn:Eu; try (by eapply advance_inv); unfold user_step in Hs; rewrite Eu in Hs.
  all: unfold on_entry in Hs; simplify_eq/=.
  - uquiet s Eu.
  - uquiet s Eu.
  - uquiet s Eu.
  - destruct (has_flag _ _); uquiet s Eu.
  - uquiet s Eu.
  - uquiet s Eu.
  - destruct l as [|st l]; simplify_option_eq; [|by apply fill_inv].
    uquiet s Eu. destruct Hu as (-> & _ & e & He & Hf). split; [done|by exists e].
  - destruct (tail_entry (hdr s) + 1 =? head_entry (hdr s)); uquiet s Eu.
  - destruct (tail_table (hdr s) =? head_table (hdr s)); uquiet s Eu.
  - by eapply advance_table_inv.
  - simplify_option_eq. by apply release_inv.
Qed.

Lemma step_inv s ev s' :
  inv s -> calm ev s = true -> step m MTE MTL sys ev s = Some s' -> inv s'.
Proof.
  intros Hinv Hcalm Hs. destruct ev as [r| | | | |]; simpl in Hs.
  - destruct (user s) eqn:Eu; simplify_eq. simpl in Hcalm. apply bool_decide_eq_true in Hcalm.
    uquiet s Eu. pose proof (inv_tail _ Hinv) as Ht. unfold tail_ok in Ht. rewrite Eu in Ht.
    destruct (inv_ent _ Hinv (pos (enq_count s))) as (e & He & Ha); [by apply pos_in_ring|].
    split_and!; [done..|]. exists e. split; [by rewrite <- Ht in He|]. by apply fill_request.
  - destruct (user s) eqn:Eu; simplify_eq. uquiet s Eu.
  - by eapply user_inv.
  - by eapply worker_inv.
  - simplify_eq. destruct Hinv. by constructor.
  - simplify_eq. destruct Hinv. by constructor.
Qed.

Lemma reachable_inv s : reachable s -> inv s.
Proof.
  induction 1 as [s Hs|s ev s' _ IH Hcalm Hs]; [by apply initial_inv|by eapply step_inv].
Qed.
End inv.
