(* ===== verification/ProtocolProps.v ===== *)
(** * Properties of the ring protocol

    Safety (FIFO refinement, bounded occupancy, soundness of the full test),
    progress (the worker drains the ring, [batch_start] wakes it), and the
    executions in which the protocol loses its guarantees. *)
From stdpp Require Import base numbers list gmap.
From S2P Require Import Prelude Esca Ring IndirectCall Request Protocol ProtocolInv.

(** ** A concrete initial ring *)
Definition blank_entry : esca_table_entry_t := Entry 0 0 BENTRY_EMPTY 0 0 (replicate 6 0).

Definition positions (MTE MTL : Z) : list (Z * Z) :=
  i ← seqZ 0 MTL; (fun j => (i, j)) <$> seqZ 0 MTE.

Definition init_ent (MTE MTL : Z) : gmap (Z * Z) esca_table_entry_t :=
  gset_to_gmap blank_entry (list_to_set (positions MTE MTL)).

Definition init_hdr : esca_table_t :=
  Table [] [] 0 0 0 0 (to_uint 150) ESCA_WORKER_NEED_WAKEUP.

Definition init_state (MTE MTL : Z) : state :=
  State init_hdr (init_ent MTE MTL) UIdle WTop 0 0 1 false TASK_RUNNING [] [] 0.

(** A result function for the witnesses. *)
Definition sys_zero (_ : list call) (_ : call) : Z := 0.

Lemma elem_of_positions MTE MTL p : in_ring MTE MTL p -> p ∈ positions MTE MTL.
Proof.
  destruct p as [i j]. unfold in_ring, positions. simpl. intros [Hi Hj].
  apply list_elem_of_bind. exists i. split.
  - apply list_elem_of_fmap. exists j. split; [done|]. apply elem_of_seqZ. lia.
  - apply elem_of_seqZ. lia.
Qed.

Lemma init_state_initial MTE MTL : initial MTE MTL (init_state MTE MTL).
Proof.
  constructor; try done. intros p Hp. exists blank_entry. split_and!; [|done..].
  apply lookup_gset_to_gmap_Some. split; [|done].
  apply elem_of_list_to_set. by apply elem_of_positions.
Qed.

(** ** Progress of the worker *)
Section progress.
Context (m : arch) (MTE MTL : Z) (sys : list call -> call -> Z).
Context (HE : 0 < MTE) (HL : 0 < MTL) (HS : MTE * MTL <= SHRT_MAX).

(** The worker, running alone, executes everything that is pending. *)
Definition drains (s : state) : Prop :=
  exists n s', run m MTE MTL sys (replicate n Worker) s = Some s' /\
               enqueued s' = enqueued s /\ executed s' = enqueued s.

(** What the user thread leaves between two calls. *)
Record quiescent (s : state) : Prop := {
  q_inv : inv m MTE MTL s;
  q_user : user s = UIdle;
  q_signal : signal s = false
}.

Lemma drains_done s :
  inv m MTE MTL s -> exe_count s = enq_count s -> drains s.
Proof.
  intros Hinv Hc. exists 0%nat, s. split_and!; [done..|].
  rewrite (inv_exec _ _ _ _ Hinv). apply take_ge. unfold exe_count, enq_count in *. lia.
Qed.

Lemma drains_step s s1 :
  step m MTE MTL sys Worker s = Some s1 -> enqueued s1 = enqueued s -> drains s1 -> drains s.
Proof.
  intros H1 He (n & s' & Hr & He' & Hx). exists (S n), s'.
  simpl in *. rewrite H1; simpl. split_and!; [done|congruence..].
Qed.

Lemma worker_step_frame s s1 :
  worker_step m MTE MTL sys s = Some s1 ->
  user s1 = user s /\ signal s1 = signal s /\ enqueued s1 = enqueued s.
Proof.
  unfold worker_step, on_entry, status_at. intros H.
  destruct (wrk s); try (by simplify_option_eq).
  - simplify_option_eq. destruct (task s); [|destruct (signal s) eqn:?]; by simplify_eq.
  - destruct slept; by simplify_eq.
  - destruct (submitted s =? 0); [by simplify_eq|].
    destruct (ent s !! p); by simplify_eq/=.
Qed.

Lemma quiescent_step s s1 :
  quiescent s -> step m MTE MTL sys Worker s = Some s1 -> quiescent s1.
Proof.
  intros [Hi Hu Hg] H1. destruct (worker_step_frame _ _ H1) as (Eu & Eg & Ee).
  constructor; [|congruence..].
  eapply step_inv; try done. simpl. rewrite Hu. destruct (wrk s); try done. apply orb_true_r.
Qed.

(** To show that a state drains it is enough to show that its successor does. *)
Lemma drains_next s s1 :
  quiescent s -> step m MTE MTL sys Worker s = Some s1 ->
  (quiescent s1 -> drains s1) -> drains s.
Proof.
  intros Hq H1 Hd. destruct (worker_step_frame _ _ H1) as (_ & _ & Ee).
  eapply drains_step; [done..|]. apply Hd. by eapply quiescent_step.
Qed.

(** The entry at the head of a non-empty ring is released. *)
Lemma head_busy s :
  quiescent s -> exe_count s < enq_count s ->
  status_at s (pos MTE MTL (exe_count s)) = Some BENTRY_BUSY.
Proof.
  intros [Hi Hu _] Hc. apply (inv_busy _ _ _ _ Hi); [lia|].
  intros _. unfold unreleased. by rewrite Hu.
Qed.

(** Either nothing is pending, and there is nothing to do, or something is. *)
Lemma drains_cases s :
  quiescent s -> (exe_count s < enq_count s -> drains s) -> drains s.
Proof.
  intros Hq Hd. pose proof (inv_count _ _ _ _ (q_inv _ Hq)).
  destruct (decide (exe_count s = enq_count s)); [by apply drains_done; [apply Hq|]|].
  apply Hd. lia.
Qed.

Lemma ent_at s k : quiescent s -> exists e, ent s !! pos MTE MTL k = Some e.
Proof.
  intros Hq. destruct (inv_ent _ _ _ _ (q_inv _ Hq) (pos MTE MTL k)) as (e & He & _);
    [by apply pos_in_ring|by exists e].
Qed.

(** The execution loop, when the snapshot covers everything pending. *)
Lemma drains_loop_all n : forall s p,
  quiescent s -> wrk s = WLoop p -> submitted s = enq_count s - exe_count s ->
  n = Z.to_nat (submitted s) -> drains s.
Proof.
  induction n as [|n IH]; intros s p Hq Hw Hsub Hn.
  - apply drains_done; [apply Hq|]. pose proof (inv_count _ _ _ _ (q_inv _ Hq)). lia.
  - pose proof (inv_wrk _ _ _ _ (q_inv _ Hq)) as Hok. unfold wrk_ok in Hok. rewrite Hw in Hok.
    destruct Hok as (_ & -> & Hcnt). destruct (ent_at s (exe_count s) Hq) as [e He].
    eapply drains_next; [done| |intros Hq1].
    { simpl. unfold worker_step, on_entry. rewrite Hw, He.
      destruct (Z.eqb_spec (submitted s) 0); [lia|done]. }
    eapply drains_next; [done| |intros Hq2].
    { simpl. unfold worker_step, on_entry. simpl. by rewrite lookup_insert_eq. }
    eapply drains_next; [done|done|intros Hq3].
    eapply IH; [done|done|..].
    + simpl. pose proof (inv_count _ _ _ _ (q_inv _ Hq)).
      unfold ring_size, enq_count, exe_count in *; simpl. rewrite length_app; simpl.
      rewrite to_short_id by (unfold SHRT_MAX in *; lia). lia.
    + simpl. pose proof (inv_count _ _ _ _ (q_inv _ Hq)). unfold ring_size in *.
      rewrite to_short_id by (unfold SHRT_MAX in *; lia). lia.
Qed.

(** One step of the worker whose successor [step] computes. *)
Ltac wstep := eapply drains_next; [eassumption|simpl; unfold worker_step; simpl|intros ?].

Lemma wrk_ok_of s : quiescent s -> wrk_ok MTE MTL s.
Proof. intros Hq. apply (inv_wrk _ _ _ _ (q_inv _ Hq)). Qed.

Lemma drains_tail_entry s p t : quiescent s -> wrk s = WTailEntry p t -> drains s.
Proof.
  intros Hq Hw. wstep; [by rewrite Hw|].
  eapply drains_loop_all; [done|done| |done]. simpl.
  by apply (snapshot_count m MTE MTL HE HL HS s p t); [apply Hq|].
Qed.

Lemma drains_tail_table s p : quiescent s -> wrk s = WTailTable p -> drains s.
Proof. intros Hq Hw. wstep; [by rewrite Hw|]. by eapply drains_tail_entry. Qed.

Lemma drains_poll s p : quiescent s -> wrk s = WPoll p -> drains s.
Proof.
  intros Hq Hw. apply drains_cases; [done|intros Hc].
  pose proof (wrk_ok_of s Hq) as Hok. unfold wrk_ok in Hok. rewrite Hw in Hok.
  destruct Hok as (_ & _ & ->).
  wstep; [by rewrite Hw, head_busy|]. by eapply drains_tail_table.
Qed.

Lemma drains_top s : quiescent s -> wrk s = WTop -> drains s.
Proof. intros Hq Hw. wstep; [by rewrite Hw|]. by eapply drains_poll. Qed.

Lemma drains_pub_table s p : quiescent s -> wrk s = WPubTable p -> drains s.
Proof.
  intros Hq Hw. wstep; [by rewrite Hw|]. wstep; [done|].
  wstep; [by rewrite (q_signal _ Hq)|]. by apply drains_top.
Qed.

Lemma drains_loop n : forall s p,
  quiescent s -> wrk s = WLoop p -> n = Z.to_nat (submitted s) -> drains s.
Proof.
  induction n as [|n IH]; intros s p Hq Hw Hn;
    pose proof (wrk_ok_of s Hq) as Hok; unfold wrk_ok in Hok; rewrite Hw in Hok;
    destruct Hok as (_ & -> & Hcnt).
  - wstep; [rewrite Hw; destruct (Z.eqb_spec (submitted s) 0); [done|lia]|].
    by eapply drains_pub_table.
  - destruct (ent_at s (exe_count s) Hq) as [e He].
    wstep; [unfold on_entry; rewrite Hw, He; destruct (Z.eqb_spec (submitted s) 0); [lia|done]|].
    wstep; [unfold on_entry; simpl; by rewrite lookup_insert_eq|].
    wstep; [done|]. eapply IH; [done|done|]. simpl.
    pose proof (inv_count _ _ _ _ (q_inv _ Hq)). unfold ring_size in *.
    rewrite to_short_id by (unfold SHRT_MAX in *; lia). lia.
Qed.

Lemma drains_finish s p b : quiescent s -> wrk s = WFinish p b -> drains s.
Proof.
  intros Hq Hw. wstep; [by rewrite Hw|]. wstep; [done|]. wstep; [done|].
  by eapply drains_poll.
Qed.

Lemma drains_prepare s p : quiescent s -> wrk s = WPrepare p -> drains s.
Proof.
  intros Hq Hw. apply drains_cases; [done|intros Hc].
  pose proof (wrk_ok_of s Hq) as Hok. unfold wrk_ok in Hok. rewrite Hw in Hok.
  destruct Hok as (_ & _ & ->). pose proof (head_busy s Hq Hc) as Hb.
  wstep; [by rewrite Hw|]. wstep; [done|]. wstep; [done|].
  wstep; [unfold status_at in *; simpl; by rewrite Hb|]. by eapply drains_finish.
Qed.

Lemma drains_recheck s p : quiescent s -> wrk s = WRecheck p -> drains s.
Proof.
  intros Hq Hw. apply drains_cases; [done|intros Hc].
  pose proof (wrk_ok_of s Hq) as Hok. unfold wrk_ok in Hok. rewrite Hw in Hok.
  destruct Hok as (_ & _ & ->).
  wstep; [by rewrite Hw, head_busy|]. by eapply drains_finish.
Qed.

Lemma drains_next_entry s p : quiescent s -> wrk s = WNext p -> drains s.
Proof. intros Hq Hw. wstep; [by rewrite Hw|]. by eapply drains_loop. Qed.

(** From every program point of the worker but the sleep and the exit. *)
Lemma drains_any s :
  quiescent s -> wrk s <> WExit ->
  (forall p, wrk s = WSchedule p -> task s = TASK_RUNNING) -> drains s.
Proof.
  intros Hq Hexit Hsleep. pose proof (q_signal _ Hq) as Hg. destruct (wrk s) eqn:Hw.
  - by apply drains_top.
  - by eapply drains_poll.
  - wstep; [by rewrite Hw, Hg|].
    destruct (time_after (jiffies s) (timeout s)) eqn:Ht;
      (wstep; [by rewrite Ht|]); [by eapply drains_prepare|by eapply drains_poll].
  - destruct (time_after (jiffies s) (timeout s)) eqn:Ht;
      (wstep; [by rewrite Hw, Ht|]); [by eapply drains_prepare|by eapply drains_poll].
  - by eapply drains_prepare.
  - wstep; [by rewrite Hw|]. wstep; [done|]. by eapply drains_recheck.
  - wstep; [by rewrite Hw|]. by eapply drains_recheck.
  - by eapply drains_recheck.
  - wstep; [by rewrite Hw, (Hsleep _ eq_refl)|]. by eapply drains_finish.
  - by eapply drains_finish.
  - wstep; [by rewrite Hw|]. wstep; [done|]. by eapply drains_poll.
  - wstep; [by rewrite Hw|]. by eapply drains_poll.
  - by eapply drains_tail_table.
  - by eapply drains_tail_entry.
  - by eapply drains_loop.
  - pose proof (wrk_ok_of s Hq) as Hok. unfold wrk_ok in Hok. rewrite Hw in Hok.
    destruct Hok as (_ & -> & _). destruct (ent_at s (exe_count s - 1) Hq) as [e He].
    wstep; [unfold on_entry; by rewrite Hw, He|]. by eapply drains_next_entry.
  - by eapply drains_next_entry.
  - by eapply drains_pub_table.
  - wstep; [by rewrite Hw|]. wstep; [by rewrite Hg|]. by apply drains_top.
  - wstep; [by rewrite Hw, Hg|]. by apply drains_top.
  - done.
Qed.
End progress.

(** The published head, when it is not being stored. *)
Lemma pub_head_released m MTE MTL s :
  inv m MTE MTL s -> (forall q, wrk s <> WPubEntry q) ->
  pub_head s = pos MTE MTL (rel_count s).
Proof.
  intros Hi Hq. pose proof (inv_wrk _ _ _ _ Hi) as Hw. unfold wrk_ok in Hw.
  destruct (wrk s); destruct_and?; try congruence. by destruct (Hq p).
Qed.

(** ** Safety *)

(** C4: in every calm execution the worker has executed a prefix of what the
    user thread submitted, in the order of submission, each request once and
    with its own arguments, and at most one entry less than the size of the
    ring is pending. *)
Theorem executed_prefix_of_enqueued m MTE MTL sys s :
  0 < MTE -> 0 < MTL -> MTE * MTL <= SHRT_MAX ->
  reachable m MTE MTL sys s ->
  executed s ++ pending s = enqueued s /\ Z.of_nat (length (pending s)) < ring_size MTE MTL.
Proof.
  intros HE HL HS Hr. pose proof (reachable_inv _ _ _ _ HE HL HS _ Hr) as Hi.
  pose proof (inv_count _ _ _ _ Hi) as Hc. unfold pending. split.
  - rewrite (inv_exec _ _ _ _ Hi) at 1. apply take_drop.
  - rewrite length_drop. unfold enq_count, exe_count, rel_count in *. lia.
Qed.

(** ** Refinement of the bounded queue *)
Section refinement.
Context (m : arch) (MTE MTL : Z) (sys : list call -> call -> Z).

(** What the ring holds between the worker and the tail are the calls submitted
    and not executed. *)
Lemma queue_pending s : inv m MTE MTL s -> queue m MTE MTL s = Fifo (pending s) (executed s).
Proof.
  intros Hi. pose proof (inv_count _ _ _ _ Hi) as Hc. unfold queue, pending. f_equal.
  assert (length (executed s) <= length (enqueued s))%nat as Hle by (unfold exe_count, enq_count in *; lia).
  apply list_eq. intros i. rewrite list_lookup_fmap, lookup_drop.
  destruct (decide (Z.of_nat i < enq_count s - exe_count s)) as [Hlt|Hge].
  - rewrite lookup_seqZ_lt by done. simpl.
    destruct (lookup_lt_is_Some_2 (enqueued s) (length (executed s) + i)) as [c Hlk].
    { unfold exe_count, enq_count in *. lia. }
    destruct (inv_queue _ _ _ _ Hi (length (executed s) + i)%nat c) as (e & He & Hcall);
      [unfold exe_count; lia|done|].
    rewrite Hlk. unfold ring_call, exe_count. rewrite Nat2Z.inj_add in He. rewrite He. simpl. by rewrite Hcall.
  - rewrite lookup_seqZ_ge by lia. symmetry. apply lookup_ge_None_2. unfold exe_count, enq_count in *. lia.
Qed.

Lemma queue_put s p r s' :
  0 < MTE -> 0 < MTL -> MTE * MTL <= SHRT_MAX ->
  inv m MTE MTL s -> calm MTE MTL User s = true -> user s = UAdvance p r ->
  step m MTE MTL sys User s = Some s' ->
  Z.of_nat (length (pending s)) < ring_size MTE MTL - 1 /\
  pending s' = pending s ++ [request_call m r] /\ executed s' = executed s.
Proof.
  intros HE HL HS Hi Hcalm Hu Hs. pose proof (inv_count _ _ _ _ Hi) as Hc.
  destruct (advance_inv _ _ _ HE HL HS _ _ _ _ Hi Hcalm Hu Hs) as (_ & He & Hx & _).
  simpl in Hcalm. rewrite Hu in Hcalm. apply andb_true_iff in Hcalm as [Hroom%Z.ltb_lt _].
  unfold pending, enq_count, exe_count in *. rewrite He, Hx, length_drop, drop_app_le by lia.
  split; [lia|done].
Qed.

(** The worker makes one call for each entry it has counted. *)
Lemma loop_logs p s s' :
  wrk s = WLoop p -> submitted s <> 0 -> step m MTE MTL sys Worker s = Some s' ->
  enqueued s' = enqueued s /\ exists c, executed s' = executed s ++ [c].
Proof.
  intros Hw Hsub Hs. simpl in Hs. unfold worker_step, on_entry in Hs. rewrite Hw in Hs.
  apply Z.eqb_neq in Hsub. rewrite Hsub in Hs. destruct (ent s !! p) as [e|]; simplify_eq/=.
  split; [done|]. by exists (entry_call m e).
Qed.

Lemma queue_get s s' c :
  inv m MTE MTL s' -> enqueued s' = enqueued s -> executed s' = executed s ++ [c] ->
  pending s = c :: pending s'.
Proof.
  intros Hi' He Hx. pose proof (inv_exec _ _ _ _ Hi') as Hx'. pose proof (inv_count _ _ _ _ Hi') as Hc.
  unfold pending, enq_count, exe_count in *. rewrite He, Hx in *. rewrite length_app, Nat.add_1_r in *.
  apply drop_S. rewrite <- (lookup_take_lt _ (S (length (executed s)))), <- Hx' by lia.
  by rewrite lookup_app_r, Nat.sub_diag by lia.
Qed.

(** A step that stands for no action of the queue leaves the logs. *)
Lemma silent_logs ev s s' :
  action m ev s = Silent -> step m MTE MTL sys ev s = Some s' ->
  enqueued s' = enqueued s /\ executed s' = executed s.
Proof.
  intros Ha Hs. destruct ev; simpl in Ha, Hs.
  - by destruct (user s); simplify_eq.
  - by destruct (user s); simplify_eq.
  - unfold user_step, on_entry in Hs. destruct (user s) eqn:Eu; try done; try (by simplify_eq).
    + simplify_eq. by destruct (has_flag _ _).
    + by destruct l; simplify_option_eq.
    + by simplify_option_eq.
  - unfold worker_step, on_entry, status_at in Hs. destruct (wrk s); try (by simplify_option_eq).
    + destruct (task s), (signal s); by simplify_eq.
    + destruct slept; by simplify_eq.
    + destruct (submitted s =? 0); [by simplify_eq|done].
  - by simplify_eq.
  - by simplify_eq.
Qed.
End refinement.

(** C2: the steps of calm executions simulate a FIFO queue of one entry less than
    the ring.  The queue a state stands for is read from the entries of the ring
    and the log of the calls made.  The store that moves the tail puts the call the
    wrapper was asked for at the back, and there is place for it; an iteration of
    the worker's loop takes the call at the front, which exists, and exactly this
    call is made; every other step leaves the queue as it is.  Calm includes that
    the tail moves only when there is room in the ring: C25 says when the test of
    the code ensures it. *)
Theorem protocol_refines_fifo m MTE MTL sys s ev s' :
  0 < MTE -> 0 < MTL -> MTE * MTL <= SHRT_MAX ->
  reachable m MTE MTL sys s -> calm MTE MTL ev s = true ->
  step m MTE MTL sys ev s = Some s' ->
  fifo_step (ring_size MTE MTL - 1) (action m ev s) (queue m MTE MTL s)
  = Some (queue m MTE MTL s').
Proof.
  intros HE HL HS Hr Hcalm Hs. pose proof (reachable_inv _ _ _ _ HE HL HS _ Hr) as Hi.
  pose proof (step_inv _ _ _ _ HE HL HS _ _ _ Hi Hcalm Hs) as Hi'.
  rewrite !queue_pending by done. destruct (action m ev s) as [c| |] eqn:Ea.
  - destruct ev; try done; simpl in Ea; [|by destruct (wrk s), (submitted s =? 0)].
    destruct (user s) as [| | | | | | | | | |p r| |] eqn:Eu; try done. injection Ea as <-.
    destruct (queue_put _ _ _ _ _ _ _ _ HE HL HS Hi Hcalm Eu Hs) as (Hlen & -> & ->).
    simpl. by destruct (Z.ltb_spec (Z.of_nat (length (pending s))) (ring_size MTE MTL - 1)); [|lia].
  - destruct ev; try done; simpl in Ea; [by destruct (user s)|].
    destruct (wrk s) eqn:Ew; try done. destruct (Z.eqb_spec (submitted s) 0) as [|Hsub]; [done|].
    destruct (loop_logs _ _ _ _ _ _ _ Ew Hsub Hs) as (He & c & Hx).
    rewrite (queue_get _ _ _ _ _ _ Hi' He Hx). simpl. by rewrite Hx.
  - destruct (silent_logs _ _ _ _ _ _ _ Ea Hs) as [He Hx]. unfold pending. by rewrite He, Hx.
Qed.

(** C19: moving the tail submits exactly the call the wrapper was asked for: its
    number and its arguments at their machine width, whatever was left in the
    entry before. *)
Theorem advance_submits_request m MTE MTL sys s p r s' :
  0 < MTE -> 0 < MTL -> MTE * MTL <= SHRT_MAX ->
  reachable m MTE MTL sys s -> user s = UAdvance p r -> calm MTE MTL User s = true ->
  step m MTE MTL sys User s = Some s' ->
  enqueued s' = enqueued s ++ [request_call m r].
Proof.
  intros HE HL HS Hr Hu Hcalm Hs. pose proof (reachable_inv _ _ _ _ HE HL HS _ Hr) as Hi.
  by destruct (advance_inv _ _ _ HE HL HS _ _ _ _ Hi Hcalm Hu Hs) as (_ & ? & _).
Qed.

(** C39: the full test of [update_index] is sound when the published head is not
    at the start of a table and not being published: once it lets the user
    thread move the tail there is room in the ring. *)
Theorem full_test_sound m MTE MTL sys s p r s' :
  0 < MTE -> 0 < MTL -> MTE * MTL <= SHRT_MAX ->
  reachable m MTE MTL sys s ->
  (forall q, wrk s <> WPubEntry q) -> head_entry (hdr s) <> 0 ->
  user s = UCheckEntry p r \/ user s = UCheckTable p r ->
  step m MTE MTL sys User s = Some s' -> user s' = UAdvance p r ->
  room MTE MTL s' = true.
Proof.
  intros HE HL HS Hr Hpub Hhe Hu Hs Hu'.
  pose proof (reachable_inv _ _ _ _ HE HL HS _ Hr) as Hi.
  pose proof (pub_head_released _ _ _ _ Hi Hpub) as Hhead.
  pose proof (inv_count _ _ _ _ Hi) as Hc. pose proof (inv_tail _ _ _ _ Hi) as Ht.
  assert (enqueued s' = enqueued s /\ released s' = released s /\
          update_index_full (head_table (hdr s)) (head_entry (hdr s))
            (tail_table (hdr s)) (tail_entry (hdr s)) = false) as (E1 & E2 & Hfull).
  { simpl in Hs. unfold user_step, update_index_full in *.
    destruct Hu as [Hu|Hu]; rewrite Hu in Hs; simplify_eq; simpl in Hu'; revert Hu';
      [destruct (_ + 1 =? _)|destruct (tail_table _ =? _)]; rewrite ?andb_false_r; done. }
  unfold room, enq_count, rel_count in *. rewrite E1, E2.
  apply Z.ltb_lt. apply Z.nle_gt. intros Hge.
  assert (tail s = pos MTE MTL (enq_count s)) as Htail.
  { unfold tail_ok in Ht. by destruct Hu as [Hu|Hu]; rewrite Hu in Ht. }
  apply not_true_iff_false in Hfull. apply Hfull.
  apply (update_index_full_spec MTE MTL HE HL); unfold pub_head, tail in *.
  - rewrite Hhead. by apply pos_in_ring.
  - rewrite Htail. by apply pos_in_ring.
  - split; [done|]. rewrite Hhead, Htail. apply dist_pos; unfold enq_count, rel_count in *; lia.
Qed.

(** ** Progress *)

(** C7: whenever the user thread is between two calls, no signal is pending and
    the worker is neither asleep nor gone, the worker alone executes, in a
    finite number of steps, everything that was submitted. *)
Theorem worker_drains_ring m MTE MTL sys s :
  0 < MTE -> 0 < MTL -> MTE * MTL <= SHRT_MAX ->
  reachable m MTE MTL sys s -> user s = UIdle -> signal s = false -> wrk s <> WExit ->
  (forall p, wrk s = WSchedule p -> task s = TASK_RUNNING) ->
  exists n s', run m MTE MTL sys (replicate n Worker) s = Some s' /\
               enqueued s' = enqueued s /\ executed s' = enqueued s.
Proof.
  intros HE HL HS Hr Hu Hg Hw Hsl. apply (drains_any m MTE MTL sys HE HL HS); try done.
  constructor; try done. by eapply reachable_inv.
Qed.

(** The waking half of [batch_start], alone on the header: it wakes a worker
    that asked for it and gives the flags back without its own mark. *)
Lemma has_flag_or f b : 0 <= b < 32 -> 
  negb (Z.land (to_uint (Z.lor f (Z.shiftl 1 b))) (Z.shiftl 1 b) =? 0) = true.
Proof.
  intros Hb. apply negb_true_iff, Z.eqb_neq. intros E.
  apply (f_equal (fun x => Z.testbit x b)) in E. revert E.
  unfold to_uint, wrap_u. rewrite Z.bits_0, Z.land_spec, Z.mod_pow2_bits_low by lia.
  rewrite Z.lor_spec, Z.shiftl_spec, Z.sub_diag by lia. simpl. by rewrite orb_true_r.
Qed.

Lemma run_app m MTE MTL sys l1 l2 s s1 :
  run m MTE MTL sys l1 s = Some s1 ->
  run m MTE MTL sys (l1 ++ l2) s = run m MTE MTL sys l2 s1.
Proof.
  revert s. induction l1 as [|ev l1 IH]; simpl; intros s H; [by simplify_eq|].
  destruct (step m MTE MTL sys ev s) as [s0|]; simpl in *; [by apply IH|done].
Qed.

(** The calm part of an execution. *)
Fixpoint calm_run (m : arch) (MTE MTL : Z) (sys : list call -> call -> Z)
    (evs : list event) (s : state) : option state :=
  match evs with
  | [] => Some s
  | ev :: evs' =>
      if calm MTE MTL ev s
      then s' ← step m MTE MTL sys ev s; calm_run m MTE MTL sys evs' s'
      else None
  end.

Lemma calm_run_reachable m MTE MTL sys evs s s' :
  reachable m MTE MTL sys s -> calm_run m MTE MTL sys evs s = Some s' ->
  reachable m MTE MTL sys s'.
Proof.
  revert s. induction evs as [|ev evs IH]; simpl; intros s Hr H; [by simplify_eq|].
  destruct (calm MTE MTL ev s) eqn:Hc; [|done].
  destruct (step m MTE MTL sys ev s) as [s1|] eqn:Hs; simpl in H; [|done].
  apply (IH s1); [|done]. by eapply reach_step.
Qed.

Lemma calm_run_run m MTE MTL sys evs s s' :
  calm_run m MTE MTL sys evs s = Some s' -> run m MTE MTL sys evs s = Some s'.
Proof.
  revert s. induction evs as [|ev evs IH]; simpl; intros s H; [done|].
  destruct (calm MTE MTL ev s); [|done].
  destruct (step m MTE MTL sys ev s); simpl in *; [by apply IH|done].
Qed.

Lemma batch_start_run m MTE MTL sys s :
  user s = UIdle -> has_flag (hdr s) ESCA_WORKER_NEED_WAKEUP = true ->
  exists s', calm_run m MTE MTL sys (BatchStart :: replicate 6 User) s = Some s' /\
    user s' = UIdle /\ task s' = TASK_RUNNING /\ wrk s' = wrk s /\
    enqueued s' = enqueued s /\ executed s' = executed s /\ ent s' = ent s /\
    signal s' = signal s /\ tail s' = tail s /\ pub_head s' = pub_head s /\
    flags (hdr s') = to_uint (Z.ldiff (to_uint (Z.lor (flags (hdr s)) ESCA_START_WAKEUP))
                                      ESCA_START_WAKEUP).
Proof.
  intros Hu Hf. eexists. simpl. rewrite Hu; simpl. unfold user_step; simpl.
  rewrite Hf; simpl. unfold has_flag; simpl. unfold ESCA_START_WAKEUP.
  rewrite has_flag_or by lia; simpl. split_and!; reflexivity.
Qed.

(** C18: a worker that sleeps after announcing itself with [NEED_WAKEUP] is woken
    by the next [batch_start], and then executes everything submitted. *)
Theorem batch_start_wakes_and_drains m MTE MTL sys s p :
  0 < MTE -> 0 < MTL -> MTE * MTL <= SHRT_MAX ->
  reachable m MTE MTL sys s -> user s = UIdle -> signal s = false ->
  wrk s = WSchedule p -> has_flag (hdr s) ESCA_WORKER_NEED_WAKEUP = true ->
  exists n s', run m MTE MTL sys (BatchStart :: replicate 6 User ++ replicate n Worker) s = Some s' /\
               enqueued s' = enqueued s /\ executed s' = enqueued s.
Proof.
  intros HE HL HS Hr Hu Hg Hw Hf.
  destruct (batch_start_run m MTE MTL sys s Hu Hf)
    as (s1 & Hrun & Hu1 & Ht1 & Hw1 & He1 & Hx1 & _ & Hg1 & _).
  assert (reachable m MTE MTL sys s1) as Hr1.
  { by eapply calm_run_reachable. }
  apply calm_run_run in Hrun.
  destruct (drains_any m MTE MTL sys HE HL HS s1) as (n & s' & Hn & He & Hx).
  - constructor; [by eapply reachable_inv|done|congruence].
  - by rewrite Hw1, Hw.
  - done.
  - exists n, s'. rewrite app_comm_cons, (run_app _ _ _ _ _ _ _ _ Hrun). split_and!; congruence.
Qed.
