(* ===== verification/ProtocolRuns.v ===== *)
(** * Executions of the ring protocol

    Concrete executions: those that instantiate the properties of
    [ProtocolProps], and those that show what happens outside of the calm
    schedules, with the table sizes of [default_config] and of esca.conf. *)
From stdpp Require Import base numbers list gmap.
From S2P Require Import Prelude Esca Ring IndirectCall Request Protocol ProtocolInv ProtocolProps.

(** [close(n)] on x86-64. *)
Definition close_request (n : Z) : request := Request (__ESCA_close x86_syscall) [n].

(** A wrapper with one argument, from its call to its return: three stores, the
    end of the filling, the test, the store of the tail and the release. *)
Definition submit_run (n : Z) : list event := Submit (close_request n) :: replicate 7 User.
(** The same when the tail leaves a table: two stores of the tail. *)
Definition submit_run_wrap (n : Z) : list event := Submit (close_request n) :: replicate 8 User.

(** Runs in the ring of [MTE] by [MTL] entries from its initial state. *)
Definition run_from (MTE MTL : Z) (evs : list event) : state :=
  default (init_state MTE MTL) (calm_run X86_64 MTE MTL sys_zero evs (init_state MTE MTL)).

Lemma run_from_reachable MTE MTL evs :
  is_Some (calm_run X86_64 MTE MTL sys_zero evs (init_state MTE MTL)) ->
  reachable X86_64 MTE MTL sys_zero (run_from MTE MTL evs).
Proof.
  intros [s Hs]. unfold run_from. rewrite Hs; simpl.
  eapply calm_run_reachable; [|done]. apply reach_initial, init_state_initial.
Qed.

(** The state after one more event. *)
Definition after (MTE MTL : Z) (ev : event) (s : state) : state :=
  default s (step X86_64 MTE MTL sys_zero ev s).

Lemma Some_default {A} (d : A) (o : option A) :
  bool_decide (is_Some o) = true -> o = Some (default d o).
Proof. intros H%bool_decide_eq_true. by destruct H as [a ->]. Qed.

Lemma is_Some_bool {A} (o : option A) : bool_decide (is_Some o) = true -> is_Some o.
Proof. apply bool_decide_eq_true. Qed.

Ltac reach := apply run_from_reachable, is_Some_bool; vm_compute; reflexivity.
Ltac some := apply Some_default; vm_compute; reflexivity.

(** Two requests submitted, one of them executed. *)
Definition ex_two : list event :=
  submit_run 5 ++ replicate 7 Worker ++ submit_run 6.

Lemma executed_prefix_of_enqueued_witness :
  length (executed (run_from 4 2 ex_two)) = 1%nat /\
  executed (run_from 4 2 ex_two) ++ pending (run_from 4 2 ex_two)
  = enqueued (run_from 4 2 ex_two).
Proof.
  split; [vm_compute; reflexivity|].
  apply (executed_prefix_of_enqueued X86_64 4 2 sys_zero); [lia..|vm_compute; done|reach].
Defined.

(** The step that executes the second request. *)
Definition ex_before_call : list event := ex_two ++ replicate 8 Worker.

Lemma protocol_refines_fifo_witness :
  exists s', step X86_64 4 2 sys_zero Worker (run_from 4 2 ex_before_call) = Some s' /\
    action X86_64 Worker (run_from 4 2 ex_before_call) = Get /\
    waiting (queue X86_64 4 2 (run_from 4 2 ex_before_call)) = [request_call X86_64 (close_request 6)] /\
    waiting (queue X86_64 4 2 s') = [] /\
    fifo_step (ring_size 4 2 - 1) (action X86_64 Worker (run_from 4 2 ex_before_call))
      (queue X86_64 4 2 (run_from 4 2 ex_before_call)) = Some (queue X86_64 4 2 s').
Proof.
  exists (after 4 2 Worker (run_from 4 2 ex_before_call)). split; [some|].
  split; [vm_compute; reflexivity|]. split; [vm_compute; reflexivity|]. split; [vm_compute; reflexivity|].
  eapply (protocol_refines_fifo X86_64 4 2 sys_zero _ Worker);
    [lia|lia|vm_compute; done|reach|vm_compute; reflexivity|some].
Defined.

(** A wrapper stopped before it moves the tail. *)
Definition ex_advance : list event := Submit (close_request 7) :: replicate 5 User.

Lemma advance_submits_request_witness :
  exists s', step X86_64 64 1 sys_zero User (run_from 64 1 ex_advance) = Some s' /\
    enqueued s' = enqueued (run_from 64 1 ex_advance)
                  ++ [request_call X86_64 (close_request 7)].
Proof.
  exists (after 64 1 User (run_from 64 1 ex_advance)). split; [some|].
  eapply (advance_submits_request X86_64 64 1 sys_zero _ (0, 0));
    [lia|lia|vm_compute; done|reach|vm_compute; reflexivity|vm_compute; reflexivity|some].
Defined.

(** The head at (0, 1), a wrapper at the test. *)
Definition ex_check : list event :=
  submit_run 5 ++ replicate 10 Worker ++ Submit (close_request 7) :: replicate 4 User.

Lemma full_test_sound_witness :
  exists s', step X86_64 4 2 sys_zero User (run_from 4 2 ex_check) = Some s' /\
    head_entry (hdr (run_from 4 2 ex_check)) = 1 /\ room 4 2 s' = true.
Proof.
  exists (after 4 2 User (run_from 4 2 ex_check)). split; [some|].
  split; [vm_compute; reflexivity|].
  eapply (full_test_sound X86_64 4 2 sys_zero (run_from 4 2 ex_check) (0, 1) (close_request 7));
    [lia|lia|vm_compute; done|reach| |vm_compute; done|left; vm_compute; reflexivity
    |some|vm_compute; reflexivity].
  intros q. vm_compute. done.
Defined.

Lemma worker_drains_ring_witness :
  pending (run_from 4 2 ex_two) <> [] /\
  exists n s', run X86_64 4 2 sys_zero (replicate n Worker) (run_from 4 2 ex_two) = Some s' /\
               enqueued s' = enqueued (run_from 4 2 ex_two) /\
               executed s' = enqueued (run_from 4 2 ex_two).
Proof.
  split; [vm_compute; done|].
  apply (worker_drains_ring X86_64 4 2 sys_zero);
    [lia|lia|vm_compute; done|reach|vm_compute; reflexivity|vm_compute; reflexivity|vm_compute; done|].
  intros p. vm_compute. done.
Defined.

(** The worker goes to sleep on an empty ring, then a request arrives. *)
Definition ex_asleep : list event := replicate 8 Worker ++ submit_run 9.

Lemma batch_start_wakes_and_drains_witness :
  step X86_64 64 1 sys_zero Worker (run_from 64 1 ex_asleep) = None /\
  pending (run_from 64 1 ex_asleep) <> [] /\
  exists n s', run X86_64 64 1 sys_zero (BatchStart :: replicate 6 User ++ replicate n Worker)
                 (run_from 64 1 ex_asleep) = Some s' /\
               enqueued s' = enqueued (run_from 64 1 ex_asleep) /\
               executed s' = enqueued (run_from 64 1 ex_asleep).
Proof.
  split; [vm_compute; reflexivity|]. split; [vm_compute; done|].
  apply (batch_start_wakes_and_drains X86_64 64 1 sys_zero _ (0, 0));
    [lia|lia|vm_compute; done|reach|vm_compute; reflexivity..].
Defined.

(** ** Outside of the calm schedules *)

(** Twenty-one times the submission of 3 requests is 63; with one that wraps the
    ring of 64 entries is full, and one more request overwrites the first. *)
Definition ex_overrun : list event :=
  (seqZ 0 63 ≫= submit_run) ++ submit_run_wrap 63 ++ submit_run 64 ++ replicate 12 Worker.

(** C32: with the tables of [default_config] the test of [update_index] does not
    protect a ring whose head is at the start of a table: an application that
    submits 65 requests before the worker runs has 64 of them lost; the worker
    executes the last one only and finds the ring empty. *)
Theorem overrun_loses_requests :
  exists s, run X86_64 (max_table_entry default_config) (max_table_len default_config)
              sys_zero ex_overrun (init_state 64 1) = Some s /\
    length (enqueued s) = 65%nat /\
    executed s = [request_call X86_64 (close_request 64)] /\
    user s = UIdle /\ wrk s = WPoll (0, 1) /\ tail s = pub_head s.
Proof.
  exists (default (init_state 64 1) (run X86_64 64 1 sys_zero ex_overrun (init_state 64 1))).
  split; [some|]. split_and!; vm_compute; reflexivity.
Qed.

(** The head inside of the first table, the tail at its last entry, and a
    wrapper stopped between its two stores of the tail. *)
Definition ex_torn : list event :=
  (seqZ 0 5 ≫= submit_run) ++ replicate 22 Worker ++ (seqZ 5 58 ≫= submit_run)
    ++ (Submit (close_request 63) :: replicate 6 User)
    ++ replicate 5 Worker ++ replicate 1905 Worker.

(** C33: with the tables of esca.conf (10 tables of 64 entries) a worker that
    reads the tail between the two stores of [update_index] takes 635 entries
    for submitted when 59 are, and executes 640 calls for 64 requests. *)
Theorem torn_tail_replays_entries :
  exists s, run X86_64 64 10 sys_zero ex_torn (init_state 64 10) = Some s /\
    length (enqueued s) = 64%nat /\ length (executed s) = 640%nat.
Proof.
  exists (default (init_state 64 10) (run X86_64 64 10 sys_zero ex_torn (init_state 64 10))).
  split; [some|]. split_and!; vm_compute; reflexivity.
Qed.

(** The worker sleeps; batch_start wakes it and loads the flags for
    [flags &= ~START_WAKEUP]; the worker clears its mark, idles until the time
    is out, sets its mark and sleeps; the store of batch_start then erases the
    mark.  A request is submitted afterwards. *)
Definition ex_lost : list event :=
  replicate 8 Worker ++ BatchStart :: replicate 4 User ++ replicate 4 Worker ++ [User]
    ++ replicate 151 Tick ++ replicate 7 Worker ++ [User] ++ submit_run 9.

(** C34: since neither side updates [flags] atomically, a calm execution leads to
    a state in which a request is pending, the worker sleeps, and
    [batch_start] does nothing about it: it returns after its first load and
    leaves the state as it was. *)
Theorem lost_wakeup :
  let s := run_from 64 1 ex_lost in
  reachable X86_64 64 1 sys_zero s /\ pending s <> [] /\ signal s = false /\
  step X86_64 64 1 sys_zero Worker s = None /\
  run X86_64 64 1 sys_zero [BatchStart; User] s = Some s.
Proof.
  split_and!; [reach|vm_compute; done|vm_compute; reflexivity..].
Qed.
