(* ===== verification/World.v ===== *)
(** * The machine state: one user process, the kernel module, shared memory

    [preload_t] holds the globals of wrapper/preload.c and of the targets,
    [module_t] those of module/lioo.c, [memory] the pages both sides map.  The
    process is one user worker ([this_worker_id]); [Machine] has several, which
    share [module_t] and [memory].

    Memory that [aligned_alloc] returns has indeterminate contents: they come
    from the functions of [env], as do the results of the allocator and of the
    kernel functions that are not part of the program. *)
From stdpp Require Import base numbers list gmap.
From S2P Require Import Prelude Esca IndirectCall.

(** ** Shared memory *)
Record memory := Memory {
  hpages : gmap Z (list esca_table_t);         (* pages of headers *)
  regions : gmap Z (list esca_table_entry_t);  (* regions of entries *)
  heap : gmap Z Z;                             (* bytes of user memory *)
  next_page : Z                                (* name of the next allocation *)
}.

(** ** The preload library *)
Record iovec := IoVec { iov_base : Z; iov_len : Z }.
Record msghdr := MsgHdr {
  msg_name : Z; msg_namelen : Z; msg_iov : Z; msg_iovlen : Z;
  msg_control : Z; msg_controllen : Z; msg_flags : Z
}.

Record preload_t := Preload {
  in_segment : Z;
  batch_num : Z;
  syscall_num : Z;
  pgsize : Z;
  this_worker_id : Z;
  ucfg : globals;
  utable : list (option hptr);        (* table[CPU_NUM_LIMIT] *)
  mpool : Z; pool_offset : Z;         (* address of the memory pool; ull offset *)
  iovpool : gmap Z iovec; iovpool_addr : Z; iov_offset : Z;
  msgpool : gmap Z msghdr; msgpool_addr : Z; msg_offset : Z;
  off_arr : gmap (Z * Z) Z; off_arr_addr : Z (* lighty.c *)
}.

(** ** The kernel module *)
Inductive handler :=
| H_orig (addr : Z)  (* an entry of the kernel's own table *)
| H_register | H_wakeup | H_wait | H_config.

Record module_t := Module_ {
  kcfg : globals;
  ktable : list (option hptr);        (* table[CPU_NUM_LIMIT] *)
  submitted : list Z;                 (* short submitted[CPU_NUM_LIMIT] *)
  worker_task : list bool;            (* a task, or NULL *)
  syscall_table : gmap Z handler;
  (* what the module did, for the statements *)
  executed : list call;
  wakeups : list Z;                   (* wake_up(&worker_wait[i]) *)
  wq_wakeups : list Z                 (* wake_up_interruptible(&wq[i]) *)
}.

Record world := World {
  usr : preload_t;
  krn : module_t;
  mem : memory;
  allocs : list bool (* results of the next allocations; success when exhausted *)
}.

(** What the program calls and is not part of it. *)
Record env := Env {
  e_arch : arch;
  page_size : Z;                      (* PAGE_SIZE, what getpagesize() returns *)
  junk_entry : Z -> nat -> esca_table_entry_t;
  junk_table : Z -> nat -> esca_table_t;
  msecs_to_jiffies : Z -> Z;
  sys : list call -> call -> Z;       (* result of a system call *)
  pool_addr : Z; iov_addr : Z; msg_addr : Z (* malloc's results in init_worker *)
}.

(** ** Updates *)
Definition with_usr (f : preload_t -> preload_t) (w : world) : world :=
  World (f (usr w)) (krn w) (mem w) (allocs w).
Definition with_krn (f : module_t -> module_t) (w : world) : world :=
  World (usr w) (f (krn w)) (mem w) (allocs w).
Definition with_mem (f : memory -> memory) (w : world) : world :=
  World (usr w) (krn w) (f (mem w)) (allocs w).

Definition put_in_segment (v : Z) (u : preload_t) : preload_t :=
  Preload v (batch_num u) (syscall_num u) (pgsize u) (this_worker_id u) (ucfg u) (utable u)
    (mpool u) (pool_offset u) (iovpool u) (iovpool_addr u) (iov_offset u)
    (msgpool u) (msgpool_addr u) (msg_offset u) (off_arr u) (off_arr_addr u).
Definition put_batch_num (v : Z) (u : preload_t) : preload_t :=
  Preload (in_segment u) v (syscall_num u) (pgsize u) (this_worker_id u) (ucfg u) (utable u)
    (mpool u) (pool_offset u) (iovpool u) (iovpool_addr u) (iov_offset u)
    (msgpool u) (msgpool_addr u) (msg_offset u) (off_arr u) (off_arr_addr u).
Definition put_syscall_num (v : Z) (u : preload_t) : preload_t :=
  Preload (in_segment u) (batch_num u) v (pgsize u) (this_worker_id u) (ucfg u) (utable u)
    (mpool u) (pool_offset u) (iovpool u) (iovpool_addr u) (iov_offset u)
    (msgpool u) (msgpool_addr u) (msg_offset u) (off_arr u) (off_arr_addr u).
Definition put_pgsize (v : Z) (u : preload_t) : preload_t :=
  Preload (in_segment u) (batch_num u) (syscall_num u) v (this_worker_id u) (ucfg u) (utable u)
    (mpool u) (pool_offset u) (iovpool u) (iovpool_addr u) (iov_offset u)
    (msgpool u) (msgpool_addr u) (msg_offset u) (off_arr u) (off_arr_addr u).
Definition put_worker_id (v : Z) (u : preload_t) : preload_t :=
  Preload (in_segment u) (batch_num u) (syscall_num u) (pgsize u) v (ucfg u) (utable u)
    (mpool u) (pool_offset u) (iovpool u) (iovpool_addr u) (iov_offset u)
    (msgpool u) (msgpool_addr u) (msg_offset u) (off_arr u) (off_arr_addr u).
Definition put_ucfg (v : globals) (u : preload_t) : preload_t :=
  Preload (in_segment u) (batch_num u) (syscall_num u) (pgsize u) (this_worker_id u) v (utable u)
    (mpool u) (pool_offset u) (iovpool u) (iovpool_addr u) (iov_offset u)
    (msgpool u) (msgpool_addr u) (msg_offset u) (off_arr u) (off_arr_addr u).
Definition put_utable (v : list (option hptr)) (u : preload_t) : preload_t :=
  Preload (in_segment u) (batch_num u) (syscall_num u) (pgsize u) (this_worker_id u) (ucfg u) v
    (mpool u) (pool_offset u) (iovpool u) (iovpool_addr u) (iov_offset u)
    (msgpool u) (msgpool_addr u) (msg_offset u) (off_arr u) (off_arr_addr u).
Definition put_mpool (a o : Z) (u : preload_t) : preload_t :=
  Preload (in_segment u) (batch_num u) (syscall_num u) (pgsize u) (this_worker_id u) (ucfg u)
    (utable u) a o (iovpool u) (iovpool_addr u) (iov_offset u)
    (msgpool u) (msgpool_addr u) (msg_offset u) (off_arr u) (off_arr_addr u).
Definition put_pool_offset (o : Z) (u : preload_t) : preload_t := put_mpool (mpool u) o u.
Definition put_iovpool (p : gmap Z iovec) (a o : Z) (u : preload_t) : preload_t :=
  Preload (in_segment u) (batch_num u) (syscall_num u) (pgsize u) (this_worker_id u) (ucfg u)
    (utable u) (mpool u) (pool_offset u) p a o
    (msgpool u) (msgpool_addr u) (msg_offset u) (off_arr u) (off_arr_addr u).
Definition put_iov_offset (o : Z) (u : preload_t) : preload_t :=
  put_iovpool (iovpool u) (iovpool_addr u) o u.
Definition put_msgpool (p : gmap Z msghdr) (a o : Z) (u : preload_t) : preload_t :=
  Preload (in_segment u) (batch_num u) (syscall_num u) (pgsize u) (this_worker_id u) (ucfg u)
    (utable u) (mpool u) (pool_offset u) (iovpool u) (iovpool_addr u) (iov_offset u)
    p a o (off_arr u) (off_arr_addr u).
Definition put_msg_offset (o : Z) (u : preload_t) : preload_t :=
  put_msgpool (msgpool u) (msgpool_addr u) o u.
Definition put_off_arr (p : gmap (Z * Z) Z) (u : preload_t) : preload_t :=
  Preload (in_segment u) (batch_num u) (syscall_num u) (pgsize u) (this_worker_id u) (ucfg u)
    (utable u) (mpool u) (pool_offset u) (iovpool u) (iovpool_addr u) (iov_offset u)
    (msgpool u) (msgpool_addr u) (msg_offset u) p (off_arr_addr u).

Definition put_kcfg (v : globals) (k : module_t) : module_t :=
  Module_ v (ktable k) (submitted k) (worker_task k) (syscall_table k)
    (executed k) (wakeups k) (wq_wakeups k).
Definition put_ktable (v : list (option hptr)) (k : module_t) : module_t :=
  Module_ (kcfg k) v (submitted k) (worker_task k) (syscall_table k)
    (executed k) (wakeups k) (wq_wakeups k).
Definition put_submitted (v : list Z) (k : module_t) : module_t :=
  Module_ (kcfg k) (ktable k) v (worker_task k) (syscall_table k)
    (executed k) (wakeups k) (wq_wakeups k).
Definition put_worker_task (v : list bool) (k : module_t) : module_t :=
  Module_ (kcfg k) (ktable k) (submitted k) v (syscall_table k)
    (executed k) (wakeups k) (wq_wakeups k).
Definition log_call (c : call) (k : module_t) : module_t :=
  Module_ (kcfg k) (ktable k) (submitted k) (worker_task k) (syscall_table k)
    (executed k ++ [c]) (wakeups k) (wq_wakeups k).
Definition log_wakeup (i : Z) (k : module_t) : module_t :=
  Module_ (kcfg k) (ktable k) (submitted k) (worker_task k) (syscall_table k)
    (executed k) (wakeups k ++ [i]) (wq_wakeups k).
Definition log_wq (i : Z) (k : module_t) : module_t :=
  Module_ (kcfg k) (ktable k) (submitted k) (worker_task k) (syscall_table k)
    (executed k) (wakeups k) (wq_wakeups k ++ [i]).

Definition put_hpages (v : gmap Z (list esca_table_t)) (m : memory) : memory :=
  Memory v (regions m) (heap m) (next_page m).
Definition put_regions (v : gmap Z (list esca_table_entry_t)) (m : memory) : memory :=
  Memory (hpages m) v (heap m) (next_page m).
Definition put_heap (v : gmap Z Z) (m : memory) : memory :=
  Memory (hpages m) (regions m) v (next_page m).
Definition put_next (v : Z) (m : memory) : memory :=
  Memory (hpages m) (regions m) (heap m) v.

(** ** Accesses through pointers *)

Definition MW : Type -> Type := M world.
Definition get : MW world := fun w => Ret (w, w).

(** A pointer variable used as [p->...]: NULL faults. *)
Definition deref {A} (o : option (option A)) : MW A :=
  match o with
  | None => fail OutOfBounds
  | Some None => fail NullDeref
  | Some (Some p) => ret p
  end.

Definition hdr_lookup (p : hptr) (m : memory) : option esca_table_t :=
  l ← hpages m !! h_page p; aget l (h_off p).
Definition hdr_store (p : hptr) (h : esca_table_t) (m : memory) : option memory :=
  l ← hpages m !! h_page p; l' ← aset l (h_off p) h;
  Some (put_hpages (<[h_page p := l']> (hpages m)) m).

Definition load_hdr (p : hptr) : MW esca_table_t :=
  let! w := get in from_option_M OutOfBounds (hdr_lookup p (mem w)).
Definition update_hdr (p : hptr) (f : esca_table_t -> esca_table_t) : MW unit :=
  let! h := load_hdr p in
  let! w := get in
  let! m := from_option_M OutOfBounds (hdr_store p (f h) (mem w)) in
  modify (with_mem (fun _ => m)).

Definition ent_lookup (r s : Z) (m : memory) : option esca_table_entry_t :=
  l ← regions m !! r; aget l s.
Definition ent_store (r s : Z) (e : esca_table_entry_t) (m : memory) : option memory :=
  l ← regions m !! r; l' ← aset l s e;
  Some (put_regions (<[r := l']> (regions m)) m).

Definition load_ent (r s : Z) : MW esca_table_entry_t :=
  let! w := get in from_option_M OutOfBounds (ent_lookup r s (mem w)).
Definition update_ent (r s : Z) (f : esca_table_entry_t -> esca_table_entry_t) : MW unit :=
  let! e := load_ent r s in
  let! w := get in
  let! m := from_option_M OutOfBounds (ent_store r s (f e) (mem w)) in
  modify (with_mem (fun _ => m)).

(** Entries per page. *)
Definition epp (pgsize : Z) : Z := pgsize / sizeof_entry.
(** Headers that fit in a page. *)
Definition hpp (pgsize : Z) : Z := pgsize / sizeof_table.

(** ** Allocation *)
Definition alloc_result : MW bool :=
  fun w => match allocs w with
           | [] => Ret (true, w)
           | b :: l => Ret (b, World (usr w) (krn w) (mem w) l)
           end.

Definition fresh_page : MW Z :=
  let! w := get in
  do! modify (with_mem (put_next (next_page (mem w) + 1))) in
  ret (next_page (mem w)).
