(* ===== verification/Hook.v ===== *)
(** * Loading and unloading the module (module/lioo.c, module/lib)

    [lioo_init] finds the system call table behind KASLR, lifts the write
    protection, saves four entries and replaces them; [lioo_exit] puts them
    back.  The kernel's memory is a map from addresses to the handlers stored
    there; the write protection is bit 16 of cr0 on x86-64 and the bits of the
    page table entry on aarch64. *)
From stdpp Require Import base numbers list gmap.
From S2P Require Import Prelude Esca IndirectCall World.

(** include/systab.h, which the build generates from System.map, and the kernel
    constants the module uses. *)
Record systab := Systab {
  scTab : Z; create_io_thread_base : Z; wake_up_new_task_base : Z; sysMM : Z; sysWQ : Z
}.
Record kconst := KConst { PAGE_SIZE : Z; PTE_WRITE : Z; PTE_RDONLY : Z }.

Record kmach := KMach {
  cr0 : Z;
  ptes : gmap Z Z;                  (* page table entries, by page address *)
  words : gmap Z handler;           (* the words of the system call table *)
  syscall_table_ptr : Z;
  create_io_thread_ptr : Z;
  wake_up_new_task_ptr : Z;
  init_mm_ptr : Z;
  register_ori : option handler; exit_ori : option handler;
  wait_ori : option handler; init_conf_ori : option handler
}.

Definition MK : Type -> Type := M kmach.

Section hook.
Context (a : arch) (T : systab) (K : kconst).
Context (system_wq : Z). (* the address of system_wq in the running kernel *)

(** ** lib/symbol.c *)
Definition relocate (base : Z) : Z := to_ull (base + (system_wq - sysWQ T)).

Definition init_not_exported_symbol : MK unit :=
  modify (fun m =>
    KMach (cr0 m) (ptes m) (words m) (relocate (scTab T)) (relocate (create_io_thread_base T))
      (relocate (wake_up_new_task_base T)) (init_mm_ptr m)
      (register_ori m) (exit_ori m) (wait_ori m) (init_conf_ori m)).

Definition put_init_mm (v : Z) : MK unit :=
  modify (fun m => KMach (cr0 m) (ptes m) (words m) (syscall_table_ptr m) (create_io_thread_ptr m)
    (wake_up_new_task_ptr m) v (register_ori m) (exit_ori m) (wait_ori m) (init_conf_ori m)).

(** ** lib/util.c: bit 16 of cr0 *)
Definition put_cr0 (v : Z) : MK unit :=
  modify (fun m => KMach v (ptes m) (words m) (syscall_table_ptr m) (create_io_thread_ptr m)
    (wake_up_new_task_ptr m) (init_mm_ptr m)
    (register_ori m) (exit_ori m) (wait_ori m) (init_conf_ori m)).

Definition allow_writes_x86 : MK unit :=
  let! c := gets cr0 in put_cr0 (Z.clearbit c 16).
Definition disallow_writes_x86 : MK unit :=
  let! c := gets cr0 in put_cr0 (Z.setbit c 16).

(** ** lioo.c: the page table entry on aarch64 *)
Definition page_of (addr : Z) : Z := Z.ldiff addr (PAGE_SIZE K - 1).

Definition change_page_range (set_mask clear_mask pte : Z) : Z :=
  Z.lor (Z.ldiff pte clear_mask) set_mask.

(** [apply_to_page_range] on one page. *)
Definition change_memory_common (start set_mask clear_mask : Z) : MK unit :=
  let! t := gets ptes in
  let! pte := from_option_M Undefined (t !! start) in
  modify (fun m => KMach (cr0 m) (<[start := change_page_range set_mask clear_mask pte]> (ptes m))
    (words m) (syscall_table_ptr m) (create_io_thread_ptr m) (wake_up_new_task_ptr m) (init_mm_ptr m)
    (register_ori m) (exit_ori m) (wait_ori m) (init_conf_ori m)).

Definition set_page_rw (addr : Z) : MK unit := change_memory_common addr (PTE_WRITE K) (PTE_RDONLY K).
Definition set_page_ro (addr : Z) : MK unit := change_memory_common addr (PTE_RDONLY K) (PTE_WRITE K).

(** The address of an entry of the table. *)
Definition slot_addr (m : kmach) (nr : Z) : Z := syscall_table_ptr m + 8 * nr.

Definition allow_writes : MK unit :=
  match a with
  | X86_64 => allow_writes_x86
  | AArch64 => let! p := gets (fun m => page_of (slot_addr m __NR_esca_register)) in set_page_rw p
  end.
Definition disallow_writes : MK unit :=
  match a with
  | X86_64 => disallow_writes_x86
  | AArch64 => let! p := gets (fun m => page_of (slot_addr m __NR_esca_register)) in set_page_ro p
  end.

(** ** Accesses to the table *)
Definition writable (m : kmach) (addr : Z) : bool :=
  match a with
  | X86_64 => negb (Z.testbit (cr0 m) 16)
  | AArch64 =>
      match ptes m !! page_of addr with
      | Some pte => negb (Z.land pte (PTE_WRITE K) =? 0) && (Z.land pte (PTE_RDONLY K) =? 0)
      | None => false
      end
  end.

Definition load_slot (nr : Z) : MK handler :=
  fun m => match words m !! slot_addr m nr with
           | Some h => Ret (h, m)
           | None => Fault OutOfBounds
           end.
Definition store_slot (nr : Z) (h : handler) : MK unit :=
  fun m => if writable m (slot_addr m nr)
           then Ret (tt, KMach (cr0 m) (ptes m) (<[slot_addr m nr := h]> (words m))
                  (syscall_table_ptr m) (create_io_thread_ptr m) (wake_up_new_task_ptr m)
                  (init_mm_ptr m) (register_ori m) (exit_ori m) (wait_ori m) (init_conf_ori m))
           else Fault WriteProtected.

Definition put_oris (r e w c : handler) : MK unit :=
  modify (fun m => KMach (cr0 m) (ptes m) (words m) (syscall_table_ptr m) (create_io_thread_ptr m)
    (wake_up_new_task_ptr m) (init_mm_ptr m) (Some r) (Some e) (Some w) (Some c)).

(** ** lioo_init *)
Definition lioo_init : MK Z :=
  do! init_not_exported_symbol in
  do! match a with
      | X86_64 => ret tt
      | AArch64 => put_init_mm (relocate (sysMM T)) (* and the cycle counters *)
      end in
  do! allow_writes in
  (* backup *)
  let! r := load_slot __NR_esca_register in
  let! e := load_slot __NR_esca_wakeup in
  let! w := load_slot __NR_esca_wait in
  let! c := load_slot __NR_esca_config in
  do! put_oris r e w c in
  (* hooking *)
  do! store_slot __NR_esca_register H_register in
  do! store_slot __NR_esca_wakeup H_wakeup in
  do! store_slot __NR_esca_wait H_wait in
  do! store_slot __NR_esca_config H_config in
  do! disallow_writes in
  ret 0.

Definition restore_slot (nr : Z) (o : kmach -> option handler) : MK unit :=
  let! h := gets o in
  let! h := from_option_M Undefined h in store_slot nr h.

(** ** lioo_exit *)
Definition lioo_exit : MK unit :=
  do! allow_writes in
  do! restore_slot __NR_esca_register register_ori in
  do! restore_slot __NR_esca_wakeup exit_ori in
  do! restore_slot __NR_esca_wait wait_ori in
  do! restore_slot __NR_esca_config init_conf_ori in
  do! disallow_writes in
  match a with
  | X86_64 => ret tt
  | AArch64 => put_init_mm (relocate (sysMM T))
  end.
End hook.
