(* ===== verification/HookProps.v ===== *)
(** * Properties of loading and unloading the module

    On both architectures [lioo_init] replaces exactly four entries of the
    system call table and leaves it write-protected; [lioo_exit] restores the
    table word by word. *)
From stdpp Require Import base numbers list gmap.
From S2P Require Import Prelude Esca IndirectCall World Hook.

(** The numbers the module takes over. *)
Definition hook_numbers : list Z :=
  [__NR_esca_register; __NR_esca_wakeup; __NR_esca_wait; __NR_esca_config].

(** The kernel the module is loaded into: the four words exist and, on aarch64,
    lie in one mapped page; the bits of a page table entry are what their names
    say. *)
Record loadable (a : arch) (K : kconst) (tab : Z) (m : kmach) : Prop := {
  ld_words : Forall (fun nr => is_Some (words m !! (tab + 8 * nr))) hook_numbers;
  ld_pte : a = AArch64 -> is_Some (ptes m !! page_of K (tab + 8 * __NR_esca_register));
  ld_page : a = AArch64 -> Forall (fun nr =>
    page_of K (tab + 8 * nr) = page_of K (tab + 8 * __NR_esca_register)) hook_numbers;
  ld_bits : a = AArch64 -> Z.land (PTE_WRITE K) (PTE_RDONLY K) = 0 /\ PTE_WRITE K <> 0 /\
                           PTE_RDONLY K <> 0
}.

(** The parts of the machine the change of the protection leaves alone. *)
Record prot_frame (m m' : kmach) : Prop := {
  pf_words : words m' = words m;
  pf_ptr : syscall_table_ptr m' = syscall_table_ptr m;
  pf_ori : register_ori m' = register_ori m /\ exit_ori m' = exit_ori m /\
           wait_ori m' = wait_ori m /\ init_conf_ori m' = init_conf_ori m;
  pf_dom : forall p, is_Some (ptes m' !! p) <-> is_Some (ptes m !! p)
}.

Section props.
Context (a : arch) (T : systab) (K : kconst) (wq : Z).

Lemma change_page_set s c pte : Z.land s c = 0 ->
  Z.land (change_page_range s c pte) s = s /\ Z.land (change_page_range s c pte) c = 0.
Proof.
  intros Hd. unfold change_page_range. split; apply Z.bits_inj'; intros n Hn;
    pose proof (f_equal (fun z => Z.testbit z n) Hd) as Hb; simpl in Hb;
    rewrite Z.land_spec, Z.bits_0 in Hb; rewrite !Z.land_spec, !Z.lor_spec, !Z.ldiff_spec, ?Z.bits_0;
    destruct (Z.testbit s n), (Z.testbit c n), (Z.testbit pte n); done.
Qed.

Lemma change_memory_run m p s c pte :
  ptes m !! p = Some pte ->
  exists m', change_memory_common p s c m = Ret (tt, m') /\
    ptes m' !! p = Some (change_page_range s c pte) /\ prot_frame m m' /\ cr0 m' = cr0 m.
Proof.
  intros Hp. unfold change_memory_common, bind, gets. rewrite Hp. simpl. eexists. split; [done|].
  simpl. split; [by rewrite lookup_insert_eq|]. split; [|done]. constructor; try done. simpl.
  intros q. destruct (decide (p = q)) as [<-|Hne].
  - rewrite lookup_insert_eq, Hp. split; by intros _.
  - by rewrite lookup_insert_ne.
Qed.

Lemma allow_writes_run m :
  loadable a K (syscall_table_ptr m) m ->
  exists m', allow_writes a K m = Ret (tt, m') /\ prot_frame m m' /\
    (a = X86_64 -> cr0 m' = Z.clearbit (cr0 m) 16) /\
    Forall (fun nr => writable a K m' (slot_addr m' nr) = true) hook_numbers.
Proof.
  intros [Hw Hp Hpg Hb]. unfold allow_writes, writable, slot_addr. destruct a.
  - eexists. split; [reflexivity|]. split; [by constructor|]. split; [done|].
    apply Forall_true. intros nr. cbn [cr0]. by rewrite Z.clearbit_eq.
  - destruct (Hp eq_refl) as [pte Hpte]. destruct (Hb eq_refl) as (Hd & Hne & _).
    destruct (change_memory_run m _ (PTE_WRITE K) (PTE_RDONLY K) pte Hpte) as (m' & Hrun & Hpte' & Hf & Hc).
    exists m'. split; [exact Hrun|]. split; [done|]. split; [done|].
    eapply Forall_impl; [by apply Hpg|]. intros nr Heq. rewrite (pf_ptr _ _ Hf). simpl in Heq. rewrite Heq, Hpte'.
    destruct (change_page_set _ _ pte Hd) as [-> ->].
    by destruct (Z.eqb_spec (PTE_WRITE K) 0).
Qed.

Lemma disallow_writes_run m :
  loadable a K (syscall_table_ptr m) m ->
  exists m', disallow_writes a K m = Ret (tt, m') /\ prot_frame m m' /\
    (a = X86_64 -> cr0 m' = Z.setbit (cr0 m) 16) /\
    Forall (fun nr => writable a K m' (slot_addr m' nr) = false) hook_numbers.
Proof.
  intros [Hw Hp Hpg Hb]. unfold disallow_writes, writable, slot_addr. destruct a.
  - eexists. split; [reflexivity|]. split; [by constructor|]. split; [done|].
    apply Forall_true. intros nr. cbn [cr0]. by rewrite Z.setbit_eq.
  - destruct (Hp eq_refl) as [pte Hpte]. destruct (Hb eq_refl) as (Hd & _ & Hne).
    rewrite Z.land_comm in Hd.
    destruct (change_memory_run m _ (PTE_RDONLY K) (PTE_WRITE K) pte Hpte) as (m' & Hrun & Hpte' & Hf & Hc).
    exists m'. split; [exact Hrun|]. split; [done|]. split; [done|].
    eapply Forall_impl; [by apply Hpg|]. intros nr Heq. rewrite (pf_ptr _ _ Hf). simpl in Heq. rewrite Heq, Hpte'.
    destruct (change_page_set _ _ pte Hd) as [-> ->]. done.
Qed.

(** ** The table *)
Definition put_words (f : gmap Z handler -> gmap Z handler) (m : kmach) : kmach :=
  KMach (cr0 m) (ptes m) (f (words m)) (syscall_table_ptr m) (create_io_thread_ptr m)
    (wake_up_new_task_ptr m) (init_mm_ptr m)
    (register_ori m) (exit_ori m) (wait_ori m) (init_conf_ori m).

Lemma store_slot_run m nr h :
  writable a K m (slot_addr m nr) = true ->
  store_slot a K nr h m = Ret (tt, put_words <[slot_addr m nr := h]> m).
Proof. intros Hw. unfold store_slot. by rewrite Hw. Qed.

(** The four stores of [lioo_init] and of [lioo_exit]. *)
Definition store_four (r e w c : handler) (m : kmach) : kmach :=
  put_words (fun t => <[slot_addr m __NR_esca_config := c]> (<[slot_addr m __NR_esca_wait := w]>
    (<[slot_addr m __NR_esca_wakeup := e]> (<[slot_addr m __NR_esca_register := r]> t)))) m.

Lemma store_four_run r e w c m {A} (k : MK A) :
  Forall (fun nr => writable a K m (slot_addr m nr) = true) hook_numbers ->
  (do! store_slot a K __NR_esca_register r in
   do! store_slot a K __NR_esca_wakeup e in
   do! store_slot a K __NR_esca_wait w in
   do! store_slot a K __NR_esca_config c in k) m = k (store_four r e w c m).
Proof.
  intros Hw. unfold hook_numbers in Hw. repeat (apply Forall_cons in Hw as [? Hw]).
  rewrite (bind_eq _ _ _ _ _ (store_slot_run m __NR_esca_register r ltac:(done))).
  rewrite (bind_eq _ _ _ _ _ (store_slot_run (put_words _ m) __NR_esca_wakeup e ltac:(done))).
  rewrite (bind_eq _ _ _ _ _ (store_slot_run (put_words _ (put_words _ m)) __NR_esca_wait w ltac:(done))).
  rewrite (bind_eq _ _ _ _ _ (store_slot_run (put_words _ (put_words _ (put_words _ m)))
                                __NR_esca_config c ltac:(done))).
  done.
Qed.

Lemma loadable_frame tab m m' :
  loadable a K tab m -> (forall nr, nr ∈ hook_numbers -> is_Some (words m !! (tab + 8 * nr)) ->
    is_Some (words m' !! (tab + 8 * nr))) ->
  (forall p, is_Some (ptes m !! p) -> is_Some (ptes m' !! p)) -> loadable a K tab m'.
Proof.
  intros [H1 H2 H3 H4] Hw Hp. constructor; try done.
  - rewrite Forall_forall in *. intros nr Hnr. by apply Hw, H1.
  - intros Ha. by apply Hp, H2.
Qed.

Lemma loadable_prot tab m m' : prot_frame m m' -> loadable a K tab m -> loadable a K tab m'.
Proof.
  intros Hf Hl. eapply loadable_frame; [done|by rewrite (pf_words _ _ Hf)|apply Hf].
Qed.
End props.

(** ** lioo_init *)
Definition hooks (tab : Z) (t : gmap Z handler) : gmap Z handler :=
  <[tab + 8 * __NR_esca_config := H_config]> (<[tab + 8 * __NR_esca_wait := H_wait]>
    (<[tab + 8 * __NR_esca_wakeup := H_wakeup]> (<[tab + 8 * __NR_esca_register := H_register]> t))).

(** What the module remembers of the table it replaced. *)
Definition saved (tab : Z) (t : gmap Z handler) (m : kmach) : Prop :=
  register_ori m = t !! (tab + 8 * __NR_esca_register) /\
  exit_ori m = t !! (tab + 8 * __NR_esca_wakeup) /\
  wait_ori m = t !! (tab + 8 * __NR_esca_wait) /\
  init_conf_ori m = t !! (tab + 8 * __NR_esca_config).

(** Bit 16 of cr0 after the protection was lifted and put back. *)
Lemma cr0_restored c : Z.setbit (Z.clearbit c 16) 16 = Z.setbit c 16.
Proof.
  apply Z.bits_inj'. intros n Hn. rewrite !Z.setbit_eqb, Z.clearbit_eqb by lia.
  destruct (Z.eqb_spec 16 n), (Z.testbit c n); done.
Qed.

(** Nothing but the protection, the saved entries and the four words changes. *)
Record hooked (a : arch) (K : kconst) (tab : Z) (m m' : kmach) : Prop := {
  hk_ptr : syscall_table_ptr m' = tab;
  hk_words : words m' = hooks tab (words m);
  hk_saved : saved tab (words m) m';
  hk_prot : Forall (fun nr => writable a K m' (slot_addr m' nr) = false) hook_numbers;
  hk_cr0 : a = X86_64 -> cr0 m' = Z.setbit (cr0 m) 16;
  hk_ptes : forall p, is_Some (ptes m' !! p) <-> is_Some (ptes m !! p)
}.

Lemma lioo_init_run a T K wq m :
  loadable a K (relocate T wq (scTab T)) m ->
  exists m', lioo_init a T K wq m = Ret (0, m') /\ hooked a K (relocate T wq (scTab T)) m m'.
Proof.
  set (tab := relocate T wq (scTab T)). intros Hl. unfold lioo_init.
  rewrite (bind_eq (init_not_exported_symbol T wq) _ m tt _ eq_refl). set (m0 := KMach _ _ _ _ _ _ _ _ _ _ _).
  assert (exists m1, (match a with X86_64 => ret tt | AArch64 => put_init_mm (relocate T wq (sysMM T)) end) m0
            = Ret (tt, m1) /\ prot_frame m0 m1 /\ cr0 m1 = cr0 m0) as (m1 & Hrun1 & Hf1 & Hc1).
  { destruct a; (eexists; split; [reflexivity|]; split; [by constructor|done]). }
  mrun Hrun1. assert (loadable a K (syscall_table_ptr m1) m1) as Hl1.
  { rewrite (pf_ptr _ _ Hf1). eapply (loadable_prot a K tab); [exact Hf1|by destruct Hl]. }
  destruct (allow_writes_run a K m1 Hl1) as (m2 & Hrun2 & Hf2 & Hc2 & Hw2). mrun Hrun2.
  assert (syscall_table_ptr m2 = tab) as Hp2 by (by rewrite (pf_ptr _ _ Hf2), (pf_ptr _ _ Hf1)).
  assert (words m2 = words m) as Hwd2 by (by rewrite (pf_words _ _ Hf2), (pf_words _ _ Hf1)).
  pose proof (ld_words _ _ _ _ Hl) as Hwords. unfold hook_numbers in Hwords.
  apply Forall_cons in Hwords as [[r Hr] Hwords]. apply Forall_cons in Hwords as [[e He] Hwords].
  apply Forall_cons in Hwords as [[w Hw] Hwords]. apply Forall_cons in Hwords as [[c Hc] _].
  assert (forall nr h, words m !! (tab + 8 * nr) = Some h -> load_slot nr m2 = Ret (h, m2)) as Hload.
  { intros nr h Hh. unfold load_slot, slot_addr. by rewrite Hp2, Hwd2, Hh. }
  mrun (Hload _ _ Hr). mrun (Hload _ _ He). mrun (Hload _ _ Hw). mrun (Hload _ _ Hc).
  rewrite (bind_eq (put_oris r e w c) _ m2 tt _ eq_refl). set (m3 := KMach _ _ _ _ _ _ _ _ _ _ _).
  rewrite (store_four_run a K _ _ _ _ m3) by exact Hw2.
  set (m4 := store_four H_register H_wakeup H_wait H_config m3).
  assert (words m4 = hooks tab (words m)) as Hw4.
  { unfold m4, store_four, hooks, slot_addr. simpl. by rewrite Hp2, Hwd2. }
  assert (loadable a K (syscall_table_ptr m4) m4) as Hl4.
  { change (loadable a K (syscall_table_ptr m2) m4). rewrite Hp2.
    eapply (loadable_frame a K tab m2).
    - rewrite <- Hp2, (pf_ptr _ _ Hf2). by eapply loadable_prot.
    - intros nr _ Hs. rewrite Hw4, <- Hwd2. unfold hooks. rewrite !lookup_insert_is_Some'. auto.
    - done. }
  destruct (disallow_writes_run a K m4 Hl4) as (m5 & Hrun5 & Hf5 & Hc5 & Hw5). mrun Hrun5.
  exists m5. split; [done|]. destruct (pf_ori _ _ Hf5) as (O1 & O2 & O3 & O4). constructor.
  - by rewrite (pf_ptr _ _ Hf5).
  - by rewrite (pf_words _ _ Hf5), Hw4.
  - unfold saved. rewrite O1, O2, O3, O4, Hr, He, Hw, Hc. done.
  - exact Hw5.
  - intros Ha. rewrite (Hc5 Ha). change (cr0 m4) with (cr0 m2). rewrite (Hc2 Ha), Hc1. apply cr0_restored.
  - intros p. rewrite (pf_dom _ _ Hf5 p). change (ptes m4) with (ptes m2).
    by rewrite (pf_dom _ _ Hf2 p), (pf_dom _ _ Hf1 p).
Qed.

(** Putting the saved words back. *)
Lemma hooks_undone tab (t : gmap Z handler) r e w c :
  t !! (tab + 8 * __NR_esca_register) = Some r -> t !! (tab + 8 * __NR_esca_wakeup) = Some e ->
  t !! (tab + 8 * __NR_esca_wait) = Some w -> t !! (tab + 8 * __NR_esca_config) = Some c ->
  <[tab + 8 * __NR_esca_config := c]> (<[tab + 8 * __NR_esca_wait := w]>
    (<[tab + 8 * __NR_esca_wakeup := e]> (<[tab + 8 * __NR_esca_register := r]> (hooks tab t)))) = t.
Proof.
  intros Hr He Hw Hc. apply map_eq. intros x. unfold hooks.
  repeat match goal with
         | |- context [<[?k := _]> _ !! ?x] =>
             destruct (decide (k = x)) as [<-|]; [rewrite lookup_insert_eq|rewrite lookup_insert_ne by done]
         end; done.
Qed.

Lemma restore_slot_run a K m nr o h :
  o m = Some h -> restore_slot a K nr o m = store_slot a K nr h m.
Proof. intros Ho. unfold restore_slot, bind, gets. by rewrite Ho. Qed.

Lemma restore_four_run a K m r e w c {A} (k : MK A) :
  Forall (fun nr => writable a K m (slot_addr m nr) = true) hook_numbers ->
  register_ori m = Some r -> exit_ori m = Some e -> wait_ori m = Some w -> init_conf_ori m = Some c ->
  (do! restore_slot a K __NR_esca_register register_ori in
   do! restore_slot a K __NR_esca_wakeup exit_ori in
   do! restore_slot a K __NR_esca_wait wait_ori in
   do! restore_slot a K __NR_esca_config init_conf_ori in k) m = k (store_four r e w c m).
Proof.
  intros Hw Or Oe Ow Oc. rewrite <- (store_four_run a K r e w c m k Hw).
  unfold hook_numbers in Hw. repeat (apply Forall_cons in Hw as [? Hw]). unfold bind.
  rewrite (restore_slot_run _ _ _ _ _ r Or), (store_slot_run a K m __NR_esca_register r) by done.
  rewrite (restore_slot_run _ _ _ _ _ e) by exact Oe.
  rewrite (store_slot_run a K _ __NR_esca_wakeup e) by done.
  rewrite (restore_slot_run _ _ _ _ _ w) by exact Ow.
  rewrite (store_slot_run a K _ __NR_esca_wait w) by done.
  by rewrite (restore_slot_run _ _ _ _ _ c) by exact Oc.
Qed.

Lemma lioo_exit_run a T K wq m m1 :
  loadable a K (relocate T wq (scTab T)) m -> hooked a K (relocate T wq (scTab T)) m m1 ->
  exists m2, lioo_exit a T K wq m1 = Ret (tt, m2) /\ words m2 = words m /\
    Forall (fun nr => writable a K m2 (slot_addr m2 nr) = false) hook_numbers /\
    (a = X86_64 -> cr0 m2 = Z.setbit (cr0 m) 16).
Proof.
  set (tab := relocate T wq (scTab T)). intros Hl [Hptr Hwd Hsv Hprot Hcr Hpt]. unfold lioo_exit.
  assert (loadable a K tab m1) as Hl1.
  { eapply (loadable_frame a K tab m); [done| |by intros p; rewrite Hpt].
    intros nr _ Hs. rewrite Hwd. unfold hooks. rewrite !lookup_insert_is_Some'. auto. }
  destruct (allow_writes_run a K m1 ltac:(by rewrite Hptr)) as (m2 & Hrun2 & Hf2 & Hc2 & Hw2). mrun Hrun2.
  assert (syscall_table_ptr m2 = tab) as Hp2 by (by rewrite (pf_ptr _ _ Hf2)).
  pose proof (ld_words _ _ _ _ Hl) as Hwords. unfold hook_numbers in Hwords.
  apply Forall_cons in Hwords as [[r Hr] Hwords]. apply Forall_cons in Hwords as [[e He] Hwords].
  apply Forall_cons in Hwords as [[w Hw] Hwords]. apply Forall_cons in Hwords as [[c Hc] _].
  destruct Hsv as (S1 & S2 & S3 & S4). destruct (pf_ori _ _ Hf2) as (O1 & O2 & O3 & O4).
  rewrite S1, Hr in O1. rewrite S2, He in O2. rewrite S3, Hw in O3. rewrite S4, Hc in O4.
  rewrite (restore_four_run a K m2 r e w c) by done. set (m3 := store_four r e w c m2).
  assert (words m3 = words m) as Hw3.
  { unfold m3, store_four, slot_addr. simpl. rewrite Hp2, (pf_words _ _ Hf2), Hwd.
    by apply hooks_undone. }
  assert (loadable a K (syscall_table_ptr m3) m3) as Hl3.
  { change (loadable a K (syscall_table_ptr m2) m3). rewrite Hp2.
    eapply (loadable_frame a K tab m); [done|by rewrite Hw3|].
    intros p. change (ptes m3) with (ptes m2). by rewrite (pf_dom _ _ Hf2 p), Hpt. }
  destruct (disallow_writes_run a K m3 Hl3) as (m4 & Hrun4 & Hf4 & Hc4 & Hw4). mrun Hrun4.
  assert (a = X86_64 -> cr0 m4 = Z.setbit (cr0 m) 16) as Hcr4.
  { intros Ha. rewrite (Hc4 Ha). change (cr0 m3) with (cr0 m2). rewrite (Hc2 Ha), (Hcr Ha), cr0_restored.
    apply Z.bits_inj'. intros n Hn. rewrite !Z.setbit_eqb by lia. by destruct (16 =? n). }
  destruct a; (eexists; split; [reflexivity|]; simpl; split; [by rewrite (pf_words _ _ Hf4)|done]).
Qed.

(** C21: behind any KASLR slide [lioo_init] finds the system call table, and on
    both architectures replaces exactly the entries 400 to 403 by the module's
    handlers, remembers the old ones and leaves the table write-protected. *)
Theorem lioo_init_hooks a T K slide m :
  loadable a K (to_ull (scTab T + slide)) m ->
  exists m', lioo_init a T K (sysWQ T + slide) m = Ret (0, m') /\
    hooked a K (to_ull (scTab T + slide)) m m'.
Proof.
  intros Hl. assert (relocate T (sysWQ T + slide) (scTab T) = to_ull (scTab T + slide)) as Hr
    by (unfold relocate; f_equal; lia).
  rewrite <- Hr in *. by apply lioo_init_run.
Qed.

(** C15: loading and unloading the module leaves the system call table as it
    was, word by word, and write-protected. *)
Theorem lioo_exit_restores a T K wq m :
  loadable a K (relocate T wq (scTab T)) m ->
  exists m1 m2, lioo_init a T K wq m = Ret (0, m1) /\ lioo_exit a T K wq m1 = Ret (tt, m2) /\
    words m2 = words m /\
    Forall (fun nr => writable a K m2 (slot_addr m2 nr) = false) hook_numbers /\
    (a = X86_64 -> Z.testbit (cr0 m) 16 = true -> cr0 m2 = cr0 m).
Proof.
  intros Hl. destruct (lioo_init_run a T K wq m Hl) as (m1 & Hrun1 & Hh).
  destruct (lioo_exit_run a T K wq m m1 Hl Hh) as (m2 & Hrun2 & Hw & Hp & Hc).
  exists m1, m2. split_and!; try done. intros Ha Hb. rewrite (Hc Ha).
  apply Z.bits_inj'. intros n Hn. rewrite Z.setbit_eqb by lia.
  destruct (Z.eqb_spec 16 n) as [<-|]; [by rewrite Hb|done].
Qed.

(** ** Witnesses: an aarch64 and an x86-64 kernel *)
Definition systab0 : systab := Systab 4096 100 200 300 500.
Definition kconst0 : kconst := KConst 4096 (2 ^ 51) 128.
Definition kernel0 : kmach :=
  KMach (2 ^ 16 + 1) (<[8192 := 128 + 3]> ∅)
    (<[8192 + 3200 := H_orig 1]> (<[8192 + 3208 := H_orig 2]> (<[8192 + 3216 := H_orig 3]>
      (<[8192 + 3224 := H_orig 4]> (<[8192 := H_orig 5]> ∅))))) 0 0 0 0 None None None None.

Lemma kernel0_loadable a : loadable a kconst0 8192 kernel0.
Proof.
  constructor.
  - unfold hook_numbers. repeat constructor; vm_compute; by eexists.
  - intros _. vm_compute. by eexists.
  - intros _. unfold hook_numbers. repeat constructor.
  - intros _. vm_compute. done.
Qed.

Lemma lioo_init_hooks_witness :
  exists m', lioo_init AArch64 systab0 kconst0 (500 + 4096) kernel0 = Ret (0, m') /\
    hooked AArch64 kconst0 8192 kernel0 m'.
Proof. apply (lioo_init_hooks AArch64 systab0 kconst0 4096 kernel0), (kernel0_loadable AArch64). Defined.

Lemma lioo_exit_restores_witness :
  exists m1 m2, lioo_init X86_64 systab0 kconst0 4596 kernel0 = Ret (0, m1) /\
    lioo_exit X86_64 systab0 kconst0 4596 m1 = Ret (tt, m2) /\ words m2 = words kernel0 /\
    Forall (fun nr => writable X86_64 kconst0 m2 (slot_addr m2 nr) = false) hook_numbers /\
    (X86_64 = X86_64 -> Z.testbit (cr0 kernel0) 16 = true -> cr0 m2 = cr0 kernel0).
Proof. apply (lioo_exit_restores X86_64 systab0 kconst0 4596 kernel0), (kernel0_loadable X86_64). Defined.
