(* ===== verification/Kernel.v ===== *)
(** * The kernel module (module/lioo.c)

    The system call handlers and one pass of the worker, as functions on the
    machine state.  A pointer argument of a system call is given as what it
    designates.  [get_user_pages] and [kmap] give the kernel its own pointers
    to the pages of a user address; the module does not check their results,
    and here they succeed on memory the process has allocated. *)
From stdpp Require Import base numbers list gmap.
From S2P Require Import Prelude Esca Ring IndirectCall World.

Section kernel.
Context (E : env).

Definition k_cfg : MW globals := gets (fun w => kcfg (krn w)).

(** [table[id]], used as a pointer. *)
Definition k_header (id : Z) : MW hptr :=
  let! w := get in deref (aget (ktable (krn w)) id).

Definition set_ktable (i : Z) (p : option hptr) : MW unit :=
  let! w := get in
  let! l := from_option_M OutOfBounds (aset (ktable (krn w)) i p) in
  modify (with_krn (put_ktable l)).

Definition set_submitted (i v : Z) : MW unit :=
  let! w := get in
  let! l := from_option_M OutOfBounds (aset (submitted (krn w)) i (to_short v)) in
  modify (with_krn (put_submitted l)).

Definition get_submitted (i : Z) : MW Z :=
  let! w := get in from_option_M OutOfBounds (aget (submitted (krn w)) i).

(** The location of [table[id]->tables[i][j]]: a page is mapped on its own, an
    index past its end is outside of the mapping. *)
Definition k_entry (id i j : Z) : MW (Z * Z) :=
  let! hp := k_header id in
  let! h := load_hdr hp in
  let! kp := deref (aget (tables h) i) in
  if (0 <=? j) && (j <? epp (page_size E))
  then ret (k_region kp, k_page kp * epp (page_size E) + j)
  else fail OutOfBounds.

Definition k_load (id i j : Z) : MW esca_table_entry_t :=
  let! l := k_entry id i j in load_ent l.1 l.2.
Definition k_update (id i j : Z) (f : esca_table_entry_t -> esca_table_entry_t) : MW unit :=
  let! l := k_entry id i j in update_ent l.1 l.2 f.
Definition k_update_hdr (id : Z) (f : esca_table_t -> esca_table_t) : MW unit :=
  let! hp := k_header id in update_hdr hp f.

(** [table[id]->tables[j] = kmap(table_pinned_pages[id][j])] *)
Definition map_table (id region j : Z) : MW unit :=
  let! hp := k_header id in
  let! h := load_hdr hp in
  let! l := from_option_M OutOfBounds (aset (tables h) j (Some (KPtr region j))) in
  update_hdr hp (set_tables l).

(** ** sys_esca_register *)
Definition sys_esca_register (header : option hptr) (user_tbl : Z) (arg_id : Z) : MW Z :=
  let id := to_int arg_id in
  let! ok := alloc_result in
  do! (if ok then ret tt else fail NullDeref) in
  let! g := k_cfg in
  do! match header with
      | Some hp =>
          for_range id (id + RATIO g)
            (fun i => set_ktable i (Some (HPtr (h_page hp) (i - id))))
      | None =>
          (* while (!table[id]) cond_resched(); *)
          let! w := get in
          match aget (ktable (krn w)) id with
          | None => fail OutOfBounds
          | Some None => hang
          | Some (Some _) => ret tt
          end
      end in
  do! for_range 0 (MAX_TABLE_LEN g) (fun j => map_table id user_tbl j) in
  do! for_range 0 (MAX_TABLE_LEN g) (fun j =>
        for_range 0 (MAX_TABLE_ENTRY g) (fun k =>
          k_update id j k (set_rstatus BENTRY_EMPTY))) in
  do! k_update_hdr id (fun h => set_head_table 0 (set_tail_table 0 h)) in
  do! k_update_hdr id (fun h => set_head_entry 0 (set_tail_entry 0 h)) in
  do! set_submitted id 0 in
  do! k_update_hdr id (set_flags (Z.lor 0 ESCA_WORKER_NEED_WAKEUP)) in
  do! k_update_hdr id (set_idle_time (msecs_to_jiffies E (DEFAULT_IDLE_TIME g))) in
  let! w := get in
  let! l := from_option_M OutOfBounds (aset (worker_task (krn w)) id true) in
  do! modify (with_krn (put_worker_task l)) in
  ret 0.

(** ** sys_lioo_exit *)
Definition sys_lioo_exit : MW unit :=
  let! g := k_cfg in
  for_range 0 (MAX_CPU_NUM g) (fun i =>
    let! w := get in
    let! l := from_option_M OutOfBounds (aset (worker_task (krn w)) i false) in
    modify (with_krn (put_worker_task l))).

(** ** sys_esca_wakeup *)
Definition sys_esca_wakeup (arg_i : Z) : MW unit :=
  let i := to_int arg_i in
  let! hp := k_header i in
  let! h := load_hdr hp in
  if negb (Z.land (flags h) ESCA_START_WAKEUP =? 0)
  then modify (with_krn (log_wakeup i)) else ret tt.

(** ** sys_esca_wait: [wait_event_interruptible(wq[idx], 1)]; the condition is
    true, the caller does not wait. *)
Definition sys_esca_wait (arg_idx : Z) : MW unit :=
  let idx := to_int arg_idx in
  if (0 <=? idx) && (idx <? CPU_NUM_LIMIT) then ret tt else fail OutOfBounds.

(** ** sys_esca_init_config *)
Definition sys_esca_init_config (c : esca_config_t) : MW unit :=
  let! ok := alloc_result in
  do! (if ok then ret tt else fail NullDeref) in
  let! q := c_div (max_ker_worker c) (max_usr_worker c) in
  let! r := int_result q in
  modify (with_krn (put_kcfg
    (Globals (esca_localize c) (max_table_entry c) (max_table_len c)
       (max_usr_worker c) (max_ker_worker c) r
       (default_idle_time c) (affinity_offset c)))).

(** ** One pass of the worker *)

(** The scan of [submitted] over the set of the worker. *)
Fixpoint set_done (n : nat) (k : Z) : MW bool :=
  match n with
  | O => ret true
  | S n' =>
      let! v := get_submitted k in
      if v =? 0 then set_done n' (k + 1) else ret false
  end.

Definition worker_notify (cur : Z) : MW unit :=
  let! g := k_cfg in
  let! r := c_rem cur (RATIO g) in
  if r =? 0
  then let! d := set_done (Z.to_nat (RATIO g)) cur in
       if d : bool then modify (with_krn (log_wq cur)) else ret tt
  else ret tt.

(** The body of [while (submitted[cur_cpuid] != 0)]. *)
Definition worker_entry (cur i j : Z) : MW (Z * Z) :=
  let! g := k_cfg in
  let! e := k_load cur i j in
  let! w := get in
  let c := entry_call (e_arch E) e in
  do! modify (with_krn (log_call c)) in
  do! k_update cur i j (set_sysret (sys E (executed (krn w)) c)) in
  do! k_update cur i j (set_rstatus BENTRY_EMPTY) in
  let! n := get_submitted cur in
  do! set_submitted cur (n - 1) in
  do! worker_notify cur in
  ret (worker_next (MAX_TABLE_ENTRY g) (MAX_TABLE_LEN g) i j).

Fixpoint worker_loop (fuel : nat) (cur i j : Z) : MW (Z * Z) :=
  let! n := get_submitted cur in
  if n =? 0 then ret (i, j)
  else match fuel with
       | O => hang
       | S fuel' =>
           let! p := worker_entry cur i j in worker_loop fuel' cur p.1 p.2
       end.

(** One iteration of [while (1)] after the polling loop has seen a busy entry
    at the head; [false] when the entry is empty and the worker keeps
    polling. *)
Definition worker_pass (fuel : nat) (cur : Z) : MW bool :=
  let! g := k_cfg in
  let! hp := k_header cur in
  let! h := load_hdr hp in
  let i := head_table h in
  let j := head_entry h in
  let! e := k_load cur i j in
  if rstatus e =? BENTRY_EMPTY then ret false
  else
    do! set_submitted cur
          (submitted_count (MAX_TABLE_ENTRY g) (MAX_TABLE_LEN g) i j
             (tail_table h) (tail_entry h)) in
    let! p := worker_loop fuel cur i j in
    do! k_update_hdr cur (set_head_table p.1) in
    do! k_update_hdr cur (set_head_entry p.2) in
    ret true.
End kernel.
