(* ===== verification/Preload.v ===== *)
(** * The preload library (wrapper/preload.c)

    [init_worker], [batch_start], [batch_flush], [toggle_region] and
    [update_index].  The functions run alone on the machine state: a loop that
    waits for the kernel worker is [Hang] here, its interleavings are the
    subject of [Protocol]. *)
From stdpp Require Import base numbers list gmap.
From S2P Require Import Prelude Esca Ring IndirectCall World Kernel.

Definition MAX_POOL_SIZE : Z := 900000000.
Definition MAX_POOL_IOV_SIZE : Z := 1024.
Definition MAX_POOL_MSG_SIZE : Z := 1024.
Definition IOV_MASK : Z := MAX_POOL_IOV_SIZE - 1.
Definition MSG_MASK : Z := MAX_POOL_MSG_SIZE - 1.

Section preload.
Context (E : env).

Definition u_cfg : MW globals := gets (fun w => ucfg (usr w)).

(** [table[idx]], used as a pointer. *)
Definition u_header (idx : Z) : MW hptr :=
  let! w := get in deref (aget (utable (usr w)) idx).
Definition u_load_hdr (idx : Z) : MW esca_table_t :=
  let! hp := u_header idx in load_hdr hp.
Definition u_update_hdr (idx : Z) (f : esca_table_t -> esca_table_t) : MW unit :=
  let! hp := u_header idx in update_hdr hp f.

Definition set_utable (i : Z) (p : option hptr) : MW unit :=
  let! w := get in
  let! l := from_option_M OutOfBounds (aset (utable (usr w)) i p) in
  modify (with_usr (put_utable l)).

(** The location of [table[idx]->user_tables[i][j]], and a store into it. *)
Definition u_loc (idx i j : Z) : MW (Z * Z) :=
  let! h := u_load_hdr idx in
  let! up := deref (aget (user_tables h) i) in
  ret (u_region up, u_slot up + j).
Definition u_entry (idx i j : Z) (f : esca_table_entry_t -> esca_table_entry_t) : MW unit :=
  let! l := u_loc idx i j in update_ent l.1 l.2 f.

(** ** System calls: the entry of the table decides who runs

    Without the module the numbers 400 to 403 are not implemented by the
    kernel and the call only returns an error, which is ignored. *)
Definition dispatch (nr : Z) : MW (option handler) :=
  gets (fun w => syscall_table (krn w) !! nr).

Definition syscall_register (header : option hptr) (alloc i : Z) : MW unit :=
  let! h := dispatch __NR_esca_register in
  match h with
  | Some H_register => do! sys_esca_register E header alloc i in ret tt
  | _ => ret tt
  end.
Definition syscall_wakeup (j : Z) : MW unit :=
  let! h := dispatch __NR_esca_wakeup in
  match h with Some H_wakeup => sys_esca_wakeup j | _ => ret tt end.
Definition syscall_wait (idx : Z) : MW unit :=
  let! h := dispatch __NR_esca_wait in
  match h with Some H_wait => sys_esca_wait idx | _ => ret tt end.
Definition syscall_config (c : esca_config_t) : MW unit :=
  let! h := dispatch __NR_esca_config in
  match h with Some H_config => sys_esca_init_config c | _ => ret tt end.

(** ** Allocation *)
Definition alloc_headers : MW (option hptr) :=
  let! ok := alloc_result in
  let! w := get in
  if ok : bool then
    let! pg := fresh_page in
    do! modify (with_mem (fun m =>
          put_hpages (<[pg := map (junk_table E pg) (seq 0 (Z.to_nat (hpp (pgsize (usr w)))))]>
                        (hpages m)) m)) in
    ret (Some (HPtr pg 0))
  else ret None.

Definition alloc_tables (len : Z) : MW (option Z) :=
  let! ok := alloc_result in
  let! w := get in
  if ok : bool then
    let! pg := fresh_page in
    do! modify (with_mem (fun m =>
          put_regions (<[pg := map (junk_entry E pg)
                                 (seq 0 (Z.to_nat (epp (pgsize (usr w)) * len)))]>
                         (regions m)) m)) in
    ret (Some pg)
  else ret None.

(** [table[i]->user_tables[j] = alloc + j * MAX_TABLE_ENTRY] *)
Definition map_user_table (i region j mte : Z) : MW unit :=
  let! hp := u_header i in
  let! h := load_hdr hp in
  let! l := from_option_M OutOfBounds
              (aset (user_tables h) j (Some (UPtr region (j * mte)))) in
  update_hdr hp (set_user_tables l).

(** [p + n] on header pointers; NULL + n stays NULL for n = 0. *)
Definition hptr_add (p : option hptr) (n : Z) : MW (option hptr) :=
  match p with
  | Some p => ret (Some (HPtr (h_page p) (h_off p + n)))
  | None => if n =? 0 then ret None else fail Undefined
  end.

(** ** init_worker *)

(** One iteration of the loop over the set; [false] when the allocation of the
    tables fails ([goto init_worker_exit]). *)
Definition init_ring (idx i : Z) (header : option hptr) : MW bool :=
  let! g := u_cfg in
  let base := idx * RATIO g in
  let! w := get in
  let! b := from_option_M OutOfBounds (aget (utable (usr w)) base) in
  let! p := hptr_add b (i - base) in
  do! set_utable i p in
  let! alloc := alloc_tables (MAX_TABLE_LEN g) in
  match alloc with
  | None => ret false
  | Some region =>
      do! syscall_register header region i in
      do! for_range 0 (MAX_TABLE_LEN g)
            (fun j => map_user_table i region j (MAX_TABLE_ENTRY g)) in
      ret true
  end.

Definition init_table (idx i : Z) : MW bool :=
  let! g := u_cfg in
  let! header :=
    (if i =? idx * RATIO g
     then let! p := alloc_headers in do! set_utable i p in ret p
     else ret None) in
  init_ring idx i header.

Fixpoint init_tables (n : nat) (idx i : Z) : MW bool :=
  match n with
  | O => ret true
  | S n' =>
      let! ok := init_table idx i in
      if ok : bool then init_tables n' idx (i + 1) else ret false
  end.

Definition init_pools : MW unit :=
  modify (with_usr (fun u =>
    put_msgpool ∅ (msg_addr E) 0 (put_iovpool ∅ (iov_addr E) 0 (put_mpool (pool_addr E) 0 u)))).

Definition init_worker (idx : Z) : MW unit :=
  do! modify (with_usr (fun u =>
        put_worker_id idx (put_syscall_num 0 (put_batch_num 0 (put_in_segment 0 u))))) in
  let! g := u_cfg in
  if MAX_USR_WORKER g <=? idx then ret tt
  else
    let! ok := init_tables (Z.to_nat (RATIO g)) idx (idx * RATIO g) in
    if ok : bool then init_pools else ret tt.

(** ** batch_start *)
Definition start_one (j : Z) : MW unit :=
  let! h := u_load_hdr j in
  if negb (Z.land (flags h) ESCA_WORKER_NEED_WAKEUP =? 0) then
    do! u_update_hdr j (fun h => set_flags (Z.lor (flags h) ESCA_START_WAKEUP) h) in
    do! syscall_wakeup j in
    u_update_hdr j (fun h => set_flags (Z.ldiff (flags h) ESCA_START_WAKEUP) h)
  else ret tt.

Definition batch_start : MW Z :=
  let! w := get in
  let i := this_worker_id (usr w) in
  do! modify (with_usr (put_in_segment 1)) in
  let! g := u_cfg in
  do! for_range (i * RATIO g) (i * RATIO g + RATIO g) start_one in
  ret 0.

(** ** batch_flush *)
Definition batch_flush : MW Z :=
  do! modify (with_usr (put_in_segment 0)) in
  let! w := get in
  if batch_num (usr w) =? 0 then ret 0
  else
    do! syscall_wait (this_worker_id (usr w) * RATIO (ucfg (usr w))) in
    do! modify (with_usr (put_batch_num 0)) in
    ret 0.

(** ** toggle_region *)
Definition toggle_region : MW unit :=
  modify (with_usr (fun u => put_in_segment (Z.lxor (in_segment u) 1) u)).

(** ** update_index *)
Definition update_index (idx : Z) : MW unit :=
  let! g := u_cfg in
  let! h := u_load_hdr idx in
  if update_index_full (head_table h) (head_entry h) (tail_table h) (tail_entry h)
  then hang
  else u_update_hdr idx (fun h =>
         let n := update_index_next (MAX_TABLE_ENTRY g) (MAX_TABLE_LEN g)
                    (tail_table h) (tail_entry h) in
         set_tail_table n.1 (set_tail_entry n.2 h)).
End preload.
