(* ===== verification/Wrappers.v ===== *)
(** * The system call wrappers of the targets

    The functions that interpose on libc: wrapper/echo.c, lighty.c, ngx.c,
    ngx_tls.c, ngx_ktls.c, redis.c and mcached.c.  Inside of a segment a wrapper
    records the call in the entry at the tail of the ring its descriptor
    selects and returns the value of a successful call; outside it calls the
    libc function.  A [size_t] returned as [ssize_t] is [to_long] of it. *)
From stdpp Require Import base numbers list gmap.
From S2P Require Import Prelude Esca Ring IndirectCall Request World Kernel Preload.

(** The libc functions stored by [setup] ([dlsym(RTLD_NEXT, ...)]); [real_send]
    of echo.c is never stored, here it is the libc function. *)
Record libc := Libc {
  real_close : Z -> MW Z;
  real_write : Z -> Z -> Z -> MW Z;
  real_send : Z -> Z -> Z -> Z -> MW Z;
  real_shutdown : Z -> Z -> MW Z;
  real_sendfile : Z -> Z -> Z -> Z -> MW Z;
  (* the same function, for a caller's offset that is not in the modelled memory:
     from the value of *offset, the result and the new value of *offset *)
  real_sendfile_offset : Z -> Z -> Z -> Z -> MW (Z * Z);
  real_sendmsg : Z -> list iovec -> Z -> Z -> MW Z
}.

Section wrappers.
Context (E : env) (L : libc).
Let N : syscall_numbers := syscalls_of (e_arch E).

(** ** The common prologue: [idx = this_worker_id * RATIO + (fd % RATIO)],
    [batch_num++], and the position of the tail. *)
Definition set_index (fd : Z) : MW Z :=
  let! w := get in
  let! r := c_rem fd (RATIO (ucfg (usr w))) in
  ret (this_worker_id (usr w) * RATIO (ucfg (usr w)) + r).

Definition batch_num_incr : MW unit :=
  let! w := get in
  let! n := int_result (batch_num (usr w) + 1) in
  modify (with_usr (put_batch_num n)).

Definition prologue (fd : Z) : MW (Z * (Z * Z)) :=
  let! idx := set_index fd in
  do! batch_num_incr in
  let! h := u_load_hdr idx in
  ret (idx, (tail_table h, tail_entry h)).

(** The assignments to [sysnum], [nargs] and [args[...]]. *)
Fixpoint run_stores (idx i j : Z) (l : list store) : MW unit :=
  match l with
  | [] => ret tt
  | s :: l' => do! u_entry idx i j (do_store s) in run_stores idx i j l'
  end.
Definition fill_entry (idx i j num : Z) (a : list Z) : MW unit :=
  run_stores idx i j (request_stores (Request num a)).

(** [esca_smp_store_release(&...rstatus, BENTRY_BUSY)] *)
Definition release (idx i j : Z) : MW unit := u_entry idx i j (set_rstatus BENTRY_BUSY).

Definition in_seg : MW bool := gets (fun w => negb (in_segment (usr w) =? 0)).

(** ** User memory *)
Fixpoint read_bytes (h : gmap Z Z) (a : Z) (n : nat) : option (list Z) :=
  match n with
  | O => Some []
  | S n' => b ← h !! a; l ← read_bytes h (a + 1) n'; Some (b :: l)
  end.
Fixpoint write_bytes (h : gmap Z Z) (a : Z) (l : list Z) : gmap Z Z :=
  match l with
  | [] => h
  | b :: l' => write_bytes (<[a := b]> h) (a + 1) l'
  end.

(** [if (pool_offset + (ull)(count) > MAX_POOL_SIZE) pool_offset = 0;] *)
Definition pool_reserve (count : Z) : MW unit :=
  let! w := get in
  if MAX_POOL_SIZE <? to_ull (pool_offset (usr w) + to_ull count)
  then modify (with_usr (put_pool_offset 0)) else ret tt.

(** [memcpy(mpool + pool_offset, src, count)] *)
Definition pool_memcpy (src count : Z) : MW unit :=
  let! w := get in
  let dst := pool_offset (usr w) in
  if mpool (usr w) =? 0 then fail NullDeref
  else if MAX_POOL_SIZE <? dst + to_ull count then fail BufferOverflow
  else
    let! l := from_option_M OutOfBounds
                (read_bytes (heap (mem w)) src (Z.to_nat (to_ull count))) in
    modify (with_mem (put_heap (write_bytes (heap (mem w)) (mpool (usr w) + dst) l))).

Definition pool_here : MW Z := gets (fun w => mpool (usr w) + pool_offset (usr w)).
Definition pool_advance (count : Z) : MW unit :=
  modify (with_usr (fun u => put_pool_offset (to_ull (pool_offset u + to_ull count)) u)).

(** ** ngx.c *)
Definition ngx_close (fd : Z) : MW Z :=
  let! seg := in_seg in
  if negb seg then real_close L fd
  else
    let! t := prologue fd in let '(idx, (i, j)) := t in
    do! fill_entry idx i j (__ESCA_close N) [fd] in
    do! update_index idx in
    do! release idx i j in
    ret 0.

(** The set is selected by the input descriptor. *)
Definition ngx_sendfile64 (out_fd in_fd offset count : Z) : MW Z :=
  let! seg := in_seg in
  if negb seg then real_sendfile L out_fd in_fd offset count
  else
    let! t := prologue in_fd in let '(idx, (i, j)) := t in
    do! fill_entry idx i j (__ESCA_sendfile N) [out_fd; in_fd; 0; count] in
    do! update_index idx in
    do! release idx i j in
    ret (to_long count).

(** ** ngx_ktls.c *)
Definition ngx_ktls_sendfile (out_fd in_fd offset count : Z) : MW Z :=
  let! seg := in_seg in
  if negb seg then real_sendfile L out_fd in_fd offset count
  else
    let! t := prologue in_fd in let '(idx, (i, j)) := t in
    do! fill_entry idx i j (__ESCA_sendfile N) [out_fd; in_fd; 0; count] in
    do! update_index idx in
    do! release idx i j in
    ret (to_long count).

(** ** ngx_tls.c: the payload is copied to the pool *)
Definition ngx_tls_write (fd buf count : Z) : MW Z :=
  let! seg := in_seg in
  if negb seg then real_write L fd buf count
  else
    let! t := prologue fd in let '(idx, (i, j)) := t in
    do! pool_reserve count in
    do! pool_memcpy buf count in
    let! here := pool_here in
    do! fill_entry idx i j (__ESCA_write N) [fd; here; count] in
    do! update_index idx in
    do! pool_advance count in
    do! release idx i j in
    ret (to_long count).

(** ** redis.c: the payload stays where it is *)
Definition redis_write (fd buf count : Z) : MW Z :=
  let! seg := in_seg in
  if negb seg then real_write L fd buf count
  else
    let! t := prologue fd in let '(idx, (i, j)) := t in
    do! fill_entry idx i j (__ESCA_write N) [fd; buf; count] in
    do! update_index idx in
    do! release idx i j in
    ret (to_long count).

(** ** echo.c *)
Definition echo_send (sockfd buf len flags : Z) : MW Z :=
  let! seg := in_seg in
  if negb seg then real_send L sockfd buf len flags
  else
    let! t := prologue sockfd in let '(idx, (i, j)) := t in
    do! fill_entry idx i j (__ESCA_sendto N) [sockfd; buf; len; flags; 0; 0] in
    do! update_index idx in
    do! release idx i j in
    ret (to_long len).

(** ** lighty.c *)
Definition lighty_shutdown (fd how : Z) : MW Z :=
  let! seg := in_seg in
  if negb seg then real_shutdown L fd how
  else
    let! t := prologue fd in let '(idx, (i, j)) := t in
    do! fill_entry idx i j (__ESCA_shutdown N) [fd; how] in
    do! update_index idx in
    do! release idx i j in
    ret 0.

(** [off_arr[CPU_NUM_LIMIT][TABLE_ENT_LIMIT * TABLE_LEN_LIMIT + 1]] *)
Definition off_row : Z := TABLE_ENT_LIMIT * TABLE_LEN_LIMIT + 1.
Definition off_arr_store (idx k v : Z) : MW unit :=
  if (0 <=? idx) && (idx <? CPU_NUM_LIMIT) && (0 <=? k) && (k <? off_row)
  then modify (with_usr (fun u => put_off_arr (<[(idx, k) := to_long v]> (off_arr u)) u))
  else fail OutOfBounds.
Definition off_arr_at (idx k : Z) : MW Z :=
  gets (fun w => off_arr_addr (usr w) + 8 * (idx * off_row + k)).

(** [offset] is the value of [*offset]; the result carries its new value. *)
Definition lighty_sendfile64 (out_fd in_fd offset count : Z) : MW (Z * Z) :=
  let! seg := in_seg in
  if negb seg then real_sendfile_offset L out_fd in_fd offset count
  else
    let! t := prologue out_fd in let '(idx, (i, j)) := t in
    let! g := u_cfg in
    let k := i * MAX_TABLE_ENTRY g + j in
    do! off_arr_store idx k offset in
    let! a := off_arr_at idx k in
    do! fill_entry idx i j (__ESCA_sendfile N) [out_fd; in_fd; a; count] in
    do! update_index idx in
    do! release idx i j in
    ret (to_long count, to_long (offset + count)).

(** ** mcached.c *)

(** One iteration of the copy of the vector, returning [ll]. *)
Definition copy_iov (v : iovec) : MW Z :=
  let ll := to_int (iov_len v) in
  do! pool_reserve ll in
  do! pool_memcpy (iov_base v) ll in
  do! modify (with_usr (fun u => put_iov_offset (Z.land (iov_offset u) IOV_MASK) u)) in
  let! here := pool_here in
  do! modify (with_usr (fun u =>
        put_iovpool (<[iov_offset u := IoVec here ll]> (iovpool u))
          (iovpool_addr u) (to_ull (iov_offset u + 1)) u)) in
  do! pool_advance ll in
  ret ll.

Fixpoint copy_iovs (l : list iovec) (res : Z) : MW Z :=
  match l with
  | [] => ret res
  | v :: l' =>
      let! ll := copy_iov v in
      let! r := int_result (res + ll) in
      copy_iovs l' r
  end.

Definition sizeof_iovec : Z := 16.
Definition sizeof_msghdr : Z := 56.

Definition mcached_sendmsg (sockfd : Z) (iov : list iovec) (mflags flags : Z) : MW Z :=
  let! seg := in_seg in
  if negb seg then real_sendmsg L sockfd iov mflags flags
  else
    let! t := prologue sockfd in let '(idx, (i, j)) := t in
    do! modify (with_usr (fun u =>
          put_iov_offset (Z.land (iov_offset u) IOV_MASK)
            (put_msg_offset (Z.land (msg_offset u) MSG_MASK) u))) in
    let! start_iov_offset := gets (fun w => to_int (iov_offset (usr w))) in
    let iovlen := to_int (Z.of_nat (length iov)) in
    let! res := copy_iovs (take (Z.to_nat iovlen) iov) 0 in
    do! modify (with_usr (fun u =>
          put_msgpool
            (<[msg_offset u :=
                MsgHdr 0 0 (iovpool_addr u + sizeof_iovec * start_iov_offset)
                  (to_ull iovlen) 0 0 mflags]> (msgpool u))
            (msgpool_addr u) (msg_offset u) u)) in
    let! m := gets (fun w => msgpool_addr (usr w) + sizeof_msghdr * msg_offset (usr w)) in
    do! fill_entry idx i j (__ESCA_sendmsg N) [sockfd; m; flags] in
    do! modify (with_usr (fun u => put_msg_offset (to_ull (msg_offset u + 1)) u)) in
    do! update_index idx in
    do! release idx i j in
    ret res.
End wrappers.
