(* ===== verification/Library.v ===== *)
(** * The interface of the batching library

    A server is linked against libdummy.so (wrapper/dummy.c); preloading
    preload.so replaces the functions of the dummy and [send] of libc.  [library]
    holds what a server calls, with the two implementations. *)
From stdpp Require Import base numbers list gmap.
From S2P Require Import Prelude Esca World Kernel Preload Wrappers.

Record library := Library {
  lib_init_worker : Z -> MW unit;
  lib_batch_start : MW Z;
  lib_batch_flush : MW Z;
  lib_toggle_region : MW unit;
  lib_send : Z -> Z -> Z -> Z -> MW Z
}.

(** ** dummy.c *)
Definition dummy_batch_start : MW Z := ret 0.
Definition dummy_batch_flush : MW Z := ret 0.
Definition dummy_init_worker (id : Z) : MW unit := ret tt.
Definition dummy_toggle_region : MW unit := ret tt.

(** The server alone: [send] is that of libc. *)
Definition dummy_lib (L : libc) : library :=
  Library dummy_init_worker dummy_batch_start dummy_batch_flush dummy_toggle_region (real_send L).

(** The server with preload.so, built from preload.c and echo.c. *)
Definition preload_lib (E : env) (L : libc) : library :=
  Library (init_worker E) batch_start batch_flush toggle_region (echo_send E L).
