(* ===== verification/Config.v ===== *)
(** * The configuration (wrapper/preload.c: setup, init_config)

    [setup] reads the configuration file with
    [fscanf(fp, "%s = %d", option.key, &option.val)] in a loop, stores the known
    options into a [malloc]ed structure and hands it to [init_config] and to the
    module.  The file is the list of its characters; a stream is what is left of
    it and the end-of-file indicator. *)
From Stdlib Require Import Ascii String.
From stdpp Require Import base numbers list gmap strings.
From S2P Require Import Prelude Esca Ring IndirectCall World Kernel Preload.

Local Open Scope Z_scope.
Local Open Scope list_scope.

Record stream := Stream { rest : list ascii; feof : bool }.

(** [isspace] of the C locale. *)
Definition is_space (c : ascii) : bool :=
  let n := N_of_ascii c in ((9 <=? n) && (n <=? 13) || (n =? 32))%N.

Definition is_digit (c : ascii) : bool :=
  let n := N_of_ascii c in ((48 <=? n) && (n <=? 57))%N.
Definition digit_value (c : ascii) : Z := Z.of_N (N_of_ascii c) - 48.

Fixpoint span (p : ascii -> bool) (l : list ascii) : list ascii * list ascii :=
  match l with
  | [] => ([], [])
  | c :: l' => if p c then let '(a, b) := span p l' in (c :: a, b) else ([], l)
  end.

(** Reading up to a character that stops the directive: the end of the file is
    noticed when there is none. *)
Definition read_span (p : ascii -> bool) : M stream (list ascii) :=
  fun s => let '(a, b) := span p (rest s) in
           Ret (a, Stream b (match b with [] => true | _ => feof s end)).

(** A space in the format, and the blanks [%s] and [%d] skip. *)
Definition skip_space : M stream (list ascii) := read_span is_space.

(** [%s] into [key[CONFIG_ARG_MAX_BYTES]]: [None] when the file ends first.  The
    terminating zero needs room too. *)
Definition scan_s : M stream (option (list ascii)) :=
  do! skip_space in
  let! w := read_span (fun c => negb (is_space c)) in
  match w with
  | [] => ret None
  | _ => if CONFIG_ARG_MAX_BYTES <=? Z.of_nat (List.length w) then fail BufferOverflow
         else ret (Some w)
  end.

(** An ordinary character of the format. *)
Definition scan_char (c : ascii) : M stream bool :=
  fun s => match rest s with
           | [] => Ret (false, Stream [] true)
           | c' :: l => if Ascii.eqb c c' then Ret (true, Stream l (feof s)) else Ret (false, s)
           end.

Definition dec_value (l : list ascii) : Z :=
  fold_left (fun a c => 10 * a + digit_value c) l 0.

(** [%d]; a value that is not an [int] is undefined behaviour. *)
Definition scan_d : M stream (option Z) :=
  do! skip_space in
  let! neg := scan_char "-" in
  let! pos := (if neg : bool then ret false else scan_char "+") in
  let! ds := read_span is_digit in
  match ds with
  | [] => ret None
  | _ => let v := if neg : bool then - dec_value ds else dec_value ds in
         if in_int v then ret (Some v) else fail Undefined
  end.

(** [fscanf(fp, "%s = %d", ...)]: the pair when it returns 2. *)
Definition fscanf_option : M stream (option (list ascii * Z)) :=
  let! k := scan_s in
  match k with
  | None => ret None
  | Some key =>
      do! skip_space in
      let! eq := scan_char "=" in
      if eq : bool then
        do! skip_space in
        let! v := scan_d in
        ret (v' ← v; Some (key, v'))
      else ret None
  end.

(** ** The options *)

(** The C string in an array: up to the first zero. *)
Fixpoint c_str (l : list ascii) : list ascii :=
  match l with
  | [] => []
  | c :: l' => if Ascii.eqb c zero then [] else c :: c_str l'
  end.

(** [strcmp(key, s) == 0] *)
Definition key_is (key : list ascii) (s : string) : bool :=
  bool_decide (c_str key = list_ascii_of_string s).

Definition apply_option (o : list ascii * Z) (c : esca_config_t) : esca_config_t :=
  let '(key, val) := o in
  let 'EscaConfig loc ent len usr ker idle aff := c in
  if key_is key "esca_localize" then EscaConfig val ent len usr ker idle aff
  else if key_is key "max_table_entry" then EscaConfig loc val len usr ker idle aff
  else if key_is key "max_table_len" then EscaConfig loc ent val usr ker idle aff
  else if key_is key "max_usr_worker" then EscaConfig loc ent len val ker idle aff
  else if key_is key "max_ker_worker" then EscaConfig loc ent len usr val idle aff
  else if key_is key "default_idle_time" then EscaConfig loc ent len usr ker val aff
  else if key_is key "affinity_offset" then EscaConfig loc ent len usr ker idle val
  else c.

(** The loop of [setup]. *)
Fixpoint parse_loop (fuel : nat) (c : esca_config_t) : M stream esca_config_t :=
  match fuel with
  | O => hang
  | S fuel' =>
      let! r := fscanf_option in
      match r with
      | Some o => parse_loop fuel' (apply_option o c)
      | None =>
          let! e := gets feof in
          if e : bool then ret c else parse_loop fuel' c
      end
  end.

(** A file of [n] characters takes at most [n + 1] iterations. *)
Definition parse_config (file : list ascii) (c0 : esca_config_t) : outcome esca_config_t :=
  match parse_loop (S (List.length file)) c0 (Stream file false) with
  | Ret (c, _) => Ret c
  | Fault f => Fault f
  | Hang => Hang
  end.

(** ** init_config *)
Definition config_globals (c : esca_config_t) (ratio : Z) : globals :=
  Globals (esca_localize c) (max_table_entry c) (max_table_len c) (max_usr_worker c)
    (max_ker_worker c) ratio (default_idle_time c) (affinity_offset c).

Definition init_config (c : esca_config_t) : MW unit :=
  let! q := c_div (max_ker_worker c) (max_usr_worker c) in
  let! r := int_result q in
  modify (with_usr (put_ucfg (config_globals c r))).

(** ** setup

    [file] is the contents of the configuration file, [None] when it cannot be
    opened; [junk] what [malloc] left in the structure. *)
Definition setup (E : env) (file : option (list ascii)) (junk : esca_config_t) : MW unit :=
  do! modify (with_usr (put_pgsize (page_size E))) in
  let! ok := alloc_result in
  let! c := match file with
            | None => ret default_config
            | Some f =>
                if ok : bool then
                  match parse_config f junk with
                  | Ret c => ret c | Fault x => fail x | Hang => hang
                  end
                else fail NullDeref
            end in
  do! init_config c in
  syscall_config c.
