(* ===== verification/Rings.v ===== *)
(** * The rings of a machine state

    The view of a state as a family of rings: [ring_at] ties the pointers of
    both sides to one header and one region of entries, [ring_wf] says that the
    two sides see the same entries, [pending] reads off the requests between
    head and tail.  The effects of the accesses of [Preload] and [Kernel] are
    given on this view. *)
From stdpp Require Import base numbers list gmap.
From S2P Require Import Prelude Esca Ring IndirectCall Request World Kernel Preload Wrappers.

(** ** Configurations for which both sides address the same entries

    User space puts table [j] at entry [j * MAX_TABLE_ENTRY] of the region, the
    kernel at page [j]. *)
Definition views_agree (ps : Z) (g : globals) : Prop :=
  MAX_TABLE_LEN g = 1 \/ MAX_TABLE_ENTRY g = epp ps.

Record cfg_ok (ps : Z) (g : globals) : Prop := {
  co_entry : 0 < MAX_TABLE_ENTRY g <= epp ps;
  co_len : 0 < MAX_TABLE_LEN g;
  co_size : MAX_TABLE_ENTRY g * MAX_TABLE_LEN g <= SHRT_MAX;
  co_views : views_agree ps g;
  co_ratio : 0 < RATIO g
}.

(** The entry of user space's [user_tables[i][j]] and of the kernel's
    [tables[i][j]], as indices into the region. *)
Definition user_slot (g : globals) (i j : Z) : Z := i * MAX_TABLE_ENTRY g + j.
Definition kernel_slot (ps : Z) (i j : Z) : Z := i * epp ps + j.

Definition head_of (h : esca_table_t) : Z * Z := (head_table h, head_entry h).
Definition tail_of (h : esca_table_t) : Z * Z := (tail_table h, tail_entry h).

Record ring_at (w : world) (idx : Z) (hp : hptr) (rg : Z) (h : esca_table_t)
    (es : list esca_table_entry_t) : Prop := {
  ra_user : aget (utable (usr w)) idx = Some (Some hp);
  ra_kern : aget (ktable (krn w)) idx = Some (Some hp);
  ra_hdr : hdr_lookup hp (mem w) = Some h;
  ra_ent : regions (mem w) !! rg = Some es
}.

(** The memory of a ring. *)
Definition ring_mem (w : world) (hp : hptr) (rg : Z) (h : esca_table_t) (es : list esca_table_entry_t) : Prop :=
  hdr_lookup hp (mem w) = Some h /\ regions (mem w) !! rg = Some es.

Lemma ring_at_mem w idx hp rg h es : ring_at w idx hp rg h es -> ring_mem w hp rg h es.
Proof. intros Hr. split; apply Hr. Qed.

(** A ring seen from another state with the same pointers. *)
Lemma ring_at_moved w w' idx hp rg h es :
  ring_at w idx hp rg h es -> utable (usr w') = utable (usr w) -> ktable (krn w') = ktable (krn w) ->
  ring_mem w' hp rg h es -> ring_at w' idx hp rg h es.
Proof. intros [Hu Hk _ _] Eu Ek [Hh He]. constructor; by rewrite ?Eu, ?Ek. Qed.

Record ring_wf (ps : Z) (g : globals) (rg : Z) (h : esca_table_t)
    (es : list esca_table_entry_t) : Prop := {
  rw_user : forall i, 0 <= i < MAX_TABLE_LEN g ->
    aget (user_tables h) i = Some (Some (UPtr rg (i * MAX_TABLE_ENTRY g)));
  rw_kern : forall i, 0 <= i < MAX_TABLE_LEN g ->
    aget (tables h) i = Some (Some (KPtr rg i));
  rw_head : in_ring (MAX_TABLE_ENTRY g) (MAX_TABLE_LEN g) (head_of h);
  rw_tail : in_ring (MAX_TABLE_ENTRY g) (MAX_TABLE_LEN g) (tail_of h);
  rw_len : Z.of_nat (length es) = epp ps * MAX_TABLE_LEN g;
  rw_args : Forall (fun e => length (args e) = 6%nat) es
}.

(** ** The pending requests *)
Definition ring_used (g : globals) (h : esca_table_t) : Z :=
  dist (MAX_TABLE_ENTRY g) (MAX_TABLE_LEN g) (head_of h) (tail_of h).

Definition ring_slot (g : globals) (h : esca_table_t) (k : nat) : nat :=
  Z.to_nat ((lin (MAX_TABLE_ENTRY g) (head_of h) + Z.of_nat k)
              `mod` ring_size (MAX_TABLE_ENTRY g) (MAX_TABLE_LEN g)).

Definition entry_at (es : list esca_table_entry_t) (n : nat) : esca_table_entry_t :=
  default (Entry 0 0 0 0 0 []) (es !! n).

Definition ring_pending (a : arch) (g : globals) (h : esca_table_t)
    (es : list esca_table_entry_t) : list call :=
  map (fun k => entry_call a (entry_at es (ring_slot g h k))) (seq 0 (Z.to_nat (ring_used g h))).

(** The pending requests of ring [idx], read through the pointers of the
    process. *)
Definition pending (a : arch) (w : world) (idx : Z) : option (list call) :=
  hp ← mjoin (aget (utable (usr w)) idx);
  h ← hdr_lookup hp (mem w);
  up ← mjoin (aget (user_tables h) 0);
  es ← regions (mem w) !! u_region up;
  Some (ring_pending a (ucfg (usr w)) h es).

(** ** Memory *)
Definition put_entries (rg : Z) (es : list esca_table_entry_t) (w : world) : world :=
  with_mem (fun m => put_regions (<[rg := es]> (regions m)) m) w.

Definition put_header (hp : hptr) (h : esca_table_t) (w : world) : world :=
  with_mem (fun m => default m (hdr_store hp h m)) w.

Lemma put_entries_id rg es w : regions (mem w) !! rg = Some es -> put_entries rg es w = w.
Proof.
  intros H. destruct w as [u k [hps rgs hb np] al]. unfold put_entries, with_mem, put_regions.
  simpl in *. by rewrite insert_id.
Qed.

Lemma put_entries_twice rg es es' w : put_entries rg es' (put_entries rg es w) = put_entries rg es' w.
Proof.
  destruct w as [u k [hps rgs hb np] al]. unfold put_entries, with_mem, put_regions; simpl.
  by rewrite insert_insert_eq.
Qed.

Lemma hdr_store_spec p h h0 m :
  hdr_lookup p m = Some h0 ->
  exists m', hdr_store p h m = Some m' /\ hdr_lookup p m' = Some h /\
    (forall q, q <> p -> hdr_lookup q m' = hdr_lookup q m) /\
    regions m' = regions m /\ heap m' = heap m /\ next_page m' = next_page m.
Proof.
  unfold hdr_lookup, hdr_store. destruct (hpages m !! h_page p) as [l|] eqn:Hl; [|done].
  simpl. intros Hg. pose proof (aget_Some _ _ _ Hg) as Hr.
  rewrite (aset_in_range _ _ h Hr); simpl. eexists. split; [done|]. simpl.
  rewrite lookup_insert_eq; simpl. split; [|split; [|done]].
  - apply (aget_aset_eq l _ h). by apply aset_in_range.
  - intros [qp qo] Hne. simpl. destruct p as [pp po]; simpl in *.
    destruct (decide (pp = qp)) as [->|Hp].
    + rewrite lookup_insert_eq, Hl; simpl.
      apply (aget_aset_ne l po _ h); [by apply aset_in_range|]. congruence.
    + by rewrite lookup_insert_ne.
Qed.

Lemma hdr_lookup_put hp h h0 w :
  hdr_lookup hp (mem w) = Some h0 -> hdr_lookup hp (mem (put_header hp h w)) = Some h.
Proof.
  intros H. destruct (hdr_store_spec hp h h0 (mem w) H) as (m' & Hm & Hl & _).
  unfold put_header; simpl. by rewrite Hm.
Qed.

Lemma hdr_lookup_put_ne hp q h h0 w :
  hdr_lookup hp (mem w) = Some h0 -> q <> hp ->
  hdr_lookup q (mem (put_header hp h w)) = hdr_lookup q (mem w).
Proof.
  intros H Hq. destruct (hdr_store_spec hp h h0 (mem w) H) as (m' & Hm & _ & Hl & _).
  unfold put_header; simpl. rewrite Hm; simpl. by apply Hl.
Qed.

Lemma regions_put_header hp h w : regions (mem (put_header hp h w)) = regions (mem w).
Proof.
  unfold put_header; simpl. unfold hdr_store.
  destruct (hpages (mem w) !! h_page hp) as [l|]; simpl; [|done].
  by destruct (aset l (h_off hp) h).
Qed.

Lemma heap_put_header hp h w : heap (mem (put_header hp h w)) = heap (mem w).
Proof.
  unfold put_header; simpl. unfold hdr_store.
  destruct (hpages (mem w) !! h_page hp) as [l|]; simpl; [|done].
  by destruct (aset l (h_off hp) h).
Qed.

Lemma update_hdr_spec hp f h w :
  hdr_lookup hp (mem w) = Some h -> update_hdr hp f w = Ret (tt, put_header hp (f h) w).
Proof.
  intros H. destruct (hdr_store_spec hp (f h) h (mem w) H) as (m' & Hm & _).
  unfold update_hdr, load_hdr, bind, get, from_option_M; simpl. rewrite H; simpl.
  unfold bind, get; simpl. rewrite Hm; simpl. unfold put_header, with_mem, modify. by rewrite Hm.
Qed.

Lemma load_hdr_spec hp h w : hdr_lookup hp (mem w) = Some h -> load_hdr hp w = Ret (h, w).
Proof. intros H. unfold load_hdr, bind, get, from_option_M; simpl. by rewrite H. Qed.

Lemma update_ent_spec rg es s n f e w :
  regions (mem w) !! rg = Some es -> s = Z.of_nat n -> es !! n = Some e ->
  update_ent rg s f w = Ret (tt, put_entries rg (<[n := f e]> es) w).
Proof.
  intros Hr -> He. pose proof (lookup_lt_Some _ _ _ He) as Hlt.
  assert (aget es (Z.of_nat n) = Some e) as Hg.
  { unfold aget. destruct (Z.ltb_spec (Z.of_nat n) 0); [lia|]. by rewrite Nat2Z.id. }
  unfold update_ent, load_ent, bind, get, from_option_M, ent_lookup, ent_store; simpl.
  rewrite Hr; simpl. rewrite Hg; simpl. unfold bind, get; simpl.
  rewrite Hr; simpl. rewrite (aset_in_range es (Z.of_nat n)) by lia; simpl.
  by rewrite Nat2Z.id.
Qed.

Lemma load_ent_spec rg es s n e w :
  regions (mem w) !! rg = Some es -> s = Z.of_nat n -> es !! n = Some e ->
  load_ent rg s w = Ret (e, w).
Proof.
  intros Hr -> He. unfold load_ent, bind, get, from_option_M, ent_lookup; simpl.
  rewrite Hr; simpl. unfold aget. destruct (Z.ltb_spec (Z.of_nat n) 0); [lia|].
  by rewrite Nat2Z.id, He.
Qed.

#[export] Hint Resolve load_hdr_spec update_hdr_spec : saio.

(** ** The two views coincide *)
Lemma slots_agree ps g i j :
  cfg_ok ps g -> in_ring (MAX_TABLE_ENTRY g) (MAX_TABLE_LEN g) (i, j) ->
  kernel_slot ps i j = user_slot g i j.
Proof.
  intros [He Hl Hs [H1|H1] _] [Hi Hj]; unfold kernel_slot, user_slot; simpl in *.
  - assert (i = 0) as -> by lia. lia.
  - by rewrite H1.
Qed.

(** ** Arithmetic of the slots *)
Section slots.
Context (ps : Z) (g : globals) (Hg : cfg_ok ps g).
Abbreviation MTE := (MAX_TABLE_ENTRY g).
Abbreviation MTL := (MAX_TABLE_LEN g).
Abbreviation N := (ring_size MTE MTL).

Lemma cfg_E : 0 < MTE.
Proof. apply Hg. Qed.
Lemma cfg_L : 0 < MTL.
Proof. apply Hg. Qed.
Lemma cfg_S : MTE * MTL <= SHRT_MAX.
Proof. apply Hg. Qed.
Lemma cfg_N : 0 < N.
Proof. apply ring_size_pos; [apply cfg_E|apply cfg_L]. Qed.
#[local] Hint Resolve cfg_E cfg_L cfg_S cfg_N : core.

Lemma ring_slot_inj h k k' :
  Z.of_nat k < N -> Z.of_nat k' < N -> ring_slot g h k = ring_slot g h k' -> k = k'.
Proof.
  intros Hk Hk' E. unfold ring_slot in E.
  pose proof (Z.mod_pos_bound (lin MTE (head_of h) + Z.of_nat k) N cfg_N).
  pose proof (Z.mod_pos_bound (lin MTE (head_of h) + Z.of_nat k') N cfg_N).
  apply Z2Nat.inj in E; [|lia..].
  apply (mod_eq_window N (lin MTE (head_of h))) in E; lia.
Qed.

Lemma ring_slot_tail h :
  in_ring MTE MTL (head_of h) -> in_ring MTE MTL (tail_of h) ->
  ring_slot g h (Z.to_nat (ring_used g h)) = Z.to_nat (lin MTE (tail_of h)).
Proof.
  intros Hh Ht. pose proof cfg_N as HN. unfold ring_slot, ring_used.
  rewrite Z2Nat.id by (apply dist_range; auto).
  unfold dist. rewrite Zplus_mod_idemp_r.
  replace (lin MTE (head_of h) + (lin MTE (tail_of h) - lin MTE (head_of h)))
    with (lin MTE (tail_of h)) by lia.
  rewrite Z.mod_small; [done|]. eapply lin_range; eauto.
Qed.

(** A position of the ring is an entry of the region. *)
Lemma slot_in_region rg h es p :
  ring_wf ps g rg h es -> in_ring MTE MTL p ->
  exists e, es !! Z.to_nat (lin MTE p) = Some e /\ length (args e) = 6%nat.
Proof.
  intros Hw Hp. assert (0 <= lin MTE p < N) as Hl by (eapply lin_range; eauto).
  destruct (lookup_lt_is_Some_2 es (Z.to_nat (lin MTE p))) as [e He].
  { pose proof (rw_len _ _ _ _ _ Hw). pose proof (co_entry _ _ Hg). pose proof cfg_L.
    unfold ring_size in *. nia. }
  exists e. split; [done|]. pose proof (rw_args _ _ _ _ _ Hw) as Ha.
  rewrite Forall_lookup in Ha. by apply (Ha _ _ He).
Qed.

(** ** What the pending requests depend on *)

(** Changing the entry at the tail changes no pending request. *)
Lemma ring_pending_tail a h es e :
  in_ring MTE MTL (head_of h) -> in_ring MTE MTL (tail_of h) ->
  ring_pending a g h (<[Z.to_nat (lin MTE (tail_of h)) := e]> es) = ring_pending a g h es.
Proof.
  intros Hh Ht. unfold ring_pending. apply map_ext_in. intros k Hk.
  apply in_seq in Hk. unfold entry_at. rewrite list_lookup_insert_ne; [done|].
  rewrite <- (ring_slot_tail h Hh Ht). intros E.
  pose proof (dist_range MTE MTL cfg_E cfg_L (head_of h) (tail_of h)).
  apply ring_slot_inj in E; unfold ring_used in *; lia.
Qed.

(** Changing an entry without changing its call changes no pending request. *)
Lemma ring_pending_same a h es n e e' :
  es !! n = Some e -> entry_call a e' = entry_call a e ->
  ring_pending a g h (<[n := e']> es) = ring_pending a g h es.
Proof.
  intros He Hc. unfold ring_pending. apply map_ext_in. intros k _. unfold entry_at.
  destruct (decide (n = ring_slot g h k)) as [->|Hne].
  - rewrite list_lookup_insert_eq by (by eapply lookup_lt_Some). simpl. by rewrite He.
  - by rewrite list_lookup_insert_ne.
Qed.

(** Moving the tail makes the entry at the tail pending. *)
Lemma ring_pending_advance a h h' es :
  in_ring MTE MTL (head_of h) -> in_ring MTE MTL (tail_of h) ->
  ring_used g h < N - 1 -> head_of h' = head_of h ->
  tail_of h' = worker_next MTE MTL (tail_of h).1 (tail_of h).2 ->
  ring_used g h' = ring_used g h + 1 /\
  ring_pending a g h' es
    = ring_pending a g h es ++ [entry_call a (entry_at es (Z.to_nat (lin MTE (tail_of h))))].
Proof.
  intros Hh Ht Hu Eh Et.
  assert (ring_used g h' = ring_used g h + 1) as Hu'.
  { unfold ring_used, dist in *. rewrite Eh, Et.
    rewrite worker_next_lin by auto.
    rewrite <- surjective_pairing. pose proof cfg_N.
    rewrite Zminus_mod_idemp_l.
    replace (lin MTE (tail_of h) + 1 - lin MTE (head_of h))
      with (lin MTE (tail_of h) - lin MTE (head_of h) + 1) by lia.
    rewrite <- Zplus_mod_idemp_l. apply Z.mod_small.
    pose proof (Z.mod_pos_bound (lin MTE (tail_of h) - lin MTE (head_of h)) N cfg_N). lia. }
  split; [done|]. pose proof (dist_range MTE MTL cfg_E cfg_L (head_of h) (tail_of h)).
  unfold ring_pending. rewrite Hu'.
  replace (Z.to_nat (ring_used g h + 1)) with (Z.to_nat (ring_used g h) + 1)%nat
    by (unfold ring_used in *; lia).
  rewrite seq_app, map_app; simpl. rewrite <- ring_slot_tail by done.
  unfold ring_slot. by rewrite Eh.
Qed.
End slots.
