(* ===== verification/ConfigProps.v ===== *)
(** * Properties of the configuration

    The parser terminates on every file, reads back what a well-formed file
    says, and the process and the module end up with the same values. *)
From Stdlib Require Import Ascii String.
From stdpp Require Import base numbers list gmap strings.
From S2P Require Import Prelude Esca Ring IndirectCall World Kernel Preload Config Rings.

Local Open Scope Z_scope.
Local Open Scope list_scope.

(** ** Spans *)
Section span.
Context (p : ascii -> bool).

Lemma span_app a b :
  forallb p a = true -> match b with [] => True | c :: _ => p c = false end ->
  span p (a ++ b) = (a, b).
Proof.
  induction a as [|c a IH]; simpl; intros Ha Hb.
  - destruct b as [|c b]; simpl; [done|]. by rewrite Hb.
  - apply andb_true_iff in Ha as [-> Ha]. by rewrite IH.
Qed.

Lemma span_split l : let '(a, b) := span p l in l = a ++ b.
Proof.
  induction l as [|c l IH]; simpl; [done|]. destruct (p c); [|done].
  destruct (span p l) as [a b]. simpl. by rewrite IH.
Qed.

(** Reading never makes the stream longer, and shortens it by what is read. *)
Lemma read_span_length s :
  exists a s', read_span p s = Ret (a, s') /\
    (List.length (rest s) = List.length a + List.length (rest s'))%nat /\
    (feof s = true -> feof s' = true) /\ (rest s' = [] -> feof s' = true).
Proof.
  unfold read_span. pose proof (span_split (rest s)) as H.
  destruct (span p (rest s)) as [a b]. eexists a, _. split; [done|]. simpl.
  split; [by rewrite H, length_app|]. by destruct b.
Qed.

Lemma read_span_run a b e :
  forallb p a = true -> match b with [] => True | c :: _ => p c = false end ->
  read_span p (Stream (a ++ b) e) = Ret (a, Stream b (match b with [] => true | _ => e end)).
Proof. intros Ha Hb. unfold read_span; simpl. by rewrite span_app. Qed.
End span.

(** ** Termination *)

(** A reader that never blocks and never makes the stream longer. *)
Definition shrinks {A} (m : M stream A) : Prop :=
  forall s, match m s with
            | Ret (_, s') => (List.length (rest s') <= List.length (rest s))%nat
            | Fault _ => True
            | Hang => False
            end.

Lemma shrinks_bind {A B} (m : M stream A) (k : A -> M stream B) :
  shrinks m -> (forall a, shrinks (k a)) -> shrinks (let! x := m in k x).
Proof.
  intros Hm Hk s. unfold bind. specialize (Hm s). destruct (m s) as [[a s']| |]; try done.
  specialize (Hk a s'). destruct (k a s') as [[b s'']| |]; try done. lia.
Qed.

Lemma shrinks_ret {A} (a : A) : shrinks (ret a).
Proof. intros s. simpl. lia. Qed.
Lemma shrinks_fail {A} f : shrinks (@fail stream A f).
Proof. done. Qed.
Lemma shrinks_span p : shrinks (read_span p).
Proof. intros s. destruct (read_span_length p s) as (a & s' & -> & H & _). lia. Qed.
Lemma shrinks_char c : shrinks (scan_char c).
Proof.
  intros s. unfold scan_char. destruct (rest s) as [|c' l] eqn:Hr; simpl; [lia|].
  destruct (Ascii.eqb c c'); simpl; rewrite ?Hr; simpl; lia.
Qed.

Create HintDb scan.
#[export] Hint Resolve shrinks_bind shrinks_ret shrinks_fail shrinks_span shrinks_char : scan.

Lemma shrinks_scan_d : shrinks scan_d.
Proof.
  apply shrinks_bind; [apply shrinks_span|intros _].
  apply shrinks_bind; [apply shrinks_char|intros neg].
  apply shrinks_bind; [destruct neg; auto with scan|intros _].
  apply shrinks_bind; [auto with scan|intros ds].
  destruct ds; [auto with scan|]. simpl. case_match; auto with scan.
Qed.

(** A key that was read is gone; without one the end of the file was seen. *)
Lemma scan_s_progress s :
  match scan_s s with
  | Ret (Some _, s') => (List.length (rest s') < List.length (rest s))%nat
  | Ret (None, s') => feof s' = true
  | Fault _ => True
  | Hang => False
  end.
Proof.
  unfold scan_s, skip_space. destruct (read_span_length is_space s) as (a & s1 & Hr & Hl & _ & He). mrun Hr.
  assert (match rest s1 with [] => True | c :: _ => is_space c = false end) as Hstop.
  { unfold read_span in Hr. destruct (span is_space (rest s)) as [a' b'] eqn:Hsp.
    injection Hr as <- <-. simpl. clear - Hsp. revert a' b' Hsp.
    induction (rest s) as [|c l IH]; simpl; intros a' b' Hsp; [by simplify_eq|].
    destruct (is_space c) eqn:Hc; [|by simplify_eq].
    destruct (span is_space l) as [a b]. simplify_eq. by apply (IH a). }
  set (ns := fun c => negb (is_space c)).
  destruct (read_span_length ns s1) as (w & s2 & Hr2 & Hl2 & He2 & _). mrun Hr2.
  destruct w as [|c w].
  - simpl. destruct (rest s1) as [|c l] eqn:Hs1; [by apply He2, He|].
    unfold read_span in Hr2. rewrite Hs1 in Hr2. simpl in Hr2. unfold ns in Hr2. rewrite Hstop in Hr2.
    simpl in Hr2. by destruct (span _ l).
  - destruct (CONFIG_ARG_MAX_BYTES <=? _); simpl; [done|]. simpl in Hl2. lia.
Qed.

Lemma fscanf_progress s :
  match fscanf_option s with
  | Ret (r, s') => (List.length (rest s') < List.length (rest s))%nat \/ r = None /\ feof s' = true
  | Fault _ => True
  | Hang => False
  end.
Proof.
  pose proof (scan_s_progress s) as Hs. unfold fscanf_option, bind at 1.
  destruct (scan_s s) as [[[key|] s1]| |]; try done; [|by right].
  set (k := do! skip_space in _).
  assert (shrinks k) as Hk.
  { unfold k. apply shrinks_bind; [apply shrinks_span|intros _].
    apply shrinks_bind; [apply shrinks_char|intros []]; [|auto with scan].
    apply shrinks_bind; [apply shrinks_span|intros _].
    apply shrinks_bind; [apply shrinks_scan_d|auto with scan]. }
  specialize (Hk s1). destruct (k s1) as [[r s']| |]; try done. left. lia.
Qed.

Lemma parse_loop_terminates fuel : forall c s,
  (List.length (rest s) < fuel)%nat -> parse_loop fuel c s <> Hang.
Proof.
  induction fuel as [|fuel IH]; intros c s Hl; [lia|]. simpl. unfold bind at 1.
  pose proof (fscanf_progress s) as Hp. destruct (fscanf_option s) as [[r s']| |]; try done.
  destruct r as [o|].
  - destruct Hp as [Hp|[Hp _]]; [|done]. apply IH. lia.
  - unfold bind, gets. destruct (feof s') eqn:He; [done|].
    destruct Hp as [Hp|[_ Hp]]; [|congruence]. apply IH. lia.
Qed.

(** C23: the loop of [setup] ends on every file: each [fscanf] that does not see
    the end of the file consumes at least the characters of a key. *)
Theorem parse_config_terminates file junk : parse_config file junk <> Hang.
Proof.
  unfold parse_config.
  pose proof (parse_loop_terminates (S (List.length file)) junk (Stream file false)) as H.
  destruct (parse_loop _ _ _) as [[c s]| |] eqn:Hp; try done.
  exfalso. apply H; [simpl; lia|done].
Qed.

(** ** Printing a configuration *)
Definition digit_char (d : Z) : ascii := ascii_of_N (Z.to_N (48 + d)).

Fixpoint digits (fuel : nat) (n : Z) (acc : list ascii) : list ascii :=
  match fuel with
  | O => acc
  | S fuel' =>
      let acc' := digit_char (n mod 10) :: acc in
      if n <? 10 then acc' else digits fuel' (n / 10) acc'
  end.

(** Ten digits are enough for an [int]. *)
Definition print_int (v : Z) : list ascii :=
  if v <? 0 then "-"%char :: digits 10 (- v) [] else digits 10 v [].

Definition print_option (o : list ascii * Z) : list ascii :=
  o.1 ++ [" "; "="; " "]%char ++ print_int o.2 ++ ["010"%char].
Definition print_options (l : list (list ascii * Z)) : list ascii := concat (map print_option l).

Lemma N_of_digit_char d : 0 <= d < 10 -> Z.of_N (N_of_ascii (digit_char d)) = 48 + d.
Proof. intros Hd. unfold digit_char. rewrite N_ascii_embedding; lia. Qed.

Lemma digit_char_value d : 0 <= d < 10 -> digit_value (digit_char d) = d.
Proof. intros Hd. unfold digit_value. rewrite N_of_digit_char; lia. Qed.

Lemma digit_char_digit d : 0 <= d < 10 -> is_digit (digit_char d) = true.
Proof.
  intros Hd. pose proof (N_of_digit_char d Hd) as H. unfold is_digit.
  rewrite andb_true_iff, !N.leb_le. lia.
Qed.

Lemma digits_value fuel : forall n acc, 0 <= n < 10 ^ Z.of_nat fuel -> (0 < fuel)%nat ->
  fold_left (fun a c => 10 * a + digit_value c) (digits fuel n acc) 0
  = fold_left (fun a c => 10 * a + digit_value c) acc n.
Proof.
  induction fuel as [|fuel IH]; intros n acc Hn Hf; [lia|]. cbn [digits].
  pose proof (Z.mod_pos_bound n 10 ltac:(lia)) as Hm. pose proof (Z.div_mod n 10 ltac:(lia)) as Hd.
  destruct (Z.ltb_spec n 10) as [Hlt|Hge].
  - cbn [fold_left]. rewrite digit_char_value by done. f_equal. rewrite Z.mod_small; lia.
  - rewrite Nat2Z.inj_succ, Z.pow_succ_r in Hn by lia.
    assert (0 < n / 10 < 10 ^ Z.of_nat fuel) as Hq by zlia.
    destruct fuel as [|fuel]; [simpl in Hq; lia|].
    rewrite IH by lia. cbn [fold_left]. rewrite digit_char_value by done. f_equal. lia.
Qed.

Lemma digits_digit fuel : forall n acc,
  forallb is_digit acc = true -> forallb is_digit (digits fuel n acc) = true.
Proof.
  induction fuel as [|fuel IH]; intros n acc Ha; [done|]. cbn [digits].
  assert (forallb is_digit (digit_char (n mod 10) :: acc) = true) as Ha'.
  { simpl. rewrite digit_char_digit; [done|]. apply Z.mod_pos_bound. lia. }
  destruct (n <? 10); [done|]. by apply IH.
Qed.

Lemma digits_cons fuel n acc : (0 < fuel)%nat -> exists c l, digits fuel n acc = c :: l.
Proof.
  revert n acc. induction fuel as [|fuel IH]; intros n acc Hf; [lia|]. cbn [digits].
  destruct (n <? 10); [by eexists _, _|]. destruct fuel; [by eexists _, _|]. apply IH. lia.
Qed.

(** The numeral of [v], read by [%d]. *)
Lemma scan_digits v tail e :
  0 <= v <= 2147483648 -> is_digit "010" = false ->
  read_span is_digit (Stream (digits 10 v [] ++ "010"%char :: tail) e)
    = Ret (digits 10 v [], Stream ("010"%char :: tail) e) /\
  dec_value (digits 10 v []) = v.
Proof.
  intros Hv Hnl. split.
  - rewrite read_span_run; [done|by apply digits_digit|done].
  - unfold dec_value. rewrite digits_value; [done|simpl; lia|lia].
Qed.

Lemma digit_not c : is_digit c = true -> is_space c = false /\ Ascii.eqb "-" c = false /\ Ascii.eqb "+" c = false.
Proof.
  intros Hc. split_and!.
  - unfold is_digit, is_space in *. apply andb_true_iff in Hc as [H1 H2].
    apply N.leb_le in H1, H2. apply not_true_iff_false.
    rewrite orb_true_iff, andb_true_iff, !N.leb_le, N.eqb_eq. lia.
  - destruct (Ascii.eqb_spec "-" c) as [<-|]; done.
  - destruct (Ascii.eqb_spec "+" c) as [<-|]; done.
Qed.

Lemma scan_d_print v tail e :
  INT_MIN <= v <= INT_MAX ->
  scan_d (Stream (print_int v ++ "010"%char :: tail) e) = Ret (Some v, Stream ("010"%char :: tail) e).
Proof.
  intros Hv. unfold print_int, scan_d, skip_space. destruct (Z.ltb_spec v 0) as [Hneg|Hpos].
  - destruct (scan_digits (- v) tail e) as [Hrun Hval]; [unfold INT_MIN in *; lia|done|].
    destruct (digits_cons 10 (- v) [] ltac:(lia)) as (c & l & Hcl).
    rewrite (bind_eq _ _ _ [] (Stream (("-"%char :: digits 10 (- v) []) ++ "010"%char :: tail) e))
      by (by apply (read_span_run is_space [])).
    rewrite (bind_eq _ _ _ true (Stream (digits 10 (- v) [] ++ "010"%char :: tail) e)) by done.
    rewrite bind_ret_l. mrun Hrun. rewrite Hcl. rewrite <- Hcl, Hval, Z.opp_involutive.
    by rewrite (proj2 (in_int_spec v) Hv).
  - destruct (scan_digits v tail e) as [Hrun Hval]; [unfold INT_MAX in *; lia|done|].
    destruct (digits_cons 10 v [] ltac:(lia)) as (c & l & Hcl).
    assert (is_digit c = true) as Hc.
    { pose proof (digits_digit 10 v [] eq_refl) as Hd. rewrite Hcl in Hd. simpl in Hd.
      by apply andb_true_iff in Hd as [? _]. }
    destruct (digit_not c Hc) as (Hsp & Hm & Hp).
    rewrite (bind_eq _ _ _ [] (Stream (digits 10 v [] ++ "010"%char :: tail) e)).
    2: { rewrite Hcl. apply (read_span_run is_space []); done. }
    rewrite (bind_eq _ _ _ false (Stream (digits 10 v [] ++ "010"%char :: tail) e)).
    2: { rewrite Hcl. unfold scan_char. cbn [rest app]. by rewrite Hm. }
    rewrite (bind_eq _ _ _ false (Stream (digits 10 v [] ++ "010"%char :: tail) e)).
    2: { rewrite Hcl. unfold scan_char. cbn [rest app]. by rewrite Hp. }
    mrun Hrun. rewrite Hcl. rewrite <- Hcl, Hval. by rewrite (proj2 (in_int_spec v) Hv).
Qed.

(** ** Reading back a printed file *)
Definition valid_option (o : list ascii * Z) : Prop :=
  o.1 <> [] /\ forallb (fun c => negb (is_space c)) o.1 = true /\
  Z.of_nat (List.length o.1) < CONFIG_ARG_MAX_BYTES /\ INT_MIN <= o.2 <= INT_MAX.

Lemma scan_s_key ws key tail e :
  forallb is_space ws = true -> key <> [] ->
  forallb (fun c => negb (is_space c)) key = true ->
  Z.of_nat (List.length key) < CONFIG_ARG_MAX_BYTES ->
  scan_s (Stream (ws ++ key ++ " "%char :: tail) e) = Ret (Some key, Stream (" "%char :: tail) e).
Proof.
  intros Hws Hne Hk Hlen. destruct key as [|c key]; [done|]. unfold scan_s, skip_space.
  rewrite (bind_eq _ _ _ ws (Stream ((c :: key) ++ " "%char :: tail) e)).
  2: { apply read_span_run; [done|]. simpl. simpl in Hk. apply andb_true_iff in Hk as [Hc _].
       by apply negb_true_iff in Hc. }
  rewrite (bind_eq _ _ _ (c :: key) (Stream (" "%char :: tail) e)) by (by apply read_span_run).
  destruct (Z.leb_spec CONFIG_ARG_MAX_BYTES (Z.of_nat (List.length (c :: key)))); [lia|done].
Qed.

Lemma fscanf_print ws o tail e :
  forallb is_space ws = true -> valid_option o ->
  fscanf_option (Stream (ws ++ print_option o ++ tail) e) = Ret (Some o, Stream ("010"%char :: tail) e).
Proof.
  intros Hws (Hne & Hk & Hlen & Hv). destruct o as [key v]; cbn [fst snd] in *.
  unfold print_option; cbn [fst snd]. rewrite <- !app_assoc.
  unfold fscanf_option. cbn [app].
  mrun (scan_s_key ws key ("=" :: " " :: print_int v ++ "010" :: tail)%char e Hws Hne Hk Hlen).
  unfold skip_space.
  rewrite (bind_eq _ _ _ [" "%char] (Stream ("=" :: " " :: print_int v ++ "010" :: tail)%char e))
    by (by apply (read_span_run is_space [" "%char])).
  rewrite (bind_eq _ _ _ true (Stream (" " :: print_int v ++ "010" :: tail)%char e)) by done.
  assert (match print_int v ++ "010"%char :: tail with [] => True | c :: _ => is_space c = false end) as Hc.
  { unfold print_int. destruct (v <? 0); [done|]. destruct (digits_cons 10 v [] ltac:(lia)) as (c & l & Hcl).
    pose proof (digits_digit 10 v [] eq_refl) as Hd. rewrite Hcl in *. simpl in Hd |- *.
    apply andb_true_iff in Hd as [Hd _]. by apply digit_not. }
  rewrite (bind_eq _ _ _ [" "%char] (Stream (print_int v ++ "010"%char :: tail) e)).
  2: { etransitivity; [exact (read_span_run is_space [" "%char] (print_int v ++ "010"%char :: tail) e eq_refl Hc)|].
       by destruct (print_int v). }
  mrun (scan_d_print v tail e Hv). done.
Qed.

(** The lines at the start of a file, whatever follows. *)
Lemma parse_prefix l : forall fuel ws c t,
  Forall valid_option l -> forallb is_space ws = true -> (List.length l <= fuel)%nat ->
  exists ws', forallb is_space ws' = true /\
    parse_loop fuel c (Stream (ws ++ print_options l ++ t) false)
    = parse_loop (fuel - List.length l) (fold_left (fun c o => apply_option o c) l c)
        (Stream (ws' ++ t) false).
Proof.
  induction l as [|o l IH]; intros fuel ws c t Hl Hws Hf; simpl in Hf.
  - exists ws. by rewrite Nat.sub_0_r.
  - apply Forall_cons in Hl as [Ho Hl]. destruct fuel as [|fuel]; [lia|].
    destruct (IH fuel ["010"%char] (apply_option o c) t Hl eq_refl ltac:(lia)) as (ws' & Hws' & Heq).
    exists ws'. split; [done|]. simpl. rewrite <- Heq. unfold print_options; simpl.
    rewrite <- app_assoc.
    by mrun (fscanf_print ws o (concat (map print_option l) ++ t) false Hws Ho).
Qed.

Lemma print_options_length l : (List.length l <= List.length (print_options l))%nat.
Proof.
  induction l as [|o l IH]; [done|]. unfold print_options in *; simpl.
  unfold print_option at 1. rewrite !length_app. cbn [List.length]. lia.
Qed.

Lemma parse_print l c fuel :
  Forall valid_option l -> (List.length (print_options l) < fuel)%nat ->
  parse_loop fuel c (Stream (print_options l) false)
  = Ret (fold_left (fun c o => apply_option o c) l c, Stream [] true).
Proof.
  intros Hl Hf. pose proof (print_options_length l).
  destruct (parse_prefix l fuel [] c [] Hl eq_refl ltac:(lia)) as (ws & Hws & Heq).
  simpl in Heq. rewrite app_nil_r in Heq. rewrite Heq, app_nil_r.
  destruct (fuel - List.length l)%nat eqn:Hn; [lia|]. simpl.
  rewrite (bind_eq _ _ _ None (Stream [] true)); [done|].
  unfold fscanf_option, scan_s, skip_space.
  rewrite (bind_eq _ _ _ None (Stream [] true)); [done|].
  rewrite (bind_eq _ _ _ ws (Stream [] true)); [done|].
  rewrite <- (app_nil_r ws) at 1. by apply read_span_run.
Qed.

(** C22: a file of well-formed lines is read as the sequence of its assignments:
    later ones win, unknown keys are skipped, whatever [malloc] left in the
    structure shows only in the fields no line sets. *)
Theorem parse_config_reads_options l junk :
  Forall valid_option l ->
  parse_config (print_options l) junk = Ret (fold_left (fun c o => apply_option o c) l junk).
Proof.
  intros Hl. unfold parse_config.
  by rewrite parse_print by (done || lia).
Qed.

(** ** A complete configuration *)
Definition config_options (c : esca_config_t) : list (list ascii * Z) :=
  [(list_ascii_of_string "esca_localize", esca_localize c);
   (list_ascii_of_string "max_table_entry", max_table_entry c);
   (list_ascii_of_string "max_table_len", max_table_len c);
   (list_ascii_of_string "max_usr_worker", max_usr_worker c);
   (list_ascii_of_string "max_ker_worker", max_ker_worker c);
   (list_ascii_of_string "default_idle_time", default_idle_time c);
   (list_ascii_of_string "affinity_offset", affinity_offset c)].

(** Every field is an [int]. *)
Definition config_in_range (c : esca_config_t) : Prop :=
  Forall (fun o => INT_MIN <= o.2 <= INT_MAX) (config_options c).

(** C16: a file that sets all seven options is read back exactly, independently
    of the uninitialised memory it is stored in. *)
Theorem parse_config_roundtrip c junk :
  config_in_range c -> parse_config (print_options (config_options c)) junk = Ret c.
Proof.
  intros Hc. unfold parse_config.
  rewrite parse_print; [|..|lia].
  - destruct c, junk. vm_compute. reflexivity.
  - unfold config_in_range, config_options in *. repeat (apply Forall_cons in Hc as [? Hc]).
    repeat (apply Forall_cons; split; [split; [done|split; [done|split; [done|done]]]|]).
    by apply Forall_nil.
Qed.

(** A key of 128 characters or more overflows [option.key]. *)
Theorem long_key_overflows l ws key tail junk :
  Forall valid_option l -> forallb is_space ws = true ->
  forallb (fun c => negb (is_space c)) key = true ->
  CONFIG_ARG_MAX_BYTES <= Z.of_nat (List.length key) ->
  match tail with [] => True | c :: _ => is_space c = true end ->
  parse_config (print_options l ++ ws ++ key ++ tail) junk = Fault BufferOverflow.
Proof.
  intros Hl Hws Hk Hlen Htl. unfold parse_config. pose proof (print_options_length l) as Hpl.
  set (t := ws ++ key ++ tail). set (fuel := S (List.length (print_options l ++ t))).
  assert (List.length l < fuel)%nat as Hf by (unfold fuel; rewrite length_app; lia).
  destruct (parse_prefix l fuel [] junk t Hl eq_refl ltac:(lia)) as (ws' & Hws' & Heq).
  rewrite app_nil_l in Heq. rewrite Heq. destruct (fuel - List.length l)%nat eqn:Hn; [lia|]. simpl.
  destruct key as [|c key]; [unfold CONFIG_ARG_MAX_BYTES in Hlen; simpl in Hlen; lia|].
  rewrite (bind_fault _ _ _ BufferOverflow); [done|]. unfold fscanf_option.
  rewrite (bind_fault _ _ _ BufferOverflow); [done|]. unfold scan_s, skip_space, t.
  rewrite app_assoc, (bind_eq _ _ _ (ws' ++ ws) (Stream ((c :: key) ++ tail) false)).
  2: { rewrite read_span_run; [done|by rewrite forallb_app, Hws', Hws|].
       simpl in Hk. apply andb_true_iff in Hk as [Hc _]. by apply negb_true_iff in Hc. }
  rewrite (bind_eq _ _ _ (c :: key) (Stream tail (match tail with [] => true | _ => false end))).
  2: { apply read_span_run; [done|]. destruct tail; [done|]. by rewrite Htl. }
  by destruct (Z.leb_spec CONFIG_ARG_MAX_BYTES (Z.of_nat (List.length (c :: key)))); [|lia].
Qed.

(** ** setup *)
Section setup.
Context (E : env).

(** The configuration [setup] ends up with. *)
Definition chosen (file : option (list ascii)) (junk c : esca_config_t) : Prop :=
  match file with None => c = default_config | Some f => parse_config f junk = Ret c end.

Lemma init_config_run c w :
  max_usr_worker c <> 0 -> in_int (Z.quot (max_ker_worker c) (max_usr_worker c)) = true ->
  init_config c w
  = Ret (tt, with_usr (put_ucfg (config_globals c (Z.quot (max_ker_worker c) (max_usr_worker c)))) w).
Proof.
  intros Hu Hq. unfold init_config, c_div, bind at 1.
  destruct (Z.eqb_spec (max_usr_worker c) 0); [done|]. unfold ret, int_result, bind. by rewrite Hq.
Qed.

Lemma setup_prefix file junk c w :
  chosen file junk c -> allocs w = [] ->
  setup E file junk w
  = (do! init_config c in syscall_config c) (with_usr (put_pgsize (page_size E)) w).
Proof.
  intros Hc Hal. unfold setup. rewrite (bind_eq (modify _) _ w tt (with_usr (put_pgsize (page_size E)) w)) by done.
  set (w0 := with_usr _ w).
  rewrite (bind_eq alloc_result _ w0 true w0) by (unfold alloc_result; simpl; by rewrite Hal).
  rewrite (bind_eq _ _ w0 c w0); [done|]. destruct file as [f|]; simpl in Hc; [by rewrite Hc|by subst].
Qed.
End setup.

(** C24: with the module loaded, [max_usr_worker] not 0, the quotient of the
    numbers of workers within [int] and allocations that succeed, [setup] leaves
    the process and the module with the same eight configuration variables: those
    of the file, or of [default_config] when there is no file. *)
Theorem setup_agrees E file junk c w :
  chosen file junk c -> allocs w = [] ->
  syscall_table (krn w) !! __NR_esca_config = Some H_config ->
  max_usr_worker c <> 0 -> in_int (Z.quot (max_ker_worker c) (max_usr_worker c)) = true ->
  exists w', setup E file junk w = Ret (tt, w') /\
    ucfg (usr w') = config_globals c (Z.quot (max_ker_worker c) (max_usr_worker c)) /\
    kcfg (krn w') = ucfg (usr w') /\ pgsize (usr w') = page_size E /\ mem w' = mem w.
Proof.
  intros Hc Hal Hhook Hu Hq. rewrite (setup_prefix E file junk c w Hc Hal). set (w0 := with_usr _ w).
  mrun (init_config_run c w0 Hu Hq). set (w1 := with_usr _ w0).
  set (g := config_globals c _) in *. exists (with_krn (put_kcfg g) w1). split; [|done].
  unfold syscall_config, dispatch, bind at 1, gets. change (krn w1) with (krn w). rewrite Hhook.
  unfold sys_esca_init_config. rewrite (bind_eq alloc_result _ w1 true w1) by (unfold alloc_result; simpl; by rewrite Hal).
  rewrite bind_ret_l. unfold c_div. destruct (Z.eqb_spec (max_usr_worker c) 0); [done|].
  rewrite bind_ret_l. unfold int_result. by rewrite Hq.
Qed.

(** [max_usr_worker = 0] makes [setup], so the start of the program, fault
    with a division by zero. *)
Theorem setup_zero_workers E file junk c w :
  chosen file junk c -> allocs w = [] -> max_usr_worker c = 0 ->
  setup E file junk w = Fault DivByZero.
Proof.
  intros Hc Hal Hu. rewrite (setup_prefix E file junk c w Hc Hal).
  apply bind_fault. unfold init_config, c_div. by rewrite Hu.
Qed.

(** ** The shipped file *)
Definition esca_conf : list ascii := list_ascii_of_string
"esca_localize = 0
max_table_entry = 64
max_table_len = 10
max_usr_worker = 1
max_ker_worker = 1
default_idle_time = 1500
affinity_offset = 0".

(** The shipped esca.conf (its last line has no line end) sets every option;
    with 4 KiB pages it is a configuration for which both sides address the same
    entries, and so is [default_config]. *)
Theorem shipped_config_ok junk :
  parse_config esca_conf junk = Ret (EscaConfig 0 64 10 1 1 1500 0) /\
  cfg_ok 4096 (config_globals (EscaConfig 0 64 10 1 1 1500 0) 1) /\
  cfg_ok 4096 (config_globals default_config 1).
Proof.
  split_and!.
  - destruct junk. vm_compute. reflexivity.
  - constructor; vm_compute; first [by right | split; congruence | congruence].
  - constructor; vm_compute; first [by left | split; congruence | congruence].
Qed.

(** ** Witnesses *)
Definition options0 : list (list ascii * Z) :=
  [(list_ascii_of_string "max_usr_worker", 2); (list_ascii_of_string "colour", -7);
   (list_ascii_of_string "max_usr_worker", 0)].

Lemma options0_valid : Forall valid_option options0.
Proof. repeat constructor; vm_compute; congruence. Qed.

Lemma parse_config_reads_options_witness :
  parse_config (print_options options0) default_config = Ret (EscaConfig 1 64 1 0 1 150 0).
Proof. exact (parse_config_reads_options options0 default_config options0_valid). Defined.

Lemma parse_config_roundtrip_witness :
  parse_config (print_options (config_options (EscaConfig 0 64 10 4 8 (-2147483648) 2147483647)))
    (EscaConfig 9 9 9 9 9 9 9) = Ret (EscaConfig 0 64 10 4 8 (-2147483648) 2147483647).
Proof.
  apply (parse_config_roundtrip (EscaConfig 0 64 10 4 8 (-2147483648) 2147483647)).
  repeat constructor; vm_compute; congruence.
Defined.

Lemma long_key_overflows_witness :
  parse_config (print_options options0 ++ [" "%char] ++ replicate 128 "k"%char ++ ["010"%char]) default_config
  = Fault BufferOverflow.
Proof.
  apply (long_key_overflows options0 [" "%char] (replicate 128 "k"%char) ["010"%char] default_config
           options0_valid); vm_compute; (reflexivity || congruence).
Defined.

(** A machine with the module loaded, before the program starts. *)
Definition env_cfg : env :=
  Env X86_64 4096 (fun _ _ => Entry 0 0 0 0 0 []) (fun _ _ => Table [] [] 0 0 0 0 0 0)
    (fun ms => ms) (fun _ _ => 0) 1 2 3.
Definition world_cfg : world :=
  World (Preload 0 0 0 0 0 (Globals 0 0 0 0 0 0 0 0) [] 0 0 ∅ 0 0 ∅ 0 0 ∅ 0)
    (Module_ (Globals 0 0 0 0 0 0 0 0) [] [] [] {[__NR_esca_config := H_config]} [] [] [])
    (Memory ∅ ∅ ∅ 0) [].

Lemma setup_agrees_witness :
  exists w', setup env_cfg (Some esca_conf) default_config world_cfg = Ret (tt, w') /\
    ucfg (usr w') = Globals 0 64 10 1 1 1 1500 0 /\ kcfg (krn w') = ucfg (usr w') /\
    pgsize (usr w') = 4096 /\ mem w' = mem world_cfg.
Proof.
  apply (setup_agrees env_cfg (Some esca_conf) default_config (EscaConfig 0 64 10 1 1 1500 0) world_cfg);
    vm_compute; (reflexivity || congruence).
Defined.

Lemma setup_zero_workers_witness :
  setup env_cfg (Some (print_options options0)) default_config world_cfg = Fault DivByZero.
Proof.
  apply (setup_zero_workers env_cfg (Some (print_options options0)) default_config
           (EscaConfig 1 64 1 0 1 150 0) world_cfg); vm_compute; reflexivity.
Defined.

(** Without blanks around [=] a line is not an assignment: [%s] takes it whole. *)
Example no_blanks_ignored :
  parse_config (list_ascii_of_string "max_usr_worker=4
max_ker_worker = 8") default_config = Ret (EscaConfig 1 64 1 1 8 150 0).
Proof. vm_compute. reflexivity. Qed.
