(* ===== verification/Submit.v ===== *)
(** * Submitting a request

    The effect of the common part of all wrappers on the ring their descriptor
    selects: fill the entry at the tail, [update_index], release the entry. *)
From stdpp Require Import base numbers list gmap.
From S2P Require Import Prelude Esca Ring IndirectCall Request World Kernel Preload Wrappers Rings.

Definition set_mem (m : memory) (w : world) : world := with_mem (fun _ => m) w.

(** The part of the process state the ring accesses read. *)
Definition u_view (w : world) : list (option hptr) * globals := (utable (usr w), ucfg (usr w)).

Lemma set_mem_mem w : set_mem (mem w) w = w.
Proof. by destruct w. Qed.
Lemma set_mem_twice m m' w : set_mem m' (set_mem m w) = set_mem m' w.
Proof. done. Qed.

(** What a wrapper leaves behind: one more pending request on its ring, the
    entry marked busy, every other ring as it was. *)
Record submitted_to (a : arch) (ps : Z) (g : globals) (w w' : world) (idx : Z) (hp : hptr)
    (rg : Z) (h : esca_table_t) (es : list esca_table_entry_t) (r : request) : Prop := {
  st_pending : pending a w' idx = (fun q => q ++ [request_call a r]) <$> pending a w idx;
  st_ring : exists h' es', ring_at w' idx hp rg h' es' /\ ring_wf ps g rg h' es' /\
    ring_used g h' = ring_used g h + 1 /\ head_of h' = head_of h /\ flags h' = flags h /\
    tail_of h' = worker_next (MAX_TABLE_ENTRY g) (MAX_TABLE_LEN g) (tail_of h).1 (tail_of h).2 /\
    (forall n, entry_at es' n = entry_at es n \/
               n = Z.to_nat (lin (MAX_TABLE_ENTRY g) (tail_of h))) /\
    rstatus (entry_at es' (Z.to_nat (lin (MAX_TABLE_ENTRY g) (tail_of h)))) = BENTRY_BUSY;
  st_others : forall hp' rg' h' es', hp' <> hp -> rg' <> rg ->
    ring_mem w hp' rg' h' es' -> ring_mem w' hp' rg' h' es';
  st_utable : utable (usr w') = utable (usr w);
  st_batch : batch_num (usr w') = batch_num (usr w) + 1;
  st_segment : in_segment (usr w') = in_segment (usr w);
  st_cfg : ucfg (usr w') = ucfg (usr w);
  st_worker : this_worker_id (usr w') = this_worker_id (usr w);
  st_kernel : krn w' = krn w
}.

Section submit.
Context (E : env) (g : globals) (Hg : cfg_ok (page_size E) g).
Abbreviation MTE := (MAX_TABLE_ENTRY g).
Abbreviation MTL := (MAX_TABLE_LEN g).
Abbreviation N := (ring_size MTE MTL).
Abbreviation ps := (page_size E).
Abbreviation a := (e_arch E).

#[local] Hint Resolve cfg_E cfg_L cfg_S cfg_N : core.

Lemma pending_ring w idx hp rg h es :
  ucfg (usr w) = g -> ring_at w idx hp rg h es -> ring_wf ps g rg h es ->
  pending a w idx = Some (ring_pending a g h es).
Proof.
  intros Hc [Hu Hk Hh He] Hw. unfold pending. rewrite Hu; simpl. rewrite Hh; simpl.
  rewrite (rw_user _ _ _ _ _ Hw 0) by (pose proof (co_len _ _ Hg); lia).
  simpl. rewrite He; simpl. by rewrite Hc.
Qed.

(** ** Single accesses *)
Lemma u_header_run w idx hp rg h es :
  ring_at w idx hp rg h es -> u_header idx w = Ret (hp, w).
Proof. intros Hr. unfold u_header, bind, get. by rewrite (ra_user _ _ _ _ _ _ Hr). Qed.

Lemma u_load_hdr_run w idx hp rg h es :
  ring_at w idx hp rg h es -> u_load_hdr idx w = Ret (h, w).
Proof.
  intros Hr. unfold u_load_hdr. mrun (u_header_run _ _ _ _ _ _ Hr).
  apply load_hdr_spec, Hr.
Qed.

Lemma u_update_hdr_run w idx hp rg h es f :
  ring_at w idx hp rg h es -> u_update_hdr idx f w = Ret (tt, put_header hp (f h) w).
Proof.
  intros Hr. unfold u_update_hdr. mrun (u_header_run _ _ _ _ _ _ Hr).
  apply update_hdr_spec, Hr.
Qed.

Lemma u_loc_run w idx hp rg h es i j :
  ring_at w idx hp rg h es -> (forall i, 0 <= i < MTL ->
    aget (user_tables h) i = Some (Some (UPtr rg (i * MTE)))) -> in_ring MTE MTL (i, j) ->
  u_loc idx i j w = Ret ((rg, lin MTE (i, j)), w).
Proof.
  intros Hr Hu Hp. unfold u_loc. mrun (u_load_hdr_run _ _ _ _ _ _ Hr).
  rewrite (Hu i) by apply Hp. unfold deref. by rewrite bind_ret_l.
Qed.

Lemma u_entry_run w idx hp rg h es i j f e :
  ring_at w idx hp rg h es -> ring_wf ps g rg h es -> in_ring MTE MTL (i, j) ->
  es !! Z.to_nat (lin MTE (i, j)) = Some e ->
  u_entry idx i j f w = Ret (tt, put_entries rg (<[Z.to_nat (lin MTE (i, j)) := f e]> es) w).
Proof.
  intros Hr Hw Hp He. unfold u_entry. mrun (u_loc_run _ _ _ _ _ _ _ _ Hr (rw_user _ _ _ _ _ Hw) Hp).
  assert (0 <= lin MTE (i, j) < N) as Hl by (eapply lin_range; eauto).
  apply update_ent_spec with (es := es); [apply Hr| |done]. simpl. lia.
Qed.

Lemma ring_at_put_entries w idx hp rg h es es' :
  ring_at w idx hp rg h es -> ring_at (put_entries rg es' w) idx hp rg h es'.
Proof.
  intros [Hu Hk Hh He]. constructor; try done. simpl. by rewrite lookup_insert_eq.
Qed.

Lemma ring_at_put_header w idx hp rg h es h' :
  ring_at w idx hp rg h es -> ring_at (put_header hp h' w) idx hp rg h' es.
Proof.
  intros [Hu Hk Hh He]. constructor; try done.
  - by eapply hdr_lookup_put.
  - by rewrite regions_put_header.
Qed.

Lemma ring_wf_insert rg h es n e :
  ring_wf ps g rg h es -> length (args e) = 6%nat -> ring_wf ps g rg h (<[n := e]> es).
Proof.
  intros [H1 H2 H3 H4 H5 H6] Ha. constructor; try done.
  - by rewrite length_insert.
  - by apply Forall_insert.
Qed.

Lemma ring_wf_header rg h h' es :
  ring_wf ps g rg h es -> tables h' = tables h -> user_tables h' = user_tables h ->
  in_ring MTE MTL (head_of h') -> in_ring MTE MTL (tail_of h') -> ring_wf ps g rg h' es.
Proof.
  intros [H1 H2 H3 H4 H5 H6] E1 E2 Hh Ht. constructor; rewrite ?E1, ?E2; done.
Qed.

(** ** Filling the entry *)
Lemma run_stores_run l : forall w idx hp rg h es i j e,
  ring_at w idx hp rg h es -> ring_wf ps g rg h es -> in_ring MTE MTL (i, j) ->
  es !! Z.to_nat (lin MTE (i, j)) = Some e -> length (args e) = 6%nat ->
  run_stores idx i j l w
  = Ret (tt, put_entries rg (<[Z.to_nat (lin MTE (i, j)) := foldl (flip do_store) e l]> es) w).
Proof.
  induction l as [|s l IH]; intros w idx hp rg h es i j e Hr Hw Hp He Ha; simpl.
  - rewrite list_insert_id by done. by rewrite put_entries_id by apply Hr.
  - mrun (u_entry_run _ _ _ _ _ _ _ _ (do_store s) _ Hr Hw Hp He).
    pose proof (lookup_lt_Some _ _ _ He) as Hlt.
    rewrite (IH _ idx hp rg h (<[Z.to_nat (lin MTE (i, j)) := do_store s e]> es) i j (do_store s e));
      try done.
    + by rewrite put_entries_twice, list_insert_insert_eq.
    + by apply ring_at_put_entries with (es := es).
    + apply ring_wf_insert; [done|]. by rewrite do_store_args.
    + by apply list_lookup_insert_eq.
    + by rewrite do_store_args.
Qed.

(** ** update_index *)

(** The header [update_index] leaves. *)
Definition advanced (h : esca_table_t) : esca_table_t :=
  let n := update_index_next MTE MTL (tail_table h) (tail_entry h) in
  set_tail_table n.1 (set_tail_entry n.2 h).

Lemma not_full rg h es :
  ring_wf ps g rg h es -> ring_used g h < N - 1 ->
  update_index_full (head_table h) (head_entry h) (tail_table h) (tail_entry h) = false.
Proof.
  intros Hw Hu. apply not_true_iff_false. intros Hf.
  apply (update_index_full_spec MTE MTL) in Hf as [_ Hd]; eauto; try apply Hw.
  unfold ring_used, head_of, tail_of in Hu. lia.
Qed.

Lemma update_index_run w idx hp rg h es :
  ucfg (usr w) = g -> ring_at w idx hp rg h es -> ring_wf ps g rg h es ->
  ring_used g h < N - 1 -> update_index idx w = Ret (tt, put_header hp (advanced h) w).
Proof.
  intros Hc Hr Hw Hu. unfold update_index, u_cfg, gets. unfold bind at 1. rewrite Hc.
  mrun (u_load_hdr_run _ _ _ _ _ _ Hr). rewrite (not_full _ _ _ Hw Hu).
  apply (u_update_hdr_run _ _ _ _ _ _ _ Hr).
Qed.

Lemma tail_of_advanced rg h es :
  ring_wf ps g rg h es ->
  tail_of (advanced h) = worker_next MTE MTL (tail_of h).1 (tail_of h).2.
Proof.
  intros Hw. pose proof (rw_tail _ _ _ _ _ Hw) as Ht.
  unfold advanced, tail_of in *; simpl in *.
  rewrite update_index_next_worker by eauto.
  pose proof (worker_next_in_ring MTE MTL (cfg_E _ _ Hg) (cfg_L _ _ Hg) _ _ Ht) as Hn.
  destruct (worker_next _ _ _ _) as [x y]; simpl in *. unfold in_ring in Hn; simpl in Hn.
  assert (MTE <= SHRT_MAX) by (eapply (MTE_short MTE MTL); eauto).
  assert (MTL <= SHRT_MAX) by (eapply (MTL_short MTE MTL); eauto). unfold SHRT_MAX in *.
  rewrite !to_short_id by (unfold SHRT_MAX; lia). done.
Qed.

(** ** The common part of the wrappers *)
Lemma submit_core w idx hp rg h es r :
  ring_at w idx hp rg h es -> ring_wf ps g rg h es -> ring_used g h < N - 1 ->
  (length (rq_args r) <= 6)%nat ->
  let n := Z.to_nat (lin MTE (tail_of h)) in
  exists e,
    fill_entry idx (tail_table h) (tail_entry h) (rq_num r) (rq_args r) w
      = Ret (tt, put_entries rg (<[n := e]> es) w) /\
    ring_wf ps g rg h (<[n := e]> es) /\
    (forall w', ring_at w' idx hp rg (advanced h) (<[n := e]> es) ->
       release idx (tail_table h) (tail_entry h) w'
       = Ret (tt, put_entries rg (<[n := set_rstatus BENTRY_BUSY e]> es) w')) /\
    ring_wf ps g rg (advanced h) (<[n := set_rstatus BENTRY_BUSY e]> es) /\
    ring_used g (advanced h) = ring_used g h + 1 /\
    ring_pending a g (advanced h) (<[n := set_rstatus BENTRY_BUSY e]> es)
      = ring_pending a g h es ++ [request_call a r] /\
    entry_at (<[n := set_rstatus BENTRY_BUSY e]> es) n = set_rstatus BENTRY_BUSY e.
Proof.
  intros Hr Hw Hu Hlen n. pose proof (rw_tail _ _ _ _ _ Hw) as Ht.
  pose proof (rw_head _ _ _ _ _ Hw) as Hh.
  destruct (slot_in_region _ _ Hg _ _ _ _ Hw Ht) as (e0 & He0 & Ha0). fold n in He0.
  pose proof (lookup_lt_Some _ _ _ He0) as Hlt.
  set (e := foldl (flip do_store) e0 (request_stores r)).
  assert (length (args e) = 6%nat) as Ha.
  { unfold e. clear - Ha0. revert e0 Ha0. induction (request_stores r) as [|s l IH]; simpl;
      intros e0 Ha0; [done|]. apply IH. unfold flip. by rewrite do_store_args. }
  assert (entry_call a e = request_call a r) as Hcall by (by apply fill_request).
  pose proof (tail_of_advanced _ _ _ Hw) as Hadv.
  assert (ring_wf ps g rg (advanced h) es) as Hw'.
  { eapply ring_wf_header; try done. rewrite Hadv.
    apply worker_next_in_ring; eauto. }
  destruct (ring_pending_advance ps g Hg a h (advanced h)
              (<[n := set_rstatus BENTRY_BUSY e]> es) Hh Ht Hu eq_refl Hadv) as [Hu' Hp'].
  assert (entry_at (<[n := set_rstatus BENTRY_BUSY e]> es) n = set_rstatus BENTRY_BUSY e) as Hat.
  { unfold entry_at. by rewrite list_lookup_insert_eq. }
  exists e. split_and!; try done.
  - destruct r as [num al]. unfold fill_entry. cbn [rq_num rq_args].
    by apply (run_stores_run _ w idx hp rg h es (tail_table h) (tail_entry h) e0).
  - by apply ring_wf_insert.
  - intros w' Hr'. unfold release.
    rewrite (u_entry_run _ _ _ _ _ _ _ _ (set_rstatus BENTRY_BUSY) e Hr'); try done.
    + by rewrite list_insert_insert_eq.
    + by apply ring_wf_insert.
    + by apply list_lookup_insert_eq.
  - by apply ring_wf_insert.
  - rewrite Hp'. fold n. rewrite Hat. f_equal; [|f_equal; by rewrite <- Hcall].
    by eapply ring_pending_tail.
Qed.
End submit.
