(* ===== verification/WrapperProps.v ===== *)
(** * Properties of the wrappers

    Inside of a segment each wrapper appends exactly its own call to the pending
    requests of the ring its descriptor selects and returns the value of a
    successful call; outside of a segment it is the libc function. *)
From stdpp Require Import base numbers list gmap.
From S2P Require Import Prelude Esca Ring IndirectCall Request World Kernel Preload Wrappers Rings Submit.

(** The ring of a descriptor. *)
Definition ring_index (w : world) (fd : Z) : Z :=
  this_worker_id (usr w) * RATIO (ucfg (usr w)) + Z.rem fd (RATIO (ucfg (usr w))).

(** What a wrapper needs to submit a request: a segment, a configuration with
    which both sides agree, a well-formed ring with room, and a counter that
    does not overflow. *)
Record can_submit (E : env) (g : globals) (w : world) (idx : Z) (hp : hptr) (rg : Z)
    (h : esca_table_t) (es : list esca_table_entry_t) : Prop := {
  cs_cfg : cfg_ok (page_size E) g;
  cs_globals : ucfg (usr w) = g;
  cs_segment : in_segment (usr w) <> 0;
  cs_ring : ring_at w idx hp rg h es;
  cs_wf : ring_wf (page_size E) g rg h es;
  cs_room : ring_used g h < ring_size (MAX_TABLE_ENTRY g) (MAX_TABLE_LEN g) - 1;
  cs_batch : 0 <= batch_num (usr w) < INT_MAX
}.

(** ** Framing *)
Lemma ring_at_usr w w' idx hp rg h es :
  ring_at w idx hp rg h es -> utable (usr w') = utable (usr w) -> krn w' = krn w ->
  hpages (mem w') = hpages (mem w) -> regions (mem w') = regions (mem w) ->
  ring_at w' idx hp rg h es.
Proof.
  intros [Hu Hk Hh He] E1 E2 E3 E4. constructor.
  - by rewrite E1.
  - by rewrite E2.
  - unfold hdr_lookup. by rewrite E3.
  - by rewrite E4.
Qed.

Lemma ring_at_put_entries_ne w idx hp rg h es rg' es' :
  rg' <> rg -> ring_at w idx hp rg h es -> ring_at (put_entries rg' es' w) idx hp rg h es.
Proof.
  intros Hne [Hu Hk Hh He]. constructor; try done. simpl. by rewrite lookup_insert_ne.
Qed.

Lemma ring_at_put_header_ne w idx hp rg h es hp' h' h0 :
  hdr_lookup hp' (mem w) = Some h0 -> hp <> hp' ->
  ring_at w idx hp rg h es -> ring_at (put_header hp' h' w) idx hp rg h es.
Proof.
  intros Hl Hne [Hu Hk Hh He]. constructor; try done.
  - by rewrite (hdr_lookup_put_ne _ _ _ h0).
  - by rewrite regions_put_header.
Qed.

Lemma ring_mem_same w w' hp rg h es :
  ring_mem w hp rg h es -> hpages (mem w') = hpages (mem w) -> regions (mem w') = regions (mem w) ->
  ring_mem w' hp rg h es.
Proof. intros [Hh He] E1 E2. split; [unfold hdr_lookup; by rewrite E1|by rewrite E2]. Qed.

Lemma ring_mem_put_entries_ne w hp rg h es rg' es' :
  rg' <> rg -> ring_mem w hp rg h es -> ring_mem (put_entries rg' es' w) hp rg h es.
Proof. intros Hne [Hh He]. split; [done|]. simpl. by rewrite lookup_insert_ne. Qed.

Lemma ring_mem_put_header_ne w hp rg h es hp' h' h0 :
  hdr_lookup hp' (mem w) = Some h0 -> hp <> hp' ->
  ring_mem w hp rg h es -> ring_mem (put_header hp' h' w) hp rg h es.
Proof.
  intros Hl Hne [Hh He]. split; [by rewrite (hdr_lookup_put_ne _ _ _ h0)|by rewrite regions_put_header].
Qed.

Section props.
Context (E : env) (L : libc).
Abbreviation a := (e_arch E).
Abbreviation N := (syscalls_of (e_arch E)).

Lemma prologue_run g w fd hp rg h es :
  can_submit E g w (ring_index w fd) hp rg h es ->
  prologue fd w = Ret ((ring_index w fd, (tail_table h, tail_entry h)),
                       with_usr (put_batch_num (batch_num (usr w) + 1)) w).
Proof.
  intros [Hg Hc Hs Hr Hw Hu Hb]. unfold prologue, set_index, c_rem.
  pose proof (co_ratio _ _ Hg) as Hratio. rewrite <- Hc in Hratio.
  unfold bind at 1. unfold bind at 1. unfold get.
  destruct (Z.eqb_spec (RATIO (ucfg (usr w))) 0); [lia|].
  unfold bind at 1, ret. unfold batch_num_incr, bind at 1, bind at 1, get, int_result.
  replace (in_int (batch_num (usr w) + 1)) with true
    by (symmetry; apply in_int_spec; unfold INT_MIN, INT_MAX in *; lia).
  unfold bind at 1, ret, modify.
  fold (ring_index w fd).
  assert (ring_at (with_usr (put_batch_num (batch_num (usr w) + 1)) w)
            (ring_index w fd) hp rg h es) as Hr' by (by eapply ring_at_usr).
  by rewrite (bind_eq _ _ _ _ _ (u_load_hdr_run _ _ _ _ _ _ Hr')).
Qed.

(** From the fill of the entry on, whatever happened to the other globals
    before and between. *)
Lemma submitted_intro g w w' idx hp rg h es n e r :
  can_submit E g w idx hp rg h es ->
  n = Z.to_nat (lin (MAX_TABLE_ENTRY g) (tail_of h)) ->
  ring_wf (page_size E) g rg (advanced g h) (<[n := set_rstatus BENTRY_BUSY e]> es) ->
  ring_used g (advanced g h) = ring_used g h + 1 ->
  ring_pending a g (advanced g h) (<[n := set_rstatus BENTRY_BUSY e]> es)
    = ring_pending a g h es ++ [request_call a r] ->
  entry_at (<[n := set_rstatus BENTRY_BUSY e]> es) n = set_rstatus BENTRY_BUSY e ->
  ring_at w' idx hp rg (advanced g h) (<[n := set_rstatus BENTRY_BUSY e]> es) ->
  (forall hp' rg' h' es', hp' <> hp -> rg' <> rg ->
     ring_mem w hp' rg' h' es' -> ring_mem w' hp' rg' h' es') ->
  utable (usr w') = utable (usr w) -> ucfg (usr w') = g -> batch_num (usr w') = batch_num (usr w) + 1 ->
  in_segment (usr w') = in_segment (usr w) ->
  this_worker_id (usr w') = this_worker_id (usr w) -> krn w' = krn w ->
  submitted_to a (page_size E) g w w' idx hp rg h es r.
Proof.
  intros [Hg Hc Hs Hr Hw Hu Hb] -> Hw' Hu' Hp Hat Hr' Ho Hut Hc' Hb' Hs' Hi' Hk'.
  constructor; try done; [| |by rewrite Hc, Hc'].
  - rewrite (pending_ring E g Hg w' _ _ _ _ _ Hc' Hr' Hw').
    rewrite (pending_ring E g Hg w _ _ _ _ _ Hc Hr Hw). simpl. by rewrite Hp.
  - eexists _, _. split_and!; [exact Hr'|exact Hw'|done|done|done| | |].
    + by eapply tail_of_advanced.
    + intros n. unfold entry_at. destruct (decide (n = Z.to_nat (lin (MAX_TABLE_ENTRY g) (tail_of h)))) as [->|Hne];
        [by right|left]. by rewrite list_lookup_insert_ne.
    + by rewrite Hat.
Qed.

(** The body the simple wrappers share. *)
Lemma record_call_run g w fd hp rg h es num args0 v :
  can_submit E g w (ring_index w fd) hp rg h es -> (length args0 <= 6)%nat ->
  exists w',
    (let! t := prologue fd in let '(idx, (i, j)) := t in
     do! fill_entry idx i j num args0 in
     do! update_index idx in
     do! release idx i j in
     ret v) w = Ret (v : Z, w') /\
    submitted_to a (page_size E) g w w' (ring_index w fd) hp rg h es (Request num args0).
Proof.
  intros Hcs Hlen. mrun (prologue_run _ _ _ _ _ _ _ Hcs). cbn beta iota.
  set (w0 := with_usr _ w).
  pose proof Hcs as [Hg Hc Hs Hr Hw Hu Hb].
  assert (ring_at w0 (ring_index w fd) hp rg h es) as Hr0 by (by eapply ring_at_usr).
  destruct (submit_core E g Hg w0 _ _ _ _ _ (Request num args0) Hr0 Hw Hu Hlen)
    as (e & Hfill & Hw1 & Hrel & Hw2 & Hu2 & Hp & Hat).
  cbn [rq_num rq_args] in Hfill. mrun Hfill. set (w1 := put_entries rg _ w0) in *.
  assert (ring_at w1 (ring_index w fd) hp rg h _) as Hr1 by (by eapply ring_at_put_entries).
  mrun (update_index_run E g Hg w1 _ _ _ _ _ Hc Hr1 Hw1 Hu).
  set (w2 := put_header hp _ w1) in *.
  assert (ring_at w2 (ring_index w fd) hp rg (advanced g h) _) as Hr2
    by (by eapply ring_at_put_header).
  mrun (Hrel _ Hr2). eexists. split; [reflexivity|].
  eapply submitted_intro; try done.
  - by eapply ring_at_put_entries.
  - intros hp' rg' h' es' Hhp Hrg Ho.
    apply ring_mem_put_entries_ne; [done|].
    eapply ring_mem_put_header_ne; [apply Hr1|done|].
    apply ring_mem_put_entries_ne; [done|]. by eapply ring_mem_same.
Qed.

Lemma in_seg_run g w idx hp rg h es :
  can_submit E g w idx hp rg h es -> in_seg w = Ret (true, w).
Proof.
  intros Hcs. unfold in_seg, gets. destruct (Z.eqb_spec (in_segment (usr w)) 0) as [H|H]; [|done].
  by destruct (cs_segment _ _ _ _ _ _ _ _ Hcs).
Qed.

Lemma rest_in_seg {A} g w idx hp rg h es (m1 m2 : MW A) :
  can_submit E g w idx hp rg h es ->
  (let! seg := in_seg in if negb seg then m1 else m2) w = m2 w.
Proof. intros Hcs. by mrun (in_seg_run _ _ _ _ _ _ _ Hcs). Qed.
End props.

(** ** The interface of a wrapper

    [m] is a wrapper call on descriptor [fd] that submits [r] and returns [v]:
    whenever the ring of [fd] can take a request, that is what happens. *)
Class Submits {A} (E : env) (fd : Z) (m : MW A) (v : A) (r : request) : Prop :=
  submits : forall g w hp rg h es,
    can_submit E g w (ring_index w fd) hp rg h es ->
    exists w', m w = Ret (v, w') /\
      submitted_to (e_arch E) (page_size E) g w w' (ring_index w fd) hp rg h es r.

Section instances.
Context (E : env) (L : libc).
Abbreviation N := (syscalls_of (e_arch E)).

Ltac simple_wrapper :=
  intros g w hp rg h es Hcs;
  unfold ngx_close, ngx_sendfile64, ngx_ktls_sendfile, redis_write, echo_send, lighty_shutdown;
  rewrite (rest_in_seg _ _ _ _ _ _ _ _ _ _ Hcs);
  eapply record_call_run; [done|simpl; lia].

#[export] Instance ngx_close_Submits fd :
  Submits E fd (ngx_close E L fd) 0 (Request (__ESCA_close N) [fd]).
Proof. simple_wrapper. Qed.

#[export] Instance ngx_sendfile64_Submits o i off n :
  Submits E i (ngx_sendfile64 E L o i off n) (to_long n) (Request (__ESCA_sendfile N) [o; i; 0; n]).
Proof. simple_wrapper. Qed.

#[export] Instance ngx_ktls_sendfile_Submits o i off n :
  Submits E i (ngx_ktls_sendfile E L o i off n) (to_long n) (Request (__ESCA_sendfile N) [o; i; 0; n]).
Proof. simple_wrapper. Qed.

#[export] Instance redis_write_Submits fd buf n :
  Submits E fd (redis_write E L fd buf n) (to_long n) (Request (__ESCA_write N) [fd; buf; n]).
Proof. simple_wrapper. Qed.

#[export] Instance echo_send_Submits fd buf n f :
  Submits E fd (echo_send E L fd buf n f) (to_long n) (Request (__ESCA_sendto N) [fd; buf; n; f; 0; 0]).
Proof. simple_wrapper. Qed.

#[export] Instance lighty_shutdown_Submits fd how :
  Submits E fd (lighty_shutdown E L fd how) 0 (Request (__ESCA_shutdown N) [fd; how]).
Proof. simple_wrapper. Qed.
End instances.

(** ** User memory *)
Lemma read_bytes_length h x n l : read_bytes h x n = Some l -> length l = n.
Proof.
  revert x l. induction n as [|n IH]; simpl; intros x l H; [by simplify_eq|].
  destruct (h !! x); simpl in H; [|done].
  destruct (read_bytes h (x + 1) n) as [l'|] eqn:Hl; simplify_eq/=. f_equal. by eapply IH.
Qed.

Lemma write_bytes_outside h x l y :
  y < x \/ x + Z.of_nat (length l) <= y -> write_bytes h x l !! y = h !! y.
Proof.
  revert h x. induction l as [|b l IH]; simpl; intros h x Hy; [done|].
  rewrite IH by lia. rewrite lookup_insert_ne; [done|lia].
Qed.

Lemma read_bytes_take h x n k l :
  read_bytes h x n = Some l -> (k <= n)%nat -> read_bytes h x k = Some (take k l).
Proof.
  revert x k l. induction n as [|n IH]; intros x [|k] l H Hk; try done; [lia|]. simpl in *.
  destruct (h !! x); simpl in *; [|done].
  destruct (read_bytes h (x + 1) n) as [t|] eqn:Et; simpl in H; [|done]. injection H as <-.
  by rewrite (IH _ k _ Et ltac:(lia)).
Qed.

Lemma read_bytes_ext h h' x n :
  (forall y, x <= y < x + Z.of_nat n -> h' !! y = h !! y) ->
  read_bytes h' x n = read_bytes h x n.
Proof.
  revert x. induction n as [|n IH]; simpl; intros x H; [done|].
  rewrite (H x) by lia. destruct (h !! x); simpl; [|done].
  rewrite IH; [done|]. intros y Hy. apply H. lia.
Qed.

Lemma read_write_bytes h x l : read_bytes (write_bytes h x l) x (length l) = Some l.
Proof.
  revert h x. induction l as [|b l IH]; simpl; intros h x; [done|].
  rewrite write_bytes_outside by lia. rewrite lookup_insert_eq; simpl.
  by rewrite IH.
Qed.

(** ** Submissions *)

(** Inside of a segment [close] (ngx.c) on a descriptor appends
    [close(fd)] to the pending requests of the ring of the descriptor, marks
    its entry busy, leaves every other ring alone and returns 0. *)
Theorem ngx_close_submits E L g w fd hp rg h es :
  can_submit E g w (ring_index w fd) hp rg h es ->
  exists w', ngx_close E L fd w = Ret (0, w') /\
    submitted_to (e_arch E) (page_size E) g w w' (ring_index w fd) hp rg h es
      (Request (__ESCA_close (syscalls_of (e_arch E))) [fd]).
Proof. apply submits. Qed.

(** Both sendfile wrappers of nginx (ngx.c and ngx_ktls.c) submit
    [sendfile(out_fd, in_fd, NULL, count)] to the ring of the input descriptor
    and return [count]; the caller's offset is not passed on. *)
Theorem ngx_sendfile_submits E L g w out_fd in_fd offset count hp rg h es :
  can_submit E g w (ring_index w in_fd) hp rg h es ->
  exists w', ngx_sendfile64 E L out_fd in_fd offset count w = Ret (to_long count, w') /\
    ngx_ktls_sendfile E L out_fd in_fd offset count w = Ret (to_long count, w') /\
    submitted_to (e_arch E) (page_size E) g w w' (ring_index w in_fd) hp rg h es
      (Request (__ESCA_sendfile (syscalls_of (e_arch E))) [out_fd; in_fd; 0; count]).
Proof.
  intros Hcs. destruct (ngx_sendfile64_Submits E L out_fd in_fd offset count _ _ _ _ _ _ Hcs)
    as (w' & Hrun & Hsub).
  exists w'. by split_and!.
Qed.

(** The other wrappers that pass their arguments on: [write] of redis.c
    submits [write(fd, buf, count)] with the caller's buffer, [send] of echo.c
    submits [sendto(fd, buf, len, flags, NULL, 0)], [shutdown] of lighty.c submits
    [shutdown(fd, how)], each to the ring of its descriptor, returning the value
    of a successful call. *)
Theorem direct_wrappers_submit E L fd :
  (forall buf count, Submits E fd (redis_write E L fd buf count) (to_long count)
     (Request (__ESCA_write (syscalls_of (e_arch E))) [fd; buf; count])) /\
  (forall buf len flags, Submits E fd (echo_send E L fd buf len flags) (to_long len)
     (Request (__ESCA_sendto (syscalls_of (e_arch E))) [fd; buf; len; flags; 0; 0])) /\
  (forall how, Submits E fd (lighty_shutdown E L fd how) 0
     (Request (__ESCA_shutdown (syscalls_of (e_arch E))) [fd; how])).
Proof. split_and!; intros; apply _. Qed.

(** ** The memory pool *)
Definition pool_start (off count : Z) : Z := if MAX_POOL_SIZE <? off + count then 0 else off.

Lemma pool_start_range off count :
  0 <= off <= MAX_POOL_SIZE -> 0 <= count <= MAX_POOL_SIZE ->
  0 <= pool_start off count /\ pool_start off count + count <= MAX_POOL_SIZE.
Proof. unfold pool_start. intros. destruct (Z.ltb_spec MAX_POOL_SIZE (off + count)); lia. Qed.

Lemma pool_reserve_run w count :
  0 <= pool_offset (usr w) <= MAX_POOL_SIZE -> 0 <= count <= MAX_POOL_SIZE ->
  pool_reserve count w
  = Ret (tt, with_usr (put_pool_offset (pool_start (pool_offset (usr w)) count)) w).
Proof.
  intros Ho Hc. unfold pool_reserve, bind, get, pool_start. unfold MAX_POOL_SIZE in *.
  rewrite (to_ull_id count), to_ull_id by lia.
  destruct (900000000 <? pool_offset (usr w) + count); [done|]. by destruct w as [[] ? ? ?].
Qed.

Lemma pool_memcpy_run w src count l :
  mpool (usr w) <> 0 -> 0 <= pool_offset (usr w) -> 0 <= count ->
  pool_offset (usr w) + count <= MAX_POOL_SIZE ->
  read_bytes (heap (mem w)) src (Z.to_nat count) = Some l ->
  pool_memcpy src count w
  = Ret (tt, with_mem (put_heap (write_bytes (heap (mem w))
                                   (mpool (usr w) + pool_offset (usr w)) l)) w).
Proof.
  intros Hm Ho Hc Hfit Hl. unfold pool_memcpy, bind, get.
  unfold MAX_POOL_SIZE in *. rewrite to_ull_id by lia.
  destruct (Z.eqb_spec (mpool (usr w)) 0); [done|].
  destruct (Z.ltb_spec 900000000 (pool_offset (usr w) + count)); [lia|].
  by rewrite Hl.
Qed.

(** C13: [write] of ngx_tls.c copies the payload into the pool, within its
    bounds, and submits a [write] of the copy: whatever the application writes
    outside of the pool afterwards, the worker finds the bytes the buffer held
    at the time of the call. *)
Theorem ngx_tls_write_copies_payload E L g w fd buf count l hp rg h es :
  can_submit E g w (ring_index w fd) hp rg h es ->
  mpool (usr w) <> 0 -> 0 <= pool_offset (usr w) <= MAX_POOL_SIZE ->
  0 <= count <= MAX_POOL_SIZE ->
  read_bytes (heap (mem w)) buf (Z.to_nat count) = Some l ->
  let off := pool_start (pool_offset (usr w)) count in
  exists w', ngx_tls_write E L fd buf count w = Ret (count, w') /\
    off + count <= MAX_POOL_SIZE /\ pool_offset (usr w') = off + count /\
    submitted_to (e_arch E) (page_size E) g w w' (ring_index w fd) hp rg h es
      (Request (__ESCA_write (syscalls_of (e_arch E))) [fd; mpool (usr w) + off; count]) /\
    forall hb, (forall y, mpool (usr w) <= y < mpool (usr w) + MAX_POOL_SIZE ->
                  hb !! y = heap (mem w') !! y) ->
      read_bytes hb (mpool (usr w) + off) (Z.to_nat count) = Some l.
Proof.
  intros Hcs Hm Ho Hc Hl off. destruct (pool_start_range _ _ Ho Hc) as [Hoff Hfit]. fold off in Hoff, Hfit.
  unfold ngx_tls_write. rewrite (rest_in_seg _ _ _ _ _ _ _ _ _ _ Hcs).
  mrun (prologue_run _ _ _ _ _ _ _ _ Hcs). cbn beta iota. set (w0 := with_usr _ w).
  pose proof Hcs as [Hg Hcf Hs Hr Hw Hu Hb].
  mrun (pool_reserve_run w0 count Ho Hc). set (w1 := with_usr _ w0).
  mrun (pool_memcpy_run w1 buf count l Hm Hoff (proj1 Hc) Hfit Hl). set (w2 := with_mem _ w1).
  unfold pool_here. rewrite (bind_eq (gets _) _ w2 (mpool (usr w) + off) w2) by done.
  assert (ring_at w2 (ring_index w fd) hp rg h es) as Hr2 by (by eapply ring_at_usr).
  destruct (submit_core E g Hg w2 _ _ _ _ _
              (Request (__ESCA_write (syscalls_of (e_arch E))) [fd; mpool (usr w) + off; count])
              Hr2 Hw Hu) as (e & Hfill & Hw3 & Hrel & Hw5 & Hu5 & Hp & Hat); [simpl; lia|].
  cbn [rq_num rq_args] in Hfill. mrun Hfill. set (w3 := put_entries rg _ w2) in *.
  assert (ring_at w3 (ring_index w fd) hp rg h _) as Hr3 by (by eapply ring_at_put_entries).
  mrun (update_index_run E g Hg w3 _ _ _ _ _ Hcf Hr3 Hw3 Hu). set (w4 := put_header hp _ w3) in *.
  assert (ring_at w4 (ring_index w fd) hp rg (advanced g h) _) as Hr4
    by (by eapply ring_at_put_header).
  unfold pool_advance. rewrite (bind_eq (modify _) _ w4 tt (with_usr (fun u => put_pool_offset (to_ull (pool_offset u + to_ull count)) u) w4)) by done.
  set (w5 := with_usr _ w4).
  assert (ring_at w5 (ring_index w fd) hp rg (advanced g h) _) as Hr5 by (by eapply ring_at_usr).
  mrun (Hrel _ Hr5). eexists. split.
  { rewrite to_long_id; [reflexivity|]. unfold MAX_POOL_SIZE in *. lia. }
  split; [done|]. split.
  { simpl. unfold MAX_POOL_SIZE in *. by rewrite (to_ull_id count), to_ull_id by lia. }
  split.
  - eapply submitted_intro; try done.
    + by eapply ring_at_put_entries.
    + intros hp' rg' h' es' Hhp Hrg Hoth. apply ring_mem_put_entries_ne; [done|].
      eapply ring_mem_same with (w := w4); try done.
      eapply ring_mem_put_header_ne; [apply Hr3|done|]. apply ring_mem_put_entries_ne; [done|].
      by eapply ring_mem_same.
  - intros hb Hhb. rewrite <- (read_write_bytes (heap (mem w)) (mpool (usr w) + off) l).
    rewrite (read_bytes_length _ _ _ _ Hl). apply read_bytes_ext. intros y Hy.
    rewrite Hhb by lia.
    change (heap (mem w4) !! y = write_bytes (heap (mem w)) (mpool (usr w) + off) l !! y).
    unfold w4. by rewrite heap_put_header.
Qed.

(** ** lighty.c: the offset is passed through [off_arr] *)

(** C28: [sendfile64] of lighty.c saves the caller's offset in the cell of
    [off_arr] that belongs to the entry, submits a [sendfile] with the address
    of that cell, advances the caller's offset by [count] and returns
    [count] as a [ssize_t]. *)
Theorem lighty_sendfile64_submits E L g w out_fd in_fd offset count hp rg h es :
  can_submit E g w (ring_index w out_fd) hp rg h es ->
  0 <= ring_index w out_fd < CPU_NUM_LIMIT ->
  ring_size (MAX_TABLE_ENTRY g) (MAX_TABLE_LEN g) <= off_row ->
  let k := lin (MAX_TABLE_ENTRY g) (tail_of h) in
  exists w', lighty_sendfile64 E L out_fd in_fd offset count w
               = Ret ((to_long count, to_long (offset + count)), w') /\
    off_arr (usr w') !! (ring_index w out_fd, k) = Some (to_long offset) /\
    submitted_to (e_arch E) (page_size E) g w w' (ring_index w out_fd) hp rg h es
      (Request (__ESCA_sendfile (syscalls_of (e_arch E)))
         [out_fd; in_fd; off_arr_addr (usr w) + 8 * (ring_index w out_fd * off_row + k); count]).
Proof.
  intros Hcs Hidx Hsize k. unfold lighty_sendfile64. rewrite (rest_in_seg _ _ _ _ _ _ _ _ _ _ Hcs).
  mrun (prologue_run _ _ _ _ _ _ _ _ Hcs). cbn beta iota. set (w0 := with_usr _ w).
  pose proof Hcs as [Hg Hcf Hs Hr Hw Hu Hb].
  rewrite (bind_eq u_cfg _ w0 g w0) by (unfold u_cfg, gets; simpl; by rewrite Hcf).
  change (tail_table h * MAX_TABLE_ENTRY g + tail_entry h) with k.
  assert (0 <= k < ring_size (MAX_TABLE_ENTRY g) (MAX_TABLE_LEN g)) as Hk.
  { eapply lin_range; [by apply Hg..|apply Hw]. }
  set (w1 := with_usr (fun u => put_off_arr (<[(ring_index w out_fd, k) := to_long offset]> (off_arr u)) u) w0).
  rewrite (bind_eq (off_arr_store _ _ _) _ w0 tt w1).
  2: { unfold off_arr_store.
       replace (_ && _ && _ && _) with true; [done|]. symmetry. rewrite !andb_true_iff. lia. }
  unfold off_arr_at.
  rewrite (bind_eq (gets _) _ w1 (off_arr_addr (usr w) + 8 * (ring_index w out_fd * off_row + k)) w1)
    by done.
  set (addr := off_arr_addr (usr w) + _).
  assert (ring_at w1 (ring_index w out_fd) hp rg h es) as Hr1 by (by eapply ring_at_usr).
  destruct (submit_core E g Hg w1 _ _ _ _ _
              (Request (__ESCA_sendfile (syscalls_of (e_arch E))) [out_fd; in_fd; addr; count])
              Hr1 Hw Hu) as (e & Hfill & Hw2 & Hrel & Hw4 & Hu4 & Hp & Hat); [simpl; lia|].
  cbn [rq_num rq_args] in Hfill. mrun Hfill. set (w2 := put_entries rg _ w1) in *.
  assert (ring_at w2 (ring_index w out_fd) hp rg h _) as Hr2 by (by eapply ring_at_put_entries).
  mrun (update_index_run E g Hg w2 _ _ _ _ _ Hcf Hr2 Hw2 Hu). set (w3 := put_header hp _ w2) in *.
  assert (ring_at w3 (ring_index w out_fd) hp rg (advanced g h) _) as Hr3
    by (by eapply ring_at_put_header).
  mrun (Hrel _ Hr3). eexists. split; [reflexivity|]. split; [simpl; by rewrite lookup_insert_eq|].
  eapply submitted_intro; try done.
  - by eapply ring_at_put_entries.
  - intros hp' rg' h' es' Hhp Hrg Hoth. apply ring_mem_put_entries_ne; [done|].
    eapply ring_mem_put_header_ne; [apply Hr2|done|]. apply ring_mem_put_entries_ne; [done|].
    by eapply ring_mem_same.
Qed.

(** ** Outside of a segment *)

(** Outside of a segment every wrapper is the libc function it shadows. *)
Theorem wrappers_pass_through E L w :
  in_segment (usr w) = 0 ->
  (forall fd, ngx_close E L fd w = real_close L fd w) /\
  (forall o i off n, ngx_sendfile64 E L o i off n w = real_sendfile L o i off n w) /\
  (forall o i off n, ngx_ktls_sendfile E L o i off n w = real_sendfile L o i off n w) /\
  (forall fd b n, ngx_tls_write E L fd b n w = real_write L fd b n w) /\
  (forall fd b n, redis_write E L fd b n w = real_write L fd b n w) /\
  (forall fd b n f, echo_send E L fd b n f w = real_send L fd b n f w) /\
  (forall fd how, lighty_shutdown E L fd how w = real_shutdown L fd how w) /\
  (forall o i off n, lighty_sendfile64 E L o i off n w
     = real_sendfile_offset L o i off n w) /\
  (forall fd iov mf f, mcached_sendmsg E L fd iov mf f w = real_sendmsg L fd iov mf f w).
Proof.
  intros H. unfold ngx_close, ngx_sendfile64, ngx_ktls_sendfile, ngx_tls_write, redis_write,
    echo_send, lighty_shutdown, lighty_sendfile64, mcached_sendmsg, in_seg, gets.
  split_and!; intros; unfold bind at 1; by rewrite H.
Qed.
