(* ===== verification/WorkerProps.v ===== *)
(** * Properties of a pass of the kernel worker

    A pass of the worker executes exactly the pending requests of its ring, in
    order, and leaves the ring empty. *)
From stdpp Require Import base numbers list gmap.
From S2P Require Import Prelude Esca Ring IndirectCall Request World Kernel Preload Wrappers Rings Submit WrapperProps.

(** The kernel side of a ring: the worker's own arrays are in bounds. *)
Record worker_ok (g : globals) (w : world) (cur : Z) : Prop := {
  wo_cfg : kcfg (krn w) = g;
  wo_sub : Z.of_nat (length (submitted (krn w))) = CPU_NUM_LIMIT;
  wo_cur : 0 <= cur < CPU_NUM_LIMIT;
  wo_set : Z.rem cur (RATIO g) = 0 -> cur + RATIO g <= CPU_NUM_LIMIT
}.

(** Everything of the module the rings depend on, and the logs, are kept. *)
Record k_frame (w w' : world) : Prop := {
  kf_usr : usr w' = usr w;
  kf_cfg : kcfg (krn w') = kcfg (krn w);
  kf_table : ktable (krn w') = ktable (krn w);
  kf_len : length (submitted (krn w')) = length (submitted (krn w))
}.

#[global] Instance k_frame_refl : Reflexive k_frame.
Proof. by constructor. Qed.
#[global] Instance k_frame_trans : Transitive k_frame.
Proof. intros w1 w2 w3 [? ? ? ?] [? ? ? ?]. constructor; congruence. Qed.

(** All the workers of the set are done. *)
Definition set_idle (g : globals) (l : list Z) (cur : Z) : bool :=
  forallb (fun k => match aget l (cur + Z.of_nat k) with Some v => v =? 0 | None => false end)
    (seq 0 (Z.to_nat (RATIO g))).

Lemma set_done_run n : forall w k,
  0 <= k -> k + Z.of_nat n <= Z.of_nat (length (submitted (krn w))) ->
  set_done n k w
  = Ret (forallb (fun i => match aget (submitted (krn w)) (k + Z.of_nat i) with
                           | Some v => v =? 0 | None => false end) (seq 0 n), w).
Proof.
  induction n as [|n IH]; intros w k Hk Hn; [done|]. simpl set_done.
  destruct (aget_in_range (submitted (krn w)) k) as [v Hv]; [lia|].
  unfold get_submitted, bind at 1, bind at 1, get. rewrite Hv. simpl.
  replace (k + Z.of_nat 0) with k by lia. rewrite Hv.
  destruct (v =? 0); [|done]. rewrite IH by lia. do 2 f_equal.
  symmetry. apply forallb_seq_shift. intros i.
  by replace (k + 1 + Z.of_nat i) with (k + Z.of_nat (S i)) by lia.
Qed.

Lemma worker_notify_run g w cur :
  0 < RATIO g -> worker_ok g w cur ->
  worker_notify cur w
  = Ret (tt, if (Z.rem cur (RATIO g) =? 0) && set_idle g (submitted (krn w)) cur
             then with_krn (log_wq cur) w else w).
Proof.
  intros Hr [Hc Hs Hcur Hset]. unfold worker_notify, k_cfg, gets, bind at 1. rewrite Hc.
  unfold c_rem, bind at 1. destruct (Z.eqb_spec (RATIO g) 0); [lia|].
  unfold ret at 1. destruct (Z.eqb_spec (Z.rem cur (RATIO g)) 0) as [H0|H0]; [|done].
  specialize (Hset H0). simpl andb.
  mrun (set_done_run (Z.to_nat (RATIO g)) w cur ltac:(lia) ltac:(lia)).
  fold (set_idle g (submitted (krn w)) cur). by destruct (set_idle _ _ _).
Qed.

Section pass.
Context (E : env) (g : globals) (Hg : cfg_ok (page_size E) g).
Abbreviation MTE := (MAX_TABLE_ENTRY g).
Abbreviation MTL := (MAX_TABLE_LEN g).
Abbreviation N := (ring_size MTE MTL).
Abbreviation ps := (page_size E).
Abbreviation a := (e_arch E).

#[local] Hint Resolve cfg_E cfg_L cfg_S cfg_N : core.

Lemma k_header_run w cur hp rg h es :
  ring_at w cur hp rg h es -> k_header cur w = Ret (hp, w).
Proof. intros Hr. unfold k_header, bind, get. by rewrite (ra_kern _ _ _ _ _ _ Hr). Qed.

(** The kernel reaches the entry user space means. *)
Lemma k_entry_run w cur hp rg h es i j :
  ring_at w cur hp rg h es -> ring_wf ps g rg h es -> in_ring MTE MTL (i, j) ->
  k_entry E cur i j w = Ret ((rg, lin MTE (i, j)), w).
Proof.
  intros Hr Hw Hp. unfold k_entry. mrun (k_header_run _ _ _ _ _ _ Hr).
  mrun (load_hdr_spec _ _ _ (ra_hdr _ _ _ _ _ _ Hr)).
  rewrite (rw_kern _ _ _ _ _ Hw i) by apply Hp. unfold deref. rewrite bind_ret_l; simpl.
  pose proof (co_entry _ _ Hg). pose proof Hp as [Hi Hj]; simpl in *.
  destruct (Z.leb_spec 0 j), (Z.ltb_spec j (epp ps)); try lia. simpl.
  unfold ret. do 3 f_equal. exact (slots_agree ps g i j Hg Hp).
Qed.

Lemma slot_of_lin p : in_ring MTE MTL p -> lin MTE p = Z.of_nat (Z.to_nat (lin MTE p)).
Proof.
  intros Hp. assert (0 <= lin MTE p < N) by (eapply lin_range; eauto). lia.
Qed.

Lemma k_load_run w cur hp rg h es i j e :
  ring_at w cur hp rg h es -> ring_wf ps g rg h es -> in_ring MTE MTL (i, j) ->
  es !! Z.to_nat (lin MTE (i, j)) = Some e -> k_load E cur i j w = Ret (e, w).
Proof.
  intros Hr Hw Hp He. unfold k_load. mrun (k_entry_run _ _ _ _ _ _ _ _ Hr Hw Hp).
  eapply load_ent_spec; [apply Hr|by apply slot_of_lin|done].
Qed.

Lemma k_update_run w cur hp rg h es i j e f :
  ring_at w cur hp rg h es -> ring_wf ps g rg h es -> in_ring MTE MTL (i, j) ->
  es !! Z.to_nat (lin MTE (i, j)) = Some e ->
  k_update E cur i j f w
  = Ret (tt, put_entries rg (<[Z.to_nat (lin MTE (i, j)) := f e]> es) w).
Proof.
  intros Hr Hw Hp He. unfold k_update. mrun (k_entry_run _ _ _ _ _ _ _ _ Hr Hw Hp).
  eapply update_ent_spec; [apply Hr|by apply slot_of_lin|done].
Qed.

Lemma set_submitted_run w cur v :
  0 <= cur < Z.of_nat (length (submitted (krn w))) ->
  set_submitted cur v w
  = Ret (tt, with_krn (put_submitted (<[Z.to_nat cur := to_short v]> (submitted (krn w)))) w).
Proof. intros Hc. unfold set_submitted, bind, get. by rewrite aset_in_range. Qed.

Lemma get_submitted_run w cur v :
  aget (submitted (krn w)) cur = Some v -> get_submitted cur w = Ret (v, w).
Proof. intros Hv. unfold get_submitted, bind, get. by rewrite Hv. Qed.

Lemma aget_insert_eq {A} (l : list A) i x :
  0 <= i < Z.of_nat (length l) -> aget (<[Z.to_nat i := x]> l) i = Some x.
Proof. intros Hi. apply (aget_aset_eq l i x). by apply aset_in_range. Qed.

(** ** One entry *)
Lemma worker_entry_run w cur hp rg h es i j e v :
  worker_ok g w cur -> ring_at w cur hp rg h es -> ring_wf ps g rg h es ->
  in_ring MTE MTL (i, j) -> es !! Z.to_nat (lin MTE (i, j)) = Some e ->
  length (args e) = 6%nat ->
  aget (submitted (krn w)) cur = Some v -> 0 < v <= SHRT_MAX ->
  exists w' e', worker_entry E cur i j w = Ret (worker_next MTE MTL i j, w') /\
    k_frame w w' /\ executed (krn w') = executed (krn w) ++ [entry_call a e] /\
    mem w' = mem (put_entries rg (<[Z.to_nat (lin MTE (i, j)) := e']> es) w) /\
    entry_call a e' = entry_call a e /\ rstatus e' = BENTRY_EMPTY /\ length (args e') = 6%nat /\
    aget (submitted (krn w')) cur = Some (v - 1).
Proof.
  intros Hok Hr Hw Hp He Ha Hv Hvr. pose proof Hok as [Hc Hs Hcur Hset].
  pose proof (co_ratio _ _ Hg) as Hratio.
  set (e1 := set_sysret (sys E (executed (krn w)) (entry_call a e)) e).
  set (e2 := set_rstatus BENTRY_EMPTY e1). set (n := Z.to_nat (lin MTE (i, j))) in *.
  pose proof (lookup_lt_Some _ _ _ He) as Hlt.
  unfold worker_entry, k_cfg, gets, bind at 1. rewrite Hc.
  mrun (k_load_run _ _ _ _ _ _ _ _ _ Hr Hw Hp He).
  rewrite (bind_eq get _ w w w) by done. fold a.
  set (w1 := with_krn (log_call (entry_call a e)) w).
  rewrite (bind_eq (modify _) _ w tt w1) by done.
  assert (ring_at w1 cur hp rg h es) as Hr1 by (destruct Hr; by constructor).
  mrun (k_update_run w1 _ _ _ _ _ _ _ _ (set_sysret (sys E (executed (krn w)) (entry_call a e))) Hr1 Hw Hp He).
  fold e1 n. set (w2 := put_entries rg (<[n := e1]> es) w1).
  assert (ring_at w2 cur hp rg h (<[n := e1]> es)) as Hr2 by (by eapply ring_at_put_entries).
  assert (ring_wf ps g rg h (<[n := e1]> es)) as Hw2 by (by apply ring_wf_insert).
  mrun (k_update_run w2 _ _ _ _ _ _ _ e1 (set_rstatus BENTRY_EMPTY) Hr2 Hw2 Hp
          ltac:(by apply list_lookup_insert_eq)).
  fold e2 n. rewrite list_insert_insert_eq.
  set (w3 := put_entries rg (<[n := e2]> es) w2).
  mrun (get_submitted_run w3 cur v Hv).
  pose proof (aget_Some _ _ _ Hv) as Hrange.
  mrun (set_submitted_run w3 cur (v - 1) Hrange).
  rewrite to_short_id by (unfold SHRT_MAX in *; lia). set (w4 := with_krn _ w3).
  assert (worker_ok g w4 cur) as Hok4.
  { constructor; try done. simpl. by rewrite length_insert. }
  mrun (worker_notify_run g w4 cur Hratio Hok4).
  eexists _, e2. split; [reflexivity|].
  assert (mem w4 = mem (put_entries rg (<[n := e2]> es) w)) as Hm.
  { unfold w4; simpl. unfold put_regions; simpl. by rewrite insert_insert_eq. }
  destruct ((_ =? 0) && _); split_and!; try done; try (constructor; try done);
    simpl; try (by apply aget_insert_eq); by rewrite length_insert.
Qed.

Lemma ring_at_frame w w' cur hp rg h es es' :
  ring_at w cur hp rg h es -> k_frame w w' -> mem w' = mem (put_entries rg es' w) ->
  ring_at w' cur hp rg h es'.
Proof.
  intros [Hu Hk Hh He] [F1 F2 F3 F4] Hm. constructor; rewrite ?F1, ?F3, ?Hm; try done.
  simpl. by rewrite lookup_insert_eq.
Qed.

Lemma ring_mem_frame_ne w w' hp rg h es rg0 es0 :
  ring_mem w hp rg h es -> rg <> rg0 ->
  mem w' = mem (put_entries rg0 es0 w) -> ring_mem w' hp rg h es.
Proof.
  intros [Hh He] Hne Hm. split; rewrite Hm; [done|]. simpl. by rewrite lookup_insert_ne.
Qed.

Lemma slot_pos h t :
  Z.to_nat (lin MTE (pos MTE MTL (lin MTE (head_of h) + Z.of_nat t))) = ring_slot g h t.
Proof. unfold ring_slot. by rewrite lin_pos by eauto. Qed.

Lemma entry_at_insert es n e m :
  (n < length es)%nat -> entry_at (<[n := e]> es) m = if decide (n = m) then e else entry_at es m.
Proof.
  intros Hn. unfold entry_at. destruct (decide (n = m)) as [->|Hne].
  - by rewrite list_lookup_insert_eq.
  - by rewrite list_lookup_insert_ne.
Qed.

(** ** The loop over the submitted entries *)
Lemma worker_loop_run n : forall w k hp rg h es cur,
  worker_ok g w cur -> ring_at w cur hp rg h es -> ring_wf ps g rg h es ->
  aget (submitted (krn w)) cur = Some (Z.of_nat n) -> Z.of_nat n <= SHRT_MAX ->
  let p := pos MTE MTL (lin MTE (head_of h) + Z.of_nat k) in
  exists w' es',
    worker_loop E n cur p.1 p.2 w
      = Ret (pos MTE MTL (lin MTE (head_of h) + Z.of_nat (k + n)), w') /\
    k_frame w w' /\ mem w' = mem (put_entries rg es' w) /\ ring_wf ps g rg h es' /\
    executed (krn w') = executed (krn w)
      ++ map (fun t => entry_call a (entry_at es (ring_slot g h t))) (seq k n) /\
    (forall m, rstatus (entry_at es m) = BENTRY_EMPTY -> rstatus (entry_at es' m) = BENTRY_EMPTY) /\
    (forall t, (k <= t < k + n)%nat -> rstatus (entry_at es' (ring_slot g h t)) = BENTRY_EMPTY).
Proof.
  induction n as [|n IH]; intros w k hp rg h es cur Hok Hr Hw Hv Hn p.
  - exists w, es. simpl. mrun (get_submitted_run _ _ _ Hv). change (Z.of_nat 0 =? 0) with true.
    rewrite Nat.add_0_r, app_nil_r. split; [reflexivity|].
    split_and!; try done; [|lia].
    change (mem w = mem (put_entries rg es w)). by rewrite put_entries_id by apply Hr.
  - assert (in_ring MTE MTL p) as Hp by (apply pos_in_ring; eauto).
    rewrite (surjective_pairing p) in Hp.
    destruct (slot_in_region _ _ Hg _ _ _ _ Hw Hp) as (e & He & Ha).
    destruct (worker_entry_run w cur hp rg h es p.1 p.2 e (Z.of_nat (S n)) Hok Hr Hw Hp He Ha Hv)
      as (w1 & e' & Hrun & Hf1 & Hx1 & Hm1 & Hcall & Hst & Ha' & Hv1); [lia|].
    assert (Z.to_nat (lin MTE (p.1, p.2)) = ring_slot g h k) as Hslot
      by (rewrite <- surjective_pairing; apply slot_pos).
    rewrite Hslot in *. pose proof (lookup_lt_Some _ _ _ He) as Hlt.
    set (es1 := <[ring_slot g h k := e']> es) in *.
    assert (worker_ok g w1 cur) as Hok1.
    { destruct Hok, Hf1. constructor; try done; congruence. }
    destruct (IH w1 (S k) hp rg h es1 cur) as (w' & es' & Hrun' & Hf' & Hm' & Hw' & Hx' & Hmono & Hdone);
      try done.
    { by eapply ring_at_frame. }
    { by apply ring_wf_insert. }
    { rewrite Hv1. f_equal. lia. }
    { lia. }
    exists w', es'. split.
    { simpl worker_loop. mrun (get_submitted_run _ _ _ Hv).
      destruct (Z.eqb_spec (Z.of_nat (S n)) 0); [lia|]. mrun Hrun.
      unfold p. rewrite worker_next_pos by eauto.
      replace (lin MTE (head_of h) + Z.of_nat k + 1)
        with (lin MTE (head_of h) + Z.of_nat (S k)) by lia.
      rewrite Hrun'. by replace (S k + n)%nat with (k + S n)%nat by lia. }
    split; [by transitivity w1|]. split.
    { rewrite Hm'. simpl. rewrite Hm1; simpl. unfold put_regions; simpl.
      by rewrite insert_insert_eq. }
    split; [done|]. split.
    { rewrite Hx', Hx1, <- app_assoc. simpl. do 2 f_equal.
      - unfold entry_at. by rewrite He.
      - apply map_ext_in. intros t _. unfold es1. rewrite entry_at_insert by done.
        destruct (decide _) as [Heq|]; [|done]. rewrite Hcall. unfold entry_at. by rewrite <- Heq, He. }
    split.
    + intros m Hm. apply Hmono. unfold es1. rewrite entry_at_insert by done.
      by destruct (decide _).
    + intros t Ht. destruct (decide (t = k)) as [->|Hne]; [|apply Hdone; lia].
      apply Hmono. unfold es1. rewrite entry_at_insert by done. by rewrite decide_True.
Qed.
End pass.

(** ** A whole pass *)

(** What a pass leaves behind. *)
Record drained (E : env) (g : globals) (w w' : world) (cur : Z) (hp : hptr) (rg : Z)
    (h : esca_table_t) (es : list esca_table_entry_t) : Prop := {
  dr_log : executed (krn w') = executed (krn w) ++ ring_pending (e_arch E) g h es;
  dr_ring : exists h' es', ring_at w' cur hp rg h' es' /\ ring_wf (page_size E) g rg h' es' /\
    head_of h' = tail_of h /\ tail_of h' = tail_of h /\
    (forall m, rstatus (entry_at es m) = BENTRY_EMPTY ->
       rstatus (entry_at es' m) = BENTRY_EMPTY) /\
    (forall t, (t < Z.to_nat (ring_used g h))%nat ->
       rstatus (entry_at es' (ring_slot g h t)) = BENTRY_EMPTY);
  dr_frame : k_frame w w';
  dr_usr : usr w' = usr w;
  dr_others : forall hp' rg' h' es', hp' <> hp -> rg' <> rg ->
    ring_mem w hp' rg' h' es' -> ring_mem w' hp' rg' h' es'
}.

Lemma submitted_used E g rg h es :
  cfg_ok (page_size E) g -> ring_wf (page_size E) g rg h es ->
  submitted_count (MAX_TABLE_ENTRY g) (MAX_TABLE_LEN g) (head_table h) (head_entry h)
    (tail_table h) (tail_entry h) = ring_used g h.
Proof.
  intros Hg Hw. unfold ring_used. apply submitted_count_dist; try apply Hg; apply Hw.
Qed.

(** The head after the loop is the tail. *)
Lemma pos_head_used E g rg h es :
  cfg_ok (page_size E) g -> ring_wf (page_size E) g rg h es ->
  pos (MAX_TABLE_ENTRY g) (MAX_TABLE_LEN g)
    (lin (MAX_TABLE_ENTRY g) (head_of h) + ring_used g h) = tail_of h.
Proof.
  intros Hg Hw. pose proof (rw_tail _ _ _ _ _ Hw) as Ht.
  rewrite <- (pos_lin (MAX_TABLE_ENTRY g) (MAX_TABLE_LEN g)) with (p := tail_of h) by (done || apply Hg).
  unfold pos, ring_used, dist.
  rewrite Zplus_mod_idemp_r.
  by replace (lin (MAX_TABLE_ENTRY g) (head_of h) +
      (lin (MAX_TABLE_ENTRY g) (tail_of h) - lin (MAX_TABLE_ENTRY g) (head_of h)))
    with (lin (MAX_TABLE_ENTRY g) (tail_of h)) by lia.
Qed.

(** The publication of the head, its two stores. *)
Lemma publish_run E g w cur hp rg h es p :
  cfg_ok (page_size E) g -> ring_at w cur hp rg h es -> ring_wf (page_size E) g rg h es ->
  in_ring (MAX_TABLE_ENTRY g) (MAX_TABLE_LEN g) p ->
  exists w' h', (do! k_update_hdr cur (set_head_table p.1) in
                 do! k_update_hdr cur (set_head_entry p.2) in ret true) w = Ret (true, w') /\
    ring_at w' cur hp rg h' es /\ ring_wf (page_size E) g rg h' es /\
    head_of h' = p /\ tail_of h' = tail_of h /\ usr w' = usr w /\ krn w' = krn w /\
    (forall hp' rg' h0 es0, hp' <> hp ->
       ring_mem w hp' rg' h0 es0 -> ring_mem w' hp' rg' h0 es0).
Proof.
  intros Hg Hr Hw Hp.
  set (h1 := set_head_table p.1 h). set (h2 := set_head_entry p.2 h1).
  assert (head_of h2 = p) as Hh2.
  { unfold head_of; simpl. destruct p as [x y], Hp as [Hx Hy]; simpl in *.
    pose proof (co_size _ _ Hg). pose proof (co_entry _ _ Hg). pose proof (co_len _ _ Hg).
    unfold SHRT_MAX in *. rewrite !to_short_id by (unfold SHRT_MAX; nia). done. }
  set (w1 := put_header hp h1 w). set (w2 := put_header hp h2 w1).
  assert (ring_at w1 cur hp rg h1 es) as Hr1 by (by eapply ring_at_put_header).
  exists w2, h2. split.
  { unfold k_update_hdr at 1. rewrite (bind_eq _ _ w tt w1).
    2: { mrun (k_header_run _ _ _ _ _ _ Hr). apply update_hdr_spec, Hr. }
    unfold k_update_hdr. rewrite (bind_eq _ _ w1 tt w2); [done|].
    mrun (k_header_run _ _ _ _ _ _ Hr1). apply (update_hdr_spec hp _ h1), Hr1. }
  split_and!; try done.
  - by eapply ring_at_put_header.
  - eapply ring_wf_header; try done; [by rewrite Hh2|apply Hw].
  - intros hp' rg' h0 es0 Hne Ho.
    eapply ring_mem_put_header_ne; [apply Hr1|done|].
    eapply ring_mem_put_header_ne; [apply Hr|done|done].
Qed.

Lemma worker_pass_run E g w cur hp rg h es :
  cfg_ok (page_size E) g -> worker_ok g w cur ->
  ring_at w cur hp rg h es -> ring_wf (page_size E) g rg h es ->
  rstatus (entry_at es (ring_slot g h 0)) = BENTRY_BUSY ->
  exists w', worker_pass E (Z.to_nat (ring_used g h)) cur w = Ret (true, w') /\
    drained E g w w' cur hp rg h es.
Proof.
  intros Hg Hok Hr Hw Hbusy. pose proof (rw_head _ _ _ _ _ Hw) as Hh.
  pose proof Hok as [Hc Hs Hcur Hset]. pose proof (co_ratio _ _ Hg) as Hratio.
  destruct (slot_in_region _ _ Hg _ _ _ _ Hw Hh) as (e & He & Ha).
  assert (Z.to_nat (lin (MAX_TABLE_ENTRY g) (head_of h)) = ring_slot g h 0) as Hslot.
  { unfold ring_slot. rewrite Z.add_0_r, Z.mod_small; [done|]. eapply lin_range; [apply Hg..|done]. }
  assert (e = entry_at es (ring_slot g h 0)) as Hee by (unfold entry_at; by rewrite <- Hslot, He).
  pose proof (dist_range _ _ (cfg_E _ _ Hg) (cfg_L _ _ Hg) (head_of h) (tail_of h)) as Hdist.
  fold (ring_used g h) in Hdist. pose proof (co_size _ _ Hg) as Hsize. unfold ring_size in Hdist.
  unfold worker_pass, k_cfg, gets, bind at 1. rewrite Hc.
  mrun (k_header_run _ _ _ _ _ _ Hr). mrun (load_hdr_spec _ _ _ (ra_hdr _ _ _ _ _ _ Hr)).
  mrun (k_load_run E g Hg _ _ _ _ _ _ _ _ _ Hr Hw Hh He).
  rewrite Hee, Hbusy. change (BENTRY_BUSY =? BENTRY_EMPTY) with false. cbn iota.
  rewrite (submitted_used E g rg h es Hg Hw).
  mrun (set_submitted_run w cur (ring_used g h) ltac:(unfold CPU_NUM_LIMIT in *; lia)).
  rewrite to_short_id by (unfold SHRT_MAX in *; lia). set (w1 := with_krn _ w).
  assert (ring_at w1 cur hp rg h es) as Hr1 by (destruct Hr; by constructor).
  assert (worker_ok g w1 cur) as Hok1 by (constructor; simpl; try done; by rewrite length_insert).
  destruct (worker_loop_run E g Hg (Z.to_nat (ring_used g h)) w1 0 hp rg h es cur Hok1 Hr1 Hw)
    as (w2 & es2 & Hrun & Hf & Hm & Hw2 & Hx & Hmono & Hdone).
  { simpl. rewrite aget_insert_eq by (unfold CPU_NUM_LIMIT in *; lia). f_equal. lia. }
  { lia. }
  rewrite Z.add_0_r, pos_lin in Hrun by (done || apply Hg).
  rewrite Nat.add_0_l, Z2Nat.id, (pos_head_used E g rg h es Hg Hw) in Hrun by lia.
  mrun Hrun. assert (ring_at w2 cur hp rg h es2) as Hr2 by (by eapply ring_at_frame).
  destruct (publish_run E g w2 cur hp rg h es2 (tail_of h) Hg Hr2 Hw2 ltac:(apply Hw))
    as (w3 & h3 & Hpub & Hr3 & Hw3 & Hh3 & Ht3 & Hu3 & Hk3 & Ho3).
  exists w3. split; [exact Hpub|]. constructor.
  - by rewrite Hk3, Hx.
  - exists h3, es2. split_and!; try done. intros t Ht. apply Hdone. lia.
  - destruct Hf as [F1 F2 F3 F4]. constructor; rewrite ?Hk3, ?Hu3; try done.
    rewrite F4; simpl. by rewrite length_insert.
  - rewrite Hu3. apply (kf_usr _ _ Hf).
  - intros hp' rg' h' es' Hhp Hrg Hoth. apply Ho3; [done|].
    by apply (ring_mem_frame_ne w1 w2 hp' rg' h' es' rg es2).
Qed.

(** C8: when the entry at the head is busy, a pass of the worker returns after
    as many iterations as entries are pending; it has executed the pending
    requests of its ring, all of them and in order, marked their entries empty,
    moved the head to the tail and touched no other ring. *)
Theorem worker_pass_executes_pending E g w cur hp rg h es :
  cfg_ok (page_size E) g -> worker_ok g w cur ->
  ring_at w cur hp rg h es -> ring_wf (page_size E) g rg h es ->
  rstatus (entry_at es (ring_slot g h 0)) = BENTRY_BUSY ->
  exists w', worker_pass E (Z.to_nat (ring_used g h)) cur w = Ret (true, w') /\
    drained E g w w' cur hp rg h es.
Proof. apply worker_pass_run. Qed.

Lemma worker_pass_empty E g w fuel cur hp rg h es :
  cfg_ok (page_size E) g -> kcfg (krn w) = g ->
  ring_at w cur hp rg h es -> ring_wf (page_size E) g rg h es ->
  rstatus (entry_at es (ring_slot g h 0)) = BENTRY_EMPTY ->
  worker_pass E fuel cur w = Ret (false, w).
Proof.
  intros Hg Hc Hr Hw Hst. pose proof (rw_head _ _ _ _ _ Hw) as Hh.
  destruct (slot_in_region _ _ Hg _ _ _ _ Hw Hh) as (e & He & Ha).
  unfold worker_pass, k_cfg, gets, bind at 1. rewrite Hc.
  mrun (k_header_run _ _ _ _ _ _ Hr). mrun (load_hdr_spec _ _ _ (ra_hdr _ _ _ _ _ _ Hr)).
  mrun (k_load_run E g Hg _ _ _ _ _ _ _ _ _ Hr Hw Hh He).
  replace (rstatus e) with BENTRY_EMPTY; [done|]. rewrite <- Hst. f_equal.
  unfold entry_at, ring_slot. rewrite Z.add_0_r, Z.mod_small by (eapply lin_range; [apply Hg..|done]).
  by rewrite He.
Qed.

(** When the entry at the head is empty the worker changes nothing and goes
    on polling. *)
Theorem worker_pass_polls_empty E g w fuel cur hp rg h es :
  cfg_ok (page_size E) g -> kcfg (krn w) = g ->
  ring_at w cur hp rg h es -> ring_wf (page_size E) g rg h es ->
  rstatus (entry_at es (ring_slot g h 0)) = BENTRY_EMPTY ->
  worker_pass E fuel cur w = Ret (false, w).
Proof. apply worker_pass_empty. Qed.
