(* ===== verification/Batch.v ===== *)
(** * Batches: from the wrappers to the executed system calls

    The set of rings of a user worker seen as a family of queues ([set_ok]), the
    interface a wrapper implements ([Submits]), and what follows for a batch of
    calls of any wrappers: every request is executed exactly once, and the
    requests of one ring, so of one descriptor, in program order. *)
From stdpp Require Import base numbers list gmap.
From S2P Require Import Prelude Esca Ring IndirectCall Request World Kernel Preload Wrappers Rings Submit WrapperProps WorkerProps.

(** ** The status of the entries

    An entry is busy exactly when it lies between head and tail. *)
Definition ring_status (g : globals) (h : esca_table_t) (es : list esca_table_entry_t) : Prop :=
  forall t, Z.of_nat t < ring_size (MAX_TABLE_ENTRY g) (MAX_TABLE_LEN g) ->
    rstatus (entry_at es (ring_slot g h t))
    = if decide (Z.of_nat t < ring_used g h) then BENTRY_BUSY else BENTRY_EMPTY.

Section status.
Context (ps : Z) (g : globals) (Hg : cfg_ok ps g).
Abbreviation N := (ring_size (MAX_TABLE_ENTRY g) (MAX_TABLE_LEN g)).

Lemma ring_used_range h : 0 <= ring_used g h < N.
Proof. apply dist_range; [apply (cfg_E ps g Hg)|apply (cfg_L ps g Hg)]. Qed.

Lemma ring_status_submit rg h h' es es' :
  ring_wf ps g rg h es -> ring_status g h es ->
  head_of h' = head_of h -> ring_used g h' = ring_used g h + 1 ->
  (forall n, entry_at es' n = entry_at es n \/
             n = Z.to_nat (lin (MAX_TABLE_ENTRY g) (tail_of h))) ->
  rstatus (entry_at es' (Z.to_nat (lin (MAX_TABLE_ENTRY g) (tail_of h)))) = BENTRY_BUSY ->
  ring_status g h' es'.
Proof.
  intros Hw Hs Hh Hu Hsame Hlast t Ht. pose proof (ring_used_range h) as Hr.
  assert (ring_slot g h' t = ring_slot g h t) as -> by (unfold ring_slot; by rewrite Hh).
  pose proof (ring_slot_tail ps g Hg h (rw_head _ _ _ _ _ Hw) (rw_tail _ _ _ _ _ Hw)) as Htail.
  destruct (decide (t = Z.to_nat (ring_used g h))) as [->|Hne].
  - rewrite Htail, Hlast, decide_True by lia. done.
  - destruct (Hsame (ring_slot g h t)) as [->|Heq].
    + rewrite Hs by done. do 2 case_decide; done || lia.
    + rewrite <- Htail in Heq. apply (ring_slot_inj ps g Hg) in Heq; lia.
Qed.

(** Every slot of the ring is some distance from the head. *)
Lemma ring_status_drained h h' es es' :
  ring_status g h es -> tail_of h' = tail_of h -> head_of h' = tail_of h ->
  in_ring (MAX_TABLE_ENTRY g) (MAX_TABLE_LEN g) (head_of h) ->
  in_ring (MAX_TABLE_ENTRY g) (MAX_TABLE_LEN g) (tail_of h) ->
  (forall m, rstatus (entry_at es m) = BENTRY_EMPTY ->
     rstatus (entry_at es' m) = BENTRY_EMPTY) ->
  (forall t, (t < Z.to_nat (ring_used g h))%nat ->
     rstatus (entry_at es' (ring_slot g h t)) = BENTRY_EMPTY) ->
  ring_used g h' = 0 /\ ring_status g h' es'.
Proof.
  intros Hs Ht Hh Hin Hin' Hmono Hdone. pose proof (cfg_N ps g Hg) as HN.
  pose proof (ring_used_range h) as Hr.
  assert (ring_used g h' = 0) as Hu.
  { unfold ring_used, dist. rewrite Ht, Hh, Z.sub_diag. apply Z.mod_0_l. lia. }
  split; [done|]. intros t Hlt. rewrite Hu, decide_False by lia.
  set (t' := Z.to_nat ((ring_used g h + Z.of_nat t) `mod` N)).
  pose proof (Z.mod_pos_bound (ring_used g h + Z.of_nat t) N ltac:(lia)) as Hb.
  assert (ring_slot g h' t = ring_slot g h t') as ->.
  { unfold ring_slot, t'. rewrite Hh, Z2Nat.id, Zplus_mod_idemp_r by lia. f_equal.
    unfold ring_used, dist.
    rewrite (Z.add_comm (_ `mod` N)), Z.add_assoc, Zplus_mod_idemp_r. f_equal. lia. }
  destruct (decide (t' < Z.to_nat (ring_used g h))%nat) as [Hlt'|Hge]; [by apply Hdone|].
  apply Hmono. rewrite Hs by lia. rewrite decide_False by lia. done.
Qed.
End status.

(** A call of a wrapper in a batch. *)
Record batched (E : env) := Batched {
  b_fd : Z;
  b_run : MW Z;
  b_val : Z;
  b_req : request;
  b_ok : Submits E b_fd b_run b_val b_req
}.
#[global] Arguments Batched {_} _ _ _ _ {_}.
#[global] Arguments b_fd {_} _.
#[global] Arguments b_run {_} _.
#[global] Arguments b_val {_} _.
#[global] Arguments b_req {_} _.
#[global] Arguments b_ok {_} _.

Fixpoint run_batch {E} (l : list (batched E)) : MW (list Z) :=
  match l with
  | [] => ret []
  | b :: l' =>
      let! v := b_run b in
      let! vs := run_batch l' in
      ret (v :: vs)
  end.

(** The workers named in [ks] each make a pass. *)
Fixpoint run_passes (E : env) (fuel : nat) (ks : list Z) : MW unit :=
  match ks with
  | [] => ret tt
  | k :: ks' =>
      let! _ := worker_pass E fuel k in run_passes E fuel ks'
  end.

(** ** The set of rings of a user worker as a family of queues *)
Definition in_set (w : world) (k : Z) : Prop :=
  this_worker_id (usr w) * RATIO (ucfg (usr w)) <= k
    < this_worker_id (usr w) * RATIO (ucfg (usr w)) + RATIO (ucfg (usr w)).

Record queue_at (E : env) (g : globals) (w : world) (k : Z) (hp : hptr) (rg : Z)
    (q : list call) : Prop := {
  qa_ring : exists h es, ring_at w k hp rg h es /\ ring_wf (page_size E) g rg h es /\
    ring_status g h es /\ ring_pending (e_arch E) g h es = q
}.

Record set_ok (E : env) (g : globals) (w : world) (lay : Z -> hptr * Z)
    (q : Z -> list call) : Prop := {
  so_cfg : cfg_ok (page_size E) g;
  so_user : ucfg (usr w) = g;
  so_kern : kcfg (krn w) = g;
  so_sub : Z.of_nat (length (submitted (krn w))) = CPU_NUM_LIMIT;
  so_range : 0 <= this_worker_id (usr w) /\
    this_worker_id (usr w) * RATIO g + RATIO g <= CPU_NUM_LIMIT;
  so_inj : forall k k', in_set w k -> in_set w k' -> k <> k' ->
    (lay k).1 <> (lay k').1 /\ (lay k).2 <> (lay k').2;
  so_queue : forall k, in_set w k -> queue_at E g w k (lay k).1 (lay k).2 (q k)
}.

Definition enqueue (q : Z -> list call) (k : Z) (c : call) : Z -> list call :=
  fun k' => if k' =? k then q k' ++ [c] else q k'.
Definition dequeue_all (q : Z -> list call) (k : Z) : Z -> list call :=
  fun k' => if k' =? k then [] else q k'.

Section family.
Context (E : env) (g : globals).
Abbreviation N := (ring_size (MAX_TABLE_ENTRY g) (MAX_TABLE_LEN g)).
Abbreviation a := (e_arch E).

Lemma queue_length h es : length (ring_pending a g h es) = Z.to_nat (ring_used g h).
Proof. unfold ring_pending. by rewrite length_map, length_seq. Qed.

Lemma ring_index_in_set w lay q fd :
  set_ok E g w lay q -> 0 <= fd -> in_set w (ring_index w fd).
Proof.
  intros Hs Hfd. pose proof (co_ratio _ _ (so_cfg _ _ _ _ _ Hs)) as Hr.
  unfold in_set, ring_index. rewrite (so_user _ _ _ _ _ Hs).
  pose proof (Z.rem_bound_pos fd (RATIO g) Hfd Hr). lia.
Qed.

Lemma in_set_ext w w' k :
  ucfg (usr w') = ucfg (usr w) -> this_worker_id (usr w') = this_worker_id (usr w) ->
  in_set w' k <-> in_set w k.
Proof. unfold in_set. by intros -> ->. Qed.

(** A call of a wrapper appends its request to the queue of its ring. *)
Lemma set_submit {A} w lay q fd (m : MW A) v r `{!Submits E fd m v r} :
  set_ok E g w lay q -> in_segment (usr w) <> 0 -> 0 <= fd ->
  0 <= batch_num (usr w) < INT_MAX ->
  Z.of_nat (length (q (ring_index w fd))) < N - 1 ->
  exists w', m w = Ret (v, w') /\
    set_ok E g w' lay (enqueue q (ring_index w fd) (request_call a r)) /\
    ucfg (usr w') = ucfg (usr w) /\ this_worker_id (usr w') = this_worker_id (usr w) /\
    in_segment (usr w') = in_segment (usr w) /\ batch_num (usr w') = batch_num (usr w) + 1 /\
    krn w' = krn w.
Proof.
  intros Hs Hseg Hfd Hb Hroom. pose proof (ring_index_in_set _ _ _ _ Hs Hfd) as Hin.
  pose proof Hs as [Hg Hu Hk Hsub Hrange Hinj Hq].
  destruct (Hq _ Hin) as [(h & es & Hr & Hw & Hst & Hpend)].
  pose proof (ring_used_range _ _ Hg h) as Hused.
  rewrite <- Hpend, queue_length in Hroom.
  assert (can_submit E g w (ring_index w fd) (lay (ring_index w fd)).1 (lay (ring_index w fd)).2 h es)
    as Hcs by (constructor; try done; lia).
  destruct (submits _ _ _ _ _ _ Hcs) as (w' & Hrun & Hsub').
  exists w'. split; [done|]. destruct Hsub' as [Sp Sr So Sut Sb Ss Sc Si Sk].
  split; [|done]. destruct Sr as (h' & es' & Hr' & Hw' & Hu' & Hh' & Hf' & Ht' & Hsame & Hlast).
  constructor; rewrite ?Sc, ?Si, ?Sk; try done.
  - intros k k' Hink Hink'. apply Hinj; by eapply in_set_ext.
  - intros k Hink. rewrite in_set_ext in Hink by done. unfold enqueue.
    destruct (Z.eqb_spec k (ring_index w fd)) as [->|Hne].
    + constructor. exists h', es'. split_and!; try done.
      * by eapply (ring_status_submit _ _ Hg _ h).
      * rewrite (pending_ring E g Hg w' _ _ _ _ _ (eq_trans Sc Hu) Hr' Hw') in Sp.
        rewrite (pending_ring E g Hg w _ _ _ _ _ Hu Hr Hw) in Sp. simpl in Sp. injection Sp as Sp. by rewrite Sp, Hpend.
    + destruct (Hinj k (ring_index w fd) Hink Hin Hne).
      destruct (Hq k Hink) as [(h1 & es1 & Hr1 & Hrest)]. constructor. exists h1, es1.
      split; [|done]. eapply ring_at_moved; [exact Hr1|done|by rewrite Sk|]. by apply So, (ring_at_mem _ _ _ _ _ _ Hr1).
Qed.

(** More iterations than the worker makes change nothing. *)
Lemma worker_loop_more f f' : (f <= f')%nat -> forall cur i j w x,
  worker_loop E f cur i j w = Ret x -> worker_loop E f' cur i j w = Ret x.
Proof.
  revert f'. induction f as [|f IH]; intros f' Hf cur i j w x.
  - destruct f'; [done|]. simpl. unfold bind. destruct (get_submitted cur w) as [[n w1]| |]; try done.
    by destruct (n =? 0).
  - destruct f' as [|f']; [lia|]. simpl. unfold bind.
    destruct (get_submitted cur w) as [[n w1]| |]; try done.
    destruct (n =? 0); [done|]. destruct (worker_entry E cur i j w1) as [[p w2]| |]; try done.
    apply IH. lia.
Qed.

Lemma worker_pass_more f f' cur w x :
  (f <= f')%nat -> worker_pass E f cur w = Ret x -> worker_pass E f' cur w = Ret x.
Proof.
  intros Hf. unfold worker_pass, bind.
  destruct (k_cfg w) as [[g0 w0]| |]; try done.
  destruct (k_header cur w0) as [[hp w1]| |]; try done.
  destruct (load_hdr hp w1) as [[h w2]| |]; try done.
  destruct (k_load E cur (head_table h) (head_entry h) w2) as [[e w3]| |]; try done.
  destruct (rstatus e =? BENTRY_EMPTY); [done|].
  destruct (set_submitted _ _ w3) as [[[] w4]| |]; try done.
  destruct (worker_loop E f cur (head_table h) (head_entry h) w4) as [[p w5]| |] eqn:Hl; try done.
  by rewrite (worker_loop_more f f' Hf _ _ _ _ _ Hl).
Qed.

Lemma set_worker_ok w lay q k : set_ok E g w lay q -> in_set w k -> worker_ok g w k.
Proof.
  intros [Hg Hu Hk Hsub Hrange Hinj Hq] Hin. unfold in_set in Hin. rewrite Hu in Hin.
  pose proof (co_ratio _ _ Hg). constructor; try done; [nia|]. intros Hrem.
  assert (k = this_worker_id (usr w) * RATIO g) as ->; [|lia].
  apply Z.rem_divide in Hrem as [d Hd]; [|lia]. rewrite Hd in Hin |- *.
  assert (d = this_worker_id (usr w)) as ->; [|done].
  set (i := this_worker_id (usr w)) in *. clearbody i.
  assert (d < i + 1) by (apply (Z.mul_lt_mono_pos_r (RATIO g)); lia).
  assert (i < d + 1) by (apply (Z.mul_lt_mono_pos_r (RATIO g)); lia). lia.
Qed.

(** A pass of a worker of the set executes the queue of its ring and empties
    it; the other queues stay as they are. *)
Lemma set_pass w lay q k fuel :
  set_ok E g w lay q -> in_set w k -> N <= Z.of_nat fuel ->
  exists w' b, worker_pass E fuel k w = Ret (b, w') /\
    set_ok E g w' lay (dequeue_all q k) /\ usr w' = usr w /\
    executed (krn w') = executed (krn w) ++ q k.
Proof.
  intros Hs Hin Hfuel. pose proof (set_worker_ok _ _ _ _ Hs Hin) as Hok.
  pose proof Hs as [Hg Hu Hk Hsub Hrange Hinj Hq].
  destruct (Hq _ Hin) as [(h & es & Hr & Hw & Hst & Hpend)].
  pose proof (ring_used_range _ _ Hg h) as Hused.
  pose proof (Hst 0%nat ltac:(lia)) as H0.
  destruct (decide (Z.of_nat 0 < ring_used g h)) as [Hpos|Hzero].
  - destruct (worker_pass_run E g w k _ _ h es Hg Hok Hr Hw H0) as (w' & Hrun & Hd).
    exists w', true. split; [eapply worker_pass_more; [|exact Hrun]; lia|].
    destruct Hd as [Dl (h' & es' & Hr' & Hw' & Hh' & Ht' & Hmono & Hdone) Df Du Do].
    destruct (ring_status_drained _ _ Hg h h' es es' Hst Ht' Hh' ltac:(apply Hw) ltac:(apply Hw) Hmono Hdone)
      as [Hu0 Hst'].
    split; [|split; [done|by rewrite Dl, Hpend]].
    constructor; rewrite ?Du, ?(kf_cfg _ _ Df), ?(kf_len _ _ Df); try done.
    + intros k1 k2 H1 H2. rewrite in_set_ext in H1, H2 by (by rewrite Du). by apply Hinj.
    + intros k' Hin'. rewrite in_set_ext in Hin' by (by rewrite Du). unfold dequeue_all.
      destruct (Z.eqb_spec k' k) as [->|Hne].
      * constructor. exists h', es'. split_and!; try done. apply nil_length_inv.
        rewrite queue_length, Hu0. done.
      * destruct (Hinj k' k Hin' Hin Hne). destruct (Hq k' Hin') as [(h1 & es1 & Hr1 & Hrest)].
        constructor. exists h1, es1. split; [|done].
        eapply ring_at_moved; [exact Hr1|by rewrite Du|apply (kf_table _ _ Df)|]. by apply Do, (ring_at_mem _ _ _ _ _ _ Hr1).
  - exists w, false. split; [by eapply worker_pass_empty|].
    assert (q k = []) as Hqk.
    { rewrite <- Hpend. apply nil_length_inv. rewrite queue_length. lia. }
    split; [|split; [done|by rewrite Hqk, app_nil_r]].
    constructor; try done. intros k' Hin'. unfold dequeue_all.
    destruct (Z.eqb_spec k' k) as [->|Hne]; [rewrite <- Hqk|]; by apply Hq.
Qed.

#[export] Instance set_ok_proper w lay :
  Proper (pointwise_relation Z eq ==> iff) (set_ok E g w lay).
Proof.
  intros q q' Hqq. split; intros [? ? ? ? ? ? Hq]; constructor; try done;
    intros k Hk; [rewrite <- Hqq|rewrite Hqq]; by apply Hq.
Qed.

(** The calls of a batch that go to ring [k], in program order. *)
Definition batch_on (w : world) (k : Z) (l : list (batched E)) : list (batched E) :=
  filter (fun b => ring_index w (b_fd b) = k) l.
Definition batch_calls (l : list (batched E)) : list call :=
  map (fun b => request_call a (b_req b)) l.

Lemma batch_on_ext w w' k l :
  ucfg (usr w') = ucfg (usr w) -> this_worker_id (usr w') = this_worker_id (usr w) ->
  batch_on w' k l = batch_on w k l.
Proof. unfold batch_on, ring_index. by intros -> ->. Qed.

Lemma batch_on_cons w k b l :
  batch_on w k (b :: l)
  = if ring_index w (b_fd b) =? k then b :: batch_on w k l else batch_on w k l.
Proof.
  unfold batch_on. rewrite filter_cons.
  destruct (Z.eqb_spec (ring_index w (b_fd b)) k); by case_decide.
Qed.

(** A batch the set has room for. *)
Record fits (w : world) (q : Z -> list call) (l : list (batched E)) : Prop := {
  ft_fds : Forall (fun b => 0 <= b_fd b) l;
  ft_count : 0 <= batch_num (usr w) /\ batch_num (usr w) + Z.of_nat (length l) <= INT_MAX;
  ft_room : forall k, in_set w k ->
    Z.of_nat (length (q k)) + Z.of_nat (length (batch_on w k l)) < N
}.

(** The calls of a batch return the values of successful calls and append
    their requests, each to the queue of its ring. *)
Lemma run_batch_queues l : forall w lay q,
  set_ok E g w lay q -> in_segment (usr w) <> 0 -> fits w q l ->
  exists w', run_batch l w = Ret (map b_val l, w') /\
    set_ok E g w' lay (fun k => q k ++ batch_calls (batch_on w k l)) /\
    ucfg (usr w') = ucfg (usr w) /\ this_worker_id (usr w') = this_worker_id (usr w) /\
    batch_num (usr w') = batch_num (usr w) + Z.of_nat (length l) /\ krn w' = krn w.
Proof.
  induction l as [|b l IH]; intros w lay q Hs Hseg [Hfd Hn Hroom]; simpl.
  - exists w. split; [done|]. split; [|split_and!; (done || lia)].
    eapply set_ok_proper; [|exact Hs]. intros k. apply app_nil_r.
  - apply Forall_cons in Hfd as [Hfd Hfds]. pose proof (ring_index_in_set _ _ _ _ Hs Hfd) as Hin.
    simpl in Hn. pose proof (b_ok b) as Hb.
    destruct (set_submit w lay q (b_fd b) (b_run b) (b_val b) (b_req b) Hs Hseg Hfd ltac:(lia))
      as (w1 & Hrun & Hs1 & Hu1 & Hi1 & Hg1 & Hb1 & Hk1).
    { specialize (Hroom _ Hin). rewrite batch_on_cons, Z.eqb_refl in Hroom. simpl in Hroom. lia. }
    destruct (IH w1 lay _ Hs1) as (w' & Hrun' & Hs' & Hu' & Hi' & Hb' & Hk'); [congruence| |].
    { constructor; [done|lia|]. intros k Hk. rewrite in_set_ext in Hk by done.
      specialize (Hroom k Hk). rewrite batch_on_cons in Hroom. rewrite (batch_on_ext w w1) by done.
      unfold enqueue. rewrite (Z.eqb_sym k).
      destruct (_ =? k); [rewrite length_app|]; simpl in *; lia. }
    exists w'. split; [by mrun Hrun; mrun Hrun'|].
    split; [|split_and!; (congruence || lia)].
    eapply set_ok_proper; [|exact Hs']. intros k. rewrite batch_on_cons, (batch_on_ext w w1) by done.
    unfold enqueue. rewrite (Z.eqb_sym k). destruct (_ =? k); [|done].
    by rewrite <- app_assoc.
Qed.

Lemma run_passes_queues fuel ks : forall w lay q,
  set_ok E g w lay q -> NoDup ks -> Forall (in_set w) ks -> N <= Z.of_nat fuel ->
  exists w', run_passes E fuel ks w = Ret (tt, w') /\
    set_ok E g w' lay (fun k => if decide (k ∈ ks) then [] else q k) /\ usr w' = usr w /\
    executed (krn w') = executed (krn w) ++ concat (map q ks).
Proof.
  induction ks as [|k ks IH]; intros w lay q Hs Hnd Hin Hfuel; simpl.
  - exists w. rewrite app_nil_r. done.
  - apply NoDup_cons in Hnd as [Hk Hnd]. apply Forall_cons in Hin as [Hink Hin].
    destruct (set_pass w lay q k fuel Hs Hink Hfuel) as (w1 & b & Hrun & Hs1 & Hu1 & Hx1).
    destruct (IH w1 lay _ Hs1 Hnd) as (w' & Hrun' & Hs' & Hu' & Hx'); [|done|].
    { eapply Forall_impl; [exact Hin|]. intros k' Hk'. by rewrite in_set_ext by (by rewrite Hu1). }
    exists w'. split; [by mrun Hrun|]. split; [|split; [congruence|]].
    + eapply set_ok_proper; [|exact Hs']. intros k'. unfold dequeue_all.
      destruct (Z.eqb_spec k' k) as [->|Hne]; repeat case_decide; set_solver.
    + rewrite Hx', Hx1, <- app_assoc. do 3 f_equal. apply map_ext_in. intros k' Hk'.
      unfold dequeue_all. destruct (Z.eqb_spec k' k) as [->|]; [|done].
      by apply list_elem_of_In in Hk'.
Qed.
End family.

(** The rings of the set of the process. *)
Definition set_rings (w : world) : list Z :=
  map (fun n => this_worker_id (usr w) * RATIO (ucfg (usr w)) + Z.of_nat n)
    (seq 0 (Z.to_nat (RATIO (ucfg (usr w))))).

Lemma elem_of_set_rings w k : k ∈ set_rings w <-> in_set w k.
Proof.
  unfold set_rings, in_set. rewrite list_elem_of_In, in_map_iff. split.
  - intros (n & <- & Hn). apply in_seq in Hn. lia.
  - intros Hk. exists (Z.to_nat (k - this_worker_id (usr w) * RATIO (ucfg (usr w)))).
    split; [lia|]. apply in_seq. lia.
Qed.

Lemma set_rings_NoDup w : NoDup (set_rings w).
Proof.
  apply NoDup_fmap_2_strong; [|apply NoDup_seq]. intros x y _ _ Hxy. simpl in Hxy. lia.
Qed.

(** The queues of the workers partition a batch. *)
Lemma batch_partition E w (l : list (batched E)) ks :
  NoDup ks -> Forall (fun b => ring_index w (b_fd b) ∈ ks) l ->
  concat (map (fun k => batch_on E w k l) ks) ≡ₚ l.
Proof. apply filter_partition. Qed.

Lemma batch_run E g w lay (l : list (batched E)) fuel ks :
  set_ok E g w lay (fun _ => []) -> in_segment (usr w) <> 0 ->
  fits E g w (fun _ => []) l -> ks ≡ₚ set_rings w ->
  ring_size (MAX_TABLE_ENTRY g) (MAX_TABLE_LEN g) <= Z.of_nat fuel ->
  exists w' w'', run_batch l w = Ret (map b_val l, w') /\ executed (krn w') = executed (krn w) /\
    run_passes E fuel ks w' = Ret (tt, w'') /\
    set_ok E g w'' lay (fun _ => []) /\
    this_worker_id (usr w'') = this_worker_id (usr w) /\ ucfg (usr w'') = ucfg (usr w) /\
    exists cs, executed (krn w'') = executed (krn w) ++ cs /\
      cs = concat (map (fun k => batch_calls E (batch_on E w k l)) ks) /\
      cs ≡ₚ batch_calls E l.
Proof.
  intros Hs Hseg Hfit Hks Hfuel.
  destruct (run_batch_queues E g l w lay _ Hs Hseg Hfit) as (w1 & Hrun & Hs1 & Hu1 & Hi1 & _ & Hk1).
  assert (NoDup ks) as Hnd by (rewrite Hks; apply set_rings_NoDup).
  destruct (run_passes_queues E g fuel ks w1 lay _ Hs1 Hnd) as (w2 & Hrun2 & Hs2 & Hu2 & Hx2); [|done|].
  { rewrite Hks. apply Forall_forall. intros k Hk. apply elem_of_set_rings in Hk.
    by rewrite in_set_ext. }
  exists w1, w2. split; [done|]. split; [by rewrite Hk1|]. split; [done|]. split.
  - destruct Hs2 as [? ? ? ? ? ? Hq]. constructor; try done. intros k Hin. specialize (Hq k Hin).
    rewrite decide_True in Hq; [done|]. rewrite Hks. apply elem_of_set_rings.
    rewrite in_set_ext in Hin by (by rewrite Hu2). by rewrite <- in_set_ext.
  - split; [by rewrite Hu2|]. split; [by rewrite Hu2|]. eexists. split; [by rewrite Hx2, Hk1|]. split; [done|].
    transitivity (batch_calls E (concat (map (fun k => batch_on E w k l) ks))).
    + unfold batch_calls. by rewrite concat_map, map_map.
    + apply Permutation_map, batch_partition; [done|]. eapply Forall_impl; [apply (ft_fds _ _ _ _ _ Hfit)|]. intros b Hb. rewrite Hks.
      apply elem_of_set_rings. by eapply ring_index_in_set.
Qed.

(** C11: a batch of calls of wrappers with an instance of [Submits] ([close], the
    two [sendfile64] of nginx, [write] of redis.c, [send], [shutdown]) on any
    descriptors, which fits the rings (for every ring fewer calls than it has
    entries), followed by a pass of each worker of the set, the workers in any order: the calls
    return at once with the values of successful calls; then every request has
    been executed exactly once, those of one ring (so of one descriptor) in
    program order, and the rings are empty again. *)
Theorem batch_executes E g w lay (l : list (batched E)) fuel ks :
  set_ok E g w lay (fun _ => []) -> in_segment (usr w) <> 0 ->
  fits E g w (fun _ => []) l -> ks ≡ₚ set_rings w ->
  ring_size (MAX_TABLE_ENTRY g) (MAX_TABLE_LEN g) <= Z.of_nat fuel ->
  exists w' w'', run_batch l w = Ret (map b_val l, w') /\ executed (krn w') = executed (krn w) /\
    run_passes E fuel ks w' = Ret (tt, w'') /\
    set_ok E g w'' lay (fun _ => []) /\
    this_worker_id (usr w'') = this_worker_id (usr w) /\ ucfg (usr w'') = ucfg (usr w) /\
    exists cs, executed (krn w'') = executed (krn w) ++ cs /\
      cs = concat (map (fun k => batch_calls E (batch_on E w k l)) ks) /\
      cs ≡ₚ batch_calls E l.
Proof. apply batch_run. Qed.
