(* ===== verification/Init.v ===== *)
(** * Setting up the rings

    [init_worker] of a process and the [sys_esca_register] calls it makes leave
    the rings of the process' set well formed and empty, with both sides seeing
    the same entries. *)
From stdpp Require Import base numbers list gmap.
From S2P Require Import Prelude Esca Ring IndirectCall Request World Kernel Preload Wrappers Rings Submit WrapperProps WorkerProps Batch.

Lemma put_header_id hp h w : hdr_lookup hp (mem w) = Some h -> put_header hp h w = w.
Proof.
  destruct w as [u k [hps rgs hb np] al]. unfold put_header, with_mem, hdr_lookup, hdr_store; simpl.
  destruct (hps !! h_page hp) as [l|] eqn:Hl; simpl; [|done]. intros Hg.
  pose proof (aget_Some _ _ _ Hg) as Hr. rewrite (aset_in_range _ _ h Hr); simpl.
  unfold put_hpages; simpl. do 2 f_equal. unfold aget in Hg.
  destruct (Z.ltb_spec (h_off hp) 0); [done|]. by rewrite list_insert_id, insert_id.
Qed.

Lemma put_header_twice hp h1 h2 w :
  put_header hp h2 (put_header hp h1 w) = put_header hp h2 w.
Proof.
  destruct w as [u k [hps rgs hb np] al]. unfold put_header, with_mem, hdr_store; simpl.
  destruct (hps !! h_page hp) as [l|] eqn:Hl; simpl; [|by rewrite Hl].
  destruct (aset l (h_off hp) h1) as [l1|] eqn:H1; simpl.
  - apply aset_Some in H1 as [Hr ->]. rewrite lookup_insert_eq; simpl.
    rewrite (aset_in_range l _ h2 Hr), aset_in_range by (by rewrite length_insert). simpl.
    unfold put_hpages; simpl. by rewrite insert_insert_eq, list_insert_insert_eq.
  - by rewrite Hl.
Qed.

Lemma put_entries_put_header hp h rg es w :
  put_entries rg es (put_header hp h w) = put_header hp h (put_entries rg es w).
Proof.
  destruct w as [u k [hps rgs hb np] al]. unfold put_header, put_entries, with_mem, hdr_store; simpl.
  destruct (hps !! h_page hp) as [l|]; simpl; [|done]. by destruct (aset l (h_off hp) h).
Qed.

Lemma next_put_header hp h w : next_page (mem (put_header hp h w)) = next_page (mem w).
Proof.
  unfold put_header; simpl. unfold hdr_store.
  destruct (hpages (mem w) !! h_page hp) as [l|]; simpl; [|done].
  by destruct (aset l (h_off hp) h).
Qed.

(** Stores into the module and into the shared memory are independent. *)
Lemma put_header_krn hp h f w : put_header hp h (with_krn f w) = with_krn f (put_header hp h w).
Proof. done. Qed.

(** ** Mapping the tables *)

(** A list after the stores of [f 0 .. f (k - 1)]. *)
Definition filled {A} (f : Z -> A) (l0 l : list A) (k : Z) : Prop :=
  length l = length l0 /\ forall j, 0 <= j < k -> aget l j = Some (f j).

Lemma filled_step {A} (f : Z -> A) l0 l k :
  filled f l0 l k -> 0 <= k < Z.of_nat (length l0) ->
  exists l', aset l k (f k) = Some l' /\ filled f l0 l' (k + 1).
Proof.
  intros [Hl Hf] Hk. exists (<[Z.to_nat k := f k]> l). split; [apply aset_in_range; lia|].
  assert (aset l k (f k) = Some (<[Z.to_nat k := f k]> l)) as Hs by (apply aset_in_range; lia).
  split; [by rewrite length_insert|]. intros j Hj. destruct (decide (j = k)) as [->|Hne].
  - by eapply aget_aset_eq.
  - rewrite (aget_aset_ne _ _ _ _ _ Hs) by done. apply Hf. lia.
Qed.

Lemma map_table_run w id hp h region l j l' :
  aget (ktable (krn w)) id = Some (Some hp) -> hdr_lookup hp (mem w) = Some h ->
  aset l j (Some (KPtr region j)) = Some l' ->
  map_table id region j (put_header hp (set_tables l h) w)
  = Ret (tt, put_header hp (set_tables l' h) w).
Proof.
  intros Hk Hh Hl. set (w1 := put_header _ _ w).
  assert (hdr_lookup hp (mem w1) = Some (set_tables l h)) as Hh1 by (by eapply hdr_lookup_put).
  unfold map_table, k_header, bind at 1, bind at 1, get. change (krn w1) with (krn w). rewrite Hk.
  unfold deref, ret. mrun (load_hdr_spec _ _ _ Hh1). cbn [tables set_tables]. rewrite Hl.
  unfold from_option_M. rewrite bind_ret_l, (update_hdr_spec _ _ _ _ Hh1).
  unfold w1. by rewrite put_header_twice.
Qed.

Lemma map_tables_run w id hp h region n :
  0 <= n <= Z.of_nat (length (tables h)) ->
  aget (ktable (krn w)) id = Some (Some hp) -> hdr_lookup hp (mem w) = Some h ->
  exists l, for_range 0 n (map_table id region) w = Ret (tt, put_header hp (set_tables l h) w) /\
    filled (fun j => Some (KPtr region j)) (tables h) l n.
Proof.
  intros Hn Hk Hh.
  destruct (for_range_inv (fun k s => exists l, s = put_header hp (set_tables l h) w /\
              filled (fun j => Some (KPtr region j)) (tables h) l k)
              (map_table id region) 0 n w) as (s' & Hrun & l & -> & Hl); [lia| | |by exists l].
  - exists (tables h). split; [|split; [done|lia]].
    replace (set_tables (tables h) h) with h by (by destruct h). by rewrite put_header_id.
  - intros k s0 Hkk (l & -> & Hl).
    destruct (filled_step _ _ _ _ Hl ltac:(lia)) as (l' & Hs & Hl').
    eexists. split; [by apply map_table_run|by exists l'].
Qed.

Lemma map_user_table_run w i hp h region mte l j l' :
  aget (utable (usr w)) i = Some (Some hp) -> hdr_lookup hp (mem w) = Some h ->
  aset l j (Some (UPtr region (j * mte))) = Some l' ->
  map_user_table i region j mte (put_header hp (set_user_tables l h) w)
  = Ret (tt, put_header hp (set_user_tables l' h) w).
Proof.
  intros Hk Hh Hl. set (w1 := put_header _ _ w).
  assert (hdr_lookup hp (mem w1) = Some (set_user_tables l h)) as Hh1 by (by eapply hdr_lookup_put).
  unfold map_user_table, u_header, bind at 1, bind at 1, get. change (usr w1) with (usr w). rewrite Hk.
  unfold deref, ret. mrun (load_hdr_spec _ _ _ Hh1). cbn [user_tables set_user_tables]. rewrite Hl.
  unfold from_option_M. rewrite bind_ret_l, (update_hdr_spec _ _ _ _ Hh1).
  unfold w1. by rewrite put_header_twice.
Qed.

Lemma map_user_tables_run w i hp h region mte n :
  0 <= n <= Z.of_nat (length (user_tables h)) ->
  aget (utable (usr w)) i = Some (Some hp) -> hdr_lookup hp (mem w) = Some h ->
  exists l, for_range 0 n (fun j => map_user_table i region j mte) w
      = Ret (tt, put_header hp (set_user_tables l h) w) /\
    filled (fun j => Some (UPtr region (j * mte))) (user_tables h) l n.
Proof.
  intros Hn Hk Hh.
  destruct (for_range_inv (fun k s => exists l, s = put_header hp (set_user_tables l h) w /\
              filled (fun j => Some (UPtr region (j * mte))) (user_tables h) l k)
              (fun j => map_user_table i region j mte) 0 n w) as (s' & Hrun & l & -> & Hl);
    [lia| | |by exists l].
  - exists (user_tables h). split; [|split; [done|lia]].
    replace (set_user_tables (user_tables h) h) with h by (by destruct h). by rewrite put_header_id.
  - intros k s0 Hkk (l & -> & Hl).
    destruct (filled_step _ _ _ _ Hl ltac:(lia)) as (l' & Hs & Hl').
    eexists. split; [by apply map_user_table_run|by exists l'].
Qed.

(** ** Clearing the entries *)
Section clear.
Context (E : env) (g : globals) (Hg : cfg_ok (page_size E) g).
Abbreviation MTE := (MAX_TABLE_ENTRY g).
Abbreviation MTL := (MAX_TABLE_LEN g).
Abbreviation ps := (page_size E).

(** The entries before position [(j, k)] are empty. *)
Definition cleared (es0 es : list esca_table_entry_t) (j k : Z) : Prop :=
  length es = length es0 /\ Forall (fun e => length (args e) = 6%nat) es /\
  forall j' k', 0 <= j' < MTL -> 0 <= k' < MTE -> j' < j \/ j' = j /\ k' < k ->
    rstatus (entry_at es (Z.to_nat (kernel_slot ps j' k'))) = BENTRY_EMPTY.

Lemma cleared_next es0 es j : cleared es0 es j MTE -> cleared es0 es (j + 1) 0.
Proof.
  intros (Hl & Ha & Hc). split_and!; try done. intros j' k' Hj Hk Hb. apply Hc; lia.
Qed.

Lemma cleared_step es0 es j k e :
  cleared es0 es j k -> es !! Z.to_nat (kernel_slot ps j k) = Some e ->
  cleared es0 (<[Z.to_nat (kernel_slot ps j k) := set_rstatus BENTRY_EMPTY e]> es) j (k + 1).
Proof.
  intros (Hl & Ha & Hc) He. pose proof (lookup_lt_Some _ _ _ He) as Hlt. split_and!.
  - by rewrite length_insert.
  - apply Forall_insert; [done|]. rewrite Forall_lookup in Ha. by apply (Ha _ _ He).
  - intros j' k' Hj Hk Hb. rewrite entry_at_insert by done.
    destruct (decide _) as [Heq|Hne]; [done|]. apply Hc; try done.
    destruct Hb as [Hb|[-> Hb]]; [by left|right]. split; [done|].
    destruct (decide (k' = k)) as [->|]; [done|lia].
Qed.

(** What [sys_esca_register] has mapped. *)
Record mapped (w : world) (id : Z) (hp : hptr) (rg : Z) (h : esca_table_t)
    (es : list esca_table_entry_t) : Prop := {
  mp_kern : aget (ktable (krn w)) id = Some (Some hp);
  mp_hdr : hdr_lookup hp (mem w) = Some h;
  mp_tables : forall i, 0 <= i < MTL -> aget (tables h) i = Some (Some (KPtr rg i));
  mp_ent : regions (mem w) !! rg = Some es;
  mp_len : Z.of_nat (length es) = epp ps * MTL
}.

Lemma kernel_slot_range j k :
  0 <= j < MTL -> 0 <= k < MTE -> 0 <= kernel_slot ps j k < epp ps * MTL.
Proof. intros Hj Hk. pose proof (co_entry _ _ Hg). unfold kernel_slot. nia. Qed.

Lemma clear_one w id hp rg h es es' j k :
  mapped w id hp rg h es -> cleared es es' j k -> 0 <= j < MTL -> 0 <= k < MTE ->
  exists es'', k_update E id j k (set_rstatus BENTRY_EMPTY) (put_entries rg es' w)
      = Ret (tt, put_entries rg es'' w) /\ cleared es es'' j (k + 1).
Proof.
  intros [Hk Hh Ht He Hlen] Hc Hj Hkk. pose proof Hc as (Hl & Ha & _).
  pose proof (kernel_slot_range j k Hj Hkk) as Hr. pose proof (co_entry _ _ Hg) as Hep.
  destruct (lookup_lt_is_Some_2 es' (Z.to_nat (kernel_slot ps j k))) as [e Hes]; [lia|].
  eexists. split; [|by apply cleared_step].
  unfold k_update, k_entry, k_header, bind at 1, bind at 1, bind at 1, get.
  simpl ktable. rewrite Hk. unfold deref at 1, ret at 1.
  mrun (load_hdr_spec hp h (put_entries rg es' w) Hh). rewrite (Ht j Hj). unfold deref.
  rewrite bind_ret_l.
  destruct (Z.leb_spec 0 k), (Z.ltb_spec k (epp ps)); try lia. simpl.
  rewrite (update_ent_spec rg es' _ (Z.to_nat (kernel_slot ps j k)) _ e); try done.
  - by rewrite put_entries_twice.
  - simpl. by rewrite lookup_insert_eq.
  - unfold kernel_slot in *. lia.
Qed.

Lemma clear_tables w id hp rg h es :
  mapped w id hp rg h es -> Forall (fun e => length (args e) = 6%nat) es ->
  exists es', for_range 0 MTL (fun j => for_range 0 MTE (fun k =>
                k_update E id j k (set_rstatus BENTRY_EMPTY))) w
      = Ret (tt, put_entries rg es' w) /\ cleared es es' MTL 0.
Proof.
  intros Hm Ha. pose proof (co_len _ _ Hg). pose proof (co_entry _ _ Hg).
  destruct (for_range_inv (fun j s => exists es', s = put_entries rg es' w /\ cleared es es' j 0)
    (fun j => for_range 0 MTE (fun k => k_update E id j k (set_rstatus BENTRY_EMPTY))) 0 MTL w)
    as (s' & Hrun & es' & -> & Hc); [lia| | |by exists es'].
  - exists es. rewrite put_entries_id by apply Hm. split; [done|]. split_and!; try done. lia.
  - intros j s Hj (es1 & -> & Hc).
    destruct (for_range_inv (fun k s => exists es', s = put_entries rg es' w /\ cleared es es' j k)
      (fun k => k_update E id j k (set_rstatus BENTRY_EMPTY)) 0 MTE (put_entries rg es1 w))
      as (s' & Hrun & es' & -> & Hc'); [lia|by exists es1| |].
    + intros k s Hk (es2 & -> & Hc2).
      destruct (clear_one w id hp rg h es es2 j k Hm Hc2 Hj Hk) as (es3 & Hrun & Hc3).
      eexists. split; [exact Hrun|by exists es3].
    + eexists. split; [exact Hrun|]. exists es'. split; [done|]. by apply cleared_next.
Qed.
End clear.

(** ** sys_esca_register *)
Section register.
Context (E : env) (g : globals) (Hg : cfg_ok (page_size E) g).
Abbreviation MTE := (MAX_TABLE_ENTRY g).
Abbreviation MTL := (MAX_TABLE_LEN g).
Abbreviation ps := (page_size E).

Lemma set_ktable_run w i p :
  0 <= i < Z.of_nat (length (ktable (krn w))) ->
  set_ktable i p w = Ret (tt, with_krn (put_ktable (<[Z.to_nat i := p]> (ktable (krn w)))) w).
Proof. intros Hi. unfold set_ktable, bind, get. by rewrite aset_in_range. Qed.

Lemma set_ktables_run w pg id n :
  0 <= id -> 0 <= n -> id + n <= Z.of_nat (length (ktable (krn w))) ->
  exists kt, for_range id (id + n) (fun i => set_ktable i (Some (HPtr pg (i - id)))) w
      = Ret (tt, with_krn (put_ktable kt) w) /\
    length kt = length (ktable (krn w)) /\
    forall k, aget kt k = if decide (id <= k < id + n) then Some (Some (HPtr pg (k - id)))
                          else aget (ktable (krn w)) k.
Proof.
  intros Hid Hn Hlen.
  destruct (for_range_inv (fun i s => exists kt, s = with_krn (put_ktable kt) w /\
      length kt = length (ktable (krn w)) /\
      forall k, aget kt k = if decide (id <= k < i) then Some (Some (HPtr pg (k - id)))
                            else aget (ktable (krn w)) k)
    (fun i => set_ktable i (Some (HPtr pg (i - id)))) id (id + n) w)
    as (s' & Hrun & kt & -> & Hl & Hk); [lia| | |by exists kt].
  - exists (ktable (krn w)). split_and!; [by destruct w as [? [] ? ?]|done|].
    intros k. by rewrite decide_False by lia.
  - intros i s Hi (kt & -> & Hl & Hk). rewrite set_ktable_run by (simpl; lia).
    eexists. split; [done|]. eexists. split; [reflexivity|]. simpl. split; [by rewrite length_insert|].
    intros k. assert (aset kt i (Some (HPtr pg (i - id))) = Some (<[Z.to_nat i := Some (HPtr pg (i - id))]> kt))
      as Hs by (apply aset_in_range; lia).
    destruct (decide (i = k)) as [->|Hne].
    + rewrite decide_True by lia. by eapply aget_aset_eq.
    + rewrite (aget_aset_ne _ _ _ _ _ Hs Hne), Hk. repeat case_decide; (done || lia).
Qed.

(** A header as [sys_esca_register] leaves it. *)
Record fresh_header (rg : Z) (h h' : esca_table_t) : Prop := {
  fh_tables : filled (fun j => Some (KPtr rg j)) (tables h) (tables h') MTL;
  fh_user : user_tables h' = user_tables h;
  fh_head : head_of h' = (0, 0);
  fh_tail : tail_of h' = (0, 0);
  fh_flags : flags h' = ESCA_WORKER_NEED_WAKEUP
}.

(** The part of the module's state a registration may change besides the
    memory. *)
Record registered (id : Z) (kt : list (option hptr)) (k k' : module_t) : Prop := {
  rg_cfg : kcfg k' = kcfg k;
  rg_table : ktable k' = kt;
  rg_sub : aget (submitted k') id = Some 0 /\ length (submitted k') = length (submitted k);
  rg_task : aget (worker_task k') id = Some true /\ length (worker_task k') = length (worker_task k);
  rg_hooks : syscall_table k' = syscall_table k;
  rg_log : executed k' = executed k
}.

Lemma k_update_hdr_run w id hp h f :
  aget (ktable (krn w)) id = Some (Some hp) -> hdr_lookup hp (mem w) = Some h ->
  k_update_hdr id f w = Ret (tt, put_header hp (f h) w).
Proof.
  intros Hk Hh. unfold k_update_hdr, k_header, bind at 1, bind, get. rewrite Hk.
  by apply update_hdr_spec.
Qed.

(** Updates of one header one after the other. *)
Lemma k_update_hdr_more w id hp h0 h f :
  aget (ktable (krn w)) id = Some (Some hp) -> hdr_lookup hp (mem w) = Some h0 ->
  k_update_hdr id f (put_header hp h w) = Ret (tt, put_header hp (f h) w).
Proof.
  intros Hk Hh. rewrite (k_update_hdr_run _ id hp h); [by rewrite put_header_twice|done|].
  by eapply hdr_lookup_put.
Qed.

(** The stores after the mapping of the header. *)
Lemma register_run w header rg id kt hp h es :
  kcfg (krn w) = g -> allocs w = [] -> INT_MIN <= id <= INT_MAX ->
  0 <= id < Z.of_nat (length (submitted (krn w))) ->
  0 <= id < Z.of_nat (length (worker_task (krn w))) ->
  match header with
  | Some p => for_range id (id + RATIO g) (fun i => set_ktable i (Some (HPtr (h_page p) (i - id)))) w
  | None => match aget (ktable (krn w)) id with
            | Some (Some _) => Ret (tt, w) | Some None => Hang | None => Fault OutOfBounds end
  end = Ret (tt, with_krn (put_ktable kt) w) ->
  aget kt id = Some (Some hp) -> hdr_lookup hp (mem w) = Some h ->
  MTL <= Z.of_nat (length (tables h)) -> regions (mem w) !! rg = Some es ->
  Z.of_nat (length es) = epp ps * MTL -> Forall (fun e => length (args e) = 6%nat) es ->
  exists k' h' es', sys_esca_register E header rg id w
      = Ret (0, with_krn (fun _ => k') (put_header hp h' (put_entries rg es' w))) /\
    registered id kt (krn w) k' /\ fresh_header rg h h' /\ cleared E g es es' MTL 0.
Proof.
  intros Hc Hal Hint Hsub Htask Hhead Hkt Hh Hlt Hrg Hlen Hargs.
  pose proof (co_len _ _ Hg) as HL. set (w1 := with_krn (put_ktable kt) w) in *.
  destruct (map_tables_run w1 id hp h rg MTL ltac:(lia) Hkt Hh) as (l & Hmap & Hl).
  set (w2 := put_header hp (set_tables l h) w1) in *.
  assert (hdr_lookup hp (mem w2) = Some (set_tables l h)) as Hh2 by (by eapply hdr_lookup_put).
  assert (mapped E g w2 id hp rg (set_tables l h) es) as Hm2.
  { constructor; try done; [by apply Hl|]. unfold w2. by rewrite regions_put_header. }
  destruct (clear_tables E g Hg w2 id hp rg (set_tables l h) es Hm2 Hargs) as (es' & Hclr & Hcl).
  set (w3 := put_entries rg es' w2) in *.
  eexists _, _, es'. split; [|split; [|split; [|done]]].
  - unfold sys_esca_register. rewrite to_int_id by done. unfold alloc_result at 1, bind at 1.
    rewrite Hal. rewrite bind_ret_l. unfold k_cfg, gets, bind at 1. rewrite Hc.
    rewrite (bind_eq _ _ w tt w1).
    2: { destruct header as [p|]; [done|]. unfold bind, get.
         by destruct (aget (ktable (krn w)) id) as [[]|]. }
    mrun Hmap. mrun Hclr.
    mrun (k_update_hdr_run w3 id hp _ (fun h => set_head_table 0 (set_tail_table 0 h)) Hkt Hh2).
    mrun (k_update_hdr_more w3 id hp _ (set_head_table 0 (set_tail_table 0 (set_tables l h)))
            (fun h => set_head_entry 0 (set_tail_entry 0 h)) Hkt Hh2).
    set (h1 := set_head_entry 0 _). set (w4 := put_header hp h1 w3).
    mrun (set_submitted_run w4 id 0 Hsub). change (to_short 0) with 0.
    set (sub := <[Z.to_nat id := 0]> (submitted (krn w4))).
    change (with_krn (put_submitted sub) w4) with (put_header hp h1 (with_krn (put_submitted sub) w3)).
    set (w5 := with_krn (put_submitted sub) w3).
    mrun (k_update_hdr_more w5 id hp _ h1 (set_flags (Z.lor 0 ESCA_WORKER_NEED_WAKEUP)) Hkt Hh2).
    mrun (k_update_hdr_more w5 id hp _ (set_flags (Z.lor 0 ESCA_WORKER_NEED_WAKEUP) h1)
            (set_idle_time (msecs_to_jiffies E (DEFAULT_IDLE_TIME g))) Hkt Hh2).
    set (h2 := set_idle_time _ _). set (w6 := put_header hp h2 w5).
    rewrite (bind_eq get _ w6 w6 w6) by done.
    rewrite (aset_in_range (worker_task (krn w6)) id true Htask). unfold from_option_M. rewrite bind_ret_l.
    unfold modify, bind, ret. unfold w6, w5, w3, w2, w1.
    rewrite put_entries_put_header, <- (put_header_krn hp (set_tables l h)), put_header_twice. reflexivity.
  - constructor; try done; simpl; (split; [by apply aget_insert_eq|by rewrite length_insert]).
  - by constructor.
Qed.
End register.

(** ** A ring after its registration *)
Section init.
Context (E : env) (g : globals) (Hg : cfg_ok (page_size E) g).
Abbreviation MTE := (MAX_TABLE_ENTRY g).
Abbreviation MTL := (MAX_TABLE_LEN g).
Abbreviation ps := (page_size E).

Lemma fresh_ring rg h h' es es' l :
  fresh_header g rg h h' ->
  filled (fun j => Some (UPtr rg (j * MTE))) (user_tables h') l MTL ->
  cleared E g es es' MTL 0 -> Z.of_nat (length es) = epp ps * MTL ->
  let h'' := set_user_tables l h' in
  ring_wf ps g rg h'' es' /\ ring_status g h'' es' /\ ring_pending (e_arch E) g h'' es' = [].
Proof.
  intros [Ht Hu Hh Htl Hf] Hl (Hlen & Ha & Hc) He h''.
  pose proof (cfg_N _ _ Hg) as HN. pose proof (cfg_E _ _ Hg) as HE. pose proof (cfg_L _ _ Hg) as HL.
  assert (head_of h'' = (0, 0)) as Hh' by done. assert (tail_of h'' = (0, 0)) as Ht' by done.
  assert (ring_used g h'' = 0) as Hused.
  { unfold ring_used, dist. rewrite Hh', Ht', Z.sub_diag. apply Z.mod_0_l. lia. }
  split; [|split].
  - constructor.
    + apply Hl.
    + apply Ht.
    + rewrite Hh'. split; simpl; lia.
    + rewrite Ht'. split; simpl; lia.
    + lia.
    + done.
  - intros t Hlt. rewrite Hused, decide_False by lia.
    pose proof (pos_in_ring MTE MTL HE HL (Z.of_nat t)) as Hin.
    rewrite <- (Hc (pos MTE MTL (Z.of_nat t)).1 (pos MTE MTL (Z.of_nat t)).2); try apply Hin.
    2: { left. apply Hin. }
    rewrite (slots_agree ps g _ _ Hg) by (by rewrite <- surjective_pairing).
    do 2 f_equal. unfold ring_slot. rewrite Hh'. change (lin MTE (0, 0)) with 0.
    f_equal. rewrite Z.add_0_l. symmetry. apply (lin_pos MTE MTL); done.
  - unfold ring_pending. by rewrite Hused.
Qed.
End init.

(** ** init_worker *)

(** What [init_worker(idx)] needs of the configuration and of the memory the
    allocator returns: the set within the limits of the arrays, its headers
    within one page, and objects of the declared types. *)
Record init_ok (E : env) (g : globals) (idx : Z) : Prop := {
  io_cfg : cfg_ok (page_size E) g;
  io_len : MAX_TABLE_LEN g <= TABLE_LEN_LIMIT;
  io_set : 0 <= idx /\ idx * RATIO g + RATIO g <= CPU_NUM_LIMIT;
  io_page : RATIO g <= hpp (page_size E);
  io_table : forall p n, Z.of_nat (length (tables (junk_table E p n))) = TABLE_LEN_LIMIT /\
                         Z.of_nat (length (user_tables (junk_table E p n))) = TABLE_LEN_LIMIT;
  io_entry : forall p n, length (args (junk_entry E p n)) = 6%nat
}.

(** The process and the module before [init_worker]. *)
Record init_pre (E : env) (g : globals) (w : world) : Prop := {
  ip_user : ucfg (usr w) = g;
  ip_kern : kcfg (krn w) = g;
  ip_pgsize : pgsize (usr w) = page_size E;
  ip_alloc : allocs w = [];
  ip_hook : syscall_table (krn w) !! __NR_esca_register = Some H_register;
  ip_utable : Z.of_nat (length (utable (usr w))) = CPU_NUM_LIMIT;
  ip_ktable : Z.of_nat (length (ktable (krn w))) = CPU_NUM_LIMIT;
  ip_sub : Z.of_nat (length (submitted (krn w))) = CPU_NUM_LIMIT;
  ip_task : Z.of_nat (length (worker_task (krn w))) = CPU_NUM_LIMIT
}.

Section init_worker.
Context (E : env) (g : globals) (idx : Z) (Hok : init_ok E g idx).
Abbreviation MTE := (MAX_TABLE_ENTRY g).
Abbreviation MTL := (MAX_TABLE_LEN g).
Abbreviation ps := (page_size E).
Abbreviation base := (idx * RATIO g).

(** The header and the region of ring [k] when the header page is [pg]. *)
Definition layout (pg k : Z) : hptr * Z := (HPtr pg (k - base), pg + 1 + (k - base)).

(** Before iteration [i] of the loop over the set. *)
Record init_at (pg i : Z) (w : world) : Prop := {
  ia_pre : init_pre E g w;
  ia_next : next_page (mem w) = pg + 1 + (i - base);
  ia_base : aget (utable (usr w)) base = Some (Some (HPtr pg 0));
  ia_hdr : forall o, 0 <= o < RATIO g -> exists h, hdr_lookup (HPtr pg o) (mem w) = Some h /\
    Z.of_nat (length (tables h)) = TABLE_LEN_LIMIT /\
    Z.of_nat (length (user_tables h)) = TABLE_LEN_LIMIT;
  ia_kern : base < i -> forall k, base <= k < base + RATIO g ->
    aget (ktable (krn w)) k = Some (Some (HPtr pg (k - base)));
  ia_done : forall k, base <= k < i ->
    queue_at E g w k (layout pg k).1 (layout pg k).2 []
}.

Lemma set_utable_run w i p :
  0 <= i < Z.of_nat (length (utable (usr w))) ->
  set_utable i p w = Ret (tt, with_usr (put_utable (<[Z.to_nat i := p]> (utable (usr w)))) w).
Proof. intros Hi. unfold set_utable, bind, get. by rewrite aset_in_range. Qed.

(** The region [alloc_tables] returns. *)
Definition new_region (rg : Z) : list esca_table_entry_t :=
  map (junk_entry E rg) (seq 0 (Z.to_nat (epp ps * MTL))).

Lemma alloc_tables_run w :
  allocs w = [] -> pgsize (usr w) = ps ->
  alloc_tables E MTL w
  = Ret (Some (next_page (mem w)),
         with_mem (fun m => put_regions (<[next_page m := new_region (next_page m)]> (regions m))
                              (put_next (next_page m + 1) m)) w).
Proof.
  intros Hal Hps. unfold alloc_tables, alloc_result, bind at 1. rewrite Hal.
  unfold bind at 1, get, fresh_page. rewrite Hps. done.
Qed.

Lemma new_region_len rg : Z.of_nat (length (new_region rg)) = epp ps * MTL.
Proof.
  unfold new_region. rewrite length_map, length_seq.
  pose proof (co_entry _ _ (io_cfg _ _ _ Hok)). pose proof (co_len _ _ (io_cfg _ _ _ Hok)). nia.
Qed.

Lemma new_region_args rg : Forall (fun e => length (args e) = 6%nat) (new_region rg).
Proof.
  apply Forall_forall. intros e He. apply list_elem_of_In, in_map_iff in He as (n & <- & _).
  apply (io_entry _ _ _ Hok).
Qed.

(** The header part of the registration of ring [i]. *)
Lemma register_header_run pg i w :
  init_pre E g w -> base <= i < base + RATIO g ->
  (base < i -> forall k, base <= k < base + RATIO g ->
    aget (ktable (krn w)) k = Some (Some (HPtr pg (k - base)))) ->
  exists kt,
    match (if i =? base then Some (HPtr pg 0) else None) with
    | Some p => for_range i (i + RATIO g) (fun k => set_ktable k (Some (HPtr (h_page p) (k - i)))) w
    | None => match aget (ktable (krn w)) i with
              | Some (Some _) => Ret (tt, w) | Some None => Hang | None => Fault OutOfBounds end
    end = Ret (tt, with_krn (put_ktable kt) w) /\
    Z.of_nat (length kt) = CPU_NUM_LIMIT /\
    (forall k, aget kt k = if decide (base <= k < base + RATIO g) then Some (Some (HPtr pg (k - base)))
                           else aget (ktable (krn w)) k).
Proof.
  intros Hpre Hi Hkt. pose proof (io_set _ _ _ Hok) as Hset.
  pose proof (co_ratio _ _ (io_cfg _ _ _ Hok)) as Hr. pose proof (ip_ktable _ _ _ Hpre) as Hlen.
  destruct (Z.eqb_spec i base) as [->|Hne].
  - destruct (set_ktables_run w pg base (RATIO g)) as (kt & Hrun & Hl & Hk); [nia..|].
    exists kt. split; [exact Hrun|]. split; [lia|done].
  - exists (ktable (krn w)). rewrite (Hkt ltac:(lia) i Hi). split_and!; [by destruct w as [? [] ? ?]|done|].
    intros k. case_decide; [by apply Hkt; lia|done].
Qed.

(** The state after ring [i] has been set up. *)
Definition ring_done (w : world) (i rg : Z) (hp : hptr) (ut : list (option hptr)) (k' : module_t)
    (h : esca_table_t) (es : list esca_table_entry_t) : world :=
  with_krn (fun _ => k') (put_header hp h (put_entries rg es
    (with_mem (fun m => put_regions (<[next_page m := new_region (next_page m)]> (regions m))
                          (put_next (next_page m + 1) m))
       (with_usr (put_utable ut) w)))).

Lemma init_ring_run pg i w :
  init_at pg i w -> base <= i < base + RATIO g ->
  exists k' h h' es' l kt,
    let hp := HPtr pg (i - base) in
    let rg := next_page (mem w) in
    init_ring E idx i (if i =? base then Some (HPtr pg 0) else None) w
      = Ret (true, ring_done w i rg hp (<[Z.to_nat i := Some hp]> (utable (usr w))) k'
                     (set_user_tables l h') es') /\
    hdr_lookup hp (mem w) = Some h /\
    Z.of_nat (length (tables h)) = TABLE_LEN_LIMIT /\
    Z.of_nat (length (user_tables h)) = TABLE_LEN_LIMIT /\
    registered i kt (krn w) k' /\ Z.of_nat (length kt) = CPU_NUM_LIMIT /\
    (forall k, aget kt k = if decide (base <= k < base + RATIO g) then Some (Some (HPtr pg (k - base)))
                           else aget (ktable (krn w)) k) /\
    fresh_header g rg h h' /\ cleared E g (new_region rg) es' MTL 0 /\
    filled (fun j => Some (UPtr rg (j * MTE))) (user_tables h') l MTL.
Proof.
  intros [Hpre Hnext Hbase Hhdr Hkern Hdone] Hi. pose proof (io_cfg _ _ _ Hok) as Hg.
  pose proof (io_set _ _ _ Hok) as Hset. pose proof (co_len _ _ Hg) as HL.
  pose proof (io_len _ _ _ Hok) as HLL. pose proof Hpre as [P1 P2 P3 P4 P5 P6 P7 P8 P9].
  set (hp := HPtr pg (i - base)). set (rg := next_page (mem w)).
  assert (0 <= base) as Hb0 by (pose proof (co_ratio _ _ Hg); nia).
  destruct (Hhdr (i - base)) as (h & Hh & Hht & Hhu); [lia|].
  set (ut := <[Z.to_nat i := Some hp]> (utable (usr w))).
  set (w1 := with_usr (put_utable ut) w).
  set (w2 := with_mem (fun m => put_regions (<[next_page m := new_region (next_page m)]> (regions m))
                          (put_next (next_page m + 1) m)) w1).
  assert (init_pre E g w2) as Hpre2.
  { constructor; try done. change (Z.of_nat (length ut) = CPU_NUM_LIMIT).
    unfold ut. by rewrite length_insert. }
  destruct (register_header_run pg i w2 Hpre2 Hi Hkern) as (kt & Hhead & Hktl & Hkt).
  destruct (register_run E g Hg w2 (if i =? base then Some (HPtr pg 0) else None) rg i kt hp h
              (new_region rg)) as (k' & h' & es' & Hrun & Hreg & Hfh & Hcl); try done.
  { unfold INT_MIN, INT_MAX, CPU_NUM_LIMIT in *; lia. }
  { simpl. lia. }
  { simpl. lia. }
  { by rewrite Hkt, decide_True. }
  { lia. }
  { simpl. by rewrite lookup_insert_eq. }
  { apply new_region_len. }
  { apply new_region_args. }
  set (w3 := with_krn _ _) in Hrun.
  assert (hdr_lookup hp (mem w3) = Some h') as Hh3.
  { apply (hdr_lookup_put hp h' h (put_entries rg es' w2)). exact Hh. }
  destruct (map_user_tables_run w3 i hp h' rg MTE MTL) as (l & Hmap & Hl); try done.
  { rewrite (fh_user _ _ _ _ Hfh). lia. }
  { simpl. unfold ut. apply aget_insert_eq. lia. }
  exists k', h, h', es', l, kt. split; [|done].
  unfold init_ring. unfold u_cfg, gets, bind at 1. rewrite P1. unfold bind at 1, get. rewrite Hbase.
  unfold from_option_M, hptr_add. rewrite !bind_ret_l. cbn [h_page h_off].
  rewrite Z.add_0_l. fold hp. mrun (set_utable_run w i (Some hp) ltac:(lia)). fold ut w1.
  mrun (alloc_tables_run w1 P4 P3). fold w2. change (next_page (mem w1)) with rg.
  unfold syscall_register, dispatch.
  rewrite (bind_eq _ _ w2 tt w3).
  2: { unfold bind, gets. change (krn w2) with (krn w). rewrite P5. by rewrite Hrun. }
  mrun Hmap. unfold ret, w3. rewrite put_header_krn, put_header_twice. reflexivity.
Qed.

(** What else the set-up of the rings leaves alone: the pages allocated before
    [pg] and the rings of other sets. *)
Record init_frame (pg : Z) (w w' : world) : Prop := {
  if_seg : in_segment (usr w') = in_segment (usr w);
  if_batch : batch_num (usr w') = batch_num (usr w);
  if_id : this_worker_id (usr w') = this_worker_id (usr w);
  if_hooks : syscall_table (krn w') = syscall_table (krn w);
  if_log : executed (krn w') = executed (krn w);
  if_headers : forall hp, h_page hp < pg -> hdr_lookup hp (mem w') = hdr_lookup hp (mem w);
  if_regions : forall rg, rg < pg -> regions (mem w') !! rg = regions (mem w) !! rg;
  if_kernel : forall k, ~ base <= k < base + RATIO g -> aget (ktable (krn w')) k = aget (ktable (krn w)) k
}.

#[local] Instance init_frame_trans pg : Transitive (init_frame pg).
Proof.
  intros w1 w2 w3 [A1 A2 A3 A4 A5 A6 A7 A8] [B1 B2 B3 B4 B5 B6 B7 B8]. constructor; try congruence.
  - intros hp Hp. by rewrite B6, A6.
  - intros rg Hr. by rewrite B7, A7.
  - intros k Hk. by rewrite B8, A8.
Qed.

Lemma init_table_step pg i w :
  init_at pg i w -> base <= i < base + RATIO g ->
  exists w', init_ring E idx i (if i =? base then Some (HPtr pg 0) else None) w = Ret (true, w') /\
    init_at pg (i + 1) w' /\ init_frame pg w w'.
Proof.
  intros Hat Hi. pose proof (io_cfg _ _ _ Hok) as Hg. pose proof (io_set _ _ _ Hok) as Hset.
  destruct (init_ring_run pg i w Hat Hi)
    as (k' & h & h' & es' & l & kt & Hrun & Hh & Hht & Hhu & Hreg & Hktl & Hkt & Hfh & Hcl & Hl).
  destruct Hat as [Hpre Hnext Hbase Hhdr Hkern Hdone]. pose proof Hpre as [P1 P2 P3 P4 P5 P6 P7 P8 P9].
  set (hp := HPtr pg (i - base)) in *. set (rg := next_page (mem w)) in *.
  set (h'' := set_user_tables l h') in *. set (ut := <[Z.to_nat i := Some hp]> (utable (usr w))) in *.
  assert (0 <= base) as Hb0 by (pose proof (co_ratio _ _ Hg); nia).
  set (w2 := with_mem (fun m => put_regions (<[next_page m := new_region (next_page m)]> (regions m))
                          (put_next (next_page m + 1) m)) (with_usr (put_utable ut) w)).
  eexists. split; [exact Hrun|]. set (w' := ring_done _ _ _ _ _ _ _ _).
  assert (hdr_lookup hp (mem w') = Some h'') as Hh'.
  { apply (hdr_lookup_put hp h'' h (put_entries rg es' w2)). exact Hh. }
  assert (forall q, q <> hp -> hdr_lookup q (mem w') = hdr_lookup q (mem w)) as Hho.
  { intros q Hq. exact (hdr_lookup_put_ne hp q h'' h (put_entries rg es' w2) Hh Hq). }
  assert (regions (mem w') = <[rg := es']> (<[rg := new_region rg]> (regions (mem w)))) as Hrg.
  { exact (regions_put_header hp h'' (put_entries rg es' w2)). }
  assert (next_page (mem w') = rg + 1) as Hnp.
  { exact (next_put_header hp h'' (put_entries rg es' w2)). }
  destruct (fresh_ring E g Hg rg h h' (new_region rg) es' l Hfh Hl Hcl (new_region_len rg))
    as (Hwf & Hst & Hpend).
  assert (forall k, aget ut k = if decide (k = i) then Some (Some hp) else aget (utable (usr w)) k) as Hut.
  { intros k. assert (aset (utable (usr w)) i (Some hp) = Some ut) as Hs by (apply aset_in_range; lia).
    destruct (decide (k = i)) as [->|Hne]; [by eapply aget_aset_eq|by eapply aget_aset_ne]. }
  split.
  2: { constructor; try done; try apply Hreg.
    - intros q Hq. apply Hho. intros ->. simpl in Hq. lia.
    - intros r Hr. rewrite Hrg, !lookup_insert_ne by lia. done.
    - intros k Hk. simpl. rewrite (rg_table _ _ _ _ Hreg), Hkt. by rewrite decide_False. }
  constructor.
  - destruct Hreg as [R1 R2 R3 R4 R5 R6]. constructor; simpl; try done; try congruence.
    + unfold ut. by rewrite length_insert.
    + rewrite (proj2 R3). done.
    + rewrite (proj2 R4). done.
  - rewrite Hnp. unfold rg. lia.
  - simpl. rewrite Hut. case_decide; [|done]. unfold hp. do 3 f_equal. lia.
  - intros o Ho. destruct (decide (HPtr pg o = hp)) as [->|Hne].
    + exists h''. split; [done|]. simpl. rewrite (proj1 Hl), (proj1 (fh_tables _ _ _ _ Hfh)).
      by rewrite (fh_user _ _ _ _ Hfh).
    + destruct (Hhdr o Ho) as (h0 & Hh0 & Hrest). exists h0. by rewrite Hho.
  - intros _ k Hk. simpl. rewrite (rg_table _ _ _ _ Hreg), Hkt. by rewrite decide_True.
  - intros k Hk. destruct (decide (k = i)) as [->|Hne].
    + assert (pg + 1 + (i - base) = rg) as Hr by (unfold rg; lia).
      constructor. exists h'', es'. unfold layout; simpl. rewrite Hr. split; [|done].
      constructor.
      * simpl. rewrite Hut. by rewrite decide_True.
      * simpl. rewrite (rg_table _ _ _ _ Hreg), Hkt. by rewrite decide_True.
      * done.
      * rewrite Hrg. apply lookup_insert_eq.
    + destruct (Hdone k ltac:(lia)) as [(h0 & es0 & [Ru Rk Rh Re] & Hrest)].
      constructor. exists h0, es0. split; [|done]. unfold layout in Ru, Rk, Rh, Re |- *; simpl in Ru, Rk, Rh, Re |- *.
      constructor.
      * simpl. rewrite Hut. by rewrite decide_False.
      * simpl. rewrite (rg_table _ _ _ _ Hreg), Hkt. by rewrite decide_True by lia.
      * rewrite Hho; [done|]. intros [=]. lia.
      * rewrite Hrg. rewrite !lookup_insert_ne by (unfold rg; lia). done.
Qed.

(** The page of headers, allocated in the first iteration. *)
Lemma first_header_run w :
  init_pre E g w ->
  exists w', (let! p := alloc_headers E in do! set_utable base p in ret p) w
      = Ret (Some (HPtr (next_page (mem w)) 0), w') /\
    init_at (next_page (mem w)) base w' /\ init_frame (next_page (mem w)) w w'.
Proof.
  intros [P1 P2 P3 P4 P5 P6 P7 P8 P9]. pose proof (io_set _ _ _ Hok) as Hset.
  pose proof (co_ratio _ _ (io_cfg _ _ _ Hok)) as Hr. pose proof (io_page _ _ _ Hok) as Hpg.
  set (pg := next_page (mem w)). assert (0 <= base < CPU_NUM_LIMIT) as Hb by nia.
  set (hdrs := map (junk_table E pg) (seq 0 (Z.to_nat (hpp ps)))).
  set (w1 := with_mem (fun m => put_hpages (<[pg := hdrs]> (hpages m)) (put_next (pg + 1) m)) w).
  rewrite (bind_eq _ _ w (Some (HPtr pg 0)) w1).
  2: { unfold alloc_headers, alloc_result, bind at 1. rewrite P4. unfold bind at 1, get, fresh_page.
       rewrite P3. done. }
  mrun (set_utable_run w1 base (Some (HPtr pg 0)) ltac:(simpl; lia)). unfold ret.
  set (w2 := with_usr _ w1). exists w2. split; [done|]. split.
  2: { constructor; try done. intros q Hq. unfold hdr_lookup; simpl. by rewrite lookup_insert_ne by (unfold pg; lia). }
  constructor.
  - constructor; try done. simpl. by rewrite length_insert.
  - simpl. lia.
  - simpl. apply aget_insert_eq. lia.
  - intros o Ho. exists (junk_table E pg (Z.to_nat o)). split; [|apply (io_table _ _ _ Hok)].
    unfold hdr_lookup; simpl. rewrite lookup_insert_eq; simpl. unfold aget.
    destruct (Z.ltb_spec o 0); [lia|]. unfold hdrs.
    rewrite list_lookup_fmap, lookup_seq_lt by lia. done.
  - lia.
  - lia.
Qed.

Lemma init_table_run pg i w :
  base < i < base + RATIO g -> init_at pg i w ->
  exists w', init_table E idx i w = Ret (true, w') /\ init_at pg (i + 1) w' /\ init_frame pg w w'.
Proof.
  intros Hi Hat. destruct (init_table_step pg i w Hat ltac:(lia)) as (w' & Hrun & Hrest).
  exists w'. split; [|done]. unfold init_table, u_cfg, gets, bind at 1.
  rewrite (ip_user _ _ _ (ia_pre _ _ _ Hat)). destruct (Z.eqb_spec i base); [lia|].
  by rewrite bind_ret_l.
Qed.

Lemma init_table_first w :
  init_pre E g w ->
  exists w', init_table E idx base w = Ret (true, w') /\
    init_at (next_page (mem w)) (base + 1) w' /\ init_frame (next_page (mem w)) w w'.
Proof.
  intros Hpre. pose proof (co_ratio _ _ (io_cfg _ _ _ Hok)) as Hr.
  destruct (first_header_run w Hpre) as (w1 & Hrun1 & Hat & Hf1).
  destruct (init_table_step _ base w1 Hat ltac:(lia)) as (w' & Hrun & Hat' & Hf).
  exists w'. split; [|split; [done|by transitivity w1]].
  unfold init_table, u_cfg, gets, bind at 1. rewrite (ip_user _ _ _ Hpre), Z.eqb_refl in *.
  by mrun Hrun1.
Qed.

Lemma init_tables_run pg n : forall i w,
  base < i -> i + Z.of_nat n = base + RATIO g -> init_at pg i w ->
  exists w', init_tables E n idx i w = Ret (true, w') /\
    init_at pg (base + RATIO g) w' /\ init_frame pg w w'.
Proof.
  induction n as [|n IH]; intros i w Hi Hn Hat; simpl.
  - exists w. replace (base + RATIO g) with i by lia. split; [done|]. split; [done|by constructor].
  - destruct (init_table_run pg i w ltac:(lia) Hat) as (w1 & Hrun & Hat1 & Hf1).
    destruct (IH (i + 1) w1 ltac:(lia) ltac:(lia) Hat1) as (w' & Hrun' & Hat' & Hf').
    exists w'. split; [by mrun Hrun|]. split; [done|by transitivity w1].
Qed.

Lemma init_at_set_ok pg w :
  init_at pg (base + RATIO g) w -> this_worker_id (usr w) = idx ->
  set_ok E g w (layout pg) (fun _ => []).
Proof.
  intros [[P1 P2 P3 P4 P5 P6 P7 P8 P9] Hnext Hbase Hhdr Hkern Hdone] Hid.
  constructor; rewrite ?Hid; try done.
  - apply Hok.
  - apply Hok.
  - intros k k' _ _ Hne. unfold layout; simpl. split; [intros [=]|]; lia.
  - unfold in_set. rewrite Hid, P1. apply Hdone.
Qed.
End init_worker.

(** [malloc]s of the pools touch nothing the rings depend on. *)
Lemma set_ok_pools E g w lay q :
  set_ok E g w lay q -> forall w', init_pools E w = Ret (tt, w') -> set_ok E g w' lay q.
Proof.
  intros [H1 H2 H3 H4 H5 H6 H7] w' [= <-]. constructor; try done.
  intros k Hk. destruct (H7 k Hk) as [(h & es & Hr & Hrest)]. constructor. exists h, es.
  split; [|done]. by destruct Hr.
Qed.

(** The module and the memory after [init_worker]: other sets of rings are as
    before, and the process could be set up again. *)
Record init_rest (E : env) (g : globals) (idx : Z) (w w' : world) : Prop := {
  ir_pre : init_pre E g w';
  ir_next : next_page (mem w') = next_page (mem w) + 1 + RATIO g;
  ir_headers : forall hp, h_page hp < next_page (mem w) -> hdr_lookup hp (mem w') = hdr_lookup hp (mem w);
  ir_regions : forall rg, rg < next_page (mem w) -> regions (mem w') !! rg = regions (mem w) !! rg;
  ir_kernel : forall k, ~ idx * RATIO g <= k < idx * RATIO g + RATIO g ->
    aget (ktable (krn w')) k = aget (ktable (krn w)) k
}.

Lemma init_worker_run_rest E g idx w :
  init_ok E g idx -> init_pre E g w -> idx < MAX_USR_WORKER g ->
  exists w', init_worker E idx w = Ret (tt, w') /\
    set_ok E g w' (layout g idx (next_page (mem w))) (fun _ => []) /\
    (in_segment (usr w') = 0 /\ batch_num (usr w') = 0 /\ this_worker_id (usr w') = idx /\
     executed (krn w') = executed (krn w) /\ syscall_table (krn w') = syscall_table (krn w)) /\
    init_rest E g idx w w'.
Proof.
  intros Hok Hpre Hidx. pose proof (co_ratio _ _ (io_cfg _ _ _ Hok)) as Hr.
  set (w0 := with_usr (fun u =>
          put_worker_id idx (put_syscall_num 0 (put_batch_num 0 (put_in_segment 0 u)))) w).
  assert (init_pre E g w0) as Hpre0 by (destruct Hpre; by constructor).
  destruct (init_table_first E g idx Hok w0 Hpre0) as (w1 & Hrun1 & Hat1 & Hf1).
  destruct (init_tables_run E g idx Hok (next_page (mem w)) (Z.to_nat (RATIO g) - 1)
              (idx * RATIO g + 1) w1 ltac:(lia) ltac:(lia) Hat1) as (w2 & Hrun2 & Hat2 & Hf2).
  pose proof Hf2 as [B1 B2 B3 B4 B5 B6 B7 B8]. destruct Hf1 as [A1 A2 A3 A4 A5 A6 A7 A8].
  pose proof (init_at_set_ok E g idx Hok _ w2 Hat2 ltac:(by rewrite B3, A3)) as Hs2.
  unfold init_worker. rewrite (bind_eq (modify _) _ w tt w0) by done.
  unfold u_cfg, gets, bind at 1. rewrite (ip_user _ _ _ Hpre0).
  destruct (Z.leb_spec (MAX_USR_WORKER g) idx); [lia|].
  rewrite (bind_eq _ _ w0 true w2).
  2: { replace (Z.to_nat (RATIO g)) with (S (Z.to_nat (RATIO g) - 1)) by lia.
       simpl init_tables. by mrun Hrun1. }
  eexists. split; [reflexivity|]. split; [by eapply set_ok_pools|].
  simpl in A1, A2, A3, A4, A5 |- *. split; [split_and!; congruence|].
  pose proof (ia_pre _ _ _ _ _ _ Hat2) as []. constructor; [by constructor|..]; simpl.
  - rewrite (ia_next _ _ _ _ _ _ Hat2). lia.
  - intros hp Hp. rewrite B6 by done. by apply A6.
  - intros rg Hg. rewrite B7 by done. by apply A7.
  - intros k Hk. rewrite B8 by done. by apply A8.
Qed.

Lemma init_worker_run E g idx w :
  init_ok E g idx -> init_pre E g w -> idx < MAX_USR_WORKER g ->
  exists w', init_worker E idx w = Ret (tt, w') /\
    set_ok E g w' (layout g idx (next_page (mem w))) (fun _ => []) /\
    in_segment (usr w') = 0 /\ batch_num (usr w') = 0 /\ this_worker_id (usr w') = idx /\
    executed (krn w') = executed (krn w) /\ syscall_table (krn w') = syscall_table (krn w).
Proof.
  intros H1 H2 H3. destruct (init_worker_run_rest E g idx w H1 H2 H3) as (w' & Hr & Hs & Hrest & _).
  by exists w'.
Qed.

(** C5: with the module loaded and a configuration both sides agree on,
    [init_worker(idx)] returns, and every ring of the worker's set is
    well formed and empty: the process and the module point to the same header,
    see the same entries, and every entry is marked empty. *)
Theorem init_worker_ready E g idx w :
  init_ok E g idx -> init_pre E g w -> idx < MAX_USR_WORKER g ->
  exists w', init_worker E idx w = Ret (tt, w') /\
    set_ok E g w' (layout g idx (next_page (mem w))) (fun _ => []) /\
    in_segment (usr w') = 0 /\ batch_num (usr w') = 0 /\ this_worker_id (usr w') = idx /\
    executed (krn w') = executed (krn w) /\ syscall_table (krn w') = syscall_table (krn w).
Proof. apply init_worker_run. Qed.
