(* ===== verification/Session.v ===== *)
(** * A session of a user worker

    [batch_start] and [batch_flush] around a batch, and the whole life of a
    worker process: [init_worker], then a segment whose calls are deferred to
    the kernel workers. *)
From stdpp Require Import base numbers list gmap.
From S2P Require Import Prelude Esca Ring IndirectCall Request World Kernel Preload Wrappers Rings Submit WrapperProps WorkerProps Batch Init.

(** ** Flags *)

Lemma to_uint_testbit x n : 0 <= n < 32 -> Z.testbit (to_uint x) n = Z.testbit x n.
Proof. intros Hn. unfold to_uint, wrap_u. apply Z.mod_pow2_bits_low. lia. Qed.

Lemma set_flags_start h :
  Z.land (flags (set_flags (Z.lor (flags h) ESCA_START_WAKEUP) h)) ESCA_START_WAKEUP <> 0.
Proof.
  intros H. assert (Z.testbit (Z.land (to_uint (Z.lor (flags h) ESCA_START_WAKEUP)) ESCA_START_WAKEUP)
                      (Z.log2 ESCA_START_WAKEUP) = true) as Hb.
  { rewrite Z.land_spec, to_uint_testbit by (unfold ESCA_START_WAKEUP; simpl; lia).
    rewrite Z.lor_spec. change (Z.testbit ESCA_START_WAKEUP (Z.log2 ESCA_START_WAKEUP)) with true.
    by rewrite orb_true_r. }
  simpl in H. by rewrite H in Hb.
Qed.

(** The rings depend on the memory, the module and a few globals only. *)
Lemma set_ok_same E g w lay q w' :
  set_ok E g w lay q -> krn w' = krn w -> mem w' = mem w -> utable (usr w') = utable (usr w) ->
  ucfg (usr w') = ucfg (usr w) -> this_worker_id (usr w') = this_worker_id (usr w) ->
  set_ok E g w' lay q.
Proof.
  intros [H1 H2 H3 H4 H5 H6 H7] Hk Hm E3 E1 E2.
  assert (forall k, in_set w' k <-> in_set w k) as Hin by (intros k; by apply in_set_ext).
  constructor; rewrite ?E1, ?E2, ?Hk; try done.
  - intros k k' Hi Hi'. rewrite Hin in Hi, Hi'. by apply H6.
  - intros k Hi. rewrite Hin in Hi. destruct (H7 k Hi) as [(h & es & [Ru Rk Rh Re] & Hrest)].
    constructor. exists h, es. split; [|done]. constructor; by rewrite ?E3, ?Hk, ?Hm.
Qed.

(** Headers that differ in the flags only are the same ring. *)
Lemma queue_at_flags E g w k hp rg q h f w0 :
  queue_at E g w k hp rg q -> hdr_lookup hp (mem w) = Some h ->
  w0 = put_header hp (set_flags f h) w -> queue_at E g w0 k hp rg q.
Proof.
  intros [(h' & es & Hr & Hw & Hs & Hp)] Hh ->. assert (h' = h) as -> by (pose proof (ra_hdr _ _ _ _ _ _ Hr); congruence).
  constructor. exists (set_flags f h), es. split; [by eapply ring_at_put_header|].
  split; [|done]. eapply ring_wf_header; try done; apply Hw.
Qed.

Lemma set_ok_flags E g w lay q k h f :
  set_ok E g w lay q -> in_set w k -> hdr_lookup (lay k).1 (mem w) = Some h ->
  set_ok E g (put_header (lay k).1 (set_flags f h) w) lay q.
Proof.
  intros [H1 H2 H3 H4 H5 H6 H7] Hk Hh. constructor; try done. intros k' Hk'.
  destruct (decide (k' = k)) as [->|Hne]; [by eapply queue_at_flags; [by apply H7| |]|].
  destruct (H6 k' k Hk' Hk Hne). destruct (H7 k' Hk') as [(h' & es & Hr & Hrest)].
  constructor. exists h', es. split; [|done]. by eapply ring_at_put_header_ne.
Qed.

Lemma set_ok_header E g w lay q k :
  set_ok E g w lay q -> in_set w k ->
  exists h, hdr_lookup (lay k).1 (mem w) = Some h /\
    aget (utable (usr w)) k = Some (Some (lay k).1) /\ aget (ktable (krn w)) k = Some (Some (lay k).1).
Proof.
  intros Hs Hk. destruct (so_queue _ _ _ _ _ Hs k Hk) as [(h & es & [Hu Hkk Hh He] & _)]. by exists h.
Qed.

(** Logging a wake-up does not concern the rings. *)
Lemma set_ok_wakeup E g w lay q i : set_ok E g w lay q -> set_ok E g (with_krn (log_wakeup i) w) lay q.
Proof.
  intros [H1 H2 H3 H4 H5 H6 H7]. constructor; try done. intros k Hk.
  destruct (H7 k Hk) as [(h & es & Hr & Hrest)]. constructor. exists h, es. split; [|done].
  by destruct Hr.
Qed.

(** Nor does entering or leaving the segment. *)
Lemma set_ok_segment E g w lay q v : set_ok E g w lay q -> set_ok E g (with_usr (put_in_segment v) w) lay q.
Proof. intros Hs. by eapply set_ok_same. Qed.

(** ** batch_start *)
Section start.
Context (E : env) (g : globals) (lay : Z -> hptr * Z).

(** The worker of ring [k] has asked to be woken up. *)
Definition asleep (w : world) (k : Z) : bool :=
  match hdr_lookup (lay k).1 (mem w) with
  | Some h => negb (Z.land (flags h) ESCA_WORKER_NEED_WAKEUP =? 0)
  | None => false
  end.

(** [batch_start] writes the flags of the headers of the set and the log of
    wake-ups. *)
Record start_frame (w w' : world) : Prop := {
  sf_regions : regions (mem w') = regions (mem w);
  sf_next : next_page (mem w') = next_page (mem w);
  sf_allocs : allocs w' = allocs w;
  sf_cfg : kcfg (krn w') = kcfg (krn w);
  sf_ktable : ktable (krn w') = ktable (krn w);
  sf_sub : submitted (krn w') = submitted (krn w);
  sf_task : worker_task (krn w') = worker_task (krn w);
  sf_headers : forall hp, (forall k, in_set w k -> hp <> (lay k).1) -> hdr_lookup hp (mem w') = hdr_lookup hp (mem w)
}.

Lemma start_frame_trans w1 w2 w3 :
  usr w2 = usr w1 -> start_frame w1 w2 -> start_frame w2 w3 -> start_frame w1 w3.
Proof.
  intros Hu [A1 A2 A3 A4 A5 A6 A7 A8] [B1 B2 B3 B4 B5 B6 B7 B8]. constructor; try congruence.
  intros hp Hp. rewrite B8, A8; [done..|]. intros k Hk. apply Hp. unfold in_set in *. by rewrite Hu in Hk.
Qed.

Lemma start_one_run w q k :
  set_ok E g w lay q -> in_set w k ->
  syscall_table (krn w) !! __NR_esca_wakeup = Some H_wakeup ->
  exists w', start_one k w = Ret (tt, w') /\ set_ok E g w' lay q /\ usr w' = usr w /\
    executed (krn w') = executed (krn w) /\ syscall_table (krn w') = syscall_table (krn w) /\
    wakeups (krn w') = wakeups (krn w) ++ (if asleep w k then [k] else []) /\
    (forall hp, hp <> (lay k).1 -> hdr_lookup hp (mem w') = hdr_lookup hp (mem w)) /\ start_frame w w'.
Proof.
  intros Hs Hk Hhook. destruct (set_ok_header _ _ _ _ _ _ Hs Hk) as (h & Hh & Hu & Hkk).
  assert (u_header k w = Ret ((lay k).1, w)) as Huh by (unfold u_header, bind, get; by rewrite Hu).
  unfold asleep. rewrite Hh. unfold start_one.
  rewrite (bind_eq _ _ w h w) by (unfold u_load_hdr; mrun Huh; by apply load_hdr_spec).
  destruct (negb _).
  2: { exists w. rewrite app_nil_r. done. }
  set (h1 := set_flags (Z.lor (flags h) ESCA_START_WAKEUP) h).
  set (w1 := put_header (lay k).1 h1 w).
  rewrite (bind_eq _ _ w tt w1) by (unfold u_update_hdr; mrun Huh; by rewrite (update_hdr_spec _ _ h w Hh)).
  assert (hdr_lookup (lay k).1 (mem w1) = Some h1) as Hh1 by (by eapply hdr_lookup_put).
  set (w2 := with_krn (log_wakeup k) w1).
  assert (to_int k = k) as Hint.
  { apply to_int_id. pose proof (so_range _ _ _ _ _ Hs). pose proof (co_ratio _ _ (so_cfg _ _ _ _ _ Hs)).
    unfold in_set in Hk. rewrite (so_user _ _ _ _ _ Hs) in Hk. unfold INT_MIN, INT_MAX, CPU_NUM_LIMIT in *. nia. }
  rewrite (bind_eq _ _ w1 tt w2).
  2: { unfold syscall_wakeup, dispatch, bind at 1, gets. change (krn w1) with (krn w). rewrite Hhook.
       unfold sys_esca_wakeup. rewrite Hint. unfold k_header, bind at 1, bind at 1, get.
       change (krn w1) with (krn w). rewrite Hkk. unfold deref, ret. mrun (load_hdr_spec _ _ _ Hh1).
       destruct (Z.eqb_spec (Z.land (flags h1) ESCA_START_WAKEUP) 0) as [H0|H0]; [|done].
       by apply set_flags_start in H0. }
  set (h2 := set_flags (Z.ldiff (flags h1) ESCA_START_WAKEUP) h1).
  exists (put_header (lay k).1 h2 w2). split.
  { unfold u_update_hdr. rewrite (bind_eq _ _ w2 (lay k).1 w2)
      by (unfold u_header, bind, get; change (usr w2) with (usr w); by rewrite Hu).
    by rewrite (update_hdr_spec _ _ h1 w2 Hh1). }
  assert (forall hp, hp <> (lay k).1 ->
    hdr_lookup hp (mem (put_header (lay k).1 h2 w2)) = hdr_lookup hp (mem w)) as Hne.
  { intros hp Hne. rewrite (hdr_lookup_put_ne (lay k).1 hp h2 h1 w2) by done.
    by apply (hdr_lookup_put_ne (lay k).1 hp h1 h w). }
  split_and!; try done.
  - apply (set_ok_flags E g w2 lay q k h1); try done. apply set_ok_wakeup.
    by apply set_ok_flags.
  - constructor; try done.
    + rewrite regions_put_header. apply (regions_put_header (lay k).1 h1 w).
    + rewrite next_put_header. apply (next_put_header (lay k).1 h1 w).
    + intros hp Hp. by apply Hne, Hp.
Qed.

(** The loop of [batch_start] up to ring [i]. *)
Record started (w : world) (q : Z -> list call) (i : Z) (s : world) : Prop := {
  sd_set : set_ok E g s lay q;
  sd_usr : usr s = usr w;
  sd_log : executed (krn s) = executed (krn w);
  sd_hooks : syscall_table (krn s) = syscall_table (krn w);
  sd_wake : wakeups (krn s) = wakeups (krn w)
    ++ filter (fun k => asleep w k) (map (fun m => this_worker_id (usr w) * RATIO g + Z.of_nat m)
                (seq 0 (Z.to_nat (i - this_worker_id (usr w) * RATIO g))));
  sd_rest : forall k, in_set w k -> i <= k ->
    hdr_lookup (lay k).1 (mem s) = hdr_lookup (lay k).1 (mem w);
  sd_frame : start_frame w s
}.

Lemma started_step w q i s :
  started w q i s -> in_set w i -> ucfg (usr w) = g ->
  syscall_table (krn w) !! __NR_esca_wakeup = Some H_wakeup ->
  exists s', start_one i s = Ret (tt, s') /\ started w q (i + 1) s'.
Proof.
  intros [S1 S2 S3 S4 S5 S6 S7] Hi Hc Hhook. pose proof Hi as Hi'. unfold in_set in Hi'. rewrite Hc in Hi'.
  assert (in_set s i) as His by (unfold in_set in *; by rewrite S2).
  destruct (start_one_run s q i S1 His ltac:(by rewrite S4))
    as (s' & Hrun & T1 & T2 & T3 & T4 & T5 & T6 & T7).
  exists s'. split; [done|]. constructor; try congruence.
  - rewrite T5, S5. rewrite <- app_assoc. f_equal.
    assert (asleep s i = asleep w i) as -> by (unfold asleep; by rewrite S6 by (done || lia)).
    replace (Z.to_nat (i + 1 - this_worker_id (usr w) * RATIO g))
      with (Z.to_nat (i - this_worker_id (usr w) * RATIO g) + 1)%nat by lia.
    rewrite seq_app, map_app, filter_app; simpl. f_equal.
    replace (this_worker_id (usr w) * RATIO g + Z.of_nat (Z.to_nat (i - this_worker_id (usr w) * RATIO g)))
      with i by lia.
    rewrite filter_cons, filter_nil. destruct (asleep w i); by case_decide.
  - intros k Hk Hle. rewrite T6; [apply S6; (done || lia)|].
    assert (k <> i) as Hne by lia.
    by destruct (so_inj _ _ _ _ _ S1 k i ltac:(unfold in_set in *; by rewrite S2) His Hne).
  - by eapply start_frame_trans.
Qed.

(** [batch_start] opens the segment and wakes exactly the workers of the set
    that asked for it; the queues are not touched. *)
Lemma batch_start_run_frame w q :
  set_ok E g w lay q -> syscall_table (krn w) !! __NR_esca_wakeup = Some H_wakeup ->
  exists w', batch_start w = Ret (0, w') /\ set_ok E g w' lay q /\
    (usr w' = put_in_segment 1 (usr w) /\ executed (krn w') = executed (krn w) /\
     syscall_table (krn w') = syscall_table (krn w) /\
     wakeups (krn w') = wakeups (krn w) ++ filter (fun k => asleep w k) (set_rings w)) /\ start_frame w w'.
Proof.
  intros Hs Hhook. pose proof (so_user _ _ _ _ _ Hs) as Hc.
  pose proof (co_ratio _ _ (so_cfg _ _ _ _ _ Hs)) as Hr.
  set (w0 := with_usr (put_in_segment 1) w). set (base := this_worker_id (usr w) * RATIO g).
  assert (set_ok E g w0 lay q) as Hs0 by (by apply set_ok_segment).
  destruct (for_range_inv (started w0 q) start_one base (base + RATIO g) w0)
    as (w' & Hrun & [S1 S2 S3 S4 S5 S6 S7]); [lia| | |].
  - constructor; try done. change (this_worker_id (usr w0) * RATIO g) with base.
    rewrite Z.sub_diag. simpl. by rewrite app_nil_r.
    all: by constructor.
  - intros k s Hk Hst. apply started_step; try done. unfold in_set. simpl. rewrite Hc. lia.
  - exists w'. split.
    { unfold batch_start. rewrite (bind_eq get _ w w w) by done.
      rewrite (bind_eq (modify _) _ w tt w0) by done.
      rewrite (bind_eq u_cfg _ w0 g w0) by (unfold u_cfg, gets; simpl; by rewrite Hc).
      by mrun Hrun. }
    split_and!; try done.
    + rewrite S5. simpl. do 2 f_equal. unfold set_rings. rewrite Hc.
      fold base. by replace (base + RATIO g - base) with (RATIO g) by lia.
    + by destruct S7.
Qed.

Lemma batch_start_run_set w q :
  set_ok E g w lay q -> syscall_table (krn w) !! __NR_esca_wakeup = Some H_wakeup ->
  exists w', batch_start w = Ret (0, w') /\ set_ok E g w' lay q /\
    usr w' = put_in_segment 1 (usr w) /\ executed (krn w') = executed (krn w) /\
    syscall_table (krn w') = syscall_table (krn w) /\
    wakeups (krn w') = wakeups (krn w) ++ filter (fun k => asleep w k) (set_rings w).
Proof.
  intros Hs Hh. destruct (batch_start_run_frame w q Hs Hh) as (w' & Hr & Hs' & Hrest & _). by exists w'.
Qed.
End start.

(** ** batch_flush *)
Lemma batch_flush_run w :
  0 <= this_worker_id (usr w) * RATIO (ucfg (usr w)) < CPU_NUM_LIMIT ->
  exists w', batch_flush w = Ret (0, w') /\ in_segment (usr w') = 0 /\ batch_num (usr w') = 0 /\
    krn w' = krn w /\ mem w' = mem w /\ utable (usr w') = utable (usr w) /\
    ucfg (usr w') = ucfg (usr w) /\ this_worker_id (usr w') = this_worker_id (usr w).
Proof.
  intros Hb. unfold batch_flush. rewrite (bind_eq (modify _) _ w tt (with_usr (put_in_segment 0) w)) by done.
  set (w0 := with_usr _ w). rewrite (bind_eq get _ w0 w0 w0) by done.
  change (batch_num (usr w0)) with (batch_num (usr w)).
  destruct (Z.eqb_spec (batch_num (usr w)) 0) as [H0|H0].
  - by exists w0.
  - exists (with_usr (put_batch_num 0) w0). split; [|done]. unfold syscall_wait, dispatch.
    rewrite (bind_eq _ _ w0 tt w0); [done|]. unfold bind, gets.
    destruct (syscall_table (krn w0) !! __NR_esca_wait) as [[]|]; try done.
    unfold sys_esca_wait. simpl. rewrite to_int_id by (unfold INT_MIN, INT_MAX, CPU_NUM_LIMIT in *; lia).
    by replace (_ && _) with true by (symmetry; rewrite andb_true_iff; lia).
Qed.

(** ** The whole session *)

(** The life of a user worker: registration, then one segment.  [ks] is the
    order in which the workers of the set come to make their passes. *)
Definition session (E : env) (idx : Z) (l : list (batched E)) (fuel : nat) (ks : list Z) : MW (list Z) :=
  do! init_worker E idx in
  do! batch_start in
  let! vs := run_batch l in
  do! run_passes E fuel ks in
  do! batch_flush in
  ret vs.

(** The calls for the ring [k] of user worker [idx]. *)
Definition calls_on (E : env) (g : globals) (idx : Z) (l : list (batched E)) (k : Z) : list call :=
  batch_calls E (filter (fun b => idx * RATIO g + Z.rem (b_fd b) (RATIO g) = k) l).

(** C3: a worker process registers its rings with the module, opens a segment,
    makes any calls of wrappers with an instance of [Submits] that fit the rings
    (for every ring fewer than it has entries), the kernel workers make
    their passes in any order, and the segment is closed: nothing faults or
    blocks, the calls return the values of successful calls, every request has
    been executed exactly once, and the requests of one descriptor have been
    executed in program order. *)
Theorem session_executes E g idx w (l : list (batched E)) fuel ks :
  init_ok E g idx -> init_pre E g w -> idx < MAX_USR_WORKER g ->
  syscall_table (krn w) !! __NR_esca_wakeup = Some H_wakeup ->
  Forall (fun b => 0 <= b_fd b) l -> Z.of_nat (length l) <= INT_MAX ->
  (forall k, Z.of_nat (length (calls_on E g idx l k)) < ring_size (MAX_TABLE_ENTRY g) (MAX_TABLE_LEN g)) ->
  ks ≡ₚ map (fun n => idx * RATIO g + Z.of_nat n) (seq 0 (Z.to_nat (RATIO g))) ->
  ring_size (MAX_TABLE_ENTRY g) (MAX_TABLE_LEN g) <= Z.of_nat fuel ->
  exists w', session E idx l fuel ks w = Ret (map b_val l, w') /\
    executed (krn w') = executed (krn w) ++ concat (map (calls_on E g idx l) ks) /\
    concat (map (calls_on E g idx l) ks) ≡ₚ batch_calls E l /\
    in_segment (usr w') = 0 /\ batch_num (usr w') = 0 /\
    exists lay, set_ok E g w' lay (fun _ => []).
Proof.
  intros Hok Hpre Hidx Hhook Hfds Hlen Hroom Hks Hfuel.
  destruct (init_worker_run E g idx w Hok Hpre Hidx) as (w1 & Hrun1 & Hs1 & Hseg1 & Hb1 & Hid1 & Hx1 & Hsys1).
  destruct (batch_start_run_set E g _ w1 _ Hs1 ltac:(by rewrite Hsys1))
    as (w2 & Hrun2 & Hs2 & Hu2 & Hx2 & Hsys2 & _).
  assert (ucfg (usr w2) = g) as Hc2 by apply Hs2.
  assert (this_worker_id (usr w2) = idx) as Hid2 by (by rewrite Hu2).
  assert (forall k, batch_calls E (batch_on E w2 k l) = calls_on E g idx l k) as Hon.
  { intros k. unfold calls_on, batch_on, ring_index. by rewrite Hc2, Hid2. }
  assert (set_rings w2 = map (fun n => idx * RATIO g + Z.of_nat n) (seq 0 (Z.to_nat (RATIO g)))) as Hrings.
  { unfold set_rings. by rewrite Hc2, Hid2. }
  destruct (batch_run E g w2 _ l fuel ks Hs2) as (w3 & w4 & Hrun3 & Hx3 & Hrun4 & Hs4 & Hu4 & Hcf4 & cs & Hx4 & -> & Hperm);
    [by rewrite Hu2| |by rewrite Hrings|done|].
  { constructor; [done|rewrite Hu2; simpl; lia|]. intros k _. specialize (Hroom k).
    rewrite <- Hon in Hroom. unfold batch_calls in Hroom. rewrite length_map in Hroom. simpl. lia. }
  destruct (batch_flush_run w4) as (w5 & Hrun5 & Hseg5 & Hb5 & Hk5 & Hm5 & Hut5 & Hcf5 & Hid5).
  { rewrite (so_user _ _ _ _ _ Hs4), Hu4, Hid2. pose proof (io_set _ _ _ Hok).
    pose proof (co_ratio _ _ (io_cfg _ _ _ Hok)). nia. }
  assert (concat (map (fun k => batch_calls E (batch_on E w2 k l)) ks)
          = concat (map (calls_on E g idx l) ks)) as Hcat by (f_equal; by apply map_ext).
  rewrite Hcat in *.
  exists w5. split; [|split; [|split; [done|split; [done|split; [done|]]]]].
  - unfold session. mrun Hrun1. mrun Hrun2. mrun Hrun3. mrun Hrun4. by mrun Hrun5.
  - rewrite Hk5, Hx4, Hx2, Hx1. done.
  - eexists. by eapply (set_ok_same E g w4).
Qed.
