(* ===== verification/Scenario.v ===== *)
(** * A concrete machine

    One user worker with two kernel workers, 4 KiB pages, one table of 64
    entries per ring.  The state after [init_worker(0)] and [batch_start()] is
    computed; the hypotheses of the theorems hold there. *)
From stdpp Require Import base numbers list gmap.
From S2P Require Import Prelude Esca Ring IndirectCall Request World Kernel Preload Wrappers Rings Submit WrapperProps WorkerProps Batch Init Session.

Definition env0 : env := {|
  e_arch := X86_64;
  page_size := 4096;
  junk_entry := fun _ _ => Entry 0 0 7 0 0 [9; 9; 9; 9; 9; 9];
  junk_table := fun _ _ => Table (replicate 30 None) (replicate 30 None) 3 5 7 9 0 0;
  msecs_to_jiffies := fun ms => ms / 4;
  sys := fun _ _ => 0;
  pool_addr := 1000000; iov_addr := 2000000000; msg_addr := 2000020000
|}.

Definition g0 : globals := Globals 1 64 1 1 2 2 150 0.

(** The process after [setup], the module after [lioo_init] and the
    configuration call. *)
Definition boot : world := {|
  usr := Preload 0 0 0 4096 0 g0 (replicate 100 None) 0 0 ∅ 0 0 ∅ 0 0 ∅ 5000000000;
  krn := Module_ g0 (replicate 100 None) (replicate 100 0) (replicate 100 false)
           (<[__NR_esca_register := H_register]> (<[__NR_esca_wakeup := H_wakeup]>
             (<[__NR_esca_wait := H_wait]> (<[__NR_esca_config := H_config]> ∅))))
           [] [] [];
  mem := Memory ∅ ∅ (<[500 := 104]> (<[501 := 105]> ∅)) 0;
  allocs := []
|}.

Definition state_of {A} (m : MW A) (w : world) : world :=
  match m w with Ret (_, w') => w' | _ => w end.

(** After [init_worker(0)], then in the segment. *)
Definition ready : world := Eval vm_compute in state_of (init_worker env0 0) boot.
Definition seg : world := Eval vm_compute in state_of batch_start ready.

Definition libc0 : libc := {|
  real_close := fun _ => ret 0; real_write := fun _ _ n => ret n;
  real_send := fun _ _ n _ => ret n; real_shutdown := fun _ _ => ret 0;
  real_sendfile := fun _ _ _ n => ret n; real_sendfile_offset := fun _ _ o n => ret (n, o + n);
  real_sendmsg := fun _ _ _ _ => ret 0
|}.

Definition header_of (w : world) (k : Z) : esca_table_t :=
  default (Table [] [] 0 0 0 0 0 0) (hdr_lookup (HPtr 0 k) (mem w)).
Definition entries_of (w : world) (k : Z) : list esca_table_entry_t :=
  default [] (regions (mem w) !! (k + 1)).

(** ** The hypotheses *)
Lemma cfg_ok0 : cfg_ok 4096 g0.
Proof. constructor; vm_compute; [split; congruence|done|done|by left|done]. Qed.

Lemma init_ok0 : init_ok env0 g0 0.
Proof. constructor; [apply cfg_ok0|vm_compute; congruence|vm_compute; split; congruence
  |vm_compute; congruence|done|done]. Qed.

Lemma init_pre0 : init_pre env0 g0 boot.
Proof. by constructor. Qed.

Lemma set_ok_ready : set_ok env0 g0 ready (layout g0 0 0) (fun _ => []).
Proof.
  destruct (init_worker_run env0 g0 0 boot init_ok0 init_pre0 eq_refl) as (w & Hrun & Hs & _).
  assert (init_worker env0 0 boot = Ret (tt, ready)) as Hr by (vm_compute; reflexivity).
  rewrite Hr in Hrun. injection Hrun as ->. exact Hs.
Qed.

Lemma set_ok_seg : set_ok env0 g0 seg (layout g0 0 0) (fun _ => []).
Proof.
  destruct (batch_start_run_set env0 g0 _ ready _ set_ok_ready eq_refl) as (w & Hrun & Hs & _).
  assert (batch_start ready = Ret (0, seg)) as Hr by (vm_compute; reflexivity).
  rewrite Hr in Hrun. injection Hrun as ->. exact Hs.
Qed.

(** A ring of the set, from the state itself. *)
Lemma ring_of_set w q k :
  set_ok env0 g0 w (layout g0 0 0) q -> in_set w k ->
  ring_at w k (HPtr 0 k) (k + 1) (header_of w k) (entries_of w k) /\
  ring_wf 4096 g0 (k + 1) (header_of w k) (entries_of w k) /\
  ring_status g0 (header_of w k) (entries_of w k).
Proof.
  intros Hs Hk. destruct (so_queue _ _ _ _ _ Hs k Hk) as [(h & es & Hr & Hw & Hst & _)].
  assert (layout g0 0 0 k = (HPtr 0 k, k + 1)) as Hl by (unfold layout; simpl RATIO; f_equal; [f_equal|]; lia).
  rewrite Hl in Hr, Hw. simpl in Hr, Hw.
  assert (header_of w k = h) as -> by (unfold header_of; by rewrite (ra_hdr _ _ _ _ _ _ Hr)).
  assert (entries_of w k = es) as -> by (unfold entries_of; by rewrite (ra_ent _ _ _ _ _ _ Hr)).
  done.
Qed.

Lemma can_submit_seg k :
  0 <= k < 2 -> can_submit env0 g0 seg k (HPtr 0 k) (k + 1) (header_of seg k) (entries_of seg k).
Proof.
  intros Hk. destruct (ring_of_set seg _ k set_ok_seg) as (Hr & Hw & _); [exact Hk|].
  constructor; try done; try (vm_compute; (done || (split; congruence))).
  - apply cfg_ok0.
  - assert (k = 0 \/ k = 1) as [->| ->] by lia; vm_compute; done.
Qed.
