(* ===== verification/Frame.v ===== *)
(** * What the library and the workers leave alone

    The user's memory and the system call table are not written by
    [batch_start], [batch_flush], a deferred [send] and the passes of the
    workers.  [keeps] is closed under the monad; the tactic [frame] walks through
    a function and the hint database [frame] holds what is proved. *)
From stdpp Require Import base numbers list gmap.
From S2P Require Import Prelude Esca Ring IndirectCall Request World Kernel Preload Wrappers Batch.

Definition frame_of (w : world) : gmap Z Z * gmap Z handler := (heap (mem w), syscall_table (krn w)).

Definition keeps {A} (m : MW A) : Prop := forall w x w', m w = Ret (x, w') -> frame_of w' = frame_of w.

Create HintDb frame.

Section combinators.
Context {A B : Type}.

Lemma keeps_bind (m : MW A) (k : A -> MW B) :
  keeps m -> (forall x, keeps (k x)) -> keeps (let! x := m in k x).
Proof.
  intros Hm Hk w y w' H. apply bind_inv in H as (x & w1 & H1 & H2).
  by rewrite (Hk _ _ _ _ H2), (Hm _ _ _ H1).
Qed.

Lemma keeps_ret (x : A) : keeps (ret x).
Proof. by intros w y w' [= _ <-]. Qed.
Lemma keeps_fail f : keeps (fail f : MW A).
Proof. done. Qed.
Lemma keeps_hang : keeps (hang : MW A).
Proof. done. Qed.
Lemma keeps_gets (f : world -> A) : keeps (gets f).
Proof. by intros w y w' [= _ <-]. Qed.
Lemma keeps_from_option f (o : option A) : keeps (from_option_M f o).
Proof. destruct o; [apply keeps_ret|apply keeps_fail]. Qed.
Lemma keeps_deref (o : option (option A)) : keeps (deref o).
Proof. destruct o as [[]|]; [apply keeps_ret|apply keeps_fail..]. Qed.
Lemma keeps_modify (f : world -> world) : (forall w, frame_of (f w) = frame_of w) -> keeps (modify f).
Proof. intros H w y w' [= _ <-]. apply H. Qed.
End combinators.

Lemma keeps_get : keeps get.
Proof. by intros w y w' [= _ <-]. Qed.
Lemma keeps_for_loop (body : Z -> MW unit) n : forall i, (forall k, keeps (body k)) -> keeps (for_loop n i body).
Proof. induction n as [|n IH]; intros i Hb; simpl; [apply keeps_ret|]. apply keeps_bind; auto. Qed.
Lemma keeps_for_range lo hi (body : Z -> MW unit) : (forall k, keeps (body k)) -> keeps (for_range lo hi body).
Proof. apply keeps_for_loop. Qed.
Lemma keeps_c_rem a b : keeps (c_rem a b).
Proof. unfold c_rem. destruct (_ =? 0); [apply keeps_fail|apply keeps_ret]. Qed.
Lemma keeps_int_result x : keeps (int_result x).
Proof. unfold int_result. destruct (in_int x); [apply keeps_ret|apply keeps_fail]. Qed.

#[export] Hint Resolve keeps_ret keeps_fail keeps_hang keeps_gets keeps_get keeps_from_option keeps_deref
  keeps_c_rem keeps_int_result : frame.

(** One function: binds, loops, branches and stores are opened, calls are in the
    database. *)
Ltac frame_step :=
  match goal with
  | |- keeps (bind _ _) => apply keeps_bind; [|intros]
  | |- keeps (for_range _ _ _) => apply keeps_for_range; intros
  | |- keeps (modify _) => apply keeps_modify; by intros []
  | |- keeps (if ?b then _ else _) => destruct b
  | |- keeps (match ?o with _ => _ end) => destruct o
  | |- keeps (let _ := _ in _) => cbv zeta
  | |- _ => solve [eauto with frame]
  end.
Ltac frame := intros; repeat frame_step.

(** ** Accesses *)
Lemma keeps_load_hdr p : keeps (load_hdr p).
Proof. unfold load_hdr. frame. Qed.

Lemma keeps_update_hdr p f : keeps (update_hdr p f).
Proof.
  intros w [] w' H. apply bind_inv in H as (h & w1 & H1 & H2).
  rewrite <- (keeps_load_hdr p w h w1 H1). unfold bind at 1, get in H2. unfold hdr_store in H2.
  destruct (hpages (mem w1) !! h_page p) as [l|]; simpl in H2; [|done].
  destruct (aset l (h_off p) (f h)); simpl in H2; [|done]. by injection H2 as <-.
Qed.

Lemma keeps_load_ent r n : keeps (load_ent r n).
Proof. unfold load_ent. frame. Qed.

Lemma keeps_update_ent r n f : keeps (update_ent r n f).
Proof.
  intros w [] w' H. apply bind_inv in H as (e & w1 & H1 & H2).
  rewrite <- (keeps_load_ent r n w e w1 H1). unfold bind at 1, get in H2. unfold ent_store in H2.
  destruct (regions (mem w1) !! r) as [l|]; simpl in H2; [|done].
  destruct (aset l n (f e)); simpl in H2; [|done]. by injection H2 as <-.
Qed.
#[export] Hint Resolve keeps_load_hdr keeps_update_hdr keeps_load_ent keeps_update_ent : frame.

(** ** The workers *)
Section kernel.
Context (E : env).

Lemma keeps_k_header id : keeps (k_header id).
Proof. unfold k_header. frame. Qed.
Local Hint Resolve keeps_k_header : frame.
Lemma keeps_k_entry id i j : keeps (k_entry E id i j).
Proof. unfold k_entry. frame. Qed.
Local Hint Resolve keeps_k_entry : frame.
Lemma keeps_k_load id i j : keeps (k_load E id i j).
Proof. unfold k_load. frame. Qed.
Lemma keeps_k_update id i j f : keeps (k_update E id i j f).
Proof. unfold k_update. frame. Qed.
Lemma keeps_k_update_hdr id f : keeps (k_update_hdr id f).
Proof. unfold k_update_hdr. frame. Qed.
Lemma keeps_set_submitted i v : keeps (set_submitted i v).
Proof. unfold set_submitted. frame. Qed.
Lemma keeps_get_submitted i : keeps (get_submitted i).
Proof. unfold get_submitted. frame. Qed.
Lemma keeps_k_cfg : keeps k_cfg.
Proof. unfold k_cfg. frame. Qed.
Local Hint Resolve keeps_k_load keeps_k_update keeps_k_update_hdr keeps_set_submitted keeps_get_submitted keeps_k_cfg : frame.
Lemma keeps_set_done n : forall k, keeps (set_done n k).
Proof. induction n as [|n IH]; simpl; frame. Qed.
Local Hint Resolve keeps_set_done : frame.
Lemma keeps_worker_notify cur : keeps (worker_notify cur).
Proof. unfold worker_notify. frame. Qed.
Local Hint Resolve keeps_worker_notify : frame.
Lemma keeps_worker_entry cur i j : keeps (worker_entry E cur i j).
Proof. unfold worker_entry. frame. Qed.
Local Hint Resolve keeps_worker_entry : frame.
Lemma keeps_worker_loop fuel : forall cur i j, keeps (worker_loop E fuel cur i j).
Proof. induction fuel as [|fuel IH]; simpl; frame. Qed.
Local Hint Resolve keeps_worker_loop : frame.
Lemma keeps_worker_pass fuel cur : keeps (worker_pass E fuel cur).
Proof. unfold worker_pass. frame. Qed.
Local Hint Resolve keeps_worker_pass : frame.
Lemma keeps_run_passes fuel ks : keeps (run_passes E fuel ks).
Proof. induction ks; simpl; frame. Qed.
Lemma keeps_sys_esca_wakeup i : keeps (sys_esca_wakeup i).
Proof. unfold sys_esca_wakeup. frame. Qed.
Lemma keeps_sys_esca_wait i : keeps (sys_esca_wait i).
Proof. unfold sys_esca_wait. frame. Qed.
End kernel.
#[export] Hint Resolve keeps_run_passes keeps_sys_esca_wakeup keeps_sys_esca_wait : frame.

(** ** The library *)
Lemma keeps_u_header idx : keeps (u_header idx).
Proof. unfold u_header. frame. Qed.
#[export] Hint Resolve keeps_u_header : frame.
Lemma keeps_u_load_hdr idx : keeps (u_load_hdr idx).
Proof. unfold u_load_hdr. frame. Qed.
Lemma keeps_u_update_hdr idx f : keeps (u_update_hdr idx f).
Proof. unfold u_update_hdr. frame. Qed.
Lemma keeps_u_cfg : keeps u_cfg.
Proof. unfold u_cfg. frame. Qed.
#[export] Hint Resolve keeps_u_load_hdr keeps_u_update_hdr keeps_u_cfg : frame.
Lemma keeps_u_entry idx i j f : keeps (u_entry idx i j f).
Proof. unfold u_entry, u_loc. frame. Qed.
Lemma keeps_update_index idx : keeps (update_index idx).
Proof. unfold update_index. frame. Qed.
Lemma keeps_start_one j : keeps (start_one j).
Proof. unfold start_one, syscall_wakeup, dispatch. frame. Qed.
#[export] Hint Resolve keeps_u_entry keeps_update_index keeps_start_one : frame.
Lemma keeps_batch_start : keeps batch_start.
Proof. unfold batch_start. frame. Qed.
Lemma keeps_batch_flush : keeps batch_flush.
Proof. unfold batch_flush, syscall_wait, dispatch. frame. Qed.
Lemma keeps_prologue fd : keeps (prologue fd).
Proof. unfold prologue, set_index, batch_num_incr. frame. Qed.
Lemma keeps_run_stores idx i j l : keeps (run_stores idx i j l).
Proof. induction l; simpl; frame. Qed.
#[export] Hint Resolve keeps_batch_start keeps_batch_flush keeps_prologue keeps_run_stores : frame.

(** A deferred [send] does not touch the payload, nor copy it. *)
Lemma echo_send_keeps E L fd buf n f w x w' :
  in_segment (usr w) <> 0 -> echo_send E L fd buf n f w = Ret (x, w') -> frame_of w' = frame_of w.
Proof.
  intros Hseg H. unfold echo_send in H. rewrite (bind_eq in_seg _ w true w) in H.
  2: { unfold in_seg, gets. by destruct (Z.eqb_spec (in_segment (usr w)) 0). }
  simpl in H. revert H. set (m := let! t := prologue fd in _). intros H. revert w x w' Hseg H.
  assert (keeps m) as Hm; [|by intros; eapply Hm]. unfold m, fill_entry, release. frame.
Qed.
