(* ===== verification/Machine.v ===== *)
(** * Several user workers on one module

    Each user worker is a process with its own globals and its own address
    space; the module, its table and the memory it maps are shared.  Calls of
    [batch_start], of the wrappers and of [batch_flush] in any process and passes
    of the kernel workers interleave in any order.  The machine refines a family of bounded queues, one per ring: no
    process disturbs the rings of another. *)
From stdpp Require Import base numbers list gmap.
From S2P Require Import Prelude Esca Ring IndirectCall Request World Kernel Preload Wrappers Rings Submit WrapperProps WorkerProps Batch Init Session Frame.

(** ** Processes *)
Record process := Process { p_usr : preload_t; p_heap : gmap Z Z }.
Record machine := Machine {
  procs : list process;
  m_krn : module_t;
  m_mem : memory;       (* its [heap] is that of the process that runs *)
  m_allocs : list bool
}.

Definition world_of (m : machine) (p : process) : world :=
  World (p_usr p) (m_krn m) (put_heap (p_heap p) (m_mem m)) (m_allocs m).

(** Code that runs in process [i], in user space or as one of its kernel
    workers. *)
Definition run_in {A} (i : nat) (c : MW A) : M machine A := fun m =>
  match procs m !! i with
  | None => Fault Undefined
  | Some p =>
      match c (world_of m p) with
      | Ret (x, w) =>
          Ret (x, Machine (<[i := Process (usr w) (heap (mem w))]> (procs m)) (krn w) (mem w) (allocs w))
      | Fault f => Fault f
      | Hang => Hang
      end
  end.

(** ** Interleavings *)
Inductive mevent (E : env) :=
| M_start (i : nat)                 (* process [i] opens its segment *)
| M_call (i : nat) (b : batched E)  (* process [i] calls a wrapper *)
| M_flush (i : nat)                 (* process [i] closes its segment *)
| M_pass (i : nat) (k : Z).         (* the worker of ring [k] of process [i] makes a pass *)
Arguments M_start {E}.
Arguments M_call {E}.
Arguments M_flush {E}.
Arguments M_pass {E}.

(** The run of a sequence of events, with the results of the calls. *)
Fixpoint run_events {E} (fuel : nat) (l : list (mevent E)) : M machine (list Z) :=
  match l with
  | [] => ret []
  | M_pass i k :: l' =>
      do! run_in i (worker_pass E fuel k) in
      run_events fuel l'
  | e :: l' =>
      let! v := (match e with
                 | M_start i => run_in i batch_start
                 | M_call i b => run_in i (b_run b)
                 | M_flush i => run_in i batch_flush
                 | M_pass _ _ => ret 0
                 end) in
      let! vs := run_events fuel l' in
      ret (v :: vs)
  end.

(** ** The specification: a family of bounded queues, the open segments and the
    log of executed calls *)
Record spec := Spec { waiting : Z -> list call; is_open : nat -> bool; done_calls : list call }.

Definition set_open (i : nat) (b : bool) (o : nat -> bool) : nat -> bool :=
  fun j => if (j =? i)%nat then b else o j.

Section spec.
Context {E : env} (g : globals) (n : nat). (* [n] processes *)

Definition ring_of (i : nat) (fd : Z) : Z := Z.of_nat i * RATIO g + Z.rem fd (RATIO g).
Definition owns_ring (i : nat) (k : Z) : bool :=
  (Z.of_nat i * RATIO g <=? k) && (k <? Z.of_nat i * RATIO g + RATIO g).

(** One event; [None] when the specification promises nothing. *)
Definition spec_event (e : mevent E) (s : spec) : option (spec * list Z) :=
  match e with
  | M_start i =>
      if (i <? n)%nat then Some (Spec (waiting s) (set_open i true (is_open s)) (done_calls s), [0]) else None
  | M_flush i =>
      if (i <? n)%nat then Some (Spec (waiting s) (set_open i false (is_open s)) (done_calls s), [0]) else None
  | M_call i b =>
      let k := ring_of i (b_fd b) in
      if (i <? n)%nat && (0 <=? b_fd b) && is_open s i
         && (Z.of_nat (length (waiting s k)) <? ring_size (MAX_TABLE_ENTRY g) (MAX_TABLE_LEN g) - 1)
      then Some (Spec (enqueue (waiting s) k (request_call (e_arch E) (b_req b))) (is_open s) (done_calls s),
                 [b_val b])
      else None
  | M_pass i k =>
      if (i <? n)%nat && owns_ring i k
      then Some (Spec (dequeue_all (waiting s) k) (is_open s) (done_calls s ++ waiting s k), []) else None
  end.

Fixpoint queues (l : list (mevent E)) (s : spec) : option (spec * list Z) :=
  match l with
  | [] => Some (s, [])
  | e :: l' =>
      match spec_event e s with
      | Some (s1, v) =>
          match queues l' s1 with Some (s', vs) => Some (s', v ++ vs) | None => None end
      | None => None
      end
  end.
End spec.

(** ** Which process owns a ring *)
Section owner.
Context (g : globals).

Lemma owns_ring_spec i k :
  owns_ring g i k = true <-> Z.of_nat i * RATIO g <= k < Z.of_nat i * RATIO g + RATIO g.
Proof. unfold owns_ring. by rewrite andb_true_iff, Z.leb_le, Z.ltb_lt. Qed.

Lemma owns_ring_inj i j k : 0 < RATIO g -> owns_ring g i k = true -> owns_ring g j k = true -> i = j.
Proof. rewrite !owns_ring_spec. nia. Qed.

Lemma owns_ring_of i fd : 0 < RATIO g -> 0 <= fd -> owns_ring g i (ring_of g i fd) = true.
Proof.
  intros Hr Hfd. rewrite owns_ring_spec. unfold ring_of. pose proof (Z.rem_bound_pos fd (RATIO g) Hfd Hr). lia.
Qed.
End owner.

Lemma set_open_eq i b o : set_open i b o i = b.
Proof. unfold set_open. by rewrite Nat.eqb_refl. Qed.
Lemma set_open_ne i j b o : j <> i -> set_open i b o j = o j.
Proof. unfold set_open. intros Hne. by rewrite (proj2 (Nat.eqb_neq _ _) Hne). Qed.

(** ** What an operation leaves alone *)
Section frame.
Context (E : env) (g : globals).

Lemma submit_others {A} w lay q fd (m : MW A) v r v' w' `{!Submits E fd m v r} :
  set_ok E g w lay q -> in_segment (usr w) <> 0 -> 0 <= fd -> 0 <= batch_num (usr w) < INT_MAX ->
  Z.of_nat (length (q (ring_index w fd))) < ring_size (MAX_TABLE_ENTRY g) (MAX_TABLE_LEN g) - 1 ->
  m w = Ret (v', w') ->
  forall hp rg h es, hp <> (lay (ring_index w fd)).1 -> rg <> (lay (ring_index w fd)).2 ->
    ring_mem w hp rg h es -> ring_mem w' hp rg h es.
Proof.
  intros Hs Hseg Hfd Hb Hroom Hrun. pose proof (ring_index_in_set _ _ _ _ _ _ Hs Hfd) as Hin.
  pose proof Hs as [Hg Hu Hk Hsub Hrange Hinj Hq].
  destruct (Hq _ Hin) as [(h & es & Hr & Hw & Hst & Hpend)].
  pose proof (ring_used_range _ _ Hg h) as Hused. rewrite <- Hpend, queue_length in Hroom.
  assert (can_submit E g w (ring_index w fd) (lay (ring_index w fd)).1 (lay (ring_index w fd)).2 h es)
    as Hcs by (constructor; try done; lia).
  destruct (submits _ _ _ _ _ _ Hcs) as (w1 & Hrun1 & Hsub1).
  rewrite Hrun in Hrun1. injection Hrun1 as -> ->. intros. by eapply st_others.
Qed.

Lemma pass_others w lay q k fuel b w' :
  set_ok E g w lay q -> in_set w k ->
  ring_size (MAX_TABLE_ENTRY g) (MAX_TABLE_LEN g) <= Z.of_nat fuel ->
  worker_pass E fuel k w = Ret (b, w') ->
  k_frame w w' /\
  forall hp rg h es, hp <> (lay k).1 -> rg <> (lay k).2 -> ring_mem w hp rg h es -> ring_mem w' hp rg h es.
Proof.
  intros Hs Hin Hfuel Hrun. pose proof (set_worker_ok _ _ _ _ _ _ Hs Hin) as Hok.
  pose proof Hs as [Hg Hu Hk Hsub Hrange Hinj Hq].
  destruct (Hq _ Hin) as [(h & es & Hr & Hw & Hst & Hpend)].
  pose proof (ring_used_range _ _ Hg h) as Hused. pose proof (Hst 0%nat ltac:(lia)) as H0.
  destruct (decide (Z.of_nat 0 < ring_used g h)) as [Hpos|Hzero].
  - destruct (worker_pass_run E g w k _ _ h es Hg Hok Hr Hw H0) as (w1 & Hrun1 & Hd).
    assert (worker_pass E fuel k w = Ret (true, w1)) as Hrun2.
    { eapply worker_pass_more; [|exact Hrun1]. lia. }
    rewrite Hrun in Hrun2. injection Hrun2 as -> ->. split; [apply Hd|]. intros. by eapply dr_others.
  - rewrite (worker_pass_empty E g w fuel k _ _ h es Hg Hk Hr Hw H0) in Hrun. by injection Hrun as _ <-.
Qed.

(** The rings of a process whose memory another process left alone. *)
Lemma set_ok_others w w' lay lay' q q' :
  set_ok E g w lay q -> usr w' = usr w -> kcfg (krn w') = kcfg (krn w) ->
  length (submitted (krn w')) = length (submitted (krn w)) ->
  (forall k, in_set w k -> aget (ktable (krn w')) k = aget (ktable (krn w)) k) ->
  (forall k, in_set w k -> q' k = q k /\ lay' k = lay k) ->
  (forall k h es, in_set w k -> ring_mem w (lay k).1 (lay k).2 h es -> ring_mem w' (lay k).1 (lay k).2 h es) ->
  set_ok E g w' lay' q'.
Proof.
  intros [H1 H2 H3 H4 H5 H6 H7] Eu Ec El Et Hq Hm.
  assert (forall k, in_set w' k <-> in_set w k) as Hin by (intros k; apply in_set_ext; by rewrite Eu).
  constructor; rewrite ?Eu, ?Ec, ?El; try done.
  - intros k k' Hk Hk'. rewrite Hin in Hk, Hk'. rewrite (proj2 (Hq k Hk)), (proj2 (Hq k' Hk')). by apply H6.
  - intros k Hk. rewrite Hin in Hk. rewrite (proj1 (Hq k Hk)), (proj2 (Hq k Hk)).
    destruct (H7 k Hk) as [(h & es & Hr & Hrest)].
    constructor. exists h, es. split; [|done]. pose proof (Hm k h es Hk (ring_at_mem _ _ _ _ _ _ Hr)) as [Hh He].
    destruct Hr as [Ru Rk _ _]. constructor; by rewrite ?Eu, ?Et.
Qed.
End frame.

(** ** The invariant *)
Section refinement.
Context (E : env) (g : globals) (lay : Z -> hptr * Z) (fuel : nat).
Context (Hfuel : ring_size (MAX_TABLE_ENTRY g) (MAX_TABLE_LEN g) <= Z.of_nat fuel).

Record process_ok (m : machine) (s : spec) (calls : nat) (i : nat) (p : process) : Prop := {
  po_set : set_ok E g (world_of m p) lay (waiting s);
  po_id : this_worker_id (p_usr p) = Z.of_nat i;
  po_segment : is_open s i = true -> in_segment (p_usr p) <> 0;
  po_batch : 0 <= batch_num (p_usr p) /\ batch_num (p_usr p) + Z.of_nat calls <= INT_MAX
}.

(** Every process has its rings, and no two rings share a header or a region;
    [calls] more calls do not overflow a counter. *)
Record machine_ok (m : machine) (s : spec) (calls : nat) : Prop := {
  mo_procs : forall i p, procs m !! i = Some p -> process_ok m s calls i p;
  mo_inj : forall i j k k', (i < length (procs m))%nat -> (j < length (procs m))%nat ->
    owns_ring g i k = true -> owns_ring g j k' = true -> k <> k' ->
    (lay k).1 <> (lay k').1 /\ (lay k).2 <> (lay k').2;
  mo_hook : syscall_table (m_krn m) !! __NR_esca_wakeup = Some H_wakeup;
  mo_log : executed (m_krn m) = done_calls s
}.

Lemma owns_ring_in_set m s calls i p k :
  process_ok m s calls i p -> owns_ring g i k = true <-> in_set (world_of m p) k.
Proof.
  intros [Hs Hid _ _]. rewrite owns_ring_spec. unfold in_set. rewrite (so_user _ _ _ _ _ Hs). simpl. by rewrite Hid.
Qed.

Lemma ring_of_index m s calls i p fd :
  process_ok m s calls i p -> ring_index (world_of m p) fd = ring_of g i fd.
Proof. intros [Hs Hid _ _]. unfold ring_index, ring_of. rewrite (so_user _ _ _ _ _ Hs). simpl. by rewrite Hid. Qed.

(** The machine after process [i] has run to the state [w]. *)
Definition after (i : nat) (w : world) (m : machine) : machine :=
  Machine (<[i := Process (usr w) (heap (mem w))]> (procs m)) (krn w) (mem w) (allocs w).

Lemma run_in_ret {A} i p (c : MW A) m x w :
  procs m !! i = Some p -> c (world_of m p) = Ret (x, w) -> run_in i c m = Ret (x, after i w m).
Proof. intros Hp Hc. unfold run_in. by rewrite Hp, Hc. Qed.

Lemma world_of_after i w m : world_of (after i w m) (Process (usr w) (heap (mem w))) = w.
Proof. by destruct w as [u k [] al]. Qed.

(** What a process may change: its own queues, its own segment, the memory of
    its own rings. *)
Record own_effect (i : nat) (m : machine) (p : process) (s : spec) (w : world) (s' : spec) : Prop := {
  oe_cfg : kcfg (krn w) = kcfg (m_krn m);
  oe_table : ktable (krn w) = ktable (m_krn m);
  oe_sub : length (submitted (krn w)) = length (submitted (m_krn m));
  oe_hooks : syscall_table (krn w) = syscall_table (m_krn m);
  oe_log : executed (krn w) = done_calls s';
  oe_waiting : forall k, owns_ring g i k = false -> waiting s' k = waiting s k;
  oe_open : forall j, j <> i -> is_open s' j = is_open s j;
  oe_mem : forall hp rg h es, (forall k, owns_ring g i k = true -> hp <> (lay k).1 /\ rg <> (lay k).2) ->
    ring_mem (world_of m p) hp rg h es -> ring_mem w hp rg h es
}.

Lemma machine_ok_after m s calls i p w s' calls' :
  machine_ok m s calls -> procs m !! i = Some p -> (calls' <= calls)%nat -> own_effect i m p s w s' ->
  process_ok (after i w m) s' calls' i (Process (usr w) (heap (mem w))) ->
  machine_ok (after i w m) s' calls'.
Proof.
  intros [Hp Hinj Hhook Hlog] Hi Hc [E1 E2 E3 E4 E5 E6 E7 E8] Hself.
  pose proof (co_ratio _ _ (so_cfg _ _ _ _ _ (po_set _ _ _ _ _ (Hp i p Hi)))) as Hr.
  constructor; [| |by simpl; rewrite E4|done].
  2: { simpl. rewrite length_insert. exact Hinj. }
  intros j pj Hj. simpl in Hj. destruct (decide (j = i)) as [->|Hne].
  { rewrite list_lookup_insert_eq in Hj by (by eapply lookup_lt_Some). by injection Hj as <-. }
  rewrite list_lookup_insert_ne in Hj by done. pose proof (Hp j pj Hj) as Hok.
  assert (forall k, in_set (world_of m pj) k -> owns_ring g j k = true /\ owns_ring g i k = false) as Hown.
  { intros k Hk. apply (owns_ring_in_set _ _ _ _ _ k Hok) in Hk. split; [done|].
    apply not_true_iff_false. intros Hk'. by destruct (owns_ring_inj g _ _ _ Hr Hk Hk'). }
  destruct Hok as [Hs Hid Hseg Hb]. constructor; [|done|by rewrite E7|lia].
  eapply (set_ok_others E g (world_of m pj) _ lay lay (waiting s) (waiting s') Hs); try done.
  - intros k _. simpl. by rewrite E2.
  - intros k Hk. split; [|done]. by apply E6, Hown.
  - intros k h es Hk Hm. destruct (Hown k Hk) as [Hkj Hki].
    destruct (E8 (lay k).1 (lay k).2 h es) as [Hh He]; [|exact Hm|done].
    intros k' Hk'. apply (Hinj j i); try done; [by eapply lookup_lt_Some..|]. intros ->. congruence.
Qed.

(** The specification follows an operation of the machine. *)
Definition follows {A} (c : M machine A) (m : machine) (x : A) (s' : spec) (calls : nat) : Prop :=
  exists m', c m = Ret (x, m') /\ machine_ok m' s' calls /\ length (procs m') = length (procs m).

Lemma follows_after {A} m s calls i p (c : MW A) x w s' calls' :
  machine_ok m s calls -> procs m !! i = Some p -> (calls' <= calls)%nat -> c (world_of m p) = Ret (x, w) ->
  own_effect i m p s w s' -> set_ok E g w lay (waiting s') -> this_worker_id (usr w) = Z.of_nat i ->
  (is_open s' i = true -> in_segment (usr w) <> 0) ->
  0 <= batch_num (usr w) /\ batch_num (usr w) + Z.of_nat calls' <= INT_MAX ->
  follows (run_in i c) m x s' calls'.
Proof.
  intros Hm Hi Hc Hrun He Hs Hid Hseg Hb. exists (after i w m). split_and!.
  - by apply (run_in_ret i p).
  - eapply machine_ok_after; try done. constructor; simpl; try done. by rewrite world_of_after.
  - simpl. by rewrite length_insert.
Qed.

(** ** The operations *)
Lemma machine_start m s calls i p :
  machine_ok m s (S calls) -> procs m !! i = Some p ->
  follows (run_in i batch_start) m 0 (Spec (waiting s) (set_open i true (is_open s)) (done_calls s)) calls.
Proof.
  intros Hm Hi. pose proof (mo_procs _ _ _ Hm i p Hi) as Hok. pose proof Hok as [Hs Hid Hseg Hb].
  destruct (batch_start_run_frame E g lay (world_of m p) (waiting s) Hs (mo_hook _ _ _ Hm))
    as (w & Hrun & Hs' & (Hu & Hx & Hh & _) & [F1 F2 F3 F4 F5 F6 F7 F8]).
  eapply (follows_after m s (S calls) i p); try done; rewrite ?Hu; try done; [lia| |simpl; lia].
  constructor; try done.
  - by rewrite F6.
  - by rewrite Hx, <- (mo_log _ _ _ Hm).
  - intros j Hne. by apply set_open_ne.
  - intros hp rg h es Hne [Hmh Hme]. split; [|by rewrite F1]. rewrite F8; [done|].
    intros k Hk. apply (owns_ring_in_set _ _ _ _ _ k Hok) in Hk. by apply Hne.
Qed.

Lemma machine_flush m s calls i p :
  machine_ok m s (S calls) -> procs m !! i = Some p ->
  follows (run_in i batch_flush) m 0 (Spec (waiting s) (set_open i false (is_open s)) (done_calls s)) calls.
Proof.
  intros Hm Hi. pose proof (mo_procs _ _ _ Hm i p Hi) as Hok. pose proof Hok as [Hs Hid Hseg Hb].
  pose proof (co_ratio _ _ (so_cfg _ _ _ _ _ Hs)) as Hr.
  destruct (batch_flush_run (world_of m p)) as (w & Hrun & Hsg & Hbn & Hk & Hmem & Hut & Hcf & Hid').
  { pose proof (so_range _ _ _ _ _ Hs). rewrite (so_user _ _ _ _ _ Hs). nia. }
  eapply (follows_after m s (S calls) i p); try done; [lia| |by eapply set_ok_same|by rewrite Hid'| |].
  - constructor; rewrite ?Hk; try done.
    + by rewrite <- (mo_log _ _ _ Hm).
    + intros j Hne. by apply set_open_ne.
    + intros hp rg h es _ [Hmh Hme]. by split; rewrite Hmem.
  - simpl. by rewrite set_open_eq.
  - rewrite Hbn. unfold INT_MAX in *. lia.
Qed.

Lemma machine_call m s calls i b p :
  machine_ok m s (S calls) -> procs m !! i = Some p -> 0 <= b_fd b -> is_open s i = true ->
  Z.of_nat (length (waiting s (ring_of g i (b_fd b)))) < ring_size (MAX_TABLE_ENTRY g) (MAX_TABLE_LEN g) - 1 ->
  follows (run_in i (b_run b)) m (b_val b)
    (Spec (enqueue (waiting s) (ring_of g i (b_fd b)) (request_call (e_arch E) (b_req (E := E) b)))
       (is_open s) (done_calls s)) calls.
Proof.
  intros Hm Hi Hfd Hop Hroom. pose proof (mo_procs _ _ _ Hm i p Hi) as Hok.
  pose proof (ring_of_index _ _ _ _ _ (b_fd b) Hok) as Hring. pose proof (b_ok b) as Hb.
  pose proof Hok as [Hs Hid Hseg Hbatch]. rewrite <- Hring in Hroom. specialize (Hseg Hop).
  assert (0 <= batch_num (usr (world_of m p)) < INT_MAX) as Hbn by (simpl; lia).
  destruct (set_submit E g (world_of m p) lay (waiting s) (b_fd b) (b_run b) (b_val b) (b_req b) Hs Hseg Hfd Hbn Hroom)
    as (w & Hrun & Hs' & Hu & Hid' & Hg' & Hb' & Hk').
  pose proof (submit_others E g (world_of m p) lay (waiting s) (b_fd b) (b_run b) (b_val b) (b_req b) _ w
                Hs Hseg Hfd Hbn Hroom Hrun) as Hoth. rewrite Hring in Hs', Hoth.
  pose proof (owns_ring_of g i (b_fd b) (co_ratio _ _ (so_cfg _ _ _ _ _ Hs)) Hfd) as Hown.
  eapply (follows_after m s (S calls) i p); try done; [lia| |by rewrite Hid'|by rewrite Hg'|simpl in Hb'; lia].
  constructor; rewrite ?Hk'; try done.
  - by rewrite <- (mo_log _ _ _ Hm).
  - intros k Hk. simpl. unfold enqueue. destruct (Z.eqb_spec k (ring_of g i (b_fd b))) as [->|]; congruence.
  - intros hp rg h es Hne Hmm. by apply Hoth; [apply Hne..|].
Qed.

Lemma machine_pass m s calls i k p :
  machine_ok m s calls -> procs m !! i = Some p -> owns_ring g i k = true ->
  exists b, follows (run_in i (worker_pass E fuel k)) m b
    (Spec (dequeue_all (waiting s) k) (is_open s) (done_calls s ++ waiting s k)) calls.
Proof.
  intros Hm Hi Hk. pose proof (mo_procs _ _ _ Hm i p Hi) as Hok.
  pose proof (proj1 (owns_ring_in_set _ _ _ _ _ k Hok) Hk) as Hin. pose proof Hok as [Hs Hid Hseg Hbatch].
  destruct (set_pass E g (world_of m p) lay (waiting s) k fuel Hs Hin Hfuel) as (w & b & Hrun & Hs' & Hu & Hx).
  destruct (pass_others E g (world_of m p) lay (waiting s) k fuel b w Hs Hin Hfuel Hrun) as [[F1 F2 F3 F4] Hoth].
  pose proof (keeps_worker_pass E fuel k _ _ _ Hrun) as [= Hheap Hhooks].
  exists b. eapply (follows_after m s calls i p); try done; rewrite ?Hu; try done.
  constructor; try done.
  - by rewrite Hx, <- (mo_log _ _ _ Hm).
  - intros k' Hk'. simpl. unfold dequeue_all. destruct (Z.eqb_spec k' k) as [->|]; congruence.
  - intros hp rg h es Hne Hmm. by apply Hoth; [apply Hne..|].
Qed.

Lemma machine_ok_fewer m s calls calls' : (calls' <= calls)%nat -> machine_ok m s calls -> machine_ok m s calls'.
Proof.
  intros Hle [A B C D]. constructor; try done. intros j pj Hj. destruct (A j pj Hj) as [A1 A2 A3 A4].
  constructor; try done. lia.
Qed.

Lemma run_events_queues l : forall m s s' vs calls,
  machine_ok m s (length l + calls) -> queues g (length (procs m)) l s = Some (s', vs) ->
  follows (run_events (E := E) fuel l) m vs s' calls.
Proof.
  induction l as [|e l IH]; intros m s s' vs calls Hm Hq; simpl in Hq; [by injection Hq as <- <-; exists m|].
  destruct (spec_event _ _ e s) as [[s1 v]|] eqn:He; [|done].
  destruct (queues _ _ l s1) as [[s2 vs2]|] eqn:El; [|done]. injection Hq as <- <-.
  assert (forall A (c : M machine A) x, follows c m x s1 (length l + calls) ->
    exists m1 m', c m = Ret (x, m1) /\ run_events fuel l m1 = Ret (vs2, m') /\
      machine_ok m' s2 calls /\ length (procs m') = length (procs m)) as Hgo.
  { intros A c x (m1 & Hr1 & Hm1 & Hl1). rewrite <- Hl1 in El.
    destruct (IH _ _ _ _ _ Hm1 El) as (m' & Hr & Hm' & Hl'). exists m1, m'. split_and!; (done || congruence). }
  destruct e as [i|i b|i|i k]; simpl in He; destruct (i <? length (procs m))%nat eqn:Hi; simpl in He; try done;
    apply Nat.ltb_lt in Hi; destruct (lookup_lt_is_Some_2 (procs m) i Hi) as [p Hp].
  - injection He as <- <-. destruct (Hgo _ _ _ (machine_start m s _ i p Hm Hp)) as (m1 & m' & Hr1 & Hr & Hrest).
    exists m'. split; [|done]. simpl. mrun Hr1. by mrun Hr.
  - destruct (_ && _) eqn:Eb; [|done]. injection He as <- <-.
    apply andb_true_iff in Eb as [[Hfd Hop]%andb_true_iff Hroom]. apply Z.leb_le in Hfd. apply Z.ltb_lt in Hroom.
    destruct (Hgo _ _ _ (machine_call m s _ i b p Hm Hp Hfd Hop Hroom)) as (m1 & m' & Hr1 & Hr & Hrest).
    exists m'. split; [|done]. simpl. mrun Hr1. by mrun Hr.
  - injection He as <- <-. destruct (Hgo _ _ _ (machine_flush m s _ i p Hm Hp)) as (m1 & m' & Hr1 & Hr & Hrest).
    exists m'. split; [|done]. simpl. mrun Hr1. by mrun Hr.
  - destruct (owns_ring g i k) eqn:Hk; [|done]. injection He as <- <-.
    apply (machine_ok_fewer _ _ _ (length l + calls)) in Hm; [|simpl; lia].
    destruct (machine_pass m s _ i k p Hm Hp Hk) as [b Hf]. destruct (Hgo _ _ _ Hf) as (m1 & m' & Hr1 & Hr & Hrest).
    exists m'. split; [|done]. simpl. by mrun Hr1.
Qed.
End refinement.
