(* ===== verification/Boot.v ===== *)
(** * Starting the user workers

    The worker processes call [init_worker] one after the other, in any order.
    Each call allocates fresh pages and registers the rings of one set, so the
    sets that are already registered keep working; once every worker is
    initialised the machine refines the family of queues, whatever the workers
    and the kernel threads do. *)
From stdpp Require Import base numbers list gmap.
From S2P Require Import Prelude Esca Ring IndirectCall Request World Kernel Preload Wrappers Rings Submit WrapperProps WorkerProps Batch Init Session Scenario Frame Machine.

(** ** The start of the processes in [order] *)
Fixpoint init_workers (E : env) (order : list nat) : M machine unit :=
  match order with
  | [] => ret tt
  | i :: order' => do! run_in i (init_worker E (Z.of_nat i)) in init_workers E order'
  end.

Section boot.
Context (E : env) (g : globals).

(** Before the start: the processes have read the configuration, the module is
    loaded and configured, and there is room for the [n] sets. *)
Record can_boot (m : machine) : Prop := {
  cb_init : forall i, (i < length (procs m))%nat -> init_ok E g (Z.of_nat i) /\ Z.of_nat i < MAX_USR_WORKER g;
  cb_pre : forall i p, procs m !! i = Some p -> init_pre E g (world_of m p);
  cb_wakeup : syscall_table (m_krn m) !! __NR_esca_wakeup = Some H_wakeup
}.

(** Nothing waits, no segment is open. *)
Definition idle (log : list call) : spec := Spec (fun _ => []) (fun _ => false) log.

(** The processes of [up] have their rings, in pages allocated before. *)
Record booted (m : machine) (lay : Z -> hptr * Z) (up : list nat) (log : list call) : Prop := {
  bt_up : forall i p, procs m !! i = Some p -> i ∈ up ->
    process_ok E g lay m (idle log) 0 i p /\ batch_num (p_usr p) = 0;
  bt_down : forall i p, procs m !! i = Some p -> i ∉ up -> init_pre E g (world_of m p);
  bt_old : forall i k, i ∈ up -> owns_ring g i k = true ->
    h_page (lay k).1 < next_page (m_mem m) /\ (lay k).2 < next_page (m_mem m);
  bt_inj : forall i j k k', i ∈ up -> j ∈ up -> owns_ring g i k = true -> owns_ring g j k' = true -> k <> k' ->
    (lay k).1 <> (lay k').1 /\ (lay k).2 <> (lay k').2;
  bt_hook : syscall_table (m_krn m) !! __NR_esca_wakeup = Some H_wakeup;
  bt_log : executed (m_krn m) = log
}.

(** The layout once process [i] has its page [pg]. *)
Definition place_set (lay : Z -> hptr * Z) (i : nat) (pg k : Z) : hptr * Z :=
  if owns_ring g i k then layout g (Z.of_nat i) pg k else lay k.

Lemma place_own lay i pg k : owns_ring g i k = true -> place_set lay i pg k = layout g (Z.of_nat i) pg k.
Proof. unfold place_set. by intros ->. Qed.
Lemma place_other lay i j pg k :
  0 < RATIO g -> owns_ring g j k = true -> j <> i -> place_set lay i pg k = lay k.
Proof.
  intros Hr Hj Hne. unfold place_set. destruct (owns_ring g i k) eqn:Hi; [|done].
  by destruct (owns_ring_inj g _ _ _ Hr Hj Hi).
Qed.

(** A process that is not set up yet still can be. *)
Lemma init_pre_others m i w pj :
  init_pre E g (world_of m pj) -> init_pre E g w -> init_pre E g (world_of (after i w m) pj).
Proof. intros [A1 A2 A3 A4 A5 A6 A7 A8 A9] [B1 B2 B3 B4 B5 B6 B7 B8 B9]. by constructor. Qed.

Lemma world_of_next m p : next_page (mem (world_of m p)) = next_page (m_mem m).
Proof. done. Qed.

Lemma set_ok_place w lay i pg q :
  set_ok E g w (layout g (Z.of_nat i) pg) q -> this_worker_id (usr w) = Z.of_nat i ->
  set_ok E g w (place_set lay i pg) q.
Proof.
  intros Hs Hid. eapply set_ok_others; try done. intros k Hk. split; [done|]. apply place_own.
  unfold in_set in Hk. rewrite Hid, (so_user _ _ _ _ _ Hs) in Hk. by apply owns_ring_spec.
Qed.

(** The new set is in new pages. *)
Lemma place_inj lay i up pg :
  0 < RATIO g ->
  (forall j k, j ∈ up -> owns_ring g j k = true -> h_page (lay k).1 < pg /\ (lay k).2 < pg) ->
  (forall j j' k k', j ∈ up -> j' ∈ up -> owns_ring g j k = true -> owns_ring g j' k' = true -> k <> k' ->
    (lay k).1 <> (lay k').1 /\ (lay k).2 <> (lay k').2) ->
  forall j j' k k', j ∈ i :: up -> j' ∈ i :: up -> owns_ring g j k = true -> owns_ring g j' k' = true -> k <> k' ->
    (place_set lay i pg k).1 <> (place_set lay i pg k').1 /\ (place_set lay i pg k).2 <> (place_set lay i pg k').2.
Proof.
  intros Hr B3 B4.
  assert (forall j k, j ∈ i :: up -> owns_ring g j k = true ->
    j = i /\ place_set lay i pg k = layout g (Z.of_nat i) pg k /\ pg <= h_page (layout g (Z.of_nat i) pg k).1 /\
      pg <= (layout g (Z.of_nat i) pg k).2 \/
    j ∈ up /\ place_set lay i pg k = lay k /\ h_page (lay k).1 < pg /\ (lay k).2 < pg) as Hcase.
  { intros j k Hj Hk. destruct (decide (j = i)) as [->|Hne].
    - left. split_and!; [done|by apply place_own|simpl; lia|]. apply owns_ring_spec in Hk. simpl. lia.
    - right. assert (j ∈ up) as Hju by set_solver. destruct (B3 j k Hju Hk).
      split_and!; try done. by apply (place_other _ _ j). }
  intros j j' k k' Hj Hj' Hk Hk' Hne.
  destruct (Hcase j k Hj Hk) as [(-> & -> & L1 & L2)|(Hju & -> & L1 & L2)],
    (Hcase j' k' Hj' Hk') as [(-> & -> & L3 & L4)|(Hju' & -> & L3 & L4)].
  - simpl. split; [intros [=]|]; lia.
  - split; [intros Heq; rewrite Heq in L1|]; lia.
  - split; [intros Heq; rewrite Heq in L1|]; lia.
  - by apply (B4 j j').
Qed.

(** A process with its rings, while another one is set up. *)
Lemma process_ok_others m lay log i j pj w :
  process_ok E g lay m (idle log) 0 j pj -> j <> i -> 0 < RATIO g ->
  (forall k, owns_ring g j k = true -> h_page (lay k).1 < next_page (m_mem m) /\ (lay k).2 < next_page (m_mem m)) ->
  forall p, init_rest E g (Z.of_nat i) (world_of m p) w ->
  process_ok E g (place_set lay i (next_page (m_mem m))) (after i w m) (idle log) 0 j pj.
Proof.
  intros Hokj Hne Hr B3 p [Rpre Rnext Rhdr Rreg Rker].
  pose proof (fun k => owns_ring_in_set E g lay m _ _ j pj k Hokj) as Hown.
  destruct Hokj as [Hsj Hidj _ Hbnd]. constructor; try done.
  eapply (set_ok_others E g (world_of m pj) _ lay); try done.
  - simpl. by rewrite (ip_kern _ _ _ Rpre), <- (so_kern _ _ _ _ _ Hsj).
  - apply Nat2Z.inj. simpl. rewrite (ip_sub _ _ _ Rpre). symmetry. apply (so_sub _ _ _ _ _ Hsj).
  - intros k Hk. apply Rker. rewrite <- owns_ring_spec. apply Hown in Hk. intros Hki.
    by destruct (owns_ring_inj g _ _ _ Hr Hk Hki).
  - intros k Hk. apply Hown in Hk. split; [done|]. by apply (place_other _ _ j).
  - intros k h es Hk [Hmh Hme]. apply Hown in Hk. destruct (B3 k Hk) as [O1 O2].
    split; simpl.
    + change (hdr_lookup (lay k).1 (mem w) = Some h). by rewrite Rhdr.
    + by rewrite Rreg.
Qed.

Lemma boot_one m lay up log i p :
  booted m lay up log -> procs m !! i = Some p -> i ∉ up ->
  init_ok E g (Z.of_nat i) -> Z.of_nat i < MAX_USR_WORKER g ->
  exists m' lay', run_in i (init_worker E (Z.of_nat i)) m = Ret (tt, m') /\
    booted m' lay' (i :: up) log /\ length (procs m') = length (procs m).
Proof.
  intros [B1 B2 B3 B4 B5 B6] Hi Hup Hok Hmax. pose proof (B2 i p Hi Hup) as Hpre.
  pose proof (co_ratio _ _ (io_cfg _ _ _ Hok)) as Hr.
  destruct (init_worker_run_rest E g _ _ Hok Hpre Hmax)
    as (w & Hrun & Hs & (Hseg & Hb & Hid & Hx & Hh) & Hrest).
  pose proof (ir_pre _ _ _ _ _ Hrest) as Rpre. pose proof (ir_next _ _ _ _ _ Hrest) as Rnext.
  rewrite world_of_next in Rnext, Hs. set (pg := next_page (m_mem m)) in *.
  exists (after i w m), (place_set lay i pg). split; [by apply (run_in_ret i p)|].
  split; [|simpl; by rewrite length_insert].
  constructor; [| | | |by simpl; rewrite Hh|by simpl; rewrite Hx].
  - intros j pj Hj Hju. destruct (decide (j = i)) as [->|Hne].
    + simpl in Hj. rewrite list_lookup_insert_eq in Hj by (by eapply lookup_lt_Some). injection Hj as <-.
      split; [|done]. constructor; try done; [|simpl; rewrite Hb; unfold INT_MAX; lia].
      rewrite world_of_after. by apply set_ok_place.
    + simpl in Hj. rewrite list_lookup_insert_ne in Hj by done.
      assert (j ∈ up) as Hju' by set_solver. destruct (B1 j pj Hj Hju') as [Hokj Hbj]. split; [|done].
      eapply process_ok_others; try done. intros k. by apply B3.
  - intros j pj Hj Hju. assert (j <> i) as Hne by set_solver. simpl in Hj.
    rewrite list_lookup_insert_ne in Hj by done.
    apply init_pre_others; [|done]. apply (B2 j); [done|set_solver].
  - intros j k Hju Hk. simpl. rewrite Rnext. destruct (decide (j = i)) as [->|Hne].
    + rewrite place_own by done. apply owns_ring_spec in Hk. simpl. lia.
    + rewrite (place_other _ _ j) by done. destruct (B3 j k) as [O1 O2]; [set_solver|done|lia].
  - by apply place_inj.
Qed.

Lemma init_workers_run order : forall m lay up log,
  booted m lay up log -> NoDup order -> (forall i, i ∈ order -> i ∉ up) ->
  (forall i, i ∈ order -> (i < length (procs m))%nat /\ init_ok E g (Z.of_nat i) /\ Z.of_nat i < MAX_USR_WORKER g) ->
  exists m' lay', init_workers E order m = Ret (tt, m') /\
    booted m' lay' (order ++ up) log /\ length (procs m') = length (procs m).
Proof.
  induction order as [|i order IH]; intros m lay up log Hb Hnd Hup Hok; simpl; [by exists m, lay|].
  apply NoDup_cons in Hnd as [Hni Hnd]. destruct (Hok i ltac:(set_solver)) as (Hi & Hio & Hmax).
  destruct (lookup_lt_is_Some_2 (procs m) i Hi) as [p Hp].
  destruct (boot_one m lay up log i p Hb Hp ltac:(set_solver) Hio Hmax) as (m1 & lay1 & Hr1 & Hb1 & Hl1).
  destruct (IH m1 lay1 (i :: up) log Hb1 Hnd) as (m' & lay' & Hr & Hb' & Hl').
  - set_solver.
  - intros j Hj. rewrite Hl1. apply Hok. set_solver.
  - exists m', lay'. split_and!; [by mrun Hr1| |congruence].
    destruct Hb' as [A1 A2 A3 A4 A5 A6]. constructor; try done.
    + intros j pj Hj Hu. apply (A1 j pj Hj). set_solver.
    + intros j pj Hj Hu. apply (A2 j pj Hj). set_solver.
    + intros j k Hu. apply A3. set_solver.
    + intros j j' k k' Hu Hu'. apply A4; set_solver.
Qed.

(** Any order of start leaves every worker with its rings. *)
Lemma boot_machine m order :
  can_boot m -> order ≡ₚ seq 0 (length (procs m)) ->
  exists m' lay, init_workers E order m = Ret (tt, m') /\ length (procs m') = length (procs m) /\
    forall calls, Z.of_nat calls <= INT_MAX -> machine_ok E g lay m' (idle (executed (m_krn m))) calls.
Proof.
  intros [C1 C2 C3] Hord.
  assert (forall i, i ∈ order <-> (i < length (procs m))%nat) as Hin.
  { intros i. rewrite Hord, elem_of_seq. lia. }
  destruct (init_workers_run order m (fun _ => (HPtr 0 0, 0)) [] (executed (m_krn m)))
    as (m' & lay & Hrun & [A1 A2 A3 A4 A5 A6] & Hl).
  - constructor; try done; intros; set_solver.
  - rewrite Hord. apply NoDup_seq.
  - set_solver.
  - intros i Hi. apply Hin in Hi. split; [done|by apply C1].
  - exists m', lay. split_and!; try done. rewrite app_nil_r in *. intros calls Hc. constructor; try done.
    + intros i p Hi. destruct (A1 i p Hi) as [[P1 P2 P3 P4] Hb].
      { apply Hin. rewrite <- Hl. by eapply lookup_lt_Some. }
      constructor; try done. rewrite Hb. lia.
    + intros i j k k' Hi Hj. rewrite Hl in Hi, Hj. apply A4; by apply Hin.
Qed.

(** C1: for any number of worker processes that call [init_worker] in any order
    on one loaded module, every interleaving of [batch_start], deferred calls and
    [batch_flush] (deferred: wrappers with an instance of [Submits]) in all
    processes with passes of the kernel workers that the
    specification allows (a call only in an open segment and with room in its
    ring) runs without fault or blocking; the calls return the values, and the
    module executes the calls in the order, that a family of bounded queues
    prescribes: one queue per ring, filled by one process and emptied by one
    worker.  No process disturbs another. *)
Theorem machine_refines_queues m order l fuel s' vs :
  can_boot m -> order ≡ₚ seq 0 (length (procs m)) ->
  ring_size (MAX_TABLE_ENTRY g) (MAX_TABLE_LEN g) <= Z.of_nat fuel -> Z.of_nat (length l) <= INT_MAX ->
  queues g (length (procs m)) l (idle (executed (m_krn m))) = Some (s', vs) ->
  exists m', (do! init_workers E order in run_events (E := E) fuel l) m = Ret (vs, m') /\
    executed (m_krn m') = done_calls s' /\
    exists lay, machine_ok E g lay m' s' 0.
Proof.
  intros Hb Hord Hfuel Hlen Hq. destruct (boot_machine m order Hb Hord) as (m1 & lay & Hr1 & Hl1 & Hok).
  rewrite <- Hl1 in Hq. destruct (run_events_queues E g lay fuel Hfuel l m1 (idle (executed (m_krn m))) s' vs 0) as (m' & Hr & Hm' & _).
  - apply Hok. lia.
  - done.
  - exists m'. split; [by mrun Hr1|]. split; [apply Hm'|by exists lay].
Qed.
End boot.

(** ** Two workers, two rings each *)
Definition g2 : globals := Globals 1 64 1 2 4 2 150 0.

(** The processes are alike but for their memory. *)
Definition machine0 : machine :=
  Machine [Process (put_ucfg g2 (usr boot)) (<[500 := 104]> ∅); Process (put_ucfg g2 (usr boot)) (<[500 := 105]> ∅)]
    (put_kcfg g2 (krn boot)) (mem boot) [].

(** Worker 1 starts first.  Both defer a [send] from the same address and
    worker 0 closes its segment before its calls are executed. *)
Definition events0 : list (mevent env0) :=
  [M_start 0; M_call 0 (Batched 4 (echo_send env0 libc0 4 500 1 0) 1 (Request 44 [4; 500; 1; 0; 0; 0]));
   M_start 1; M_call 1 (Batched 5 (echo_send env0 libc0 5 500 1 0) 1 (Request 44 [5; 500; 1; 0; 0; 0]));
   M_pass 1 3; M_call 0 (Batched 4 (ngx_close env0 libc0 4) 0 (Request 3 [4])); M_flush 0; M_pass 1 2; M_pass 0 0].

Lemma can_boot0 : can_boot env0 g2 machine0.
Proof.
  constructor; [| |done].
  - intros i Hi. assert (i = 0%nat \/ i = 1%nat) as [->| ->] by (simpl in Hi; lia);
      (split; [|vm_compute; reflexivity]); (constructor;
        [constructor; vm_compute; [split; congruence|done|done|by left|done]|vm_compute; congruence
        |vm_compute; split; congruence|vm_compute; congruence|done|done]).
  - intros [|[|i]] p [= <-]; by constructor.
Qed.

Lemma machine_refines_queues_witness :
  exists m', (do! init_workers env0 [1%nat; 0%nat] in run_events 64 events0) machine0 = Ret ([0; 1; 0; 1; 0; 0], m') /\
    executed (m_krn m') =
      map (request_call X86_64) [Request 44 [5; 500; 1; 0; 0; 0]; Request 44 [4; 500; 1; 0; 0; 0]; Request 3 [4]] /\
    exists lay s', machine_ok env0 g2 lay m' s' 0.
Proof.
  destruct (queues g2 2 events0 (idle [])) as [[s' vs]|] eqn:Hq; [|discriminate Hq].
  destruct (machine_refines_queues env0 g2 machine0 [1%nat; 0%nat] events0 64 s' vs can_boot0)
    as (m' & Hrun & Hx & lay & Hok).
  - apply Permutation_swap.
  - vm_compute. congruence.
  - vm_compute. congruence.
  - exact Hq.
  - exists m'. injection Hq as <- <-. split; [exact Hrun|]. split; [exact Hx|]. eexists _, _. exact Hok.
Defined.
