(* ===== verification/Witnesses.v ===== *)
(** * The theorems at the concrete machine

    Each lemma applies a theorem to the state of [Scenario]; descriptor 5 of
    user worker 0 selects ring 1, descriptor 4 ring 0. *)
From stdpp Require Import base numbers list gmap.
From S2P Require Import Prelude Esca Ring IndirectCall Request World Kernel Preload Wrappers Rings Submit WrapperProps WorkerProps Batch Init Session Scenario.

(** ** The wrappers *)
Lemma ngx_close_submits_witness :
  can_submit env0 g0 seg 1 (HPtr 0 1) 2 (header_of seg 1) (entries_of seg 1) /\
  exists w', ngx_close env0 libc0 5 seg = Ret (0, w') /\
    submitted_to X86_64 4096 g0 seg w' 1 (HPtr 0 1) 2 (header_of seg 1) (entries_of seg 1)
      (Request 3 [5]).
Proof.
  split; [apply (can_submit_seg 1); lia|].
  apply (ngx_close_submits env0 libc0 g0 seg 5), (can_submit_seg 1). lia.
Defined.

Lemma ngx_sendfile_submits_witness :
  exists w', ngx_sendfile64 env0 libc0 9 4 17 100 seg = Ret (100, w') /\
    ngx_ktls_sendfile env0 libc0 9 4 17 100 seg = Ret (100, w') /\
    submitted_to X86_64 4096 g0 seg w' 0 (HPtr 0 0) 1 (header_of seg 0) (entries_of seg 0)
      (Request 40 [9; 4; 0; 100]).
Proof. apply (ngx_sendfile_submits env0 libc0 g0 seg 9 4 17 100), (can_submit_seg 0). lia. Defined.

Lemma ngx_tls_write_copies_payload_witness :
  exists w', ngx_tls_write env0 libc0 5 500 2 seg = Ret (2, w') /\
    0 + 2 <= MAX_POOL_SIZE /\ pool_offset (usr w') = 0 + 2 /\
    submitted_to X86_64 4096 g0 seg w' 1 (HPtr 0 1) 2 (header_of seg 1) (entries_of seg 1)
      (Request 1 [5; 1000000 + 0; 2]) /\
    forall hb, (forall y, 1000000 <= y < 1000000 + MAX_POOL_SIZE -> hb !! y = heap (mem w') !! y) ->
      read_bytes hb (1000000 + 0) 2 = Some [104; 105].
Proof.
  apply (ngx_tls_write_copies_payload env0 libc0 g0 seg 5 500 2 [104; 105]).
  - apply (can_submit_seg 1). lia.
  - vm_compute. congruence.
  - vm_compute. split; congruence.
  - vm_compute. split; congruence.
  - vm_compute. reflexivity.
Defined.

Lemma lighty_sendfile64_submits_witness :
  exists w', lighty_sendfile64 env0 libc0 5 8 17 100 seg = Ret ((100, 117), w') /\
    off_arr (usr w') !! (1, 0) = Some 17 /\
    submitted_to X86_64 4096 g0 seg w' 1 (HPtr 0 1) 2 (header_of seg 1) (entries_of seg 1)
      (Request 40 [5; 8; 5000000000 + 8 * (1 * off_row + 0); 100]).
Proof.
  apply (lighty_sendfile64_submits env0 libc0 g0 seg 5 8 17 100 (HPtr 0 1) 2 (header_of seg 1)
           (entries_of seg 1)).
  - apply (can_submit_seg 1). lia.
  - vm_compute. split; congruence.
  - vm_compute. congruence.
Defined.

Lemma wrappers_pass_through_witness :
  in_segment (usr ready) = 0 /\ ngx_close env0 libc0 5 ready = Ret (0, ready).
Proof.
  split; [reflexivity|].
  exact (proj1 (wrappers_pass_through env0 libc0 ready eq_refl) 5).
Defined.

(** ** The worker *)

(** After a [close] on descriptor 5. *)
Definition closed : world := Eval vm_compute in state_of (ngx_close env0 libc0 5) seg.

Lemma set_ok_closed :
  set_ok env0 g0 closed (layout g0 0 0)
    (enqueue (fun _ => []) 1 (request_call X86_64 (Request 3 [5]))).
Proof.
  destruct (set_submit env0 g0 seg _ _ 5 (ngx_close env0 libc0 5) 0 (Request 3 [5]) set_ok_seg)
    as (w & Hrun & Hs & _); try (vm_compute; (done || congruence || (split; congruence))).
  assert (ngx_close env0 libc0 5 seg = Ret (0, closed)) as Hr by (vm_compute; reflexivity).
  rewrite Hr in Hrun. injection Hrun as ->. exact Hs.
Qed.

Lemma worker_pass_executes_pending_witness :
  rstatus (entry_at (entries_of closed 1) (ring_slot g0 (header_of closed 1) 0)) = BENTRY_BUSY /\
  exists w', worker_pass env0 1 1 closed = Ret (true, w') /\
    drained env0 g0 closed w' 1 (HPtr 0 1) 2 (header_of closed 1) (entries_of closed 1).
Proof.
  split; [vm_compute; reflexivity|].
  destruct (ring_of_set closed _ 1 set_ok_closed) as (Hr & Hw & _); [vm_compute; split; congruence|].
  apply (worker_pass_executes_pending env0 g0 closed 1 (HPtr 0 1) 2 _ _ cfg_ok0
           (set_worker_ok env0 g0 _ _ _ 1 set_ok_closed ltac:(vm_compute; split; congruence)) Hr Hw).
  vm_compute. reflexivity.
Defined.

Lemma worker_pass_polls_empty_witness : worker_pass env0 10 0 closed = Ret (false, closed).
Proof.
  destruct (ring_of_set closed _ 0 set_ok_closed) as (Hr & Hw & _); [vm_compute; split; congruence|].
  apply (worker_pass_polls_empty env0 g0 closed 10 0 (HPtr 0 0) 1 _ _ cfg_ok0 eq_refl Hr Hw).
  vm_compute. reflexivity.
Defined.

(** ** Batches *)

(** A [send] on descriptor 4, a [shutdown] and a [close] on descriptor 5 and a
    [write] on descriptor 4. *)
Definition batch0 : list (batched env0) :=
  [Batched 4 (echo_send env0 libc0 4 500 2 0) 2 (Request 44 [4; 500; 2; 0; 0; 0]);
   Batched 5 (lighty_shutdown env0 libc0 5 1) 0 (Request 48 [5; 1]);
   Batched 5 (ngx_close env0 libc0 5) 0 (Request 3 [5]);
   Batched 4 (redis_write env0 libc0 4 500 2) 2 (Request 1 [4; 500; 2])].

Lemma batch_executes_witness :
  exists w' w'', run_batch batch0 seg = Ret ([2; 0; 0; 2], w') /\
    executed (krn w') = executed (krn seg) /\ run_passes env0 64 [1; 0] w' = Ret (tt, w'') /\
    set_ok env0 g0 w'' (layout g0 0 0) (fun _ => []) /\
    this_worker_id (usr w'') = this_worker_id (usr seg) /\ ucfg (usr w'') = ucfg (usr seg) /\
    exists cs, executed (krn w'') = executed (krn seg) ++ cs /\
      cs = concat (map (fun k => batch_calls env0 (batch_on env0 seg k batch0)) [1; 0]) /\
      cs ≡ₚ batch_calls env0 batch0.
Proof.
  apply (batch_executes env0 g0 seg (layout g0 0 0) batch0 64 [1; 0]).
  - apply set_ok_seg.
  - vm_compute. congruence.
  - constructor.
    + repeat constructor; vm_compute; congruence.
    + vm_compute. split; congruence.
    + intros k Hk. assert (k = 0 \/ k = 1) as [->| ->] by (change (0 <= k < 2) in Hk; lia);
        vm_compute; reflexivity.
  - apply Permutation_swap.
  - vm_compute. congruence.
Defined.

Lemma init_worker_ready_witness :
  exists w', init_worker env0 0 boot = Ret (tt, w') /\
    set_ok env0 g0 w' (layout g0 0 0) (fun _ => []) /\
    in_segment (usr w') = 0 /\ batch_num (usr w') = 0 /\ this_worker_id (usr w') = 0 /\
    executed (krn w') = executed (krn boot) /\ syscall_table (krn w') = syscall_table (krn boot).
Proof. apply (init_worker_ready env0 g0 0 boot init_ok0 init_pre0). vm_compute. reflexivity. Defined.

Lemma session_executes_witness :
  exists w', session env0 0 batch0 64 [1; 0] boot = Ret ([2; 0; 0; 2], w') /\
    executed (krn w') = [] ++ concat (map (calls_on env0 g0 0 batch0) [1; 0]) /\
    concat (map (calls_on env0 g0 0 batch0) [1; 0]) ≡ₚ batch_calls env0 batch0 /\
    in_segment (usr w') = 0 /\ batch_num (usr w') = 0 /\
    exists lay, set_ok env0 g0 w' lay (fun _ => []).
Proof.
  apply (session_executes env0 g0 0 boot batch0 64 [1; 0] init_ok0 init_pre0).
  - vm_compute. reflexivity.
  - reflexivity.
  - repeat constructor; vm_compute; congruence.
  - vm_compute. congruence.
  - intros k. unfold calls_on, batch_calls. rewrite length_map.
    eapply Z.le_lt_trans; [apply inj_le, length_filter|]. vm_compute. reflexivity.
  - apply Permutation_swap.
  - vm_compute. congruence.
Defined.

(** The session computed: the calls of ring 1, then those of ring 0. *)
Example session_trace :
  match session env0 0 batch0 64 [1; 0] boot with
  | Ret (vs, w) => (vs, map fst (executed (krn w)), wakeups (krn w), wq_wakeups (krn w))
  | _ => ([], [], [], [])
  end = ([2; 0; 0; 2], [48; 3; 44; 1], [0; 1], [0]).
Proof. vm_compute. reflexivity. Qed.
