(* ===== verification/SendmsgProps.v ===== *)
(** * sendmsg of memcached (wrapper/mcached.c)

    The wrapper copies the payload into the memory pool, the vector into
    [iovpool] and the message header into [msgpool], so that the worker finds
    them after the caller has reused its own. *)
From stdpp Require Import base numbers list gmap.
From S2P Require Import Prelude Esca Ring IndirectCall Request World Kernel Preload Wrappers Rings Submit WrapperProps Scenario.

(** ** What the kernel reads *)

(** [n] elements of the vector from index [i] of [iovpool] on. *)
Fixpoint read_iovs (u : preload_t) (hb : gmap Z Z) (i : Z) (n : nat) : option (list (list Z)) :=
  match n with
  | O => Some []
  | S n' =>
      v ← iovpool u !! i;
      b ← read_bytes hb (iov_base v) (Z.to_nat (iov_len v));
      l ← read_iovs u hb (i + 1) n';
      Some (b :: l)
  end.

(** The message at [msgpool[m]]. *)
Definition read_msg (u : preload_t) (hb : gmap Z Z) (m : Z) : option (list (list Z)) :=
  h ← msgpool u !! m;
  read_iovs u hb ((msg_iov h - iovpool_addr u) / sizeof_iovec) (Z.to_nat (msg_iovlen h)).

(** ** Frame of the copies *)
Record pools_only (w w' : world) : Prop := {
  po_utable : utable (usr w') = utable (usr w);
  po_ucfg : ucfg (usr w') = ucfg (usr w);
  po_id : this_worker_id (usr w') = this_worker_id (usr w);
  po_seg : in_segment (usr w') = in_segment (usr w);
  po_batch : batch_num (usr w') = batch_num (usr w);
  po_mpool : mpool (usr w') = mpool (usr w);
  po_iov : iovpool_addr (usr w') = iovpool_addr (usr w);
  po_msg : msgpool (usr w') = msgpool (usr w) /\ msgpool_addr (usr w') = msgpool_addr (usr w) /\
           msg_offset (usr w') = msg_offset (usr w);
  po_krn : krn w' = krn w;
  po_hpages : hpages (mem w') = hpages (mem w);
  po_regions : regions (mem w') = regions (mem w)
}.

#[export] Instance pools_only_refl : Reflexive pools_only.
Proof. by constructor. Qed.
#[export] Instance pools_only_trans : Transitive pools_only.
Proof. intros w1 w2 w3 [] []. destr. constructor; split_and?; congruence. Qed.

Lemma land_mask x : 0 <= x < MAX_POOL_IOV_SIZE -> Z.land x IOV_MASK = x.
Proof.
  intros Hx. change IOV_MASK with (Z.ones 10). rewrite Z.land_ones by lia.
  apply Z.mod_small. done.
Qed.

(** ** One element *)
Lemma copy_iov_run w v b :
  mpool (usr w) <> 0 -> 0 <= pool_offset (usr w) -> 0 <= iov_len v <= INT_MAX ->
  pool_offset (usr w) + iov_len v <= MAX_POOL_SIZE ->
  0 <= iov_offset (usr w) < MAX_POOL_IOV_SIZE ->
  read_bytes (heap (mem w)) (iov_base v) (Z.to_nat (iov_len v)) = Some b ->
  exists w', copy_iov v w = Ret (iov_len v, w') /\ pools_only w w' /\
    pool_offset (usr w') = pool_offset (usr w) + iov_len v /\
    iov_offset (usr w') = iov_offset (usr w) + 1 /\
    iovpool (usr w') = <[iov_offset (usr w) := IoVec (mpool (usr w) + pool_offset (usr w)) (iov_len v)]>
                         (iovpool (usr w)) /\
    heap (mem w') = write_bytes (heap (mem w)) (mpool (usr w) + pool_offset (usr w)) b.
Proof.
  intros Hm Ho Hl Hfit Hi Hb. unfold copy_iov.
  rewrite to_int_id by (unfold INT_MIN, INT_MAX in *; lia).
  assert (0 <= pool_offset (usr w) <= MAX_POOL_SIZE) as Ho' by lia.
  assert (0 <= iov_len v <= MAX_POOL_SIZE) as Hl' by lia.
  mrun (pool_reserve_run w (iov_len v) Ho' Hl').
  assert (pool_start (pool_offset (usr w)) (iov_len v) = pool_offset (usr w)) as Hst.
  { unfold pool_start. destruct (Z.ltb_spec MAX_POOL_SIZE (pool_offset (usr w) + iov_len v)); lia. }
  rewrite Hst. set (w0 := with_usr _ w).
  mrun (pool_memcpy_run w0 (iov_base v) (iov_len v) b Hm Ho (proj1 Hl) Hfit Hb).
  set (w1 := with_mem _ w0).
  rewrite (bind_eq (modify _) _ w1 tt _ eq_refl). set (w2 := with_usr _ w1).
  unfold pool_here. rewrite (bind_eq (gets _) _ w2 _ _ eq_refl).
  rewrite (bind_eq (modify _) _ w2 tt _ eq_refl). unfold pool_advance.
  rewrite (bind_eq (modify _) _ _ tt _ eq_refl). eexists. split; [reflexivity|]. simpl.
  rewrite land_mask by done. unfold MAX_POOL_SIZE, MAX_POOL_IOV_SIZE in *.
  split; [by constructor|]. rewrite (to_ull_id (iov_len v)), !to_ull_id by lia. done.
Qed.

(** ** The whole vector *)
Definition total (l : list iovec) : Z := foldr (fun v n => iov_len v + n) 0 l.

Lemma total_nonneg l : Forall (fun v => 0 <= iov_len v) l -> 0 <= total l.
Proof. induction 1; simpl; lia. Qed.

(** The sources of the copies: readable, and outside of the pool. *)
Definition sources_ok (w : world) (l : list iovec) (bs : list (list Z)) : Prop :=
  Forall2 (fun v b => read_bytes (heap (mem w)) (iov_base v) (Z.to_nat (iov_len v)) = Some b /\
             0 <= iov_len v /\
             (iov_base v + iov_len v <= mpool (usr w) \/
              mpool (usr w) + MAX_POOL_SIZE <= iov_base v)) l bs.

Lemma sources_total w l bs : sources_ok w l bs -> 0 <= total l.
Proof. induction 1 as [|v b l bs (? & ? & ?)]; simpl; lia. Qed.

Lemma read_iovs_ext u u' hb hb' i n ps :
  read_iovs u hb i n = Some ps ->
  (forall k, i <= k < i + Z.of_nat n -> iovpool u' !! k = iovpool u !! k) ->
  (forall k v, i <= k < i + Z.of_nat n -> iovpool u !! k = Some v ->
     forall y, iov_base v <= y < iov_base v + iov_len v -> hb' !! y = hb !! y) ->
  read_iovs u' hb' i n = Some ps.
Proof.
  revert i ps. induction n as [|n IH]; intros i ps Hr Hi Hh; simpl in *; [done|].
  rewrite (Hi i) by lia. destruct (iovpool u !! i) as [v|] eqn:Hv; simpl in *; [|done].
  rewrite (read_bytes_ext hb hb').
  2: { intros y Hy. apply (Hh i v); [lia|done|]. destruct (Z.le_ge_cases 0 (iov_len v)); lia. }
  destruct (read_bytes hb (iov_base v) (Z.to_nat (iov_len v))) as [b|]; simpl in *; [|done].
  destruct (read_iovs u hb (i + 1) n) as [l|] eqn:Hl; simpl in *; [|done].
  rewrite (IH (i + 1) l); [done..| |].
  - intros k Hk. apply Hi. lia.
  - intros k v' Hk. apply Hh. lia.
Qed.

(** What the copy of a vector leaves. *)
Record copied (w w' : world) (l : list iovec) (bs : list (list Z)) : Prop := {
  cp_frame : pools_only w w';
  cp_pool : pool_offset (usr w') = pool_offset (usr w) + total l;
  cp_iov : iov_offset (usr w') = iov_offset (usr w) + Z.of_nat (length l);
  cp_below : forall k, k < iov_offset (usr w) -> iovpool (usr w') !! k = iovpool (usr w) !! k;
  cp_heap : forall y, y < mpool (usr w) + pool_offset (usr w) \/
                      mpool (usr w) + pool_offset (usr w) + total l <= y ->
              heap (mem w') !! y = heap (mem w) !! y;
  cp_read : read_iovs (usr w') (heap (mem w')) (iov_offset (usr w)) (length l) = Some bs;
  cp_within : forall k v, iov_offset (usr w) <= k < iov_offset (usr w) + Z.of_nat (length l) ->
    iovpool (usr w') !! k = Some v ->
    mpool (usr w) + pool_offset (usr w) <= iov_base v /\
    iov_base v + iov_len v <= mpool (usr w) + pool_offset (usr w) + total l
}.

Lemma copied_nil w : copied w w [] [].
Proof. constructor; simpl; done || lia. Qed.

(** The rest of the vector does not disturb the first element. *)
Lemma copied_cons w w1 w' v l b bs :
  0 <= iov_len v -> 0 <= total l -> length b = Z.to_nat (iov_len v) ->
  pools_only w w1 ->
  pool_offset (usr w1) = pool_offset (usr w) + iov_len v ->
  iov_offset (usr w1) = iov_offset (usr w) + 1 ->
  iovpool (usr w1) = <[iov_offset (usr w) := IoVec (mpool (usr w) + pool_offset (usr w)) (iov_len v)]>
                       (iovpool (usr w)) ->
  heap (mem w1) = write_bytes (heap (mem w)) (mpool (usr w) + pool_offset (usr w)) b ->
  copied w1 w' l bs -> copied w w' (v :: l) (b :: bs).
Proof.
  intros Hv Hl Hb Hf Hp Hi Hio Hh [C1 C2 C3 C4 C5 C6 C7]. pose proof (po_mpool _ _ Hf) as Hm.
  assert (iovpool (usr w') !! iov_offset (usr w)
          = Some (IoVec (mpool (usr w) + pool_offset (usr w)) (iov_len v))) as Hfirst.
  { rewrite C4 by lia. rewrite Hio. apply lookup_insert_eq. }
  constructor; simpl.
  - by transitivity w1.
  - lia.
  - lia.
  - intros k Hk. rewrite C4 by lia. rewrite Hio. by rewrite lookup_insert_ne by lia.
  - intros y Hy. rewrite C5 by (rewrite Hm, Hp; lia). rewrite Hh.
    apply write_bytes_outside. rewrite Hb. lia.
  - rewrite Hfirst; simpl. rewrite (read_bytes_ext (heap (mem w1))).
    2: { intros y Hy. apply C5. rewrite Hm, Hp. lia. }
    rewrite Hh, <- Hb, read_write_bytes; simpl. rewrite <- Hi, C6. done.
  - intros k v' Hk Hv'. destruct (decide (k = iov_offset (usr w))) as [->|Hne].
    + rewrite Hfirst in Hv'. injection Hv' as <-. simpl. lia.
    + destruct (C7 k v' ltac:(lia) Hv'). rewrite Hm, Hp in *. lia.
Qed.

Lemma sources_ok_cons w w1 v l b bs :
  sources_ok w (v :: l) (b :: bs) -> 0 <= pool_offset (usr w) ->
  pool_offset (usr w) + iov_len v <= MAX_POOL_SIZE -> mpool (usr w1) = mpool (usr w) ->
  heap (mem w1) = write_bytes (heap (mem w)) (mpool (usr w) + pool_offset (usr w)) b ->
  sources_ok w1 l bs.
Proof.
  intros Hs Ho Hfit Hm Hh. apply Forall2_cons in Hs as [(Hb & Hv & Hd) Hs].
  pose proof (read_bytes_length _ _ _ _ Hb) as Hbl.
  eapply Forall2_impl; [exact Hs|]. intros v' b' (H1 & H2 & H3). rewrite Hm. split_and!; [|done..].
  rewrite <- H1. apply read_bytes_ext. intros y Hy. rewrite Hh. apply write_bytes_outside. lia.
Qed.

Lemma copy_iovs_run l : forall w bs res,
  mpool (usr w) <> 0 -> 0 <= pool_offset (usr w) ->
  pool_offset (usr w) + total l <= MAX_POOL_SIZE -> 0 <= iov_offset (usr w) ->
  iov_offset (usr w) + Z.of_nat (length l) <= MAX_POOL_IOV_SIZE ->
  sources_ok w l bs -> 0 <= res -> res + total l <= INT_MAX ->
  exists w', copy_iovs l res w = Ret (res + total l, w') /\ copied w w' l bs.
Proof.
  induction l as [|v l IH]; intros w bs res Hm Ho Hfit Hi Hiov Hs Hres Hsum; simpl in *.
  - apply Forall2_nil_inv_l in Hs as ->. exists w. rewrite Z.add_0_r. split; [done|apply copied_nil].
  - pose proof Hs as Hs0. inversion Hs as [|? b ? bs' (Hb & Hv & Hd) Hs']; subst.
    pose proof (sources_total _ _ _ Hs') as Ht.
    destruct (copy_iov_run w v b) as (w1 & Hrun & Hf & Hp & Hio & Hpool & Hh); try done; [lia..|].
    pose proof (po_mpool _ _ Hf) as Hm1.
    destruct (IH w1 bs' (res + iov_len v)) as (w' & Hrun' & Hc); try (rewrite ?Hm1, ?Hp, ?Hio; (done || lia)).
    { apply (sources_ok_cons w w1 v l b bs'); done || lia. }
    exists w'. split.
    + mrun Hrun. unfold int_result. rewrite (proj2 (in_int_spec (res + iov_len v))) by (unfold INT_MIN; lia).
      rewrite bind_ret_l, Hrun'. do 2 f_equal. lia.
    + eapply copied_cons; try done. by eapply read_bytes_length.
Qed.

Lemma ring_at_pools w w' idx hp rg h es :
  ring_at w idx hp rg h es -> pools_only w w' -> ring_at w' idx hp rg h es.
Proof. intros Hr Hf. eapply ring_at_usr; [done|apply Hf..]. Qed.

Lemma msg_mask x : 0 <= Z.land x MSG_MASK < MAX_POOL_MSG_SIZE.
Proof.
  change MSG_MASK with (Z.ones 10). rewrite Z.land_ones by lia. by apply Z.mod_pos_bound.
Qed.
Lemma iov_mask x : 0 <= Z.land x IOV_MASK < MAX_POOL_IOV_SIZE.
Proof.
  change IOV_MASK with (Z.ones 10). rewrite Z.land_ones by lia. by apply Z.mod_pos_bound.
Qed.

(** C12: inside of a segment [sendmsg] (mcached.c) returns the number of bytes
    of the message and submits a [sendmsg] of the header in [msgpool]; whatever
    the application then writes outside of the pool, the kernel reads from that
    header the payloads the caller's vector had, provided the copy wraps around
    neither the memory pool nor [iovpool]. *)
Theorem mcached_sendmsg_copies E L g w sockfd iov mflags fl bs hp rg h es :
  can_submit E g w (ring_index w sockfd) hp rg h es ->
  mpool (usr w) <> 0 -> 0 <= pool_offset (usr w) ->
  pool_offset (usr w) + total iov <= MAX_POOL_SIZE ->
  Z.land (iov_offset (usr w)) IOV_MASK + Z.of_nat (length iov) <= MAX_POOL_IOV_SIZE ->
  sources_ok w iov bs ->
  let m := Z.land (msg_offset (usr w)) MSG_MASK in
  exists w', mcached_sendmsg E L sockfd iov mflags fl w = Ret (total iov, w') /\
    submitted_to (e_arch E) (page_size E) g w w' (ring_index w sockfd) hp rg h es
      (Request (__ESCA_sendmsg (syscalls_of (e_arch E)))
         [sockfd; msgpool_addr (usr w) + sizeof_msghdr * m; fl]) /\
    forall hb, (forall y, mpool (usr w) <= y < mpool (usr w) + MAX_POOL_SIZE ->
                  hb !! y = heap (mem w') !! y) ->
      read_msg (usr w') hb m = Some bs.
Proof.
  intros Hcs Hm Ho Hfit Hiov Hsrc m. unfold mcached_sendmsg.
  rewrite (rest_in_seg _ _ _ _ _ _ _ _ _ _ Hcs). pose proof (sources_total _ _ _ Hsrc) as Htot.
  mrun (prologue_run _ _ _ _ _ _ _ _ Hcs). cbn beta iota. set (w0 := with_usr _ w).
  pose proof Hcs as [Hg Hcf Hs Hr Hw Hu Hb]. set (i0 := Z.land (iov_offset (usr w)) IOV_MASK) in *.
  pose proof (iov_mask (iov_offset (usr w))) as Hi0. fold i0 in Hi0.
  set (w1 := with_usr (fun u => put_iov_offset i0 (put_msg_offset m u)) w0).
  rewrite (bind_eq (modify _) _ w0 tt w1) by done.
  rewrite (bind_eq (gets _) _ w1 i0 w1).
  2: { unfold gets; simpl. rewrite to_int_id; [done|]. unfold INT_MIN, INT_MAX, MAX_POOL_IOV_SIZE in *. lia. }
  assert (to_int (Z.of_nat (length iov)) = Z.of_nat (length iov)) as Hlen.
  { apply to_int_id. unfold INT_MIN, INT_MAX, MAX_POOL_IOV_SIZE in *. lia. }
  cbv zeta. rewrite Hlen, Nat2Z.id, firstn_all, to_ull_id by (unfold MAX_POOL_IOV_SIZE in *; lia).
  destruct (copy_iovs_run iov w1 bs 0 Hm Ho Hfit (proj1 Hi0) Hiov Hsrc ltac:(lia))
    as (w2 & Hcopy & [C1 C2 C3 C4 C5 C6 C7]); [unfold INT_MAX, MAX_POOL_SIZE in *; lia|].
  mrun Hcopy. rewrite Z.add_0_l. destruct (po_msg _ _ C1) as (Hmp & Hma & Hmo).
  set (mh := MsgHdr 0 0 (iovpool_addr (usr w) + sizeof_iovec * i0) (Z.of_nat (length iov)) 0 0 mflags).
  set (w3 := with_usr (fun u => put_msgpool (<[m := mh]> (msgpool u)) (msgpool_addr u) m u) w2).
  rewrite (bind_eq (modify _) _ w2 tt w3).
  2: { unfold modify, with_usr, w3, mh. by rewrite Hmo, (po_iov _ _ C1). }
  set (ma := msgpool_addr (usr w) + sizeof_msghdr * m).
  rewrite (bind_eq (gets _) _ w3 ma w3) by (unfold gets; simpl; by rewrite Hma).
  assert (ring_at w3 (ring_index w sockfd) hp rg h es) as Hr3.
  { eapply (ring_at_usr w2); try done. eapply ring_at_pools; [|exact C1]. by eapply ring_at_usr. }
  destruct (submit_core E g Hg w3 _ _ _ _ _
              (Request (__ESCA_sendmsg (syscalls_of (e_arch E))) [sockfd; ma; fl])
              Hr3 Hw Hu) as (e & Hfill & Hw4 & Hrel & Hw6 & Hu6 & Hp & Hat); [simpl; lia|].
  cbn [rq_num rq_args] in Hfill. mrun Hfill. set (w4 := put_entries rg _ w3) in *.
  set (w5 := with_usr (fun u => put_msg_offset (to_ull (msg_offset u + 1)) u) w4).
  rewrite (bind_eq (modify _) _ w4 tt w5) by done.
  assert (ring_at w5 (ring_index w sockfd) hp rg h _) as Hr5
    by (by eapply (ring_at_usr w4); [eapply ring_at_put_entries|..]).
  assert (ucfg (usr w5) = g) as Hc5 by (simpl; by rewrite (po_ucfg _ _ C1)).
  mrun (update_index_run E g Hg w5 _ _ _ _ _ Hc5 Hr5 Hw4 Hu). set (w6 := put_header hp _ w5) in *.
  assert (ring_at w6 (ring_index w sockfd) hp rg (advanced g h) _) as Hr6
    by (by eapply ring_at_put_header).
  mrun (Hrel _ Hr6). eexists. split; [reflexivity|]. split.
  - eapply submitted_intro; try done; try apply C1.
    + by eapply ring_at_put_entries.
    + intros hp' rg' h' es' Hhp Hrg Hoth. apply ring_mem_put_entries_ne; [done|].
      eapply ring_mem_put_header_ne; [apply Hr5|done|]. eapply (ring_mem_same w4); try done.
      apply ring_mem_put_entries_ne; [done|]. eapply (ring_mem_same w2); try done.
      eapply (ring_mem_same w); [done|apply C1..].
  - intros hb Hhb. unfold read_msg. simpl. rewrite lookup_insert_eq; simpl.
    rewrite (po_iov _ _ C1). simpl iovpool_addr.
    replace (iovpool_addr (usr w) + sizeof_iovec * i0 - iovpool_addr (usr w)) with (i0 * sizeof_iovec) by lia.
    rewrite Z.div_mul by done. rewrite Nat2Z.id.
    eapply read_iovs_ext; [exact C6|done|]. intros k v Hk Hv y Hy. rewrite Hhb.
    + change (heap (mem w6) !! y = heap (mem w2) !! y). unfold w6. by rewrite heap_put_header.
    + destruct (C7 k v Hk Hv) as [H1 H2]. simpl in H1, H2. lia.
Qed.

Lemma mcached_sendmsg_copies_witness :
  exists w', mcached_sendmsg env0 libc0 5 [IoVec 500 1; IoVec 501 1] 0 64 seg = Ret (2, w') /\
    submitted_to X86_64 4096 g0 seg w' 1 (HPtr 0 1) 2 (header_of seg 1) (entries_of seg 1)
      (Request 46 [5; 2000020000 + sizeof_msghdr * 0; 64]) /\
    forall hb, (forall y, 1000000 <= y < 1000000 + MAX_POOL_SIZE -> hb !! y = heap (mem w') !! y) ->
      read_msg (usr w') hb 0 = Some [[104]; [105]].
Proof.
  apply (mcached_sendmsg_copies env0 libc0 g0 seg 5 [IoVec 500 1; IoVec 501 1] 0 64 [[104]; [105]]).
  - apply (can_submit_seg 1). lia.
  - vm_compute. congruence.
  - vm_compute. congruence.
  - vm_compute. congruence.
  - vm_compute. congruence.
  - repeat constructor; vm_compute; first [reflexivity | congruence | left; congruence].
Defined.

(** ** The vector does not wrap around with [iovpool] *)
Definition seg_end : world := Eval vm_compute in with_usr (put_iov_offset 1023) seg.

(** C35: with [iov_offset = 1023] a vector of two elements is stored at
    [iovpool[1023]] and [iovpool[0]], but the message says that it starts at
    [&iovpool[1023]] and has two elements: the kernel reads past the end of
    [iovpool]. *)
Theorem sendmsg_iov_wrap_unsound :
  exists w' mh, mcached_sendmsg env0 libc0 5 [IoVec 500 1; IoVec 501 1] 0 64 seg_end = Ret (2, w') /\
    msgpool (usr w') !! 0 = Some mh /\
    msg_iov mh + sizeof_iovec * msg_iovlen mh > iovpool_addr (usr w') + sizeof_iovec * MAX_POOL_IOV_SIZE /\
    iovpool (usr w') !! 0 = Some (IoVec 1000001 1) /\
    read_msg (usr w') (heap (mem w')) 0 = None.
Proof.
  eexists _, _. split; [vm_compute; reflexivity|]. split; [vm_compute; reflexivity|].
  vm_compute. done.
Qed.
