(* ===== verification/Writev.v ===== *)
(** * writev of lighttpd (wrapper/lighty.c, the branch under #else)

    The alternative to [sendfile64]: the payload is copied into the memory pool
    and the vector into [iovpool].  Unlike [sendmsg] of mcached.c it starts the
    vector at the beginning of [iovpool] when it would reach the end, so the
    kernel always finds it in one piece. *)
From stdpp Require Import base numbers list gmap.
From S2P Require Import Prelude Esca Ring IndirectCall Request World Kernel Preload Wrappers Rings Submit WrapperProps Scenario SendmsgProps.

(** [__NR_writev] of <asm/unistd.h> *)
Definition __NR_writev (a : arch) : Z := match a with X86_64 => 20 | AArch64 => 66 end.

(** ** The wrapper *)

(** One iteration of the loop; [iovpool] has [MAX_POOL_IOV_SIZE] elements. *)
Definition writev_iov (v : iovec) : MW Z :=
  let ll := to_int (iov_len v) in
  do! pool_reserve ll in
  do! pool_memcpy (iov_base v) ll in
  let! here := pool_here in
  let! o := gets (fun w => iov_offset (usr w)) in
  if o <? MAX_POOL_IOV_SIZE then
    do! modify (with_usr (fun u =>
          put_iovpool (<[iov_offset u := IoVec here ll]> (iovpool u))
            (iovpool_addr u) (to_ull (iov_offset u + 1)) u)) in
    do! pool_advance ll in
    ret ll
  else fail BufferOverflow.

Fixpoint writev_iovs (l : list iovec) (len : Z) : MW Z :=
  match l with
  | [] => ret len
  | v :: l' =>
      let! ll := writev_iov v in
      let! r := int_result (len + ll) in
      writev_iovs l' r
  end.

(** Where a vector of [cnt] elements starts. *)
Definition writev_start (o cnt : Z) : Z := if MAX_POOL_IOV_SIZE <=? to_ull (o + cnt) then 0 else o.

Definition lighty_writev (E : env) (real_writev : Z -> list iovec -> MW Z) (fd : Z) (iov : list iovec) : MW Z :=
  let! seg := in_seg in
  if negb seg then real_writev fd iov
  else
    let! t := prologue fd in let '(idx, (i, j)) := t in
    do! modify (with_usr (fun u => put_iov_offset (writev_start (iov_offset u) (Z.of_nat (length iov))) u)) in
    let! start_iov_index := gets (fun w => iov_offset (usr w)) in
    let! len := writev_iovs iov 0 in
    let! a := gets (fun w => iovpool_addr (usr w) + sizeof_iovec * start_iov_index) in
    do! fill_entry idx i j (__NR_writev (e_arch E)) [fd; a; Z.of_nat (length iov)] in
    do! update_index idx in
    do! release idx i j in
    ret len.

(** ** The loop is that of [sendmsg] while [iovpool] has room *)
Lemma pool_reserve_iov n w x w' : pool_reserve n w = Ret (x, w') -> iov_offset (usr w') = iov_offset (usr w).
Proof. unfold pool_reserve, bind, get, modify, ret. destruct (_ <? _); by intros [= _ <-]. Qed.

Lemma pool_memcpy_iov s n w x w' : pool_memcpy s n w = Ret (x, w') -> iov_offset (usr w') = iov_offset (usr w).
Proof.
  unfold pool_memcpy, bind, get, fail, from_option_M, modify, ret. destruct (_ =? 0); [done|].
  destruct (_ <? _); [done|]. destruct (read_bytes _ _ _); [|done]. by intros [= _ <-].
Qed.

(** Both iterations after the payload is in the pool. *)
Lemma writev_iov_copy v w :
  0 <= iov_offset (usr w) < MAX_POOL_IOV_SIZE ->
  writev_iov v w = copy_iov v w /\
  forall x w', copy_iov v w = Ret (x, w') -> iov_offset (usr w') = iov_offset (usr w) + 1.
Proof.
  intros Ho. unfold writev_iov, copy_iov.
  destruct (pool_reserve (to_int (iov_len v)) w) as [[[] w1]|f|] eqn:E1.
  2, 3: unfold bind; by rewrite E1.
  rewrite !(bind_eq _ _ _ _ _ E1). apply pool_reserve_iov in E1.
  destruct (pool_memcpy (iov_base v) (to_int (iov_len v)) w1) as [[[] w2]|f|] eqn:E2.
  2, 3: unfold bind; by rewrite E2.
  rewrite !(bind_eq _ _ _ _ _ E2). apply pool_memcpy_iov in E2.
  assert (iov_offset (usr w2) = iov_offset (usr w)) as E3 by congruence.
  destruct w2 as [u2 k2 m2 al2]. destruct u2 as [? ? ? ? ? ? ? ? ? ? ? o ? ? ? ? ?]. simpl in E3. rewrite <- E3 in Ho |- *. clear E1 E2 E3 w1 w.
  unfold pool_here, pool_advance, gets, modify, bind, ret, with_usr, put_iov_offset. simpl. rewrite land_mask by done.
  destruct (Z.ltb_spec o MAX_POOL_IOV_SIZE); [|lia].
  split; [done|]. intros x w' [= _ <-]. simpl. apply to_ull_id. unfold MAX_POOL_IOV_SIZE in *. lia.
Qed.

Lemma writev_iovs_copy l : forall len w,
  0 <= iov_offset (usr w) -> iov_offset (usr w) + Z.of_nat (length l) <= MAX_POOL_IOV_SIZE ->
  writev_iovs l len w = copy_iovs l len w.
Proof.
  induction l as [|v l IH]; intros len w Ho Hl; simpl in *; [done|].
  destruct (writev_iov_copy v w ltac:(lia)) as [Heq Hnext]. unfold bind. rewrite Heq.
  destruct (copy_iov v w) as [[ll w1]|f|]; try done. specialize (Hnext _ _ eq_refl).
  unfold int_result. destruct (in_int (len + ll)); [|done]. apply IH; lia.
Qed.

(** ** What the kernel finds *)
Lemma writev_start_range o cnt :
  0 <= o < MAX_POOL_IOV_SIZE -> 0 <= cnt < MAX_POOL_IOV_SIZE ->
  0 <= writev_start o cnt /\ writev_start o cnt + cnt < MAX_POOL_IOV_SIZE.
Proof.
  unfold writev_start, MAX_POOL_IOV_SIZE. intros Ho Hc. rewrite to_ull_id by lia.
  destruct (Z.leb_spec 1024 (o + cnt)); lia.
Qed.

(** C36: inside of a segment, for a vector of fewer elements than [iovpool] has and
    with room for its bytes between [pool_offset] and the end of the memory pool,
    [writev] returns the number of bytes and submits a
    [writev] of a vector in [iovpool] that lies within [iovpool] in one piece,
    wherever the previous vector ended; whatever the application then writes
    outside of the memory pool, the kernel reads the payloads the caller's vector
    had.  The next call finds [iov_offset] in range again. *)
Theorem lighty_writev_copies E real_writev g w fd iov bs hp rg h es :
  can_submit E g w (ring_index w fd) hp rg h es ->
  mpool (usr w) <> 0 -> 0 <= pool_offset (usr w) -> pool_offset (usr w) + total iov <= MAX_POOL_SIZE ->
  0 <= iov_offset (usr w) < MAX_POOL_IOV_SIZE -> Z.of_nat (length iov) < MAX_POOL_IOV_SIZE ->
  sources_ok w iov bs ->
  let start := writev_start (iov_offset (usr w)) (Z.of_nat (length iov)) in
  exists w', lighty_writev E real_writev fd iov w = Ret (total iov, w') /\
    0 <= start /\ iov_offset (usr w') = start + Z.of_nat (length iov) /\ iov_offset (usr w') < MAX_POOL_IOV_SIZE /\
    submitted_to (e_arch E) (page_size E) g w w' (ring_index w fd) hp rg h es
      (Request (__NR_writev (e_arch E))
         [fd; iovpool_addr (usr w) + sizeof_iovec * start; Z.of_nat (length iov)]) /\
    forall hb, (forall y, mpool (usr w) <= y < mpool (usr w) + MAX_POOL_SIZE -> hb !! y = heap (mem w') !! y) ->
      read_iovs (usr w') hb start (length iov) = Some bs.
Proof.
  intros Hcs Hm Ho Hfit Hi Hn Hsrc start. unfold lighty_writev.
  rewrite (rest_in_seg _ _ _ _ _ _ _ _ _ _ Hcs). pose proof (sources_total _ _ _ Hsrc) as Htot.
  mrun (prologue_run _ _ _ _ _ _ _ _ Hcs). cbn beta iota. set (w0 := with_usr _ w).
  pose proof Hcs as [Hg Hcf Hs Hr Hw Hu Hb]. destruct (writev_start_range _ _ Hi (conj (Zle_0_nat _) Hn)) as [S1 S2].
  fold start in S1, S2. set (w1 := with_usr (put_iov_offset start) w0).
  rewrite (bind_eq (modify _) _ w0 tt w1) by done.
  rewrite (bind_eq (gets _) _ w1 start w1) by done.
  destruct (copy_iovs_run iov w1 bs 0 Hm Ho Hfit S1 ltac:(simpl; lia) Hsrc ltac:(lia))
    as (w2 & Hcopy & [C1 C2 C3 C4 C5 C6 C7]); [unfold INT_MAX, MAX_POOL_SIZE in *; lia|].
  rewrite <- writev_iovs_copy in Hcopy by (simpl; lia). mrun Hcopy. rewrite Z.add_0_l.
  rewrite (bind_eq (gets _) _ w2 (iovpool_addr (usr w) + sizeof_iovec * start) w2)
    by (unfold gets; by rewrite (po_iov _ _ C1)).
  assert (ring_at w2 (ring_index w fd) hp rg h es) as Hr2.
  { eapply ring_at_pools; [|exact C1]. by eapply ring_at_usr. }
  destruct (submit_core E g Hg w2 _ _ _ _ _
              (Request (__NR_writev (e_arch E)) [fd; iovpool_addr (usr w) + sizeof_iovec * start; Z.of_nat (length iov)])
              Hr2 Hw Hu) as (e & Hfill & Hw3 & Hrel & Hw5 & Hu5 & Hp & Hat); [simpl; lia|].
  cbn [rq_num rq_args] in Hfill. mrun Hfill. set (w3 := put_entries rg _ w2) in *.
  assert (ring_at w3 (ring_index w fd) hp rg h _) as Hr3 by (by eapply ring_at_put_entries).
  assert (ucfg (usr w3) = g) as Hc3 by (simpl; by rewrite (po_ucfg _ _ C1)).
  mrun (update_index_run E g Hg w3 _ _ _ _ _ Hc3 Hr3 Hw3 Hu). set (w4 := put_header hp _ w3) in *.
  assert (ring_at w4 (ring_index w fd) hp rg (advanced g h) _) as Hr4 by (by eapply ring_at_put_header).
  mrun (Hrel _ Hr4). eexists. split; [reflexivity|]. split; [done|]. split; [done|]. split; [simpl in *; lia|]. split.
  - eapply submitted_intro; try done; try apply C1.
    + by eapply ring_at_put_entries.
    + intros hp' rg' h' es' Hhp Hrg Hoth. apply ring_mem_put_entries_ne; [done|].
      eapply ring_mem_put_header_ne; [apply Hr3|done|]. apply ring_mem_put_entries_ne; [done|].
      eapply (ring_mem_same w); [done|apply C1..].
  - intros hb Hhb. eapply read_iovs_ext; [exact C6|done|]. intros k v Hk Hv y Hy. rewrite Hhb.
    + change (heap (mem w4) !! y = heap (mem w2) !! y). unfold w4. by rewrite heap_put_header.
    + destruct (C7 k v Hk Hv) as [H1 H2]. simpl in H1, H2. lia.
Qed.

(** The vector of [sendmsg_iov_wrap_unsound]: it is stored from index 0 on. *)
Lemma lighty_writev_copies_witness :
  exists w', lighty_writev env0 (fun _ _ => ret 0) 5 [IoVec 500 1; IoVec 501 1] seg_end = Ret (2, w') /\
    0 <= 0 /\ iov_offset (usr w') = 0 + 2 /\ iov_offset (usr w') < MAX_POOL_IOV_SIZE /\
    submitted_to X86_64 4096 g0 seg_end w' 1 (HPtr 0 1) 2 (header_of seg_end 1) (entries_of seg_end 1)
      (Request 20 [5; 2000000000 + sizeof_iovec * 0; 2]) /\
    forall hb, (forall y, 1000000 <= y < 1000000 + MAX_POOL_SIZE -> hb !! y = heap (mem w') !! y) ->
      read_iovs (usr w') hb 0 2 = Some [[104]; [105]].
Proof.
  apply (lighty_writev_copies env0 (fun _ _ => ret 0) g0 seg_end 5 [IoVec 500 1; IoVec 501 1] [[104]; [105]]).
  - destruct (can_submit_seg 1 ltac:(lia)) as [A1 A2 A3 [R1 R2 R3 R4] A5 A6 A7]. by constructor.
  - vm_compute. congruence.
  - vm_compute. congruence.
  - vm_compute. congruence.
  - vm_compute. split; congruence.
  - vm_compute. reflexivity.
  - repeat constructor; vm_compute; first [reflexivity | congruence | left; congruence].
Defined.
