(* ===== verification/Limits.v ===== *)
(** * Limits of the design

    Exact conditions under which the pieces fit together: the two views of a
    ring, the full test, the page of headers, the end of a segment. *)
From stdpp Require Import base numbers list gmap.
From S2P Require Import Prelude Esca Ring IndirectCall Request World Kernel Preload Wrappers Rings Submit WrapperProps WorkerProps Batch Init Session Scenario Witnesses.

(** ** Indices *)

(** The producer's and the consumer's way of stepping a position are the
    same function, the successor modulo the number of entries; the [short]s of
    the header never overflow. *)
Theorem indices_step_alike MTE MTL i j :
  0 < MTE -> 0 < MTL -> MTE * MTL <= SHRT_MAX -> in_ring MTE MTL (i, j) ->
  update_index_next MTE MTL i j = worker_next MTE MTL i j /\
  in_ring MTE MTL (worker_next MTE MTL i j) /\
  lin MTE (worker_next MTE MTL i j) = (lin MTE (i, j) + 1) `mod` (MTE * MTL).
Proof.
  intros HE HL HS Hin. split_and!.
  - by apply update_index_next_worker.
  - by apply worker_next_in_ring.
  - by apply worker_next_lin.
Qed.

Lemma indices_step_alike_witness :
  update_index_next 64 10 9 63 = worker_next 64 10 9 63 /\ in_ring 64 10 (worker_next 64 10 9 63) /\
  lin 64 (worker_next 64 10 9 63) = (lin 64 (9, 63) + 1) `mod` (64 * 10).
Proof.
  apply (indices_step_alike 64 10 9 63); [done|done|vm_compute; congruence|].
  split; simpl; lia.
Defined.

(** The [submitted] the worker computes from head and tail, a [short], is
    the number of steps from the head to the tail. *)
Theorem submitted_is_distance MTE MTL h n :
  0 < MTE -> 0 < MTL -> MTE * MTL <= SHRT_MAX -> 0 <= n < MTE * MTL ->
  let t := pos MTE MTL (h + n) in
  submitted_count MTE MTL (pos MTE MTL h).1 (pos MTE MTL h).2 t.1 t.2 = n.
Proof.
  intros HE HL HS Hn t. rewrite submitted_count_dist;
    try done; rewrite <- ?surjective_pairing; try by apply pos_in_ring.
  by apply dist_pos.
Qed.

Lemma submitted_is_distance_witness :
  submitted_count 64 10 (pos 64 10 600).1 (pos 64 10 600).2 (pos 64 10 (600 + 100)).1
    (pos 64 10 (600 + 100)).2 = 100.
Proof. apply (submitted_is_distance 64 10 600 100); vm_compute; (done || (split; congruence)). Defined.

(** C25: the waiting loop of [update_index] stops the producer exactly when all
    entries but one are pending and the head is not the first entry of a table:
    with the head at the first entry the test never holds. *)
Theorem full_test_exact MTE MTL ht he tt te :
  0 < MTE -> 0 < MTL -> in_ring MTE MTL (ht, he) -> in_ring MTE MTL (tt, te) ->
  update_index_full ht he tt te = true <->
  he <> 0 /\ dist MTE MTL (ht, he) (tt, te) = MTE * MTL - 1.
Proof. intros HE HL Hh Ht. by apply update_index_full_spec. Qed.

Lemma full_test_exact_witness :
  update_index_full 3 5 3 4 = true <-> 5 <> 0 /\ dist 64 10 (3, 5) (3, 4) = 64 * 10 - 1.
Proof. apply (full_test_exact 64 10 3 5 3 4); [done|done|split; simpl; lia|split; simpl; lia]. Defined.

(** ** Arguments *)

(** The handler of a system call receives the first [nargs] words of the
    entry and zeros after them when [nargs] is 1 to 6, and nothing but zeros for
    any other [nargs]. *)
Theorem indirect_call_arguments m argc a :
  length a = 6%nat ->
  regs_args m (indirect_call m argc a)
  = if decide (1 <= argc <= 6)
    then take (Z.to_nat argc) a ++ replicate (6 - Z.to_nat argc) 0
    else replicate 6 0.
Proof.
  intros Ha. case_decide as Hd; [|by apply regs_args_bad_argc].
  rewrite <- (Z2Nat.id argc) at 1 by lia. apply regs_args_indirect_call; lia.
Qed.

Lemma indirect_call_arguments_witness :
  regs_args X86_64 (indirect_call X86_64 2 [7; 8; 9; 9; 9; 9])
  = if decide (1 <= 2 <= 6) then take (Z.to_nat 2) [7; 8; 9; 9; 9; 9] ++ replicate (6 - Z.to_nat 2) 0
    else replicate 6 0.
Proof. apply (indirect_call_arguments X86_64 2 [7; 8; 9; 9; 9; 9]). reflexivity. Defined.

(** ** The two views of a ring *)

(** The tables as [init_worker] and [sys_esca_register] fill them. *)
Record tables_filled (g : globals) (rg : Z) (h : esca_table_t) : Prop := {
  tf_user : forall i, 0 <= i < MAX_TABLE_LEN g ->
    aget (user_tables h) i = Some (Some (UPtr rg (i * MAX_TABLE_ENTRY g)));
  tf_kern : forall i, 0 <= i < MAX_TABLE_LEN g -> aget (tables h) i = Some (Some (KPtr rg i))
}.

Lemma k_entry_slot E g w idx hp rg h es i j :
  0 < MAX_TABLE_ENTRY g <= epp (page_size E) -> ring_at w idx hp rg h es -> tables_filled g rg h ->
  in_ring (MAX_TABLE_ENTRY g) (MAX_TABLE_LEN g) (i, j) ->
  k_entry E idx i j w = Ret ((rg, kernel_slot (page_size E) i j), w).
Proof.
  intros HE Hr Ht [Hi Hj]. simpl in *. unfold k_entry. mrun (k_header_run _ _ _ _ _ _ Hr).
  mrun (load_hdr_spec _ _ _ (ra_hdr _ _ _ _ _ _ Hr)). rewrite (tf_kern _ _ _ Ht i Hi).
  unfold deref. rewrite bind_ret_l. destruct (Z.leb_spec 0 j), (Z.ltb_spec j (epp (page_size E))); done || lia.
Qed.

(** C31: with the tables as they are set up, user space and the kernel reach the
    same entry at every position of a ring exactly when there is one table or a
    table fills its page. *)
Theorem views_agree_iff E g w idx hp rg h es :
  0 < MAX_TABLE_ENTRY g <= epp (page_size E) -> 0 < MAX_TABLE_LEN g ->
  ring_at w idx hp rg h es -> tables_filled g rg h ->
  (forall i j, in_ring (MAX_TABLE_ENTRY g) (MAX_TABLE_LEN g) (i, j) ->
     k_entry E idx i j w = u_loc idx i j w) <-> views_agree (page_size E) g.
Proof.
  intros HE HL Hr Ht.
  assert (forall i j, in_ring (MAX_TABLE_ENTRY g) (MAX_TABLE_LEN g) (i, j) ->
    k_entry E idx i j w = u_loc idx i j w <-> i * epp (page_size E) = i * MAX_TABLE_ENTRY g) as Hiff.
  { intros i j Hij. rewrite (k_entry_slot E g w idx hp rg h es i j HE Hr Ht Hij).
    rewrite (u_loc_run g w idx hp rg h es i j Hr (tf_user _ _ _ Ht) Hij).
    unfold kernel_slot, lin; simpl. split; [intros [=]; lia|intros ->; done]. }
  unfold views_agree. split.
  - intros H. destruct (decide (MAX_TABLE_LEN g = 1)) as [|Hne]; [by left|right].
    assert (in_ring (MAX_TABLE_ENTRY g) (MAX_TABLE_LEN g) (1, 0)) as H10 by (split; simpl; lia).
    apply (Hiff 1 0 H10) in H; [lia|done].
  - intros H i j Hij. apply Hiff; [done|]. destruct H as [H|H]; [|by rewrite H].
    destruct Hij as [Hi _]. simpl in Hi. assert (i = 0) as -> by lia. lia.
Qed.

Lemma views_agree_iff_witness :
  (forall i j, in_ring 64 1 (i, j) -> k_entry env0 1 i j seg = u_loc 1 i j seg) <-> views_agree 4096 g0.
Proof.
  destruct (ring_of_set seg _ 1 set_ok_seg) as (Hr & Hw & _); [vm_compute; split; congruence|].
  apply (views_agree_iff env0 g0 seg 1 (HPtr 0 1) 2 (header_of seg 1) (entries_of seg 1));
    [vm_compute; split; congruence|done|exact Hr|].
  constructor; apply Hw.
Defined.

(** With two tables of two entries the third request of a batch is not what the
    worker executes third. *)
Definition g_small : globals := Globals 1 2 2 1 1 1 150 0.
Definition boot_with (g : globals) : world :=
  with_krn (put_kcfg g) (with_usr (put_ucfg g) boot).

Example small_tables_lose_requests :
  match session env0 0 (map (fun fd => Batched fd (ngx_close env0 libc0 fd) 0 (Request 3 [fd])) [1; 2; 3])
          4 [0] (boot_with g_small) with
  | Ret (_, w) => map (fun c => (c.1, head (regs_args X86_64 c.2))) (executed (krn w))
  | _ => []
  end = [(3, Some 1); (3, Some 2); (0, Some 0)].
Proof. vm_compute. reflexivity. Qed.

(** ** The page of headers *)

(** All headers of a set share one page of 4 KiB, which holds eight; with
    nine kernel workers per user worker, well below [CPU_NUM_LIMIT],
    [init_worker] writes outside of the page. *)
Theorem header_page_overflow :
  hpp (page_size env0) = 8 /\
  init_worker env0 0 (boot_with (Globals 1 64 1 1 9 9 150 0)) = Fault OutOfBounds.
Proof. split; vm_compute; reflexivity. Qed.

(** ** The end of a segment *)

(** [batch_flush] does not wait for the workers: [sys_esca_wait] waits for
    the condition 1, so it returns at once, with every ring as it was. *)
Theorem batch_flush_does_not_wait a w :
  0 <= this_worker_id (usr w) * RATIO (ucfg (usr w)) < CPU_NUM_LIMIT ->
  exists w', batch_flush w = Ret (0, w') /\ in_segment (usr w') = 0 /\ batch_num (usr w') = 0 /\
    krn w' = krn w /\ forall k, pending a w' k = pending a w k.
Proof.
  intros Hb. destruct (batch_flush_run w Hb) as (w' & Hrun & Hs & Hn & Hk & Hm & Ht & Hc & _).
  exists w'. split_and!; try done. intros k. unfold pending. by rewrite Ht, Hm, Hc.
Qed.

Lemma batch_flush_does_not_wait_witness :
  pending X86_64 closed 1 = Some [request_call X86_64 (Request 3 [5])] /\
  exists w', batch_flush closed = Ret (0, w') /\ in_segment (usr w') = 0 /\ batch_num (usr w') = 0 /\
    krn w' = krn closed /\ forall k, pending X86_64 w' k = pending X86_64 closed k.
Proof.
  split; [vm_compute; reflexivity|].
  apply (batch_flush_does_not_wait X86_64 closed). vm_compute. split; congruence.
Defined.
