(* ===== verification/Cpu.v ===== *)
(** * CPUs: the affinity of the kernel workers, the cycle counter of aarch64

    The start of [worker] (module/lioo.c) binds the thread to a CPU;
    [lioo_init] and [lioo_exit] write the performance monitor registers of
    every CPU.  The kernel's table of CPU masks and the registers of the
    architecture are not part of the sources: the masks are a parameter with the
    layout the code relies on, the registers behave as the architecture defines
    their writes. *)
From stdpp Require Import base numbers list gmap.
From S2P Require Import Prelude Esca.

(** ** Affinity *)

(** The kernel's masks: [cpumask_of cpu] is the address of the mask with that
    CPU only, [mask_at] what an address holds, counted in masks. *)
Record cpumasks := Cpumasks { cpumask_of : Z -> Z; mask_at : Z -> list Z }.

(** The argument of [set_cpus_allowed_ptr]: the offset is added to the pointer. *)
Definition worker_mask (K : cpumasks) (g : globals) (cur_cpuid : Z) : Z :=
  if negb (ESCA_LOCALIZE g =? 0)
  then cpumask_of K (Z.quot cur_cpuid (RATIO g)) + AFF_OFF g
  else cpumask_of K cur_cpuid + AFF_OFF g.

(** The CPUs on which the worker of ring [cur_cpuid] may run. *)
Definition worker_cpus (K : cpumasks) (g : globals) (cur_cpuid : Z) : list Z := mask_at K (worker_mask K g cur_cpuid).

(** What the kernel's table has: one mask after the other for the CPUs of a word,
    which is what makes the addition select a CPU. *)
Class CpumaskTable (K : cpumasks) (cpus : Z) := {
  mask_single cpu : 0 <= cpu < cpus -> mask_at K (cpumask_of K cpu) = [cpu];
  mask_next cpu n : 0 <= cpu -> 0 <= n -> cpu + n < cpus -> cpumask_of K cpu + n = cpumask_of K (cpu + n)
}.

Section affinity.
Context (K : cpumasks) (cpus : Z) `{!CpumaskTable K cpus} (g : globals) (Hratio : 0 < RATIO g) (Haff : 0 <= AFF_OFF g).

Lemma mask_of_cpu cpu : 0 <= cpu -> cpu + AFF_OFF g < cpus -> mask_at K (cpumask_of K cpu + AFF_OFF g) = [cpu + AFF_OFF g].
Proof. intros Hc Hlt. rewrite (mask_next (cpus := cpus)) by done. apply (mask_single (cpus := cpus)). lia. Qed.

(** With [ESCA_LOCALIZE] the workers of all rings of a user worker share the one
    CPU [idx + AFF_OFF]; without it the worker of ring [k] has CPU
    [k + AFF_OFF] for itself. *)
Theorem worker_affinity idx r :
  0 <= idx -> 0 <= r < RATIO g ->
  (ESCA_LOCALIZE g <> 0 -> idx + AFF_OFF g < cpus -> worker_cpus K g (idx * RATIO g + r) = [idx + AFF_OFF g]) /\
  (ESCA_LOCALIZE g = 0 -> idx * RATIO g + r + AFF_OFF g < cpus ->
   worker_cpus K g (idx * RATIO g + r) = [idx * RATIO g + r + AFF_OFF g]).
Proof.
  intros Hi Hr. unfold worker_cpus, worker_mask. split; intros Hl Hc.
  - rewrite (proj2 (Z.eqb_neq _ _) Hl). simpl. rewrite Z.quot_div_nonneg by nia.
    rewrite Z.div_add_l, Z.div_small, Z.add_0_r by lia. by apply mask_of_cpu.
  - rewrite Hl. simpl. apply mask_of_cpu; [nia|done].
Qed.
End affinity.

(** ** The cycle counter *)
Definition BIT (n : Z) : Z := Z.shiftl 1 n.

Record pmu := Pmu {
  pmintenset_el1 : Z;
  pmcntenset_el0 : Z;
  pmuserenr_el0 : Z;
  pmcr_el0 : Z;
  pmccfiltr_el0 : Z;
  pmccntr_el0 : Z      (* the cycle counter *)
}.

(** Writes to the registers: in [PMINTENSET] and [PMCNTENSET] a 1 sets the bit
    and a 0 has no effect; bit 2 of [PMCR] resets the counter and reads as 0. *)
Definition msr_pmintenset_el1 (v : Z) (p : pmu) : pmu :=
  Pmu (Z.lor (pmintenset_el1 p) v) (pmcntenset_el0 p) (pmuserenr_el0 p) (pmcr_el0 p) (pmccfiltr_el0 p) (pmccntr_el0 p).
Definition msr_pmcntenset_el0 (v : Z) (p : pmu) : pmu :=
  Pmu (pmintenset_el1 p) (Z.lor (pmcntenset_el0 p) v) (pmuserenr_el0 p) (pmcr_el0 p) (pmccfiltr_el0 p) (pmccntr_el0 p).
Definition msr_pmuserenr_el0 (v : Z) (p : pmu) : pmu :=
  Pmu (pmintenset_el1 p) (pmcntenset_el0 p) v (pmcr_el0 p) (pmccfiltr_el0 p) (pmccntr_el0 p).
Definition msr_pmcr_el0 (v : Z) (p : pmu) : pmu :=
  Pmu (pmintenset_el1 p) (pmcntenset_el0 p) (pmuserenr_el0 p) (Z.ldiff v (Z.lor (BIT 1) (BIT 2))) (pmccfiltr_el0 p)
    (if Z.testbit v 2 then 0 else pmccntr_el0 p).
Definition msr_pmccfiltr_el0 (v : Z) (p : pmu) : pmu :=
  Pmu (pmintenset_el1 p) (pmcntenset_el0 p) (pmuserenr_el0 p) (pmcr_el0 p) v (pmccntr_el0 p).

Definition enable_cycle_counter_el0 (p0 : pmu) : pmu :=
  let p1 := msr_pmintenset_el1 (Z.shiftl 0 31) p0 in
  let p2 := msr_pmcntenset_el0 (BIT 31) p1 in
  let p3 := msr_pmuserenr_el0 (Z.lor (BIT 0) (BIT 2)) p2 in
  let val := Z.lor (pmcr_el0 p3) (Z.lor (BIT 0) (BIT 2)) in
  msr_pmccfiltr_el0 (BIT 27) (msr_pmcr_el0 val p3).

Definition disable_cycle_counter_el0 (p0 : pmu) : pmu :=
  msr_pmuserenr_el0 0 (msr_pmcntenset_el0 (Z.shiftl 0 31) p0).

(** [on_each_cpu] *)
Definition on_each_cpu (f : pmu -> pmu) (cpus : list pmu) : list pmu := map f cpus.

(** The counter counts, and user space may read it. *)
Definition counting (p : pmu) : bool := Z.testbit (pmcntenset_el0 p) 31 && Z.testbit (pmcr_el0 p) 0.
Definition user_access (p : pmu) : bool := Z.testbit (pmuserenr_el0 p) 0.

(** Loading the module starts the cycle counter of every CPU from 0, readable
    from user space; unloading it takes the access away but leaves the counter
    running, and neither changes the overflow interrupt. *)
Theorem cycle_counter_left_enabled (cpus : list pmu) :
  Forall (fun p => counting p = true /\ user_access p = true /\ pmccntr_el0 p = 0)
    (on_each_cpu enable_cycle_counter_el0 cpus) /\
  Forall2 (fun p p' => counting p' = true /\ user_access p' = false /\
                       Z.testbit (pmintenset_el1 p') 31 = Z.testbit (pmintenset_el1 p) 31)
    cpus (on_each_cpu disable_cycle_counter_el0 (on_each_cpu enable_cycle_counter_el0 cpus)).
Proof.
  assert (forall p, counting (enable_cycle_counter_el0 p) = true) as Hc.
  { intros p. unfold counting, enable_cycle_counter_el0, msr_pmcr_el0, msr_pmccfiltr_el0,
      msr_pmuserenr_el0, msr_pmcntenset_el0.
    cbn [pmcntenset_el0 pmcr_el0]. rewrite Z.ldiff_spec, !Z.lor_spec. by rewrite !orb_true_r. }
  split.
  - apply Forall_forall. intros p (q & -> & _)%list_elem_of_fmap. split; [apply Hc|]. split; [done|].
    unfold enable_cycle_counter_el0, msr_pmcr_el0, msr_pmccfiltr_el0. cbn [pmccntr_el0].
    rewrite !Z.lor_spec. by rewrite orb_true_r.
  - unfold on_each_cpu. rewrite <- list_fmap_compose. apply Forall2_fmap_r, Forall_Forall2_diag, Forall_true.
    intros p. specialize (Hc p). unfold counting in *. simpl in *.
    split; [by rewrite Z.lor_0_r|]. split; [done|by rewrite Z.lor_0_r].
Qed.

(** ** A concrete table *)
Definition masks0 : cpumasks := Cpumasks (fun cpu => 1 + cpu) (fun a => [a - 1]).
#[export] Instance masks0_table : CpumaskTable masks0 64.
Proof. constructor; intros; simpl; [f_equal|]; lia. Qed.

Lemma worker_affinity_witness :
  worker_cpus masks0 (Globals 1 64 1 2 4 2 150 3) (1 * 2 + 1) = [1 + 3] /\
  worker_cpus masks0 (Globals 0 64 1 2 4 2 150 3) (1 * 2 + 1) = [1 * 2 + 1 + 3].
Proof.
  split.
  - apply (proj1 (worker_affinity masks0 64 (Globals 1 64 1 2 4 2 150 3) ltac:(done) ltac:(done) 1 1
             ltac:(done) ltac:(done))); done.
  - apply (proj2 (worker_affinity masks0 64 (Globals 0 64 1 2 4 2 150 3) ltac:(done) ltac:(done) 1 1
             ltac:(done) ltac:(done))); done.
Defined.
