(* ===== verification/EchoServer.v ===== *)
(** * The epoll echo server (echo/epoll_echo_server.c)

    The server as a client of the library: [init_worker], then for every round
    [batch_start], one step per event, [batch_flush].  The server receives into
    one buffer and calls [send], which echo.c defers.  What the network delivers is part of the
    events. *)
From stdpp Require Import base numbers list gmap.
From S2P Require Import Prelude Esca Ring IndirectCall Request World Kernel Preload Wrappers Library Rings Submit WrapperProps WorkerProps Batch Init Session Frame.

Definition SHUT_RDWR : Z := 2.
Definition EPOLLIN : Z := 1.
Definition EPOLLET : Z := 2147483648. (* 1U << 31 *)

(** ** Sockets and epoll *)

(** The listening socket and the interest list of [epollfd]. *)
Record epoll_t := Epoll {
  sock_listen_fd : Z;
  interest : gmap Z Z
}.

(** An event of [epoll_wait]: [data.fd], and what [accept4] or [recv] on this
    descriptor returns, with the bytes received (at most MAX_MESSAGE_LEN). *)
Record epoll_event := Event { data_fd : Z; ev_ret : Z; ev_bytes : list Z }.

Definition EvAccept (lfd fd : Z) : epoll_event := Event lfd fd [].
Definition EvData (fd : Z) (bytes : list Z) : epoll_event := Event fd (Z.of_nat (length bytes)) bytes.
Definition EvClosed (fd : Z) : epoll_event := Event fd 0 [].

Section server.
Context (B : library) (L : libc) (buffer : Z).
(** Whether the kernel has the memory for one more entry of the interest list. *)
Context (ctl_ok : Z -> bool).

(** [epoll_ctl(epollfd, EPOLL_CTL_ADD, fd, &ev)]; [None] is the result -1. *)
Definition epoll_ctl_add (fd events : Z) (p : epoll_t) : option epoll_t :=
  match interest p !! fd with
  | Some _ => None
  | None =>
      if ctl_ok fd then Some (Epoll (sock_listen_fd p) (<[fd := events]> (interest p))) else None
  end.
(** [epoll_ctl(epollfd, EPOLL_CTL_DEL, fd, NULL)]; the result is ignored. *)
Definition epoll_ctl_del (fd : Z) (p : epoll_t) : epoll_t :=
  Epoll (sock_listen_fd p) (delete fd (interest p)).

(** ** The event loop *)

(** [recv(newsockfd, buffer, MAX_MESSAGE_LEN, 0)] *)
Definition recv (ev : epoll_event) : MW Z :=
  do! modify (with_mem (fun m => put_heap (write_bytes (heap m) buffer (ev_bytes ev)) m)) in
  ret (ev_ret ev).

(** The body of the [for] loop; [None] when the server ends with [error].
    [shutdown] is not replaced by echo.c. *)
Definition serve_event (ev : epoll_event) (p : epoll_t) : MW (option epoll_t) :=
  if data_fd ev =? sock_listen_fd p then
    let sock_conn_fd := ev_ret ev in
    if sock_conn_fd =? -1 then ret None
    else ret (epoll_ctl_add sock_conn_fd (Z.lor EPOLLIN EPOLLET) p)
  else
    let newsockfd := data_fd ev in
    let! bytes_received := recv ev in
    if bytes_received <=? 0 then
      let p' := epoll_ctl_del newsockfd p in
      do! real_shutdown L newsockfd SHUT_RDWR in
      ret (Some p')
    else
      do! lib_send B newsockfd buffer bytes_received 0 in
      ret (Some p).

Fixpoint serve_events (l : list epoll_event) (p : epoll_t) : MW (option epoll_t) :=
  match l with
  | [] => ret (Some p)
  | ev :: l' =>
      let! r := serve_event ev p in
      match r with Some p' => serve_events l' p' | None => ret None end
  end.

(** One iteration of [while (1)] after [epoll_wait]. *)
Definition serve_round (l : list epoll_event) (p : epoll_t) : MW (option epoll_t) :=
  do! lib_batch_start B in
  let! r := serve_events l p in
  match r with Some p' => do! lib_batch_flush B in ret (Some p') | None => ret None end.

(** ** Start of the server *)
Record epoll_env := {
  ee_argc : Z;
  ee_socket : Z;
  ee_bind : Z;
  ee_listen : Z;
  ee_epoll : Z  (* epoll_create *)
}.

(** [main] up to the loop: the argument of [exit], or the sockets with which the
    loop starts. *)
Definition epoll_start (e : epoll_env) : MW (Z + epoll_t) :=
  if ee_argc e <? 2 then ret (inl 0)
  else if ee_socket e <? 0 then ret (inl 1)
  else if ee_bind e <? 0 then ret (inl 1)
  else if ee_listen e <? 0 then ret (inl 1)
  else if ee_epoll e <? 0 then ret (inl 1)
  else match epoll_ctl_add (ee_socket e) EPOLLIN (Epoll (ee_socket e) ∅) with
       | None => ret (inl 1)
       | Some p => do! lib_init_worker B 0 in ret (inr p)
       end.

(** [while (1)]: the result of each [epoll_wait] in turn, [None] when it fails;
    the result is [None] when the server ends with [error]. *)
Fixpoint serve_loop (l : list (option (list epoll_event))) (p : epoll_t) : MW (option epoll_t) :=
  match l with
  | [] => ret (Some p)
  | None :: _ => ret None
  | Some evs :: l' =>
      let! r := serve_round evs p in
      match r with Some p' => serve_loop l' p' | None => ret None end
  end.

(** ** A round *)

(** What [accept4], [recv] and [epoll_ctl] do to the sockets. *)
Definition next_epoll (ev : epoll_event) (p : epoll_t) : option epoll_t :=
  if data_fd ev =? sock_listen_fd p then
    if ev_ret ev =? -1 then None
    else epoll_ctl_add (ev_ret ev) (Z.lor EPOLLIN EPOLLET) p
  else if ev_ret ev <=? 0 then Some (epoll_ctl_del (data_fd ev) p) else Some p.
Fixpoint next_epolls (l : list epoll_event) (p : epoll_t) : option epoll_t :=
  match l with
  | [] => Some p
  | ev :: l' => match next_epoll ev p with Some p' => next_epolls l' p' | None => None end
  end.

(** The messages of a round; [recv] stores as many bytes as it returns. *)
Definition message_of (lfd : Z) (ev : epoll_event) : option (Z * list Z) :=
  if data_fd ev =? lfd then None else if ev_ret ev <=? 0 then None else Some (data_fd ev, ev_bytes ev).
Definition messages (lfd : Z) (l : list epoll_event) : list (Z * list Z) := omap (message_of lfd) l.
Definition recv_ok (lfd : Z) (ev : epoll_event) : Prop :=
  data_fd ev <> lfd -> Z.of_nat (length (ev_bytes ev)) = Z.max 0 (ev_ret ev).

Lemma epoll_ctl_add_listen fd e p p' : epoll_ctl_add fd e p = Some p' -> sock_listen_fd p' = sock_listen_fd p.
Proof.
  unfold epoll_ctl_add. destruct (_ !! _); [done|]. destruct (ctl_ok fd); [|done]. by intros [= <-].
Qed.

Lemma next_epoll_listen ev p p' : next_epoll ev p = Some p' -> sock_listen_fd p' = sock_listen_fd p.
Proof.
  unfold next_epoll. destruct (_ =? _).
  { destruct (_ =? -1); [done|]. by intros ->%epoll_ctl_add_listen. }
  destruct (_ <=? 0); by intros [= <-].
Qed.

(** [shutdown] returns, with whatever result; it has no effect on the process. *)
Context (Hshut : forall fd how w, exists r, real_shutdown L fd how w = Ret (r, w)).

(** An event that is not a message leaves the rings and the memory alone. *)
Lemma serve_quiet ev p p' w :
  message_of (sock_listen_fd p) ev = None -> recv_ok (sock_listen_fd p) ev -> next_epoll ev p = Some p' ->
  serve_event ev p w = Ret (Some p', w).
Proof.
  unfold message_of, next_epoll, serve_event, recv_ok. intros Hm Hr Hp. destruct (Z.eqb_spec (data_fd ev) (sock_listen_fd p)).
  - by destruct (_ =? -1); [|rewrite Hp].
  - destruct (Z.leb_spec (ev_ret ev) 0); [|done].
    rewrite (bind_eq _ _ w (ev_ret ev) w).
    + destruct (Z.leb_spec (ev_ret ev) 0); [|lia].
      destruct (Hshut (data_fd ev) SHUT_RDWR w) as [r Hr']. mrun Hr'. by injection Hp as <-.
    + specialize (Hr ltac:(done)). unfold recv. destruct ev as [fd r [|]]; simpl in *; [|lia]. by destruct w as [? ? []].
Qed.

End server.

(** ** With the library preloaded *)
Section preloaded.
Context (E : env) (L : libc) (buffer : Z) (ctl_ok : Z -> bool).
Abbreviation B := (preload_lib E L).

(** ** What a round submits *)

(** The deferred [send] of a message: the address of the buffer, not its
    contents. *)
Definition echo_request (m : Z * list Z) : request :=
  Request (__ESCA_sendto (syscalls_of (e_arch E))) [m.1; buffer; Z.of_nat (length m.2); 0; 0; 0].

Lemma set_ok_heap g w lay q hb :
  set_ok E g w lay q -> set_ok E g (with_mem (put_heap hb) w) lay q.
Proof.
  intros [H1 H2 H3 H4 H5 H6 H7]. constructor; try done. intros k Hk.
  destruct (H7 k Hk) as [(h & es & Hr & Hrest)]. constructor. exists h, es. split; [|done].
  by destruct Hr.
Qed.

(** The messages that go to ring [k]. *)
Definition messages_on (w : world) (k : Z) (l : list (Z * list Z)) : list (Z * list Z) :=
  filter (fun m => ring_index w m.1 = k) l.

Lemma messages_on_cons w k m l :
  messages_on w k (m :: l)
  = if ring_index w m.1 =? k then m :: messages_on w k l else messages_on w k l.
Proof.
  unfold messages_on. rewrite filter_cons. destruct (Z.eqb_spec (ring_index w m.1) k); by case_decide.
Qed.

Record round_fits (g : globals) (w : world) (q : Z -> list call) (l : list (Z * list Z)) : Prop := {
  rf_msgs : Forall (fun m => 0 <= m.1 /\ (0 < length m.2)%nat) l;
  rf_count : 0 <= batch_num (usr w) /\ batch_num (usr w) + Z.of_nat (length l) <= INT_MAX;
  rf_room : forall k, in_set w k ->
    Z.of_nat (length (q k)) + Z.of_nat (length (messages_on w k l))
      < ring_size (MAX_TABLE_ENTRY g) (MAX_TABLE_LEN g)
}.

(** The contents of the buffer after a sequence of messages. *)
Definition buffer_after (l : list (Z * list Z)) (hb : gmap Z Z) : gmap Z Z :=
  foldl (fun h m => write_bytes h buffer m.2) hb l.

(** [shutdown] returns, with whatever result; it has no effect on the process. *)
Context (Hshut : forall fd how w, exists r, real_shutdown L fd how w = Ret (r, w)).

Lemma serve_events_queues g l : forall w lay q p p',
  set_ok E g w lay q -> in_segment (usr w) <> 0 -> Forall (recv_ok (sock_listen_fd p)) l ->
  round_fits g w q (messages (sock_listen_fd p) l) -> next_epolls ctl_ok l p = Some p' ->
  exists w', serve_events B L buffer ctl_ok l p w = Ret (Some p', w') /\
    set_ok E g w' lay (fun k => q k ++ map (fun m => request_call (e_arch E) (echo_request m))
                                  (messages_on w k (messages (sock_listen_fd p) l))) /\
    heap (mem w') = buffer_after (messages (sock_listen_fd p) l) (heap (mem w)) /\ krn w' = krn w /\
    ucfg (usr w') = ucfg (usr w) /\ this_worker_id (usr w') = this_worker_id (usr w).
Proof.
  induction l as [|ev l IH]; intros w lay q p p' Hs Hseg Hok Hfit Hp; simpl in Hp.
  - injection Hp as <-. exists w. split; [done|]. split; [|done].
    eapply set_ok_proper; [|exact Hs]. intros k. apply app_nil_r.
  - apply Forall_cons in Hok as [Hev Hok]. destruct (next_epoll ctl_ok ev p) as [p1|] eqn:Hp1; [|done].
    pose proof (next_epoll_listen _ _ _ _ Hp1) as Hl1. simpl.
    change (messages (sock_listen_fd p) (ev :: l)) with
      (match message_of (sock_listen_fd p) ev with
       | Some m => m :: messages (sock_listen_fd p) l | None => messages (sock_listen_fd p) l end) in *.
    destruct (message_of (sock_listen_fd p) ev) as [m|] eqn:Hm.
    2: { mrun (serve_quiet B L buffer ctl_ok Hshut _ _ _ w Hm Hev Hp1). rewrite <- Hl1 in *. by apply IH. }
    unfold message_of in Hm. unfold next_epoll in Hp1. destruct (Z.eqb_spec (data_fd ev) (sock_listen_fd p)); [done|].
    destruct (Z.leb_spec (ev_ret ev) 0); [done|]. injection Hp1 as <-. injection Hm as <-.
    assert (ev_ret ev = Z.of_nat (length (ev_bytes ev))) as Hret by (specialize (Hev ltac:(done)); lia).
    destruct Hfit as [Hmsg Hn Hroom]. apply Forall_cons in Hmsg as [[Hfd Hlen] Hms]. simpl in Hn, Hfd.
    set (m := (data_fd ev, ev_bytes ev)) in *.
    set (w0 := with_mem (put_heap (write_bytes (heap (mem w)) buffer m.2)) w).
    assert (set_ok E g w0 lay q) as Hs0 by (by apply set_ok_heap).
    pose proof (ring_index_in_set _ _ _ _ _ _ Hs Hfd) as Hin.
    destruct (set_submit E g w0 lay q m.1 (echo_send E L m.1 buffer (Z.of_nat (length m.2)) 0)
                (to_long (Z.of_nat (length m.2))) (echo_request m) Hs0 Hseg Hfd ltac:(simpl; lia))
      as (w1 & Hrun & Hs1 & Hu1 & Hi1 & Hg1 & Hb1 & Hk1).
    { specialize (Hroom _ Hin). rewrite messages_on_cons, Z.eqb_refl in Hroom.
      change (ring_index w0 m.1) with (ring_index w m.1). simpl in *. lia. }
    assert (forall k l, messages_on w1 k l = messages_on w k l) as Hon.
    { intros k l'. unfold messages_on, ring_index. by rewrite Hu1, Hi1. }
    destruct (IH w1 lay _ p p' Hs1 ltac:(by rewrite Hg1) Hok) as (w' & Hrun' & Hs' & Hh' & Hk' & Hc' & Hi'); [|done|].
    { constructor; [done|simpl in Hb1; lia|]. intros k Hk. rewrite in_set_ext in Hk by done.
      specialize (Hroom k Hk). rewrite messages_on_cons in Hroom. rewrite Hon.
      unfold enqueue. change (ring_index w0 m.1) with (ring_index w m.1). rewrite (Z.eqb_sym k).
      destruct (_ =? k); [rewrite length_app|]; simpl in *; lia. }
    exists w'. split; [|split; [|split; [|split_and!; [by rewrite Hk'|by rewrite Hc'|by rewrite Hi']]]].
    + rewrite (bind_eq _ _ w (Some p) w1); [done|]. unfold serve_event, recv.
      rewrite (proj2 (Z.eqb_neq _ _)) by done. rewrite (bind_eq _ _ w (ev_ret ev) w0) by done.
      destruct (Z.leb_spec (ev_ret ev) 0); [lia|]. rewrite Hret. by mrun Hrun.
    + eapply set_ok_proper; [|exact Hs']. intros k. rewrite messages_on_cons, Hon. unfold enqueue.
      change (ring_index w0 m.1) with (ring_index w m.1). rewrite (Z.eqb_sym k).
      destruct (_ =? k); [|done]. by rewrite <- app_assoc.
    + rewrite Hh'. simpl. f_equal. exact (f_equal fst (echo_send_keeps _ _ _ _ _ _ w0 _ _ Hseg Hrun)).
Qed.

End preloaded.

Lemma buffer_after_last buffer l m hb :
  read_bytes (buffer_after buffer (l ++ [m]) hb) buffer (length m.2) = Some m.2.
Proof. unfold buffer_after. rewrite foldl_app. simpl. apply read_write_bytes. Qed.

