(* ===== verification/EchoProps.v ===== *)
(** * The epoll echo server from its start to the execution of its sends

    Rounds of the event loop alternate with passes of the kernel workers.  The
    theorems say which system calls are executed, what the buffer holds at that
    time, and how the start can fail. *)
From stdpp Require Import base numbers list gmap.
From S2P Require Import Prelude Esca Ring IndirectCall Request World Kernel Preload Wrappers Library Rings Submit WrapperProps WorkerProps Batch Init Session Scenario Frame EchoServer.

(** The messages of a round whose answers go to ring [k] of worker [idx]. *)
Definition msgs_on (g : globals) (idx k : Z) (l : list (Z * list Z)) : list (Z * list Z) :=
  filter (fun m => idx * RATIO g + Z.rem m.1 (RATIO g) = k) l.

Definition echo_calls (E : env) (buffer : Z) (l : list (Z * list Z)) : list call :=
  map (fun m => request_call (e_arch E) (echo_request E buffer m)) l.

(** A round whose messages fit the rings. *)
Record round_ok (g : globals) (idx lfd : Z) (evs : list epoll_event) : Prop := {
  ro_recv : Forall (recv_ok lfd) evs;
  ro_msgs : Forall (fun m => 0 <= m.1 /\ (0 < length m.2)%nat) (messages lfd evs);
  ro_count : Z.of_nat (length (messages lfd evs)) <= INT_MAX;
  ro_room : forall k, Z.of_nat (length (msgs_on g idx k (messages lfd evs)))
              < ring_size (MAX_TABLE_ENTRY g) (MAX_TABLE_LEN g)
}.

(** The state between two rounds. *)
Record server_ready (E : env) (g : globals) (idx : Z) (lay : Z -> hptr * Z) (w : world) : Prop := {
  sr_set : set_ok E g w lay (fun _ => []);
  sr_hook : syscall_table (krn w) !! __NR_esca_wakeup = Some H_wakeup;
  sr_batch : batch_num (usr w) = 0;
  sr_idx : this_worker_id (usr w) = idx
}.

Definition worker_rings (g : globals) (idx : Z) : list Z :=
  map (fun n => idx * RATIO g + Z.of_nat n) (seq 0 (Z.to_nat (RATIO g))).

(** No message goes to a ring of another worker. *)
Lemma msgs_on_outside g idx k (l : list (Z * list Z)) :
  0 < RATIO g -> Forall (fun m => 0 <= m.1 /\ (0 < length m.2)%nat) l -> k ∉ worker_rings g idx ->
  msgs_on g idx k l = [].
Proof.
  intros Hr Hl Hk. unfold msgs_on. induction Hl as [|m l [Hfd _] Hl IH]; [done|].
  rewrite filter_cons, IH. case_decide as Hm; [|done]. destruct Hk. unfold worker_rings.
  pose proof (Z.rem_bound_pos m.1 (RATIO g) Hfd Hr).
  apply list_elem_of_In, in_map_iff. exists (Z.to_nat (Z.rem m.1 (RATIO g))). split; [lia|]. apply in_seq. lia.
Qed.

Section rounds.
Context (E : env) (L : libc) (buffer : Z) (ctl_ok : Z -> bool).
Context (Hshut : forall fd how w, exists r, real_shutdown L fd how w = Ret (r, w)).
Context (g : globals) (idx : Z) (lay : Z -> hptr * Z) (fuel : nat) (ks : list Z).
Context (Hks : ks ≡ₚ worker_rings g idx).
Context (Hfuel : ring_size (MAX_TABLE_ENTRY g) (MAX_TABLE_LEN g) <= Z.of_nat fuel).

Definition round_calls (lfd : Z) (evs : list epoll_event) : list call :=
  concat (map (fun k => echo_calls E buffer (msgs_on g idx k (messages lfd evs))) ks).

(** A round and the passes of the workers after it. *)
Lemma round_run w p evs p' :
  server_ready E g idx lay w -> round_ok g idx (sock_listen_fd p) evs -> next_epolls ctl_ok evs p = Some p' ->
  exists w1 w2, serve_round (preload_lib E L) L buffer ctl_ok evs p w = Ret (Some p', w1) /\
    run_passes E fuel ks w1 = Ret (tt, w2) /\ server_ready E g idx lay w2 /\
    executed (krn w2) = executed (krn w) ++ round_calls (sock_listen_fd p) evs /\
    heap (mem w1) = buffer_after buffer (messages (sock_listen_fd p) evs) (heap (mem w)) /\
    heap (mem w2) = heap (mem w1).
Proof.
  intros [Hs Hhook Hb Hidx] [Hr Hm Hc Hroom] Hp.
  destruct (batch_start_run_set E g lay w _ Hs Hhook) as (wa & Ha & Hsa & Hua & Hxa & Hta & _).
  assert (ucfg (usr wa) = g) as Hcfg by apply Hsa.
  assert (this_worker_id (usr wa) = idx) as Hida by (by rewrite Hua).
  assert (forall k l, messages_on wa k l = msgs_on g idx k l) as Hon.
  { intros k l. unfold messages_on, msgs_on, ring_index. by rewrite Hcfg, Hida. }
  destruct (serve_events_queues E L buffer ctl_ok Hshut g evs wa lay (fun _ => []) p p' Hsa)
    as (wb & Hb1 & Hsb & Hhb & Hkb & Hcb & Hib); [by rewrite Hua|done| |done|].
  { constructor; [done|rewrite Hua; simpl; lia|]. intros k _. rewrite Hon. specialize (Hroom k). simpl. lia. }
  destruct (batch_flush_run wb) as (wc & Hc1 & _ & Hbc & Hkc & Hmc & Hutc & Hcc & Hic).
  { pose proof (so_range _ _ _ _ _ Hsb). pose proof (co_ratio _ _ (so_cfg _ _ _ _ _ Hsb)).
    rewrite (so_user _ _ _ _ _ Hsb). nia. }
  assert (set_ok E g wc lay (fun k => echo_calls E buffer (msgs_on g idx k (messages (sock_listen_fd p) evs)))) as Hsc.
  { eapply set_ok_proper; [|by eapply (set_ok_same E g wb)]. intros k. simpl. by rewrite Hon. }
  assert (this_worker_id (usr wc) = idx) as Hidc by (by rewrite Hic, Hib).
  assert (set_rings wc = worker_rings g idx) as Hrings.
  { unfold set_rings, worker_rings. by rewrite (so_user _ _ _ _ _ Hsc), Hidc. }
  pose proof Hks as Hks0. rewrite <- Hrings in Hks.
  destruct (run_passes_queues E g fuel ks wc lay _ Hsc) as (wd & Hd & Hsd & Hud & Hxd).
  { rewrite Hks. apply set_rings_NoDup. }
  { rewrite Hks. apply Forall_forall. intros k. by rewrite elem_of_set_rings. }
  { done. }
  assert (serve_round (preload_lib E L) L buffer ctl_ok evs p w = Ret (Some p', wc)) as Hrun.
  { unfold serve_round. mrun Ha. mrun Hb1. by mrun Hc1. }
  pose proof (keeps_batch_start _ _ _ Ha) as Hfa. pose proof (keeps_run_passes E fuel ks _ _ _ Hd) as Hfd.
  injection Hfa as Hfa _. injection Hfd as Hfd Hfd'.
  exists wc, wd. split_and!; [done|done| | | |done].
  - constructor.
    + eapply set_ok_proper; [|exact Hsd]. intros k. simpl. case_decide as Hin; [done|].
      rewrite msgs_on_outside; try done; [by apply (co_ratio _ _ (so_cfg _ _ _ _ _ Hsc))|]. by rewrite <- Hks0.
    + by rewrite Hfd', Hkc, Hkb, Hta.
    + by rewrite Hud.
    + by rewrite Hud.
  - by rewrite Hxd, Hkc, Hkb, Hxa.
  - by rewrite Hmc, Hhb, Hfa.
Qed.

(** Rounds and passes in turn. *)
Fixpoint echo_rounds (l : list (list epoll_event)) (p : epoll_t) : MW (option epoll_t) :=
  match l with
  | [] => ret (Some p)
  | evs :: l' =>
      let! r := serve_round (preload_lib E L) L buffer ctl_ok evs p in
      match r with
      | Some p' => do! run_passes E fuel ks in echo_rounds l' p'
      | None => ret None
      end
  end.

Fixpoint next_rounds (l : list (list epoll_event)) (p : epoll_t) : option epoll_t :=
  match l with
  | [] => Some p
  | evs :: l' => match next_epolls ctl_ok evs p with Some p' => next_rounds l' p' | None => None end
  end.

Lemma next_epolls_listen evs : forall p p', next_epolls ctl_ok evs p = Some p' -> sock_listen_fd p' = sock_listen_fd p.
Proof.
  induction evs as [|ev evs IH]; intros p p'; simpl; [by intros [= <-]|].
  destruct (next_epoll ctl_ok ev p) as [p1|] eqn:E1; [|done]. intros ->%IH. by eapply next_epoll_listen.
Qed.

Lemma echo_rounds_run l : forall w p p',
  server_ready E g idx lay w -> Forall (round_ok g idx (sock_listen_fd p)) l -> next_rounds l p = Some p' ->
  exists w', echo_rounds l p w = Ret (Some p', w') /\ server_ready E g idx lay w' /\
    executed (krn w') = executed (krn w) ++ concat (map (round_calls (sock_listen_fd p)) l).
Proof.
  induction l as [|evs l IH]; intros w p p' Hw Hok Hp; simpl in Hp.
  - injection Hp as <-. exists w. simpl. by rewrite app_nil_r.
  - apply Forall_cons in Hok as [Hev Hok]. destruct (next_epolls ctl_ok evs p) as [p1|] eqn:E1; [|done].
    destruct (round_run w p evs p1 Hw Hev E1) as (w1 & w2 & Hr1 & Hr2 & Hw2 & Hx2 & _).
    pose proof (next_epolls_listen _ _ _ E1) as Hl1.
    destruct (IH w2 p1 p' Hw2) as (w' & Hr' & Hw' & Hx'); [by rewrite Hl1|done|].
    exists w'. simpl. mrun Hr1. mrun Hr2. split; [done|]. split; [done|].
    by rewrite Hx', Hx2, Hl1, <- app_assoc.
Qed.
End rounds.

(** ** Start *)
Definition epoll_can_start (ctl_ok : Z -> bool) (e : epoll_env) : bool :=
  (2 <=? ee_argc e) && (0 <=? ee_socket e) && (0 <=? ee_bind e) && (0 <=? ee_listen e) && (0 <=? ee_epoll e) &&
  ctl_ok (ee_socket e).
Definition epoll_0 (e : epoll_env) : epoll_t := Epoll (ee_socket e) {[ee_socket e := EPOLLIN]}.

Lemma epoll_start_result E L ctl_ok e w :
  epoll_start (preload_lib E L) ctl_ok e w =
  if epoll_can_start ctl_ok e then (do! init_worker E 0 in ret (inr (epoll_0 e))) w
  else Ret (inl (if 2 <=? ee_argc e then 1 else 0), w).
Proof.
  unfold epoll_start, epoll_can_start, epoll_ctl_add. simpl. rewrite lookup_empty, !Z.leb_antisym.
  destruct (ee_argc e <? 2), (ee_socket e <? 0), (ee_bind e <? 0), (ee_listen e <? 0), (ee_epoll e <? 0); try done.
  simpl. by destruct (ctl_ok (ee_socket e)).
Qed.

(** The whole server, with the passes of the workers after each round. *)
Definition echo_server (E : env) (L : libc) (buffer : Z) (ctl_ok : Z -> bool) (fuel : nat) (ks : list Z)
    (e : epoll_env) (l : list (list epoll_event)) : MW (Z + epoll_t) :=
  let! r := epoll_start (preload_lib E L) ctl_ok e in
  match r with
  | inl code => ret (inl code)
  | inr p =>
      let! r := echo_rounds E L buffer ctl_ok fuel ks l p in
      match r with Some p' => ret (inr p') | None => ret (inl 1) end
  end.

(** C9: the epoll echo server from [main] to any number of rounds, with the module
    loaded, a configuration and allocations for which [init_worker] succeeds
    ([init_ok], [init_pre]) and sockets that can be set up, when the
    messages of each round fit the rings ([round_ok]: for every ring fewer than it
    has entries), [accept4] and [epoll_ctl] succeed and [shutdown] returns: it
    registers its rings, serves every round (accepting, echoing, dropping closed
    connections) and, with the passes of the workers after each round in any order,
    exactly one [send] per message is executed, in order of arrival per ring; all
    rings are empty again. *)
Theorem echo_server_executes E L buffer ctl_ok g e w l p' fuel ks :
  (forall fd how w, exists r, real_shutdown L fd how w = Ret (r, w)) ->
  init_ok E g 0 -> init_pre E g w -> 0 < MAX_USR_WORKER g ->
  syscall_table (krn w) !! __NR_esca_wakeup = Some H_wakeup ->
  epoll_can_start ctl_ok e = true -> next_rounds ctl_ok l (epoll_0 e) = Some p' ->
  Forall (round_ok g 0 (ee_socket e)) l ->
  ks ≡ₚ worker_rings g 0 -> ring_size (MAX_TABLE_ENTRY g) (MAX_TABLE_LEN g) <= Z.of_nat fuel ->
  exists w', echo_server E L buffer ctl_ok fuel ks e l w = Ret (inr p', w') /\
    executed (krn w') = executed (krn w) ++ concat (map (round_calls E buffer g 0 ks (ee_socket e)) l) /\
    exists lay, set_ok E g w' lay (fun _ => []).
Proof.
  intros Hshut Hok Hpre Hidx Hhook Hst Hp Hl Hks Hfuel.
  destruct (init_worker_run E g 0 w Hok Hpre Hidx) as (w1 & Hrun1 & Hs1 & Hseg1 & Hb1 & Hid1 & Hx1 & Hsys1).
  destruct (echo_rounds_run E L buffer ctl_ok Hshut g 0 (layout g 0 (next_page (mem w))) fuel ks Hks Hfuel l w1 (epoll_0 e) p')
    as (w' & Hrun & [Hs _ _ _] & Hx); [|done|done|].
  { constructor; [exact Hs1|by rewrite Hsys1|done|done]. }
  exists w'. split; [|split; [by rewrite Hx, Hx1|by eexists]].
  unfold echo_server. rewrite (bind_eq _ _ w (inr (epoll_0 e)) w1).
  - by mrun Hrun.
  - rewrite epoll_start_result, Hst. by mrun Hrun1.
Qed.

(** ** A concrete server: listening socket 3, clients 4 and 6 *)
Definition eenv0 : epoll_env := {| ee_argc := 2; ee_socket := 3; ee_bind := 0; ee_listen := 0; ee_epoll := 5 |}.
Definition ctl0 (_ : Z) : bool := true.

(** Both connect; client 4 says "hi"; client 6 says "by" while client 4 closes. *)
Definition rounds0 : list (list epoll_event) :=
  [[EvAccept 3 4; EvAccept 3 6]; [EvData 4 [104; 105]]; [EvData 6 [98; 121]; EvClosed 4]].
Definition epoll_end0 : epoll_t := Epoll 3 (<[6 := Z.lor EPOLLIN EPOLLET]> {[3 := EPOLLIN]}).

Lemma round_ok_small g idx lfd evs :
  ring_size (MAX_TABLE_ENTRY g) (MAX_TABLE_LEN g) <= INT_MAX ->
  Forall (recv_ok lfd) evs -> Forall (fun m => 0 <= m.1 /\ (0 < length m.2)%nat) (messages lfd evs) ->
  Z.of_nat (length (messages lfd evs)) < ring_size (MAX_TABLE_ENTRY g) (MAX_TABLE_LEN g) ->
  round_ok g idx lfd evs.
Proof.
  intros Hn Hr Hm Hl. constructor; try done; [lia|]. intros k.
  eapply Z.le_lt_trans; [apply inj_le, length_filter|done].
Qed.

Lemma rounds0_ok : Forall (round_ok g0 0 3) rounds0.
Proof.
  repeat apply Forall_cons_2; try apply Forall_nil_2; apply round_ok_small; try (vm_compute; congruence).
  all: repeat apply Forall_cons_2; try apply Forall_nil_2; vm_compute;
    (congruence || reflexivity || (split; [congruence|lia])).
Qed.

Lemma echo_server_executes_witness :
  exists w', echo_server env0 libc0 700 ctl0 64 [1; 0] eenv0 rounds0 boot = Ret (inr epoll_end0, w') /\
    executed (krn w') = executed (krn boot) ++ concat (map (round_calls env0 700 g0 0 [1; 0] 3) rounds0) /\
    exists lay, set_ok env0 g0 w' lay (fun _ => []).
Proof.
  apply (echo_server_executes env0 libc0 700 ctl0 g0 eenv0 boot rounds0 epoll_end0 64 [1; 0]).
  - intros. by exists 0.
  - apply init_ok0.
  - apply init_pre0.
  - done.
  - by vm_compute.
  - by vm_compute.
  - by vm_compute.
  - apply rounds0_ok.
  - apply perm_swap.
  - vm_compute. congruence.
Defined.

(** The calls of that run: [sendto] for 4, then for 6. *)
Lemma rounds0_calls :
  concat (map (round_calls env0 700 g0 0 [1; 0] 3) rounds0)
  = echo_calls env0 700 [(4, [104; 105]); (6, [98; 121])].
Proof. vm_compute. reflexivity. Qed.

(** ** What the buffer holds when the sends are executed *)

(** C30: in a round of the echo server that starts with empty rings and whose
    messages fit the rings ([round_ok]) every message leads to a [send] of the one buffer to the
    connection of the message, executed once in order per ring by the passes after
    the round; at that time the buffer holds the last message, so it is echoed
    correctly, and for an earlier message that is not longer the bytes sent are
    those of the last message, whatever the client said. *)
Theorem echo_round_shares_buffer E L buffer ctl_ok g idx lay w p evs p' l m fuel ks :
  (forall fd how w, exists r, real_shutdown L fd how w = Ret (r, w)) ->
  server_ready E g idx lay w -> round_ok g idx (sock_listen_fd p) evs ->
  messages (sock_listen_fd p) evs = l ++ [m] -> next_epolls ctl_ok evs p = Some p' ->
  ks ≡ₚ worker_rings g idx -> ring_size (MAX_TABLE_ENTRY g) (MAX_TABLE_LEN g) <= Z.of_nat fuel ->
  exists w1 w2, serve_round (preload_lib E L) L buffer ctl_ok evs p w = Ret (Some p', w1) /\
    run_passes E fuel ks w1 = Ret (tt, w2) /\
    executed (krn w2) = executed (krn w) ++ round_calls E buffer g idx ks (sock_listen_fd p) evs /\
    heap (mem w2) = heap (mem w1) /\ read_bytes (heap (mem w1)) buffer (length m.2) = Some m.2 /\
    forall m', m' ∈ l -> (length m'.2 <= length m.2)%nat ->
      read_bytes (heap (mem w1)) buffer (length m'.2) = Some (take (length m'.2) m.2).
Proof.
  intros Hshut Hw Hok Hm Hp Hks Hfuel.
  destruct (round_run E L buffer ctl_ok Hshut g idx lay fuel ks Hks Hfuel w p evs p' Hw Hok Hp)
    as (w1 & w2 & Hr1 & Hr2 & _ & Hx & Hh1 & Hh2).
  assert (read_bytes (heap (mem w1)) buffer (length m.2) = Some m.2) as Hlast.
  { rewrite Hh1, Hm. apply buffer_after_last. }
  exists w1, w2. split_and!; try done. intros m' _ Hlen. by eapply read_bytes_take.
Qed.

Definition epoll_two : epoll_t := Epoll 3 (<[4 := EPOLLIN]> (<[6 := EPOLLIN]> {[3 := EPOLLIN]})).
Definition hi_by : list epoll_event := [EvData 4 [104; 105]; EvData 6 [98; 121]].
Definition h_by : list epoll_event := [EvData 4 [104]; EvData 6 [98; 121]].

Lemma server_ready0 : server_ready env0 g0 0 (layout g0 0 0) ready.
Proof. constructor; [apply set_ok_ready|by vm_compute..]. Qed.

Lemma h_by_ok : round_ok g0 0 3 h_by.
Proof.
  apply round_ok_small; try (vm_compute; congruence).
  all: repeat apply Forall_cons_2; try apply Forall_nil_2; vm_compute; (congruence || reflexivity || (split; [congruence|lia])).
Qed.

Lemma echo_round_shares_buffer_witness :
  exists w1 w2, serve_round (preload_lib env0 libc0) libc0 700 ctl0 h_by epoll_two ready = Ret (Some epoll_two, w1) /\
    run_passes env0 64 [0; 1] w1 = Ret (tt, w2) /\
    executed (krn w2) = executed (krn ready) ++ round_calls env0 700 g0 0 [0; 1] 3 h_by /\
    heap (mem w2) = heap (mem w1) /\ read_bytes (heap (mem w1)) 700 2 = Some [98; 121] /\
    forall m', m' ∈ [(4, [104])] -> (length m'.2 <= 2)%nat ->
      read_bytes (heap (mem w1)) 700 (length m'.2) = Some (take (length m'.2) [98; 121]).
Proof.
  apply (echo_round_shares_buffer env0 libc0 700 ctl0 g0 0 (layout g0 0 0) ready epoll_two h_by epoll_two
           [(4, [104])] (6, [98; 121]) 64 [0; 1]).
  - intros. by exists 0.
  - apply server_ready0.
  - apply h_by_ok.
  - done.
  - done.
  - reflexivity.
  - vm_compute. congruence.
Defined.

(** What the kernel sends for a [sendto]: descriptor and bytes. *)
Definition sendto_effect (hb : gmap Z Z) (c : call) : Z * option (list Z) :=
  match regs_args X86_64 c.2 with
  | fd :: buf :: len :: _ => (fd, read_bytes hb buf (Z.to_nat len))
  | _ => (0, None)
  end.

(** Two clients whose messages arrive in one round: the server receives
    "hi" from descriptor 4 and "by" from descriptor 6, and both get "by". *)
Theorem echo_mixes_messages :
  exists w w', serve_round (preload_lib env0 libc0) libc0 700 ctl0 hi_by epoll_two ready = Ret (Some epoll_two, w) /\
    run_passes env0 64 [0; 1] w = Ret (tt, w') /\
    map (sendto_effect (heap (mem w'))) (executed (krn w')) = [(4, Some [98; 121]); (6, Some [98; 121])].
Proof.
  eexists _, _. split; [vm_compute; reflexivity|]. split; [vm_compute; reflexivity|].
  vm_compute. reflexivity.
Qed.

(** The epoll server reaches its loop exactly when it has an argument and every
    call of the set-up succeeds; otherwise it exits with status 0 or 1 before it
    touches the library. *)
Theorem epoll_start_outcome E L ctl_ok e w :
  if epoll_can_start ctl_ok e
  then epoll_start (preload_lib E L) ctl_ok e w = (do! init_worker E 0 in ret (inr (epoll_0 e))) w
  else epoll_start (preload_lib E L) ctl_ok e w = Ret (inl (if 2 <=? ee_argc e then 1 else 0), w).
Proof. rewrite epoll_start_result. by destruct (epoll_can_start ctl_ok e). Qed.
