(* ===== verification/EchoDummy.v ===== *)
(** * The epoll echo server without the preload library

    Linked against libdummy.so alone, the server calls libc's [send], which
    takes its bytes from the buffer before it returns: every client gets bytes of
    its own messages only.  With [EchoProps] this separates what the server
    promises from what the deferral of [send] changes. *)
From stdpp Require Import base numbers list gmap.
From S2P Require Import Prelude Esca IndirectCall World Kernel Preload Wrappers WrapperProps Library Scenario EchoServer EchoProps.

Section dummy.
Context (L : libc) (buffer : Z) (ctl_ok : Z -> bool).
(** What was handed to the network, in order: descriptor and bytes. *)
Context (sent : world -> list (Z * list Z)).
Context (Hshut : forall fd how w, exists r, real_shutdown L fd how w = Ret (r, w)).
(** Stores of the process send nothing. *)
Context (Hstore : forall f w, sent (with_mem f w) = sent w).
(** [send] on a non-blocking socket takes any number of the bytes at the address
    it is given, or fails with -1 and takes none. *)
Context (Hsend : forall fd bs w, read_bytes (heap (mem w)) buffer (length bs) = Some bs ->
  exists r w', real_send L fd buffer (Z.of_nat (length bs)) 0 w = Ret (r, w') /\
    -1 <= r <= Z.of_nat (length bs) /\ sent w' = sent w ++ [(fd, take (Z.to_nat r) bs)]).

(** The answer to a message: to its connection, a prefix of its bytes. *)
Definition answers (m o : Z * list Z) : Prop := o.1 = m.1 /\ o.2 `prefix_of` m.2.

(** [w'] has sent one answer to each of the messages [l], in their order. *)
Definition answered (l : list (Z * list Z)) (w w' : world) : Prop :=
  exists outs, sent w' = sent w ++ outs /\ Forall2 answers l outs.

Lemma answered_nil w : answered [] w w.
Proof. exists []. by rewrite app_nil_r. Qed.
Lemma answered_app l l' w w1 w2 : answered l w w1 -> answered l' w1 w2 -> answered (l ++ l') w w2.
Proof.
  intros (o & H1 & Ho) (o' & H2 & Ho'). exists (o ++ o'). split; [by rewrite H2, H1, app_assoc|].
  by apply Forall2_app.
Qed.

Lemma messages_app lfd l l' : messages lfd (l ++ l') = messages lfd l ++ messages lfd l'.
Proof. apply omap_app. Qed.

Lemma dummy_event ev p p' w :
  recv_ok (sock_listen_fd p) ev -> next_epoll ctl_ok ev p = Some p' ->
  exists w', serve_event (dummy_lib L) L buffer ctl_ok ev p w = Ret (Some p', w') /\
    answered (messages (sock_listen_fd p) [ev]) w w'.
Proof.
  intros Hr Hp. unfold messages. simpl. destruct (message_of (sock_listen_fd p) ev) as [m|] eqn:Hm.
  2: { exists w. split; [by apply (serve_quiet (dummy_lib L) L buffer ctl_ok Hshut)|apply answered_nil]. }
  unfold message_of in Hm. unfold next_epoll in Hp. unfold serve_event.
  destruct (Z.eqb_spec (data_fd ev) (sock_listen_fd p)); [done|].
  destruct (Z.leb_spec (ev_ret ev) 0) as [|Hpos]; [done|]. injection Hm as <-. injection Hp as <-.
  assert (ev_ret ev = Z.of_nat (length (ev_bytes ev))) as Hret by (specialize (Hr ltac:(done)); lia).
  unfold recv. rewrite (bind_eq _ _ w (ev_ret ev) _ eq_refl).
  destruct (Z.leb_spec (ev_ret ev) 0); [lia|]. rewrite Hret.
  destruct (Hsend (data_fd ev) (ev_bytes ev)
              (with_mem (fun mm => put_heap (write_bytes (heap mm) buffer (ev_bytes ev)) mm) w)
              (read_write_bytes _ _ _)) as (r & w' & Hrun & _ & Hsent).
  exists w'. split; [by mrun Hrun|]. exists [(data_fd ev, take (Z.to_nat r) (ev_bytes ev))].
  split; [by rewrite Hsent, Hstore|]. repeat constructor. apply prefix_take.
Qed.

Lemma dummy_events l : forall p p' w,
  Forall (recv_ok (sock_listen_fd p)) l -> next_epolls ctl_ok l p = Some p' ->
  exists w', serve_events (dummy_lib L) L buffer ctl_ok l p w = Ret (Some p', w') /\
    answered (messages (sock_listen_fd p) l) w w'.
Proof.
  induction l as [|ev l IH]; intros p p' w Hl Hp; simpl in Hp.
  { injection Hp as <-. exists w. split; [done|apply answered_nil]. }
  apply Forall_cons in Hl as [Hev Hl]. destruct (next_epoll ctl_ok ev p) as [p1|] eqn:Hp1; [|done].
  pose proof (next_epoll_listen _ _ _ _ Hp1) as Hl1. simpl.
  destruct (dummy_event ev p p1 w Hev Hp1) as (w1 & Hr1 & Ha1). rewrite <- Hl1 in Hl.
  destruct (IH p1 p' w1 Hl Hp) as (w' & Hr' & Ha'). exists w'. split; [by mrun Hr1|].
  rewrite Hl1 in Ha'.
  change (answered (messages (sock_listen_fd p) ([ev] ++ l)) w w'). rewrite messages_app.
  by eapply answered_app.
Qed.

(** C29: without the preload library, with a [send] that may be short or fail (the
    server ignores its result), the epoll echo server hands to the network exactly
    one answer per message of every round, in the order of arrival: to the
    connection the message came from, a prefix of the bytes of this message.  The
    buffer shared by all connections never mixes messages. *)
Theorem dummy_server_echoes l : forall p p' w,
  Forall (Forall (recv_ok (sock_listen_fd p))) l -> next_rounds ctl_ok l p = Some p' ->
  exists w', serve_loop (dummy_lib L) L buffer ctl_ok (map Some l) p w = Ret (Some p', w') /\
    answered (messages (sock_listen_fd p) (concat l)) w w'.
Proof.
  induction l as [|evs l IH]; intros p p' w Hl Hp; simpl in Hp.
  { injection Hp as <-. exists w. split; [done|apply answered_nil]. }
  apply Forall_cons in Hl as [Hev Hl]. destruct (next_epolls ctl_ok evs p) as [p1|] eqn:Hp1; [|done].
  pose proof (next_epolls_listen _ _ _ _ Hp1) as Hl1. simpl.
  destruct (dummy_events evs p p1 w Hev Hp1) as (w1 & Hr1 & Ha1). rewrite <- Hl1 in Hl.
  destruct (IH p1 p' w1 Hl Hp) as (w' & Hr' & Ha'). exists w'. split.
  - rewrite (bind_eq _ _ w (Some p1) w1); [done|]. unfold serve_round. simpl.
    unfold dummy_batch_start, dummy_batch_flush. rewrite bind_ret_l. by mrun Hr1.
  - rewrite Hl1 in Ha'. rewrite messages_app. by eapply answered_app.
Qed.
End dummy.

(** ** Two clients in one round *)

(** A network that takes at most one byte at a time, and keeps what it took with
    the calls of the kernel. *)
Definition sent1 (w : world) : list (Z * list Z) := map (fun c => (c.1, xregs c.2)) (executed (krn w)).
Definition take1 (fd : Z) (bs : list Z) (w : world) : world :=
  with_krn (log_call (fd, PtRegs 0 0 0 0 0 0 (take 1 bs))) w.
Definition libc1 : libc := {|
  real_close := real_close libc0; real_write := real_write libc0;
  real_send := fun fd buf n _ w =>
    match read_bytes (heap (mem w)) buf (Z.to_nat n) with
    | Some bs => Ret (Z.min 1 n, take1 fd bs w)
    | None => Fault OutOfBounds
    end;
  real_shutdown := real_shutdown libc0; real_sendfile := real_sendfile libc0;
  real_sendfile_offset := real_sendfile_offset libc0; real_sendmsg := real_sendmsg libc0
|}.

Lemma libc1_sends fd bs w :
  read_bytes (heap (mem w)) 700 (length bs) = Some bs ->
  exists r w', real_send libc1 fd 700 (Z.of_nat (length bs)) 0 w = Ret (r, w') /\
    -1 <= r <= Z.of_nat (length bs) /\ sent1 w' = sent1 w ++ [(fd, take (Z.to_nat r) bs)].
Proof.
  intros Hb. exists (Z.min 1 (Z.of_nat (length bs))), (take1 fd bs w). simpl. rewrite Nat2Z.id, Hb.
  split; [done|]. split; [lia|]. unfold sent1, take1. simpl. rewrite map_app.
  replace (Z.to_nat (Z.min 1 (Z.of_nat (length bs)))) with (1 `min` length bs)%nat by lia.
  by destruct bs.
Qed.

(** The round of [echo_mixes_messages]: here each client gets a byte of its own
    message. *)
Lemma dummy_server_echoes_witness :
  exists w', serve_loop (dummy_lib libc1) libc1 700 ctl0 [Some hi_by] epoll_two boot = Ret (Some epoll_two, w') /\
    answered sent1 [(4, [104; 105]); (6, [98; 121])] boot w'.
Proof.
  apply (dummy_server_echoes libc1 700 ctl0 sent1 ltac:(intros; by exists 0) ltac:(done) libc1_sends
           [hi_by] epoll_two epoll_two boot).
  - repeat constructor; intros _; vm_compute; reflexivity.
  - reflexivity.
Defined.

(** What that network got. *)
Example hi_by_sent :
  match serve_loop (dummy_lib libc1) libc1 700 ctl0 [Some hi_by] epoll_two boot with
  | Ret (_, w') => sent1 w' = sent1 boot ++ [(4, [104]); (6, [98])]
  | _ => False
  end.
Proof. vm_compute. reflexivity. Qed.
