(* ===== verification/Uring.v ===== *)
(** * The io_uring echo server (echo/io_uring_echo_server.c)

    The server keeps no table of connections: what a completion is about
    travels through the ring in its [user_data], which holds a [conn_info].
    Buffers are rows of [bufs]; the kernel selects one for every receive and the
    server hands it back after the answer.

    liburing and the kernel are not part of the sources.  An SQE is the record
    of the arguments of its [io_uring_prep_*] call; the functions of liburing are
    the interface [liburing], what the kernel does with an SQE the interface
    [uring_kernel].  Their documented behaviour is stated as the laws of the
    classes [LiburingLaws] (UringInv) and [UringLaws] (UringProps).  Where the
    server needs more than that, it is a condition on the execution
    ([reports_buffer] below). *)
From stdpp Require Import base numbers list gmap.
From S2P Require Import Prelude.

Definition MAX_CONNECTIONS : Z := 4096.
Definition MAX_MESSAGE_LEN : Z := 91280.
Definition BUFFERS_COUNT : Z := MAX_CONNECTIONS.
Definition RING_ENTRIES : Z := 2048. (* io_uring_queue_init_params(2048, ...) *)
Definition group_id : Z := 1337.

Definition IOSQE_BUFFER_SELECT : Z := 32.   (* 1U << 5 *)
Definition IORING_FEAT_FAST_POLL : Z := 32. (* 1U << 5 *)
Definition ENOBUFS : Z := 105.

(** [IORING_CQE_F_BUFFER], bit 0 of the flags of a completion: the upper half of
    the flags is the identifier of the buffer the kernel has chosen. *)
Definition cqe_f_buffer (flags : Z) : bool := Z.testbit flags 0.

(** The enumeration of the kinds of request. *)
Definition ACCEPT : Z := 0.
Definition READ : Z := 1.
Definition WRITE : Z := 2.
Definition PROV_BUF : Z := 3.

Record conn_info := ConnInfo { ci_fd : Z; ci_type : Z; ci_bid : Z }.

#[export] Instance conn_info_eq_dec : EqDecision conn_info.
Proof. solve_decision. Defined.

(** [memcpy] between a [conn_info] (u32, u16, u16) and the 64 bits of
    [user_data], little-endian. *)
Definition conn_info_bytes (c : conn_info) : Z :=
  Z.lor (ci_fd c) (Z.lor (Z.shiftl (ci_type c) 32) (Z.shiftl (ci_bid c) 48)).
Definition conn_info_of (u : Z) : conn_info :=
  ConnInfo (Z.land u (Z.ones 32)) (Z.land (Z.shiftr u 32) (Z.ones 16)) (Z.land (Z.shiftr u 48) (Z.ones 16)).

#[global] Arguments conn_info_of : simpl never.

(** ** Submission queue entries *)
Inductive uring_op :=
| Op_none
| Op_accept (fd : Z)                       (* io_uring_prep_accept *)
| Op_recv (fd len : Z)                     (* io_uring_prep_recv(sqe, fd, NULL, len, 0) *)
| Op_send (fd row len : Z)                 (* io_uring_prep_send(sqe, fd, &bufs[row], len, 0) *)
| Op_provide (row len nr bgid bid : Z).    (* io_uring_prep_provide_buffers(sqe, bufs[row], ...) *)

#[export] Instance uring_op_eq_dec : EqDecision uring_op.
Proof. solve_decision. Defined.

Record io_uring_sqe := Sqe {
  sqe_op : uring_op;
  sqe_flags : Z;
  sqe_buf_group : Z;
  sqe_user_data : Z
}.

#[export] Instance io_uring_sqe_eq_dec : EqDecision io_uring_sqe.
Proof. solve_decision. Defined.

Record io_uring_cqe := Cqe { cqe_user_data : Z; cqe_res : Z; cqe_flags : Z }.

(** The state of the process: the entries of the submission queue that are not
    submitted yet, and the descriptors it has closed. *)
Record userver := UServer { sq : list io_uring_sqe; closed : list Z }.
Notation MU := (M userver).

(** ** liburing: a pointer to an SQE is its position in the submission queue, or
    [NULL]. *)
Class liburing := {
  io_uring_get_sqe : MU (option nat);
  io_uring_prep : option nat -> uring_op -> MU unit;  (* io_uring_prep_* *)
  io_uring_sqe_set_flags : option nat -> Z -> MU unit;
  io_uring_submit : MU (list io_uring_sqe)            (* what goes to the kernel *)
}.

(** A store to a field of an SQE. *)
Definition with_sqe (p : option nat) (f : io_uring_sqe -> io_uring_sqe) : MU unit :=
  match p with
  | None => fail NullDeref
  | Some i => modify (fun s => UServer (alter f i (sq s)) (closed s))
  end.

Definition set_buf_group (p : option nat) (gid : Z) : MU unit :=
  with_sqe p (fun e => Sqe (sqe_op e) (sqe_flags e) gid (sqe_user_data e)).
Definition set_user_data (p : option nat) (c : conn_info) : MU unit :=
  with_sqe p (fun e => Sqe (sqe_op e) (sqe_flags e) (sqe_buf_group e) (conn_info_bytes c)).

(** [bufs[bid]] *)
Definition buf_row (bid : Z) : MU Z :=
  if (0 <=? bid) && (bid <? BUFFERS_COUNT) then ret bid else fail OutOfBounds.

(** ** The four kinds of request *)
Section requests.
Context {LU : liburing}.

Definition add_accept (fd flags : Z) : MU unit :=
  let! sqe := io_uring_get_sqe in
  do! io_uring_prep sqe (Op_accept fd) in
  do! io_uring_sqe_set_flags sqe flags in
  set_user_data sqe (ConnInfo (to_uint fd) ACCEPT 0).

Definition add_socket_read (fd gid message_size flags : Z) : MU unit :=
  let! sqe := io_uring_get_sqe in
  do! io_uring_prep sqe (Op_recv fd message_size) in
  do! io_uring_sqe_set_flags sqe flags in
  do! set_buf_group sqe (wrap_u 16 gid) in
  set_user_data sqe (ConnInfo (to_uint fd) READ 0).

Definition add_socket_write (fd bid0 message_size flags : Z) : MU unit :=
  let bid := wrap_u 16 bid0 in
  let! sqe := io_uring_get_sqe in
  let! row := buf_row bid in
  do! io_uring_prep sqe (Op_send fd row message_size) in
  do! io_uring_sqe_set_flags sqe flags in
  set_user_data sqe (ConnInfo (to_uint fd) WRITE bid).

Definition add_provide_buf (bid0 gid : Z) : MU unit :=
  let bid := wrap_u 16 bid0 in
  let! sqe := io_uring_get_sqe in
  let! row := buf_row bid in
  do! io_uring_prep sqe (Op_provide row MAX_MESSAGE_LEN 1 gid bid) in
  set_user_data sqe (ConnInfo 0 PROV_BUF 0).

End requests.

Definition close_fd (fd : Z) : MU unit := modify (fun s => UServer (sq s) (closed s ++ [fd])).

(** ** The event loop *)
Section server.
Context {LU : liburing} (sock_listen_fd : Z).

(** The body of [io_uring_for_each_cqe]; the result is the argument of [exit]
    when the server ends. *)
Definition handle_cqe (cqe : io_uring_cqe) : MU (option Z) :=
  let conn_i := conn_info_of (cqe_user_data cqe) in
  let type := ci_type conn_i in
  if cqe_res cqe =? - ENOBUFS then ret (Some 1)
  else if type =? PROV_BUF then
    if cqe_res cqe <? 0 then ret (Some 1) else ret None
  else if type =? ACCEPT then
    let sock_conn_fd := cqe_res cqe in
    do! (if 0 <=? sock_conn_fd
         then add_socket_read sock_conn_fd group_id MAX_MESSAGE_LEN IOSQE_BUFFER_SELECT
         else ret tt) in
    do! add_accept sock_listen_fd 0 in
    ret None
  else if type =? READ then
    let bytes_read := cqe_res cqe in
    let bid := Z.shiftr (cqe_flags cqe) 16 in
    if cqe_res cqe <=? 0 then
      do! add_provide_buf bid group_id in
      do! close_fd (to_int (ci_fd conn_i)) in
      ret None
    else
      do! add_socket_write (to_int (ci_fd conn_i)) bid bytes_read 0 in
      ret None
  else if type =? WRITE then
    do! add_provide_buf (ci_bid conn_i) group_id in
    do! add_socket_read (to_int (ci_fd conn_i)) group_id MAX_MESSAGE_LEN IOSQE_BUFFER_SELECT in
    ret None
  else ret None.

(** [io_uring_for_each_cqe] *)
Fixpoint handle_cqes (l : list io_uring_cqe) : MU (option Z) :=
  match l with
  | [] => ret None
  | cqe :: l' =>
      let! r := handle_cqe cqe in
      match r with Some code => ret (Some code) | None => handle_cqes l' end
  end.
End server.

(** ** Start of the server *)

(** What the calls before the loop give. *)
Record uring_env := {
  ue_argc : Z;
  ue_socket : Z;            (* sock_listen_fd; not checked *)
  ue_bind : Z;
  ue_listen : Z;
  ue_queue_init : Z;
  ue_features : Z;
  ue_probe : option bool;   (* NULL, or whether PROVIDE_BUFFERS is supported *)
  ue_provide : list uring_op -> Z (* cqe->res of the first submission *)
}.

Section start.
Context {LU : liburing}.

(** "register buffers for buffer selection", and the first accept *)
Definition uring_register (e : uring_env) : MU (option Z) :=
  let! sqe := io_uring_get_sqe in
  do! io_uring_prep sqe (Op_provide 0 MAX_MESSAGE_LEN BUFFERS_COUNT group_id 0) in
  let! l := io_uring_submit in
  if ue_provide e (map sqe_op l) <? 0 then ret (Some 1)
  else do! add_accept (ue_socket e) 0 in ret None.

Definition uring_start (e : uring_env) : MU (option Z) :=
  if ue_argc e <? 2 then ret (Some 0)
  else if ue_bind e <? 0 then ret (Some 1)
  else if ue_listen e <? 0 then ret (Some 1)
  else if ue_queue_init e <? 0 then ret (Some 1)
  else if Z.land (ue_features e) IORING_FEAT_FAST_POLL =? 0 then ret (Some 0)
  else if negb (default false (ue_probe e)) then ret (Some 0)
  else uring_register e.
End start.

(** ** The server and the kernel *)

(** What the kernel does with submitted entries: [avail] are the buffers of the
    group it may select, [opened] the open descriptors of the process;
    [completes k s c d] is the kernel after it has completed [s] with the
    completion [c], [d] being the bytes a receive has stored, [None] when the
    kernel does not do this. *)
Class uring_kernel (K : Type) := {
  avail : K -> list Z;
  opened : K -> list Z;
  completes : K -> io_uring_sqe -> io_uring_cqe -> list Z -> option K;
  k_close : K -> Z -> K
}.

Record usys (K : Type) := USys {
  srv : userver;
  kern : K;
  inflight : list io_uring_sqe;             (* submitted, not completed *)
  cq : list io_uring_cqe;                   (* completed, not handled *)
  rows : gmap Z (list Z);                   (* bufs, where it was written *)
  received : gmap Z (list (list Z));        (* history: what each descriptor received *)
  sent : gmap Z (list (list Z));            (* history: what was sent on it *)
  stopped : option Z
}.
Arguments USys {K}.
Arguments srv {K}.
Arguments kern {K}.
Arguments inflight {K}.
Arguments cq {K}.
Arguments rows {K}.
Arguments received {K}.
Arguments sent {K}.
Arguments stopped {K}.

(** [char bufs[BUFFERS_COUNT][MAX_MESSAGE_LEN] = { 0 }] *)
Definition row_of (m : gmap Z (list Z)) (b : Z) : list Z :=
  default (replicate (Z.to_nat MAX_MESSAGE_LEN) 0) (m !! b).
Definition write_row (b : Z) (d : list Z) (m : gmap Z (list Z)) : gmap Z (list Z) :=
  <[b := d ++ drop (length d) (row_of m b)]> m.

Definition history (m : gmap Z (list (list Z))) (fd : Z) : list (list Z) := default [] (m !! fd).
Definition log (fd : Z) (d : list Z) (m : gmap Z (list (list Z))) : gmap Z (list (list Z)) :=
  <[fd := history m fd ++ [d]]> m.

Inductive uevent :=
| Esubmit                                              (* io_uring_submit_and_wait *)
| Ecomplete (i : nat) (c : io_uring_cqe) (d : list Z)  (* the kernel completes an entry *)
| Ehandle.                                             (* one iteration over the CQEs *)

(** A receive that completes without data, other than with [-ENOBUFS], reports a
    buffer.  io_uring does not promise this; the handler, which gives
    [flags >> 16] back without looking at [IORING_CQE_F_BUFFER], relies on it. *)
Definition reports_buffer (e : uevent) : bool :=
  match e with
  | Ecomplete _ c _ =>
      negb (ci_type (conn_info_of (cqe_user_data c)) =? READ) || (0 <? cqe_res c) ||
      (cqe_res c =? - ENOBUFS) || cqe_f_buffer (cqe_flags c)
  | _ => true
  end.

Section system.
Context {LU : liburing} {K : Type} `{uring_kernel K} (sock_listen_fd : Z).

(** The memory and the sockets after a completion. *)
Definition complete_effect (s : io_uring_sqe) (c : io_uring_cqe) (d : list Z) (S : usys K) :
    gmap Z (list Z) * gmap Z (list (list Z)) * gmap Z (list (list Z)) :=
  match sqe_op s with
  | Op_recv fd _ =>
      if 0 <? cqe_res c
      then (write_row (Z.shiftr (cqe_flags c) 16) d (rows S), log fd d (received S), sent S)
      else (rows S, received S, sent S)
  | Op_send fd row _ =>
      (rows S, received S, log fd (take (Z.to_nat (cqe_res c)) (row_of (rows S) row)) (sent S))
  | _ => (rows S, received S, sent S)
  end.

(** The server submits when it has gone through all completions; one that arrives
    between the end of its loop and the submission is as one that arrives right
    after it. *)
Definition ustep (e : uevent) (S : usys K) : option (usys K) :=
  match stopped S with
  | Some _ => None
  | None =>
    match e with
    | Esubmit =>
        match cq S, io_uring_submit (srv S) with
        | [], Ret (l, srv') =>
            Some (USys srv' (kern S) (inflight S ++ l) [] (rows S) (received S) (sent S) None)
        | _, _ => None
        end
    | Ecomplete i c d =>
        match inflight S !! i with
        | None => None
        | Some s =>
            match completes (kern S) s c d with
            | None => None
            | Some k' =>
                let '(m, r, t) := complete_effect s c d S in
                Some (USys (srv S) k' (delete i (inflight S)) (cq S ++ [c]) m r t None)
            end
        end
    | Ehandle =>
        match cq S with
        | [] => None
        | c :: cq' =>
            match handle_cqe sock_listen_fd c (UServer (sq (srv S)) []) with
            | Ret (r, srv') =>
                Some (USys srv' (foldl k_close (kern S) (closed srv'))
                        (inflight S) cq' (rows S) (received S) (sent S) r)
            | _ => None
            end
        end
    end
  end.

Fixpoint urun (l : list uevent) (S : usys K) : option (usys K) :=
  match l with
  | [] => Some S
  | e :: l' => match ustep e S with Some S' => urun l' S' | None => None end
  end.

(** The state in which the loop starts, with the kernel that has the buffers. *)
Definition usys_start (k : K) (s : userver) : usys K := USys s k [] [] ∅ ∅ ∅ None.
End system.
