(* ===== verification/UringInv.v ===== *)
(** * Ownership of connections and buffers in the io_uring server

    Every request of the server is abstracted to a [token] that says which
    descriptor and which buffer it owns.  The handlers and the kernel rewrite the
    multiset of tokens; the invariant says that no descriptor and no buffer has
    two owners, and that the buffer of a pending answer still holds the message
    to be echoed. *)
From stdpp Require Import base numbers list gmap.
From S2P Require Import Prelude Uring.

(** ** [conn_info] survives the ring *)
Definition conn_info_fits (c : conn_info) : Prop :=
  0 <= ci_fd c < 2 ^ 32 /\ 0 <= ci_type c < 2 ^ 16 /\ 0 <= ci_bid c < 2 ^ 16.

Lemma shiftl_testbit_low a n i : i < n -> Z.testbit (Z.shiftl a n) i = false.
Proof.
  intros H. destruct (Z_lt_le_dec i 0); [by apply Z.testbit_neg_r|].
  rewrite Z.shiftl_spec by done. apply Z.testbit_neg_r. lia.
Qed.

Lemma testbit_above x n i : 0 <= x < 2 ^ n -> n <= i -> Z.testbit x i = false.
Proof.
  intros Hx Hi. destruct (Z_lt_le_dec n 0).
  { rewrite Z.pow_neg_r in Hx by done. lia. }
  rewrite <- (Z.mod_small x (2 ^ n)) by done. apply Z.mod_pow2_bits_high. lia.
Qed.

Lemma conn_info_roundtrip_fits c : conn_info_fits c -> conn_info_of (conn_info_bytes c) = c.
Proof.
  intros (Hf & Ht & Hb). destruct c as [f t b]; simpl in *.
  unfold conn_info_of, conn_info_bytes; simpl.
  f_equal; apply Z.bits_inj'; intros i Hi;
    rewrite Z.land_spec, Z.testbit_ones_nonneg by lia; rewrite ?Z.shiftr_spec, !Z.lor_spec by done.
  - destruct (Z.ltb_spec i 32).
    + rewrite !shiftl_testbit_low by lia. by rewrite !orb_false_r, andb_true_r.
    + rewrite andb_false_r. symmetry. by apply testbit_above with 32.
  - destruct (Z.ltb_spec i 16).
    + rewrite (testbit_above f 32), (shiftl_testbit_low b) by lia.
      rewrite Z.shiftl_spec by lia. rewrite orb_false_r, andb_true_r. simpl. f_equal. lia.
    + rewrite andb_false_r. symmetry. by apply testbit_above with 16.
  - destruct (Z.ltb_spec i 16).
    + rewrite (testbit_above f 32), !Z.shiftl_spec by lia.
      rewrite (testbit_above t 16), andb_true_r by lia. simpl. f_equal. lia.
    + rewrite andb_false_r. symmetry. by apply testbit_above with 16.
Qed.

(** ** The requests, when the submission queue has room *)
Definition accept_sqe (lfd : Z) : io_uring_sqe :=
  Sqe (Op_accept lfd) 0 0 (conn_info_bytes (ConnInfo (to_uint lfd) ACCEPT 0)).
Definition read_sqe (fd : Z) : io_uring_sqe :=
  Sqe (Op_recv fd MAX_MESSAGE_LEN) IOSQE_BUFFER_SELECT group_id (conn_info_bytes (ConnInfo fd READ 0)).
Definition write_sqe (fd bid n : Z) : io_uring_sqe :=
  Sqe (Op_send fd bid n) 0 0 (conn_info_bytes (ConnInfo fd WRITE bid)).
Definition provide_sqe (bid : Z) : io_uring_sqe :=
  Sqe (Op_provide bid MAX_MESSAGE_LEN 1 group_id bid) 0 0 (conn_info_bytes (ConnInfo 0 PROV_BUF 0)).

Definition room (n : Z) (s : userver) : Prop := Z.of_nat (length (sq s)) + n <= RING_ENTRIES.
#[export] Instance room_dec n s : Decision (room n s).
Proof. unfold room. apply _. Defined.

Definition add_sqes (l : list io_uring_sqe) (s : userver) : userver := UServer (sq s ++ l) (closed s).

Lemma alter_last {A} (f : A -> A) (l : list A) x : alter f (length l) (l ++ [x]) = l ++ [f x].
Proof. rewrite alter_app_r_alt by lia. by rewrite Nat.sub_diag. Qed.

(** What liburing documents: [io_uring_get_sqe] gives the next entry, with some
    contents, or [NULL] when as many entries as requested are in use;
    [io_uring_prep_*] stores the operation and clears the flags, [user_data] is
    not defined by it; [io_uring_submit] hands all entries over. *)
Class LiburingLaws `{liburing} := {
  law_get_sqe s : exists e,
    io_uring_get_sqe s =
    if Z.of_nat (length (sq s)) <? RING_ENTRIES then Ret (Some (length (sq s)), add_sqes [e] s) else Ret (None, s);
  law_prep p op s : exists u, io_uring_prep p op s = with_sqe p (fun e => Sqe op 0 0 u) s;
  law_set_flags p f s :
    io_uring_sqe_set_flags p f s = with_sqe p (fun e => Sqe (sqe_op e) f (sqe_buf_group e) (sqe_user_data e)) s;
  law_submit s : io_uring_submit s = Ret (sq s, UServer [] (closed s))
}.

Section requests.
Context {LU : liburing} {LL : LiburingLaws}.

Lemma get_sqe_room s :
  room 1 s -> exists e, io_uring_get_sqe s = Ret (Some (length (sq s)), add_sqes [e] s).
Proof.
  unfold room. intros H. destruct (law_get_sqe s) as [e ->]. exists e.
  by destruct (Z.ltb_spec (Z.of_nat (length (sq s))) RING_ENTRIES); [|lia].
Qed.

Lemma get_sqe_full s : ~ room 1 s -> io_uring_get_sqe s = Ret (None, s).
Proof.
  unfold room. intros H. destruct (law_get_sqe s) as [e ->].
  by destruct (Z.ltb_spec (Z.of_nat (length (sq s))) RING_ENTRIES); [lia|].
Qed.

(** Stores into the entry that was just taken. *)
Lemma with_last s e f : with_sqe (Some (length (sq s))) f (add_sqes [e] s) = Ret (tt, add_sqes [f e] s).
Proof. unfold with_sqe, modify, add_sqes. simpl. by rewrite alter_last. Qed.

Lemma prep_last s e op :
  exists u, io_uring_prep (Some (length (sq s))) op (add_sqes [e] s) = Ret (tt, add_sqes [Sqe op 0 0 u] s).
Proof. destruct (law_prep (Some (length (sq s))) op (add_sqes [e] s)) as [u ->]. exists u. by rewrite with_last. Qed.

Lemma flags_last s op f g u f' :
  io_uring_sqe_set_flags (Some (length (sq s))) f' (add_sqes [Sqe op f g u] s) = Ret (tt, add_sqes [Sqe op f' g u] s).
Proof. by rewrite law_set_flags, with_last. Qed.
Lemma group_last s op f g u g' :
  set_buf_group (Some (length (sq s))) g' (add_sqes [Sqe op f g u] s) = Ret (tt, add_sqes [Sqe op f g' u] s).
Proof. apply with_last. Qed.
Lemma data_last s op f g u c :
  set_user_data (Some (length (sq s))) c (add_sqes [Sqe op f g u] s)
  = Ret (tt, add_sqes [Sqe op f g (conn_info_bytes c)] s).
Proof. apply with_last. Qed.

Lemma buf_row_ok b s : 0 <= b < BUFFERS_COUNT -> buf_row b s = Ret (b, s).
Proof.
  intros Hb. unfold buf_row. destruct (Z.leb_spec 0 b), (Z.ltb_spec b BUFFERS_COUNT); simpl; done || lia.
Qed.

Definition fd_ok (fd : Z) : Prop := 0 <= fd <= INT_MAX.
Definition bid_ok (b : Z) : Prop := 0 <= b < BUFFERS_COUNT.

Lemma fd_ok_uint fd : fd_ok fd -> to_uint fd = fd.
Proof. unfold fd_ok, INT_MAX. intros H. apply to_uint_id. lia. Qed.
Lemma fd_ok_int fd : fd_ok fd -> to_int fd = fd.
Proof. unfold fd_ok. intros H. apply to_int_id. unfold INT_MIN. lia. Qed.
Lemma bid_ok_wrap b : bid_ok b -> wrap_u 16 b = b.
Proof. unfold bid_ok, BUFFERS_COUNT, MAX_CONNECTIONS. intros H. apply Z.mod_small. lia. Qed.

(** Runs the stores into the entry [e] that was just taken. *)
Ltac fill_slot s e :=
  match goal with
  | |- context [io_uring_prep _ ?op] =>
      let u := fresh "u" in let Hu := fresh "Hu" in destruct (prep_last s e op) as [u Hu]; mrun Hu
  end;
  repeat (erewrite bind_eq; [|first [apply flags_last|apply group_last]]); rewrite (data_last s).

Lemma add_accept_ok fd s : room 1 s -> add_accept fd 0 s = Ret (tt, add_sqes [accept_sqe fd] s).
Proof. intros H. unfold add_accept. destruct (get_sqe_room _ H) as [e He]. mrun He. by fill_slot s e. Qed.

Lemma add_read_ok fd s :
  room 1 s -> fd_ok fd ->
  add_socket_read fd group_id MAX_MESSAGE_LEN IOSQE_BUFFER_SELECT s = Ret (tt, add_sqes [read_sqe fd] s).
Proof.
  intros H Hfd. unfold add_socket_read. destruct (get_sqe_room _ H) as [e He]. mrun He. fill_slot s e.
  by rewrite (fd_ok_uint _ Hfd).
Qed.

Lemma add_write_ok fd b n s :
  room 1 s -> fd_ok fd -> bid_ok b -> add_socket_write fd b n 0 s = Ret (tt, add_sqes [write_sqe fd b n] s).
Proof.
  intros H Hfd Hb. unfold add_socket_write. destruct (get_sqe_room _ H) as [e He]. mrun He. rewrite (bid_ok_wrap _ Hb).
  mrun (buf_row_ok b (add_sqes [e] s) Hb). fill_slot s e. by rewrite (fd_ok_uint _ Hfd).
Qed.

Lemma add_provide_ok b s :
  room 1 s -> bid_ok b -> add_provide_buf b group_id s = Ret (tt, add_sqes [provide_sqe b] s).
Proof.
  intros H Hb. unfold add_provide_buf. destruct (get_sqe_room _ H) as [e He]. mrun He. rewrite (bid_ok_wrap _ Hb).
  mrun (buf_row_ok b (add_sqes [e] s) Hb). by fill_slot s e.
Qed.

Lemma room_add n l s : room (n + Z.of_nat (length l)) s -> room n (add_sqes l s).
Proof. unfold room, add_sqes. simpl. rewrite length_app. lia. Qed.

Lemma add_sqes_app l l' s : add_sqes l' (add_sqes l s) = add_sqes (l ++ l') s.
Proof. unfold add_sqes. simpl. by rewrite app_assoc. Qed.

(** Any request faults when the submission queue is full: the result of
    [io_uring_get_sqe] is not checked. *)
Lemma prep_null op s : io_uring_prep None op s = Fault NullDeref.
Proof. by destruct (law_prep None op s) as [u ->]. Qed.
Lemma add_accept_full fd f s : ~ room 1 s -> add_accept fd f s = Fault NullDeref.
Proof. intros H. unfold add_accept. mrun (get_sqe_full _ H). apply bind_fault, prep_null. Qed.
Lemma add_read_full fd gid n f s : ~ room 1 s -> add_socket_read fd gid n f s = Fault NullDeref.
Proof. intros H. unfold add_socket_read. mrun (get_sqe_full _ H). apply bind_fault, prep_null. Qed.
Lemma add_write_full fd b n f s : ~ room 1 s -> bid_ok b -> add_socket_write fd b n f s = Fault NullDeref.
Proof.
  intros H Hb. unfold add_socket_write. mrun (get_sqe_full _ H). rewrite (bid_ok_wrap _ Hb).
  mrun (buf_row_ok b s Hb). apply bind_fault, prep_null.
Qed.
Lemma add_provide_full b gid s : ~ room 1 s -> bid_ok b -> add_provide_buf b gid s = Fault NullDeref.
Proof.
  intros H Hb. unfold add_provide_buf. mrun (get_sqe_full _ H). rewrite (bid_ok_wrap _ Hb).
  mrun (buf_row_ok b s Hb). apply bind_fault, prep_null.
Qed.
End requests.

(** ** Tokens *)
Inductive token :=
| TAccept                       (* an accept, or one that failed *)
| TConn (fd : Z)                (* an accept that gave fd *)
| TRead (fd : Z)                (* a receive on fd *)
| TData (fd bid n : Z)          (* a message of n bytes in buffer bid *)
| TFail (fd bid : Z)            (* end of file or an error, with buffer bid *)
| TNoBuf                        (* completed with -ENOBUFS *)
| TWrite (fd bid n : Z)         (* an answer of n bytes from buffer bid *)
| TWrote (fd bid : Z)           (* an answer that was sent *)
| TProv (bid : Z)               (* buffer bid goes back to the kernel *)
| TProvided | TNotProvided.     (* its completion *)

Definition fd_of (t : token) : list Z :=
  match t with
  | TConn fd | TRead fd | TData fd _ _ | TFail fd _ | TWrite fd _ _ | TWrote fd _ => [fd]
  | _ => []
  end.
Definition bid_of (t : token) : list Z :=
  match t with
  | TData _ b _ | TFail _ b | TWrite _ b _ | TWrote _ b | TProv b => [b]
  | _ => []
  end.
Definition accept_of (t : token) : nat := match t with TAccept | TConn _ => 1 | _ => 0 end.
(** How many entries handling the token may need, halved. *)
Definition weight (t : token) : nat := match t with TProv _ | TProvided | TNotProvided | TNoBuf => 0 | _ => 1 end.

Definition fds (T : list token) : list Z := T ≫= fd_of.
Definition bids (T : list token) : list Z := T ≫= bid_of.
Definition accepts (T : list token) : nat := sum_list_with accept_of T.
Definition weights (T : list token) : nat := sum_list_with weight T.

(** The entry of a token that was not completed. *)
Definition sqe_of (lfd : Z) (t : token) (s : io_uring_sqe) : Prop :=
  match t with
  | TAccept => s = accept_sqe lfd
  | TRead fd => s = read_sqe fd
  | TWrite fd b n => s = write_sqe fd b n
  | TProv b => s = provide_sqe b
  | _ => False
  end.

(** The completion of a token. *)
Definition cqe_of (t : token) (c : io_uring_cqe) : Prop :=
  let i := conn_info_of (cqe_user_data c) in
  match t with
  | TAccept => ci_type i = ACCEPT /\ cqe_res c < 0 /\ cqe_res c <> - ENOBUFS
  | TConn fd => ci_type i = ACCEPT /\ cqe_res c = fd
  | TData fd b n => ci_type i = READ /\ ci_fd i = fd /\ cqe_res c = n /\ Z.shiftr (cqe_flags c) 16 = b
  | TFail fd b => ci_type i = READ /\ ci_fd i = fd /\ cqe_res c <= 0 /\ cqe_res c <> - ENOBUFS
                  /\ Z.shiftr (cqe_flags c) 16 = b
  | TWrote fd b => i = ConnInfo fd WRITE b /\ cqe_res c <> - ENOBUFS
  | TProvided => ci_type i = PROV_BUF /\ 0 <= cqe_res c
  | TNotProvided => ci_type i = PROV_BUF /\ cqe_res c < 0 /\ cqe_res c <> - ENOBUFS
  | TNoBuf => cqe_res c = - ENOBUFS
  | TRead _ | TWrite _ _ _ | TProv _ => False
  end.

(** What the handler makes of the completion of a token. *)
Definition next (t : token) : list token :=
  match t with
  | TAccept => [TAccept]
  | TConn fd => [TRead fd; TAccept]
  | TData fd b n => [TWrite fd b n]
  | TFail fd b => [TProv b]
  | TWrote fd b => [TProv b; TRead fd]
  | _ => []
  end.
Definition closes (t : token) : list Z := match t with TFail fd _ => [fd] | _ => [] end.
Definition exits (t : token) : option Z := match t with TNoBuf | TNotProvided => Some 1 | _ => None end.

Definition token_ok (t : token) : Prop :=
  Forall fd_ok (fd_of t) /\ Forall bid_ok (bid_of t) /\
  match t with TData _ _ n | TWrite _ _ n => 0 < n | _ => True end.

Lemma eqb_false a b : a <> b -> (a =? b) = false.
Proof. apply Z.eqb_neq. Qed.

(** The branch of [handle_cqe] that the completion of a token takes. *)
Definition handle_branch {LU : liburing} (lfd : Z) (t : token) : MU unit :=
  match t with
  | TAccept => add_accept lfd 0
  | TConn fd =>
      do! add_socket_read fd group_id MAX_MESSAGE_LEN IOSQE_BUFFER_SELECT in add_accept lfd 0
  | TData fd b n => add_socket_write fd b n 0
  | TFail fd b => do! add_provide_buf b group_id in close_fd fd
  | TWrote fd b =>
      do! add_provide_buf b group_id in
      add_socket_read fd group_id MAX_MESSAGE_LEN IOSQE_BUFFER_SELECT
  | _ => ret tt
  end.

Lemma handle_cqe_branch {LU : liburing} lfd t c s :
  cqe_of t c -> token_ok t ->
  handle_cqe lfd c s = (do! handle_branch lfd t in ret (exits t)) s.
Proof.
  intros Hc (Hfd & Hb & Hn). unfold handle_cqe, cqe_of in *. cbv zeta in *. revert Hc.
  generalize (conn_info_of (cqe_user_data c)) as i. intros i Hc.
  destruct t; cbn [fd_of bid_of] in Hc, Hfd, Hb; cbn [exits handle_branch];
    try (exfalso; exact Hc); destr;
    repeat match goal with H : Forall _ (_ :: _) |- _ => apply Forall_cons in H as [H _] end.
  - rewrite eqb_false, H by done. destruct (Z.leb_spec 0 (cqe_res c)); [lia|]. simpl. by rewrite bind_ret_l.
  - rewrite eqb_false, H by (unfold fd_ok, ENOBUFS in *; lia). simpl. rewrite H0.
    destruct (Z.leb_spec 0 fd); [|unfold fd_ok in *; lia]. by rewrite bind_assoc.
  - rewrite eqb_false, H by (unfold ENOBUFS; lia). simpl. destruct (Z.leb_spec (cqe_res c) 0); [lia|].
    by rewrite H0, H1, H2, (fd_ok_int _ Hfd).
  - rewrite eqb_false, H by done. simpl. destruct (Z.leb_spec (cqe_res c) 0); [|lia].
    by rewrite H0, H3, (fd_ok_int _ Hfd), bind_assoc.
  - by rewrite Hc.
  - rewrite eqb_false, H by done. simpl. by rewrite (fd_ok_int _ Hfd), bind_assoc.
  - rewrite eqb_false, H by (unfold ENOBUFS; lia). simpl. by destruct (Z.ltb_spec (cqe_res c) 0); [lia|].
  - rewrite H. simpl. destruct (_ =? _); [done|]. by destruct (Z.ltb_spec (cqe_res c) 0); [|lia].
Qed.

(** ** A handled completion *)

(** The new entries, when the submission queue has room for them. *)
Lemma handle_token {LU : liburing} {LL : LiburingLaws} lfd t c s :
  cqe_of t c -> token_ok t -> room (Z.of_nat (length (next t))) s ->
  exists l, handle_cqe lfd c s = Ret (exits t, UServer (sq s ++ l) (closed s ++ closes t)) /\
    Forall2 (sqe_of lfd) (next t) l.
Proof.
  intros Hc Hok Hroom. rewrite (handle_cqe_branch lfd t c s Hc Hok). destruct Hok as (Hfd & Hb & _).
  assert (forall l, UServer (sq s ++ l) (closed s ++ []) = add_sqes l s) as Hadd.
  { intros l. by rewrite app_nil_r. }
  assert (add_sqes [] s = s) as Hnil by (unfold add_sqes; rewrite app_nil_r; by destruct s).
  assert ((1 <= length (next t))%nat -> room 1 s) as Hroom1 by (unfold room in *; lia).
  assert ((2 <= length (next t))%nat -> forall x, room 1 (add_sqes [x] s)) as Hroom2.
  { intros E x. apply room_add. unfold room in *. simpl. lia. }
  destruct t; simpl in Hc, Hfd, Hb, Hroom1, Hroom2; try done; cbn [closes exits next handle_branch];
    repeat match goal with H : Forall _ (_ :: _) |- _ => apply Forall_cons in H as [H _] end;
    try specialize (Hroom1 ltac:(lia)); try specialize (Hroom2 ltac:(lia)); rewrite ?Hadd, ?bind_assoc.
  - exists [accept_sqe lfd]. split; [|by repeat constructor]. rewrite Hadd. by mrun (add_accept_ok lfd s Hroom1).
  - exists [read_sqe fd; accept_sqe lfd]. split; [|by repeat constructor]. rewrite Hadd.
    mrun (add_read_ok fd s Hroom1 Hfd). by mrun (add_accept_ok lfd _ (Hroom2 (read_sqe fd))); rewrite add_sqes_app.
  - exists [write_sqe fd bid n]. split; [|by repeat constructor]. rewrite Hadd.
    by mrun (add_write_ok fd bid n s Hroom1 Hfd Hb).
  - exists [provide_sqe bid]. split; [|by repeat constructor]. by mrun (add_provide_ok bid s Hroom1 Hb).
  - exists []. split; [|constructor]. by rewrite Hadd, Hnil.
  - exists [provide_sqe bid; read_sqe fd]. split; [|by repeat constructor]. rewrite Hadd.
    mrun (add_provide_ok bid s Hroom1 Hb).
    by mrun (add_read_ok fd _ (Hroom2 (provide_sqe bid)) Hfd); rewrite add_sqes_app.
  - exists []. split; [|constructor]. by rewrite Hadd, Hnil.
  - exists []. split; [|constructor]. by rewrite Hadd, Hnil.
Qed.

(** Without that room, the handler stores through the [NULL] that
    [io_uring_get_sqe] gives. *)
Lemma handle_token_full {LU : liburing} {LL : LiburingLaws} lfd t c s :
  cqe_of t c -> token_ok t -> room 0 s -> ~ room (Z.of_nat (length (next t))) s ->
  handle_cqe lfd c s = Fault NullDeref.
Proof.
  intros Hc Hok H0 Hfull. rewrite (handle_cqe_branch lfd t c s Hc Hok). destruct Hok as (Hfd & Hb & _).
  apply bind_fault.
  assert (length (next t) = 2%nat -> forall x, ~ room 1 (add_sqes [x] s)) as Hfull2.
  { intros E x. rewrite E in Hfull. unfold room, add_sqes in *. simpl. rewrite length_app. simpl. lia. }
  destruct t; simpl in Hc, Hfd, Hb, Hfull, Hfull2; try done; cbn [handle_branch];
    repeat match goal with H : Forall _ (_ :: _) |- _ => apply Forall_cons in H as [H _] end;
    try specialize (Hfull2 eq_refl).
  - by apply add_accept_full.
  - destruct (decide (room 1 s)) as [H1|H1]; [|by apply bind_fault, add_read_full].
    mrun (add_read_ok fd s H1 Hfd). by apply add_accept_full.
  - by apply add_write_full.
  - by apply bind_fault, add_provide_full.
  - destruct (decide (room 1 s)) as [H1|H1]; [|by apply bind_fault, add_provide_full].
    mrun (add_provide_ok bid s H1 Hb). by apply add_read_full.
Qed.

(** The entries that handling the completions of [T] takes. *)
Definition entries_needed (T : list token) : nat := sum_list_with (fun t => length (next t)) T.
