(* ===== verification/UringProps.v ===== *)
(** * The io_uring server echoes every message

    The documented behaviour of io_uring as classes of laws, the invariant of the
    tokens, and the theorems about all executions of server and kernel. *)
From stdpp Require Import base numbers list gmap.
From S2P Require Import Prelude Uring UringInv.

(** ** What the kernel promises

    A completion carries the [user_data] of its entry; [accept] gives a
    descriptor that is not open; a receive with buffer selection has taken the
    available buffer whose identifier is in the upper half of the flags when
    [IORING_CQE_F_BUFFER] is set, and none otherwise; one that got data has set
    it and stores at most the requested number of bytes; a provided buffer becomes
    available.  Nothing is promised about the buffer of a receive that failed.
    Descriptors of connections lie between [lo] and [nofile]. *)
Class UringLaws (K : Type) `{uring_kernel K} (lo nofile : Z) := {
  law_range : 0 <= lo <= nofile /\ nofile <= INT_MAX;
  law_user_data k s c d k' :
    completes k s c d = Some k' -> cqe_user_data c = sqe_user_data s;
  law_accept k s c d k' fd :
    completes k s c d = Some k' -> sqe_op s = Op_accept fd ->
    avail k' = avail k /\
    (if 0 <=? cqe_res c
     then lo <= cqe_res c < nofile /\ cqe_res c ∉ opened k /\ opened k' = cqe_res c :: opened k
     else opened k' = opened k);
  law_recv k s c d k' fd len :
    completes k s c d = Some k' -> sqe_op s = Op_recv fd len -> sqe_flags s = IOSQE_BUFFER_SELECT ->
    opened k' = opened k /\
    (0 < cqe_res c ->
     cqe_res c = Z.of_nat (length d) /\ cqe_res c <= len /\ cqe_f_buffer (cqe_flags c) = true) /\
    (if cqe_f_buffer (cqe_flags c)
     then avail k ≡ₚ Z.shiftr (cqe_flags c) 16 :: avail k' else avail k' = avail k);
  law_send k s c d k' fd row len :
    completes k s c d = Some k' -> sqe_op s = Op_send fd row len ->
    avail k' = avail k /\ opened k' = opened k /\ cqe_res c <= len;
  law_provide k s c d k' row len bgid bid :
    completes k s c d = Some k' -> sqe_op s = Op_provide row len 1 bgid bid ->
    opened k' = opened k /\
    (if 0 <=? cqe_res c then avail k' ≡ₚ bid :: avail k else avail k' = avail k);
  law_close k fd : avail (k_close k fd) = avail k /\
    forall x, x ∈ opened k -> x <> fd -> x ∈ opened (k_close k fd)
}.

(** ** Pending answers *)
Definition pending_of (fd : Z) (t : token) : list (Z * Z) :=
  match t with
  | TData fd' b n | TWrite fd' b n => if fd' =? fd then [(b, n)] else []
  | _ => []
  end.
Definition pending (T : list token) (fd : Z) : list (Z * Z) := T ≫= pending_of fd.

(** Buffer [b] holds the message [msg] of [n] bytes. *)
Definition holds (m : gmap Z (list Z)) (p : Z * Z) (msg : list Z) : Prop :=
  p.2 = Z.of_nat (length msg) /\ take (length msg) (row_of m p.1) = msg.

(** What was sent are prefixes of the messages received, one for each, in their
    order, but for the message whose answer is pending. *)
Definition echoes (T : list token) (m : gmap Z (list Z)) (fd : Z) (r t : list (list Z)) : Prop :=
  exists answered waiting, r = answered ++ waiting /\
    Forall2 (fun msg ans => ans `prefix_of` msg) answered t /\
    Forall2 (holds m) (pending T fd) waiting.

Lemma pending_cons x T fd : pending (x :: T) fd = pending_of fd x ++ pending T fd.
Proof. done. Qed.

Lemma pending_none T fd : fd ∉ fds T -> pending T fd = [].
Proof.
  induction T as [|t T IH]; simpl; [done|]. unfold fds, pending in *. simpl.
  rewrite elem_of_app. intros Hn. rewrite IH by tauto.
  destruct t; simpl in *; try done; case_cmp; subst; try done; destruct Hn; left; by constructor.
Qed.

Lemma pending_perm T T' fd : NoDup (fds T) -> T ≡ₚ T' -> pending T fd = pending T' fd.
Proof.
  intros Hnd HT.
  assert (length (pending T fd) <= 1)%nat as Hlen.
  { clear HT. unfold fds in Hnd. induction T as [|t T IH]; simpl; [lia|].
    unfold pending in *. simpl in *. apply NoDup_app in Hnd as (_ & Hdis & HT).
    rewrite length_app. specialize (IH HT).
    destruct (decide (fd ∈ fd_of t)) as [Hin|].
    - pose proof (pending_none T fd (Hdis _ Hin)) as Hp. unfold pending in Hp. rewrite Hp.
      destruct t; simpl; case_cmp; simpl; lia.
    - assert (pending_of fd t = []) as ->; [|done].
      destruct t; simpl in *; try done; case_cmp; subst; try done; set_solver. }
  assert (pending T fd ≡ₚ pending T' fd) as HP by (by apply bind_Permutation).
  destruct (pending T fd) as [|p [|]]; simpl in Hlen; [|by apply Permutation_singleton_l in HP|lia].
  by apply Permutation_nil_l in HP.
Qed.

Section invariant.
Context {LU : liburing} {LL : LiburingLaws} {K : Type} `{uring_kernel K}.
Context (lo nofile sock_listen_fd : Z) `{!UringLaws K lo nofile}.

(** ** The invariant on tokens *)
Record owns (k : K) (m : gmap Z (list Z)) (r t : gmap Z (list (list Z))) (T : list token) : Prop := {
  o_len : Forall (fun x => match x with TData _ _ n | TWrite _ _ n => 0 < n | _ => True end) T;
  o_fds : NoDup (fds T);
  o_range : Forall (fun fd => lo <= fd < nofile) (fds T);
  o_open : Forall (fun fd => fd ∈ opened k) (fds T);
  o_bufs : avail k ++ bids T ⊆+ seqZ 0 BUFFERS_COUNT;
  o_accept : (accepts T <= 1)%nat;
  o_echo : forall fd, echoes T m fd (history r fd) (history t fd)
}.

Lemma owns_perm k m r t T T' : T ≡ₚ T' -> owns k m r t T -> owns k m r t T'.
Proof.
  intros HT [H1 H2 H3 H4 H5 H6 H7].
  assert (fds T ≡ₚ fds T') as Hf by (by apply bind_Permutation).
  assert (bids T ≡ₚ bids T') as Hb by (by apply bind_Permutation).
  constructor; try (by rewrite <- ?HT, <- ?Hf, <- ?Hb).
  - unfold accepts. by rewrite <- HT.
  - intros fd. destruct (H7 fd) as (a & w & Hr & Ha & Hw). exists a, w. split_and!; [done..|].
    by rewrite <- (pending_perm T T').
Qed.

(** Weaker ownership, with the same answers pending. *)
Lemma owns_weaken k k' m r t T T' :
  owns k m r t T ->
  Forall (fun x => match x with TData _ _ n | TWrite _ _ n => 0 < n | _ => True end) T' ->
  fds T' ⊆+ fds T -> (forall fd, fd ∈ fds T' -> fd ∈ opened k -> fd ∈ opened k') ->
  avail k' ++ bids T' ⊆+ avail k ++ bids T ->
  (accepts T' <= accepts T)%nat ->
  (forall fd, pending T' fd = pending T fd) ->
  owns k' m r t T'.
Proof.
  intros [H1 H2 H3 H4 H5 H6 H7] Hl Hf Ho Hb Ha Hp. constructor; try done.
  - destruct (submseteq_Permutation _ _ Hf) as [x Hx]. rewrite Hx in H2. by apply NoDup_app in H2 as [? _].
  - destruct (submseteq_Permutation _ _ Hf) as [x Hx]. rewrite Hx in H3. by apply Forall_app in H3 as [? _].
  - destruct (submseteq_Permutation _ _ Hf) as [x Hx]. rewrite Hx in H4. apply Forall_app in H4 as [H4 _].
    rewrite Forall_forall in H4 |- *. auto.
  - by etrans.
  - lia.
  - intros fd. destruct (H7 fd) as (a & w & Hr & Hpre & Hw). exists a, w. by rewrite Hp.
Qed.

(** One token replaced by a token that owns no more. *)
Lemma owns_replace k k' m r t x x' T :
  owns k m r t (x :: T) ->
  match x' with TData _ _ n | TWrite _ _ n => 0 < n | _ => True end ->
  fd_of x' ⊆+ fd_of x -> opened k' = opened k -> avail k' ++ bid_of x' ⊆+ avail k ++ bid_of x ->
  (accept_of x' <= accept_of x)%nat -> (forall fd, pending_of fd x' = pending_of fd x) ->
  owns k' m r t (x' :: T).
Proof.
  intros Ho Hn Hf Hop Hb Ha Hp. pose proof (o_len _ _ _ _ _ Ho) as Hlen. apply Forall_cons in Hlen as [_ Hlen].
  eapply owns_weaken; [exact Ho|..].
  - by apply Forall_cons_2.
  - by apply submseteq_skips_r.
  - by rewrite Hop.
  - unfold bids. simpl. rewrite !app_assoc. by apply submseteq_skips_r.
  - unfold accepts. simpl. lia.
  - intros fd. rewrite !pending_cons. by rewrite Hp.
Qed.

Lemma owns_bid_ok k m r t T b : owns k m r t T -> b ∈ avail k ++ bids T -> bid_ok b.
Proof.
  intros Ho Hin. pose proof (o_bufs _ _ _ _ _ Ho) as Hb.
  apply (elem_of_submseteq _ _ _ Hin), elem_of_seqZ in Hb. unfold bid_ok. lia.
Qed.

Lemma owns_bufs_NoDup k m r t T : owns k m r t T -> NoDup (avail k ++ bids T).
Proof.
  intros Ho. destruct (submseteq_Permutation _ _ (o_bufs _ _ _ _ _ Ho)) as [x Hx].
  pose proof (NoDup_seqZ 0 BUFFERS_COUNT) as Hnd. rewrite Hx in Hnd. by apply NoDup_app in Hnd as [? _].
Qed.

Lemma owns_token_ok k m r t T x : owns k m r t T -> x ∈ T -> token_ok x.
Proof.
  intros Ho Hx. destruct law_range as [Hlo Hno]. split_and!.
  - apply Forall_forall. intros fd Hfd. pose proof (o_range _ _ _ _ _ Ho) as Hr.
    rewrite Forall_forall in Hr. assert (fd ∈ fds T) as Hin by (apply list_elem_of_bind; eauto).
    specialize (Hr _ Hin). unfold fd_ok. lia.
  - apply Forall_forall. intros b Hb. eapply owns_bid_ok; [done|]. apply elem_of_app. right.
    apply list_elem_of_bind. eauto.
  - pose proof (o_len _ _ _ _ _ Ho) as Hl. rewrite Forall_forall in Hl. by apply Hl.
Qed.

(** ** The handler on tokens *)
Lemma k_close_one k fd : foldl k_close k [fd] = k_close k fd.
Proof. done. Qed.

Lemma handle_owns k m r t x T c :
  cqe_of x c -> owns k m r t (x :: T) -> owns (foldl k_close k (closes x)) m r t (next x ++ T).
Proof.
  intros Hc Ho. pose proof (owns_token_ok _ _ _ _ _ x Ho ltac:(by left)) as (_ & _ & Hn).
  pose proof (o_fds _ _ _ _ _ Ho) as Hnd. pose proof (o_len _ _ _ _ _ Ho) as Hlen.
  apply Forall_cons in Hlen as [_ Hlen].
  eapply owns_weaken; [exact Ho|..].
  - apply Forall_app. split; [|done]. destruct x; simpl in *; repeat (apply Forall_cons_2; [simpl; done|]); by apply Forall_nil_2.
  - unfold fds. rewrite bind_app. apply submseteq_skips_r. destruct x; simpl; try done; apply submseteq_nil_l.
  - intros fd Hin Hop. destruct x as [| | | |f b| | | | | |]; try done. simpl in *.
    apply law_close; [done|]. intros ->. apply NoDup_cons in Hnd as [Hnot _]. by apply Hnot.
  - replace (avail (foldl k_close k (closes x))) with (avail k).
    2: { destruct x; try done. simpl. by rewrite (proj1 (law_close k _)). }
    apply submseteq_skips_l. unfold bids. rewrite bind_app. apply submseteq_skips_r.
    destruct x; simpl; done || apply submseteq_nil_l.
  - unfold accepts. rewrite sum_list_with_app. simpl. destruct x; simpl; lia.
  - intros fd. unfold pending. rewrite bind_app. destruct x; simpl in *; rewrite ?app_nil_r; done.
Qed.

(** ** The kernel on tokens *)
Lemma echoes_same T T' m fd r t :
  pending T' fd = pending T fd -> echoes T m fd r t -> echoes T' m fd r t.
Proof. intros Hp (a & w & ?). exists a, w. by rewrite Hp. Qed.

Lemma history_log_eq fd d m : history (log fd d m) fd = history m fd ++ [d].
Proof. unfold history at 1, log. by rewrite lookup_insert_eq. Qed.
Lemma history_log_ne fd fd' d m : fd <> fd' -> history (log fd d m) fd' = history m fd'.
Proof. intros Hne. unfold history at 1, log. by rewrite lookup_insert_ne. Qed.

Lemma row_write_eq b d m : take (length d) (row_of (write_row b d m) b) = d.
Proof. unfold row_of at 1, write_row. rewrite lookup_insert_eq. simpl. apply take_app_length. Qed.
Lemma row_write_ne b b' d m : b <> b' -> row_of (write_row b d m) b' = row_of m b'.
Proof. intros Hne. unfold row_of at 1, write_row. by rewrite lookup_insert_ne. Qed.

Lemma pending_bids T fd p : p ∈ pending T fd -> p.1 ∈ bids T.
Proof.
  intros (x & Hp & Hx)%list_elem_of_bind. apply list_elem_of_bind. exists x. split; [|done].
  destruct x; simpl in *; try by apply not_elem_of_nil in Hp.
  all: destruct (_ =? _); [apply list_elem_of_singleton in Hp as ->; by left|by apply not_elem_of_nil in Hp].
Qed.

(** A write into a buffer nobody waits for. *)
Lemma echoes_write_row T m fd r t b d :
  b ∉ bids T -> echoes T m fd r t -> echoes T (write_row b d m) fd r t.
Proof.
  intros Hb (a & w & Hr & Ha & Hw). exists a, w. split_and!; [done..|].
  rewrite Forall2_lookup in Hw |- *. intros i. specialize (Hw i).
  inversion Hw as [p msg [Hn Hm] Hp|Hp]; constructor. split; [done|].
  rewrite row_write_ne; [done|]. intros ->. apply Hb. by eapply pending_bids, list_elem_of_lookup_2.
Qed.

(** A connection without a pending answer has answered everything. *)
Lemma echoes_idle T m fd r t :
  pending T fd = [] -> echoes T m fd r t -> Forall2 (fun msg ans => ans `prefix_of` msg) r t.
Proof. intros Hp (a & w & -> & Ha & Hw). rewrite Hp in Hw. apply Forall2_nil_inv_l in Hw as ->. by rewrite app_nil_r. Qed.

(** ** Completions on tokens: the token of an entry becomes that of its completion *)
Notation sys_owns S T := (owns (kern S) (rows S) (received S) (sent S) T).

Definition completed (s : io_uring_sqe) (c : io_uring_cqe) (d : list Z) (k' : K) (S : usys K) : usys K :=
  let '(m, r, t) := complete_effect s c d S in USys (srv S) k' (inflight S) (cq S) m r t None.

Definition advances (S S' : usys K) (x : token) (c : io_uring_cqe) (T : list token) : Prop :=
  exists x', cqe_of x' c /\ sys_owns S' (x' :: T) /\ (weight x' <= weight x)%nat.

Lemma user_data_type k s c d k' i :
  completes k s c d = Some k' -> sqe_user_data s = conn_info_bytes i -> conn_info_fits i ->
  conn_info_of (cqe_user_data c) = i.
Proof. intros Hk Hs Hi. rewrite (law_user_data _ _ _ _ _ Hk), Hs. by apply conn_info_roundtrip_fits. Qed.

Lemma fits fd ty b : 0 <= fd <= INT_MAX -> 0 <= ty <= 3 -> 0 <= b < BUFFERS_COUNT -> conn_info_fits (ConnInfo fd ty b).
Proof. unfold conn_info_fits, INT_MAX, BUFFERS_COUNT, MAX_CONNECTIONS. simpl. lia. Qed.

Lemma complete_accept S T c d k' :
  sys_owns S (TAccept :: T) -> completes (kern S) (accept_sqe sock_listen_fd) c d = Some k' ->
  advances S (completed (accept_sqe sock_listen_fd) c d k' S) TAccept c T.
Proof.
  intros Ho Hk. destruct (law_accept _ _ _ _ _ _ Hk eq_refl) as [Hav Hop].
  assert (ci_type (conn_info_of (cqe_user_data c)) = ACCEPT) as Hty.
  { erewrite user_data_type; [|done..|]; [done|]. unfold conn_info_fits, to_uint, wrap_u, ACCEPT. simpl.
    pose proof (Z.mod_pos_bound sock_listen_fd (2 ^ 32)). lia. }
  pose proof (o_len _ _ _ _ _ Ho) as Hlen. apply Forall_cons in Hlen as [_ Hlen].
  destruct (Z.leb_spec 0 (cqe_res c)).
  - destruct Hop as (Hr & Hnew & Hop). exists (TConn (cqe_res c)). split; [done|]. split; [|done].
    destruct Ho as [_ H2 H3 H4 H5 H6 H7]. constructor; simpl in *; try done.
    + by apply Forall_cons_2.
    + apply NoDup_cons. split; [|done]. intros Hin. rewrite Forall_forall in H4. by apply Hnew, H4.
    + by apply Forall_cons_2.
    + apply Forall_cons_2; [rewrite Hop; by left|]. rewrite Forall_forall in H4 |- *. intros fd Hfd.
      rewrite Hop. right. by apply H4.
    + by rewrite Hav.
  - assert (forall x, fd_of x = [] -> bid_of x = [] -> (accept_of x <= 1)%nat ->
      sys_owns (completed (accept_sqe sock_listen_fd) c d k' S) (x :: T)) as Hx.
    { intros x Hf Hb Ha. eapply owns_replace; [exact Ho|..]; rewrite ?Hf, ?Hb; simpl; rewrite ?Hav; try done;
        by destruct x. }
    destruct (Z.eq_dec (cqe_res c) (- ENOBUFS)).
    + exists TNoBuf. split; [done|]. split; [apply Hx; simpl; auto|simpl; lia].
    + exists TAccept. split; [by simpl|]. split; [by apply Hx|done].
Qed.

Lemma complete_provide S T b c d k' :
  sys_owns S (TProv b :: T) -> completes (kern S) (provide_sqe b) c d = Some k' ->
  advances S (completed (provide_sqe b) c d k' S) (TProv b) c T.
Proof.
  intros Ho Hk. destruct (law_provide _ _ _ _ _ _ _ _ _ Hk eq_refl) as [Hop Hav].
  assert (ci_type (conn_info_of (cqe_user_data c)) = PROV_BUF) as Hty.
  { erewrite user_data_type; [|done..|]; [done|]. apply fits; done. }
  assert (forall x, fd_of x = [] -> bid_of x = [] -> accept_of x = 0%nat ->
      sys_owns (completed (provide_sqe b) c d k' S) (x :: T)) as Hx.
  { intros x Hf Hb Ha. eapply owns_replace; [exact Ho|..]; rewrite ?Hf, ?Hb, ?Ha; simpl; try done; try by destruct x.
    rewrite app_nil_r, <- Permutation_cons_append.
    destruct (0 <=? cqe_res c); [by rewrite Hav|rewrite Hav; by constructor]. }
  destruct (Z.eq_dec (cqe_res c) (- ENOBUFS)); [|destruct (Z_lt_le_dec (cqe_res c) 0)].
  - exists TNoBuf. split; [done|]. split; [by apply Hx|done].
  - exists TNotProvided. split; [done|]. split; [by apply Hx|done].
  - exists TProvided. split; [done|]. split; [by apply Hx|done].
Qed.

(** What is sent from the buffer of a pending answer is a prefix of the message. *)
Lemma echoes_send T m fd r t x b n res :
  pending T fd = [] -> pending_of fd x = [] -> res <= n ->
  echoes (TWrite fd b n :: T) m fd r t ->
  echoes (x :: T) m fd r (t ++ [take (Z.to_nat res) (row_of m b)]).
Proof.
  intros Hp Hx Hres (a & w & -> & Ha & Hw). rewrite pending_cons, Hp in Hw. simpl in Hw.
  rewrite Z.eqb_refl in Hw. simpl in Hw.
  apply Forall2_cons_inv_l in Hw as (msg & w' & [Hn Hm] & Hw & ->). apply Forall2_nil_inv_l in Hw as ->.
  exists (a ++ [msg]), []. split_and!.
  - by rewrite app_nil_r.
  - apply Forall2_app; [done|]. constructor; [|done]. simpl in *.
    assert (take (Z.to_nat res) (row_of m b) = take (Z.to_nat res) msg) as ->; [|apply prefix_take].
    rewrite <- Hm at 1. rewrite take_take. f_equal. lia.
  - rewrite pending_cons, Hx, Hp. constructor.
Qed.

Lemma owned_alone k m r t x T fd : owns k m r t (x :: T) -> fd_of x = [fd] -> pending T fd = [].
Proof.
  intros Ho Hx. apply pending_none. pose proof (o_fds _ _ _ _ _ Ho) as Hnd. unfold fds in *. simpl in Hnd.
  rewrite Hx in Hnd. by apply NoDup_cons in Hnd as [? _].
Qed.

Lemma owned_fd k m r t x T fd : owns k m r t (x :: T) -> fd_of x = [fd] -> fd_ok fd.
Proof.
  intros Ho Hx. destruct (owns_token_ok _ _ _ _ _ x Ho ltac:(by left)) as (Hf & _). rewrite Hx in Hf.
  by apply Forall_cons in Hf as [? _].
Qed.

Lemma complete_send S T fd b n c d k' :
  sys_owns S (TWrite fd b n :: T) -> completes (kern S) (write_sqe fd b n) c d = Some k' ->
  advances S (completed (write_sqe fd b n) c d k' S) (TWrite fd b n) c T.
Proof.
  intros Ho Hk. destruct (law_send _ _ _ _ _ _ _ _ Hk eq_refl) as (Hav & Hop & Hres).
  pose proof (owned_fd _ _ _ _ _ _ fd Ho eq_refl) as Hfd.
  assert (bid_ok b) as Hb.
  { eapply owns_bid_ok; [exact Ho|]. apply elem_of_app. right. by left. }
  pose proof (user_data_type _ _ _ _ _ _ Hk eq_refl (fits fd WRITE b Hfd ltac:(done) Hb)) as Hci.
  assert (forall x, fd_of x ⊆+ [fd] -> bid_of x ⊆+ [b] -> accept_of x = 0%nat ->
      (forall f, pending_of f x = []) -> match x with TData _ _ n | TWrite _ _ n => 0 < n | _ => True end ->
      sys_owns (completed (write_sqe fd b n) c d k' S) (x :: T)) as Hx.
  { intros x Hf Hbx Ha Hp Hn.
    pose proof (owned_alone _ _ _ _ _ _ fd Ho eq_refl) as Halone.
    assert (forall f, f <> fd -> pending (x :: T) f = pending (TWrite fd b n :: T) f) as Hother.
    { intros f Hne. rewrite !pending_cons, Hp. simpl. by rewrite eqb_false. }
    destruct Ho as [H1 H2 H3 H4 H5 H6 H7]. apply Forall_cons in H1 as [_ H1].
    assert (fds (x :: T) ⊆+ fds (TWrite fd b n :: T)) as Hfs by (by apply submseteq_skips_r).
    destruct (submseteq_Permutation _ _ Hfs) as [l Hl].
    rewrite Hl in H2, H3, H4. apply NoDup_app in H2 as [H2 _].
    apply Forall_app in H3 as [H3 _]. apply Forall_app in H4 as [H4 _].
    constructor; simpl; rewrite ?Hav, ?Hop; try done.
    - by apply Forall_cons_2.
    - etrans; [|exact H5]. by apply submseteq_skips_l, submseteq_skips_r.
    - etrans; [|exact H6]. unfold accepts. simpl. lia.
    - intros f. destruct (Z.eq_dec f fd) as [->|Hne].
      + rewrite history_log_eq. by apply (echoes_send T (rows S) fd _ _ x b n).
      + rewrite history_log_ne by done. eapply echoes_same; [by apply Hother|apply H7]. }
  destruct (Z.eq_dec (cqe_res c) (- ENOBUFS)).
  - exists TNoBuf. split; [done|]. split; [|simpl; lia]. apply Hx; try done; apply submseteq_nil_l.
  - exists (TWrote fd b). split; [done|]. split; [by apply Hx|done].
Qed.

(** A message that the kernel stores in an available buffer. *)
Lemma owns_recv_data S T fd b d k' c :
  sys_owns S (TRead fd :: T) -> opened k' = opened (kern S) -> avail (kern S) ≡ₚ b :: avail k' ->
  0 < cqe_res c -> cqe_res c = Z.of_nat (length d) -> Z.shiftr (cqe_flags c) 16 = b ->
  sys_owns (completed (read_sqe fd) c d k' S) (TData fd b (cqe_res c) :: T).
Proof.
  intros Ho Hop Hav Hpos Hlen Hfl. unfold completed, complete_effect. simpl.
  destruct (Z.ltb_spec 0 (cqe_res c)); [|lia].
  pose proof (owned_alone _ _ _ _ _ _ fd Ho eq_refl) as Halone.
  pose proof (owns_bufs_NoDup _ _ _ _ _ Ho) as Hnd. rewrite Hav in Hnd.
  apply NoDup_cons in Hnd as [Hnot _].
  assert (b ∉ bids T) as Hb by (intros Hin; apply Hnot; apply elem_of_app; by right).
  destruct Ho as [H1 H2 H3 H4 H5 H6 H7]. apply Forall_cons in H1 as [_ H1].
  constructor; simpl; rewrite ?Hop; try done.
  - by apply Forall_cons_2.
  - etrans; [|exact H5]. change (bids (TData fd b (cqe_res c) :: T)) with (b :: bids T).
    change (bids (TRead fd :: T)) with (bids T). by rewrite Hav, <- Permutation_middle.
  - intros f. rewrite Hfl. destruct (Z.eq_dec f fd) as [->|Hne].
    + rewrite history_log_eq. pose proof (echoes_idle _ _ _ _ _ Halone (H7 fd)) as Hdone.
      exists (history (received S) fd), [d]. split_and!; [done..|].
      rewrite pending_cons, Halone. simpl. rewrite Z.eqb_refl. constructor; [|constructor].
      split; [done|]. apply row_write_eq.
    + rewrite history_log_ne by done.
      eapply echoes_same; [|apply echoes_write_row; [exact Hb|exact (H7 f)]].
      rewrite !pending_cons. simpl. by rewrite eqb_false.
Qed.

Lemma complete_recv S T fd i c d k' :
  reports_buffer (Ecomplete i c d) = true ->
  sys_owns S (TRead fd :: T) -> completes (kern S) (read_sqe fd) c d = Some k' ->
  advances S (completed (read_sqe fd) c d k' S) (TRead fd) c T.
Proof.
  intros Hrep Ho Hk. destruct (law_recv _ _ _ _ _ _ _ Hk eq_refl eq_refl) as (Hop & Hdata & Hbuf).
  pose proof (owned_fd _ _ _ _ _ _ fd Ho eq_refl) as Hfd.
  pose proof (user_data_type _ _ _ _ _ _ Hk eq_refl (fits fd READ 0 Hfd ltac:(done) ltac:(done))) as Hci.
  destruct (Z_lt_le_dec 0 (cqe_res c)) as [Hpos|Hneg].
  - destruct (Hdata Hpos) as (Hlen & _ & Hflag). rewrite Hflag in Hbuf. exists (TData fd (Z.shiftr (cqe_flags c) 16) (cqe_res c)).
    split; [unfold cqe_of; by rewrite Hci|].
    split; [|done]. by apply owns_recv_data.
  - assert (forall x, fd_of x ⊆+ [fd] -> avail k' ++ bid_of x ⊆+ avail (kern S) -> accept_of x = 0%nat ->
      (forall f, pending_of f x = []) -> match x with TData _ _ n | TWrite _ _ n => 0 < n | _ => True end ->
      sys_owns (completed (read_sqe fd) c d k' S) (x :: T)) as Hx.
    { intros x Hf Hb Ha Hp Hn. unfold completed, complete_effect. simpl.
      destruct (Z.ltb_spec 0 (cqe_res c)); [lia|]. simpl.
      eapply owns_replace; [exact Ho|..]; simpl; rewrite ?Ha, ?app_nil_r; done. }
    destruct (Z.eq_dec (cqe_res c) (- ENOBUFS)) as [Hno|Hno].
    + exists TNoBuf. split; [done|]. split; [|simpl; lia].
      apply Hx; try done; [apply submseteq_nil_l|]. simpl. rewrite app_nil_r.
      destruct (cqe_f_buffer _); [rewrite Hbuf; by apply submseteq_cons|by rewrite Hbuf].
    + exists (TFail fd (Z.shiftr (cqe_flags c) 16)). split; [unfold cqe_of; by rewrite Hci|]. split; [|done].
      unfold reports_buffer in Hrep. rewrite Hci, (eqb_false _ _ Hno) in Hrep.
      destruct (Z.ltb_spec 0 (cqe_res c)); [lia|]. simpl in Hrep. rewrite Hrep in Hbuf.
      apply Hx; try done. simpl. by rewrite Hbuf, <- Permutation_cons_append.
Qed.

Lemma complete_token S T x s i c d k' :
  reports_buffer (Ecomplete i c d) = true ->
  sys_owns S (x :: T) -> sqe_of sock_listen_fd x s -> completes (kern S) s c d = Some k' ->
  advances S (completed s c d k' S) x c T.
Proof.
  intros Hrep Ho Hs Hk. destruct x; simpl in Hs; try done; subst s;
    eauto using complete_accept, complete_recv, complete_send, complete_provide.
Qed.

(** ** The invariant of the system *)
Record uinv (S : usys K) (tq ti tc : list token) : Prop := {
  u_sq : Forall2 (sqe_of sock_listen_fd) tq (sq (srv S));
  u_fl : Forall2 (sqe_of sock_listen_fd) ti (inflight S);
  u_cq : Forall2 cqe_of tc (cq S);
  u_owns : sys_owns S (tq ++ ti ++ tc);
  u_queue : room 0 (srv S);
  u_room : Z.of_nat (length tq) + 2 * Z.of_nat (weights (ti ++ tc)) <= 2 * (nofile - lo + 1)
}.

Lemma weights_app T T' : weights (T ++ T') = (weights T + weights T')%nat.
Proof. apply sum_list_with_app. Qed.

(** There are no more requests than connections, and one accept. *)
Lemma weights_bound k m r t T : owns k m r t T -> Z.of_nat (weights T) <= nofile - lo + 1.
Proof.
  intros Ho. destruct law_range as [Hlo _].
  assert (weights T <= length (fds T) + accepts T)%nat as Hw.
  { clear. induction T as [|x T IH]; [done|]. change (fds (x :: T)) with (fd_of x ++ fds T).
    unfold weights, accepts in *. rewrite length_app. destruct x; simpl; lia. }
  assert (length (fds T) <= length (seqZ lo (nofile - lo)))%nat as Hl.
  { apply submseteq_length, NoDup_submseteq; [by eapply o_fds|]. intros fd Hin.
    pose proof (o_range _ _ _ _ _ Ho) as Hr. rewrite Forall_forall in Hr. specialize (Hr _ Hin).
    apply elem_of_seqZ. lia. }
  rewrite length_seqZ in Hl. pose proof (o_accept _ _ _ _ _ Ho). lia.
Qed.

Lemma length_next x : (length (next x) <= 2 * weight x)%nat.
Proof. destruct x; simpl; lia. Qed.

Lemma submit_inv S tq ti tc S' :
  uinv S tq ti tc -> ustep sock_listen_fd Esubmit S = Some S' -> exists tq' ti' tc', uinv S' tq' ti' tc'.
Proof.
  intros [Hq Hf Hc Ho _ Hr]. unfold ustep. destruct (stopped S); [done|].
  destruct (cq S) eqn:Ecq; [|done]. rewrite law_submit. intros [= <-]. apply Forall2_nil_inv_r in Hc as ->.
  assert (sys_owns S (ti ++ tq)) as Ho'.
  { eapply owns_perm; [|exact Ho]. by rewrite app_nil_r, Permutation_app_comm. }
  exists [], (ti ++ tq), []. constructor; simpl; rewrite ?app_nil_r; try done.
  - by apply Forall2_app.
  - pose proof (weights_bound _ _ _ _ _ Ho'). lia.
Qed.

Lemma complete_inv S tq ti tc i c d S' :
  reports_buffer (Ecomplete i c d) = true ->
  uinv S tq ti tc -> ustep sock_listen_fd (Ecomplete i c d) S = Some S' -> exists tq' ti' tc', uinv S' tq' ti' tc'.
Proof.
  intros Hrep [Hq Hf Hc Ho Hroom Hr]. unfold ustep. destruct (stopped S) eqn:Est; [done|].
  destruct (inflight S !! i) as [s|] eqn:Ei; [|done]. destruct (completes (kern S) s c d) as [k'|] eqn:Ek; [|done].
  destruct (Forall2_lookup_r _ _ _ _ _ Hf Ei) as (x & Hx & Hs).
  assert (ti ≡ₚ x :: delete i ti) as Hti by (by apply delete_Permutation).
  set (T := tq ++ delete i ti ++ tc).
  assert (sys_owns S (x :: T)) as Ho1.
  { eapply owns_perm; [|exact Ho]. rewrite Hti. simpl. symmetry. apply Permutation_middle. }
  destruct (complete_token S T x s i c d k' Hrep Ho1 Hs Ek) as (x' & Hx' & Ho' & Hw).
  unfold completed in Ho'. destruct (complete_effect s c d S) as [[m r] t]. intros [= <-].
  exists tq, (delete i ti), (tc ++ [x']). constructor; simpl; try done.
  - by apply Forall2_delete.
  - apply Forall2_app; [done|]. by constructor.
  - eapply owns_perm; [|exact Ho']. unfold T. by rewrite !app_assoc, <- Permutation_cons_append.
  - clear Hrep Hroom. rewrite !weights_app in *. unfold weights at 1 in Hr. rewrite Hti in Hr. simpl in *. unfold weights in *. simpl. lia.
Qed.

(** With few descriptors, the submission queue has room for what the handler adds. *)
Lemma handle_room S tq ti x tc :
  nofile - lo <= 1023 -> uinv S tq ti (x :: tc) ->
  room (Z.of_nat (length (next x))) (UServer (sq (srv S)) []).
Proof.
  intros Hsmall [Hq _ _ _ _ Hr]. unfold room. simpl. rewrite <- (Forall2_length _ _ _ Hq).
  pose proof (length_next x). rewrite weights_app in Hr. unfold weights in Hr. simpl in Hr. unfold RING_ENTRIES. lia.
Qed.

(** A handler that returns has found that room. *)
Lemma handle_inv S tq ti tc S' :
  uinv S tq ti tc -> ustep sock_listen_fd Ehandle S = Some S' ->
  exists tq' ti' tc', uinv S' tq' ti' tc'.
Proof.
  intros [Hq Hf Hc Ho Hfit Hr]. unfold ustep. destruct (stopped S); [done|].
  destruct (cq S) as [|c cq']; [done|]. apply Forall2_cons_inv_r in Hc as (x & tc' & Hx & Hc & ->).
  assert (sys_owns S (x :: tq ++ ti ++ tc')) as Ho1.
  { eapply owns_perm; [|exact Ho]. by rewrite !app_assoc, <- Permutation_middle. }
  pose proof (owns_token_ok _ _ _ _ _ x Ho1 ltac:(by left)) as Hok.
  destruct (decide (room (Z.of_nat (length (next x))) (UServer (sq (srv S)) []))) as [Hroom|Hfull].
  2: { by rewrite (handle_token_full sock_listen_fd x c (UServer (sq (srv S)) []) Hx Hok Hfit Hfull). }
  destruct (handle_token sock_listen_fd x c _ Hx Hok Hroom) as (l & Hh & Hl).
  rewrite Hh. simpl. intros [= <-]. exists (tq ++ next x), ti, tc'. constructor; simpl; try done.
  - by apply Forall2_app.
  - eapply owns_perm; [|exact (handle_owns _ _ _ _ _ _ _ Hx Ho1)].
    by rewrite app_assoc, (Permutation_app_comm (next x)).
  - unfold room in *. simpl in *. rewrite length_app, <- (Forall2_length _ _ _ Hl). lia.
  - clear Hfit Hroom. pose proof (length_next x). rewrite length_app, weights_app in *. unfold weights in *. simpl in *. lia.
Qed.
End invariant.
