(* ===== verification/UringRuns.v ===== *)
(** * Executions of the io_uring server

    The theorems about whole executions, a concrete kernel that satisfies the
    laws, and the executions that show where the server relies on them. *)
From stdpp Require Import base numbers list gmap.
From S2P Require Import Prelude Uring UringInv UringProps.

(** ** Start *)
(** The buffers the server provides at its start. *)
Definition all_buffers : uring_op := Op_provide 0 MAX_MESSAGE_LEN BUFFERS_COUNT group_id 0.

Lemma uring_register_result {LU : liburing} {LL : LiburingLaws} e :
  uring_register e (UServer [] []) =
  if ue_provide e [all_buffers] <? 0 then Ret (Some 1, UServer [] [])
  else Ret (None, UServer [accept_sqe (ue_socket e)] []).
Proof.
  unfold uring_register. destruct (get_sqe_room (UServer [] []) ltac:(done)) as [x Hx]. mrun Hx.
  destruct (prep_last (UServer [] []) x all_buffers) as [u Hu]. unfold all_buffers in Hu. mrun Hu.
  mrun (law_submit (add_sqes [Sqe all_buffers 0 0 u] (UServer [] []))). simpl.
  destruct (ue_provide e _ <? 0); [done|].
  by mrun (add_accept_ok (ue_socket e) (UServer [] []) ltac:(done)).
Qed.

Lemma uring_start_ready {LU : liburing} {LL : LiburingLaws} e s0 :
  uring_start e (UServer [] []) = Ret (None, s0) -> s0 = UServer [accept_sqe (ue_socket e)] [].
Proof.
  unfold uring_start.
  destruct (ue_argc e <? 2); [done|]. destruct (ue_bind e <? 0); [done|]. destruct (ue_listen e <? 0); [done|].
  destruct (ue_queue_init e <? 0); [done|]. destruct (_ =? 0); [done|]. destruct (negb _); [done|].
  rewrite uring_register_result. destruct (_ <? 0); [done|]. by intros [= <-].
Qed.

(** The conditions under which the server reaches its loop. *)
Definition uring_can_start (e : uring_env) : bool :=
  (2 <=? ue_argc e) && (0 <=? ue_bind e) && (0 <=? ue_listen e) && (0 <=? ue_queue_init e) &&
  Z.testbit (ue_features e) 5 && default false (ue_probe e) &&
  (0 <=? ue_provide e [all_buffers]).

Lemma land_pow2_eqb x n : 0 <= n -> (Z.land x (2 ^ n) =? 0) = negb (Z.testbit x n).
Proof.
  intros Hn. rewrite <- (Z.shiftl_1_l n).
  destruct (Z.testbit x n) eqn:Et; simpl.
  - apply Z.eqb_neq. intros E. apply (f_equal (fun y => Z.testbit y n)) in E.
    rewrite Z.land_spec, Et, Z.shiftl_spec, Z.sub_diag, Z.bits_0 in E by done. done.
  - apply Z.eqb_eq, Z.bits_inj'. intros i Hi. rewrite Z.land_spec, Z.bits_0, Z.shiftl_1_l, Z.pow2_bits_eqb by done.
    destruct (Z.eqb_spec n i); subst; [by rewrite Et|by rewrite andb_false_r].
Qed.

(** ** Whole executions *)
Section runs.
Context {LU : liburing} {LL : LiburingLaws} {K : Type} `{uring_kernel K}.
Context (lo nofile : Z) `{!UringLaws K lo nofile}.

Lemma ustep_inv fd e S tq ti tc S' :
  reports_buffer e = true -> uinv lo nofile fd S tq ti tc -> ustep fd e S = Some S' ->
  exists tq' ti' tc', uinv lo nofile fd S' tq' ti' tc'.
Proof.
  intros Hrep Hu Hs. destruct e.
  - eapply submit_inv; [exact _|exact Hu|exact Hs].
  - eapply complete_inv; [exact _|exact Hrep|exact Hu|exact Hs].
  - eapply handle_inv; [exact _|exact Hu|exact Hs].
Qed.

Lemma urun_inv fd l : forall S tq ti tc S',
  forallb reports_buffer l = true -> uinv lo nofile fd S tq ti tc -> urun fd l S = Some S' ->
  exists tq' ti' tc', uinv lo nofile fd S' tq' ti' tc'.
Proof.
  induction l as [|e l IH]; intros S tq ti tc S' Hrep Hu; simpl in *; [intros [= <-]; eauto|].
  apply andb_true_iff in Hrep as [He Hrep].
  destruct (ustep fd e S) as [S1|] eqn:Es; [|done].
  destruct (ustep_inv _ _ _ _ _ _ _ He Hu Es) as (tq1 & ti1 & tc1 & Hu1). by apply (IH S1 tq1 ti1 tc1).
Qed.

Lemma start_inv fd k :
  avail k ⊆+ seqZ 0 BUFFERS_COUNT -> uinv lo nofile fd (usys_start k (UServer [accept_sqe fd] [])) [TAccept] [] [].
Proof.
  intros Hk. destruct (law_range (lo := lo) (nofile := nofile)) as [Hlo _]. constructor.
  - by repeat constructor.
  - constructor.
  - constructor.
  - constructor; [by repeat constructor|constructor..| | |].
    + change (bids ([TAccept] ++ [] ++ [])) with (@nil Z). by rewrite app_nil_r.
    + done.
    + intros f. exists [], []. by repeat constructor.
  - done.
  - simpl. lia.
Qed.

Lemma start_run_inv e s0 k l S :
  uring_start e (UServer [] []) = Ret (None, s0) -> avail k ⊆+ seqZ 0 BUFFERS_COUNT ->
  forallb reports_buffer l = true -> urun (ue_socket e) l (usys_start k s0) = Some S ->
  exists tq ti tc, uinv lo nofile (ue_socket e) S tq ti tc.
Proof.
  intros ->%uring_start_ready Hk Hrep Hrun. eapply urun_inv; [exact Hrep|by apply start_inv|exact Hrun].
Qed.

Lemma pending_length T fd : NoDup (fds T) -> (length (pending T fd) <= 1)%nat.
Proof.
  intros Hnd. induction T as [|x T IH]; [simpl; lia|]. rewrite pending_cons, length_app.
  change (fds (x :: T)) with (fd_of x ++ fds T) in Hnd. apply NoDup_app in Hnd as (_ & Hdis & HT).
  specialize (IH HT). destruct (decide (fd ∈ fd_of x)) as [Hin|Hout].
  - rewrite (pending_none T fd (Hdis _ Hin)). destruct x; simpl; case_cmp; simpl; lia.
  - assert (pending_of fd x = []) as ->; [|done].
    destruct x; simpl in *; try done; case_cmp; subst; try done; set_solver.
Qed.

(** C6: in every execution of the io_uring server from its start in which each receive that
    completes without data (and not with [-ENOBUFS]) reports a buffer, with any
    kernel and liburing that keep to their documented behaviour, what was sent on
    a descriptor are answers to the messages received on it, one per message and
    in their order, each a prefix of its message; at most the last message is not
    answered yet.  Buffers recycled between connections never mix messages.  C38
    shows that the condition on the execution is needed. *)
Theorem uring_echoes e s0 k l S fd :
  uring_start e (UServer [] []) = Ret (None, s0) -> avail k ⊆+ seqZ 0 BUFFERS_COUNT ->
  forallb reports_buffer l = true -> urun (ue_socket e) l (usys_start k s0) = Some S ->
  exists answered waiting, history (received S) fd = answered ++ waiting /\ (length waiting <= 1)%nat /\
    Forall2 (fun msg ans => ans `prefix_of` msg) answered (history (sent S) fd).
Proof.
  intros Hs Hk Hrep Hrun. destruct (start_run_inv _ _ _ _ _ Hs Hk Hrep Hrun) as (tq & ti & tc & [_ _ _ Ho _ _]).
  destruct (o_echo _ _ _ _ _ _ _ Ho fd) as (a & w & Hr & Ha & Hw). exists a, w. split_and!; try done.
  rewrite <- (Forall2_length _ _ _ Hw). by apply pending_length, (o_fds _ _ _ _ _ _ _ Ho).
Qed.

(** ** Buffers and descriptors of the requests *)
Definition sqe_buffers (s : io_uring_sqe) : list Z :=
  match sqe_op s with Op_send _ row _ | Op_provide row _ _ _ _ => [row] | _ => [] end.
Definition sqe_fds (s : io_uring_sqe) : list Z :=
  match sqe_op s with Op_send fd _ _ | Op_recv fd _ => [fd] | _ => [] end.

Lemma sqe_of_buffers lfd T l :
  Forall2 (sqe_of lfd) T l -> bids T = l ≫= sqe_buffers /\ fds T = l ≫= sqe_fds.
Proof.
  induction 1 as [|x s T l Hx HT [IHb IHf]]; [done|].
  change (bids (x :: T)) with (bid_of x ++ bids T). change (fds (x :: T)) with (fd_of x ++ fds T).
  rewrite !bind_cons, IHb, IHf. by destruct x; simpl in Hx; try done; subst s.
Qed.

(** C10: ownership in the io_uring server, as long as every receive that completes
    without data (and not with [-ENOBUFS]) has reported a buffer: in every reachable
    state no buffer is both available to the kernel and named by a queued or
    submitted request, none is named by two such requests, no connection has two
    receives or sends at a time, and every buffer named is a row of [bufs]. *)
Theorem uring_requests_exclusive e s0 k l S :
  uring_start e (UServer [] []) = Ret (None, s0) -> avail k ⊆+ seqZ 0 BUFFERS_COUNT ->
  forallb reports_buffer l = true -> urun (ue_socket e) l (usys_start k s0) = Some S ->
  NoDup (avail (kern S) ++ ((sq (srv S) ++ inflight S) ≫= sqe_buffers)) /\
  NoDup ((sq (srv S) ++ inflight S) ≫= sqe_fds) /\
  Forall (fun b => 0 <= b < BUFFERS_COUNT) ((sq (srv S) ++ inflight S) ≫= sqe_buffers).
Proof.
  intros Hs Hk Hrep Hrun. destruct (start_run_inv _ _ _ _ _ Hs Hk Hrep Hrun) as (tq & ti & tc & [Hq Hf _ Ho _ _]).
  destruct (sqe_of_buffers _ _ _ (Forall2_app Hq Hf)) as [<- <-].
  pose proof (owns_bufs_NoDup _ _ _ _ _ _ _ Ho) as Hb. pose proof (o_fds _ _ _ _ _ _ _ Ho) as Hfd.
  rewrite app_assoc in Ho, Hb, Hfd. unfold fds, bids in *. rewrite (bind_app _ (tq ++ ti)) in Hb. rewrite (bind_app _ (tq ++ ti)) in Hfd.
  rewrite app_assoc in Hb. apply NoDup_app in Hb as [Hb _]. apply NoDup_app in Hfd as [Hfd _].
  split_and!; [done..|]. apply Forall_forall. intros b Hin.
  eapply (owns_bid_ok lo nofile); [exact Ho|]. apply elem_of_app. right. unfold bids. rewrite bind_app.
  apply elem_of_app. by left.
Qed.

(** An entry whose [user_data] tells its operation, with the fields the handler
    of its completion uses. *)
Definition sqe_typed (lfd : Z) (s : io_uring_sqe) : Prop :=
  let i := conn_info_of (sqe_user_data s) in
  match sqe_op s with
  | Op_none => False
  | Op_accept fd => i = ConnInfo (to_uint lfd) ACCEPT 0 /\ fd = lfd
  | Op_recv fd len => i = ConnInfo fd READ 0 /\ len = MAX_MESSAGE_LEN /\
                      sqe_flags s = IOSQE_BUFFER_SELECT /\ sqe_buf_group s = group_id
  | Op_send fd row len => i = ConnInfo fd WRITE row /\ 0 < len
  | Op_provide row len nr bgid bid => i = ConnInfo 0 PROV_BUF 0 /\ row = bid /\ len = MAX_MESSAGE_LEN /\ nr = 1 /\ bgid = group_id
  end.

Lemma sqe_of_typed lfd x s : sqe_of lfd x s -> token_ok x -> sqe_typed lfd s.
Proof.
  intros Hs (Hf & Hb & Hn). destruct x; simpl in Hs, Hf, Hb; try done; subst s; unfold sqe_typed;
    cbn [sqe_op sqe_user_data sqe_flags sqe_buf_group accept_sqe read_sqe write_sqe provide_sqe];
    rewrite conn_info_roundtrip_fits; try done;
    repeat match goal with H : Forall _ (_ :: _) |- _ => apply Forall_cons in H as [H _] end;
    try (apply fits; [first [exact Hf|done]|done|first [exact Hb|done]]).
  unfold conn_info_fits, to_uint, wrap_u, ACCEPT. simpl. pose proof (Z.mod_pos_bound lfd (2 ^ 32)). lia.
Qed.

(** C20: as long as every receive that completes without data (and not with
    [-ENOBUFS]) has reported a buffer, every request the io_uring server has in its
    queue or in flight is one of the four well-formed kinds: an accept on the listening socket, a
    receive with buffer selection from the group, a send from a row of [bufs] that
    its [user_data] names, or a provided buffer, and [user_data] is the
    [conn_info] of exactly that request. *)
Theorem uring_requests_typed e s0 k l S :
  uring_start e (UServer [] []) = Ret (None, s0) -> avail k ⊆+ seqZ 0 BUFFERS_COUNT ->
  forallb reports_buffer l = true -> urun (ue_socket e) l (usys_start k s0) = Some S ->
  Forall (sqe_typed (ue_socket e)) (sq (srv S) ++ inflight S).
Proof.
  intros Hs Hk Hrep Hrun. destruct (start_run_inv _ _ _ _ _ Hs Hk Hrep Hrun) as (tq & ti & tc & [Hq Hf _ Ho _ _]).
  pose proof (Forall2_app Hq Hf) as Hqf. apply Forall_lookup. intros i s Hi.
  destruct (Forall2_lookup_r _ _ _ _ _ Hqf Hi) as (x & Hx & Hs').
  apply (sqe_of_typed _ x); [done|]. eapply (owns_token_ok lo nofile); [exact Ho|].
  rewrite app_assoc. apply elem_of_app. left. by eapply list_elem_of_lookup_2.
Qed.

(** C14: with at most 1023 descriptors for connections, and as long as every
    receive that completes without data (and not with [-ENOBUFS]) has reported a
    buffer, the handler of the io_uring server returns on the next completion:
    [io_uring_get_sqe] does not give [NULL], no row outside of [bufs] is used and
    the submission queue stays within its 2048 entries. *)
Theorem uring_handler_returns e s0 k l S c cq' :
  nofile - lo <= 1023 ->
  uring_start e (UServer [] []) = Ret (None, s0) -> avail k ⊆+ seqZ 0 BUFFERS_COUNT ->
  forallb reports_buffer l = true -> urun (ue_socket e) l (usys_start k s0) = Some S -> cq S = c :: cq' ->
  exists r s', handle_cqe (ue_socket e) c (UServer (sq (srv S)) []) = Ret (r, s') /\
    Z.of_nat (length (sq s')) <= RING_ENTRIES.
Proof.
  intros Hsmall Hs Hk Hrep Hrun Hcq. destruct (start_run_inv _ _ _ _ _ Hs Hk Hrep Hrun) as (tq & ti & tc & Hu).
  pose proof Hu as [Hq _ Hc Ho _ _]. rewrite Hcq in Hc.
  apply Forall2_cons_inv_r in Hc as (x & tc' & Hx & Hc & ->).
  pose proof (handle_room _ _ _ _ _ _ _ _ Hsmall Hu) as Hroom.
  assert (token_ok x) as Hok by (eapply (owns_token_ok lo nofile); [exact Ho|set_solver]).
  destruct (handle_token (ue_socket e) x c _ Hx Hok Hroom) as (l' & Hh & Hl).
  eexists _, _. split; [exact Hh|]. simpl. rewrite length_app, <- (Forall2_length _ _ _ Hl).
  unfold room in Hroom. simpl in Hroom. lia.
Qed.
End runs.

(** ** A concrete kernel

    A receive that fails may take a buffer and report it, or report none. *)
Record kstate := KState { k_avail : list Z; k_opened : list Z }.

Definition LO : Z := 5.       (* 0, 1, 2, the listening socket and the ring *)
Definition NOFILE : Z := 1024.

Definition take_buffer (k : kstate) (bid : Z) : option kstate :=
  match list_find (fun x => x = bid) (k_avail k) with
  | Some (i, _) => Some (KState (delete i (k_avail k)) (k_opened k))
  | None => None
  end.

Definition k_completes (k : kstate) (s : io_uring_sqe) (c : io_uring_cqe) (d : list Z) : option kstate :=
  if negb (cqe_user_data c =? sqe_user_data s) then None
  else match sqe_op s with
  | Op_none => None
  | Op_accept _ =>
      if cqe_res c <? 0 then Some k
      else if (LO <=? cqe_res c) && (cqe_res c <? NOFILE) && negb (bool_decide (cqe_res c ∈ k_opened k))
      then Some (KState (k_avail k) (cqe_res c :: k_opened k)) else None
  | Op_recv _ len =>
      if 0 <? cqe_res c then
        if (cqe_res c =? Z.of_nat (length d)) && (cqe_res c <=? len) && cqe_f_buffer (cqe_flags c)
        then take_buffer k (Z.shiftr (cqe_flags c) 16) else None
      else if cqe_f_buffer (cqe_flags c) then take_buffer k (Z.shiftr (cqe_flags c) 16)
      else Some k
  | Op_send _ _ len => if cqe_res c <=? len then Some k else None
  | Op_provide _ _ nr _ bid =>
      if cqe_res c <? 0 then Some k
      else if nr =? 1 then Some (KState (bid :: k_avail k) (k_opened k)) else None
  end.

#[export] Instance kstate_kernel : uring_kernel kstate := {
  avail := k_avail;
  opened := k_opened;
  completes := k_completes;
  k_close k fd := KState (k_avail k) (filter (fun x => x <> fd) (k_opened k))
}.

Lemma take_buffer_Some (k k' : kstate) bid :
  take_buffer k bid = Some k' -> k_avail k ≡ₚ bid :: k_avail k' /\ k_opened k' = k_opened k.
Proof.
  unfold take_buffer. destruct (list_find _ (k_avail k)) as [[i x]|] eqn:E; [|done].
  apply list_find_Some in E as (Hi & -> & _). intros [= <-]. split; [|done]. by apply delete_Permutation.
Qed.

#[export] Instance kstate_laws : UringLaws kstate LO NOFILE.
Proof.
  constructor.
  - done.
  - intros k s c d k' Hk. simpl in Hk. unfold k_completes in Hk.
    destruct (Z.eqb_spec (cqe_user_data c) (sqe_user_data s)); done.
  - intros k s c d k' fd Hk Hs. simpl in Hk. unfold k_completes in Hk. rewrite Hs in Hk.
    destruct (negb _); [done|]. destruct (Z.ltb_spec (cqe_res c) 0), (Z.leb_spec 0 (cqe_res c)); try lia.
    + by injection Hk as <-.
    + destruct (Z.leb_spec LO (cqe_res c)), (Z.ltb_spec (cqe_res c) NOFILE); simpl in Hk; try done.
      case_bool_decide; [done|]. by injection Hk as <-.
  - intros k s c d k' fd len Hk Hs Hf. simpl in *. unfold k_completes in Hk. rewrite Hs in Hk.
    destruct (negb _); [done|]. destruct (Z.ltb_spec 0 (cqe_res c)).
    + destruct (Z.eqb_spec (cqe_res c) (Z.of_nat (length d))), (Z.leb_spec (cqe_res c) len); simpl in Hk; try done.
      destruct (cqe_f_buffer _); [|done]. by apply take_buffer_Some in Hk as [Ha Ho].
    + destruct (cqe_f_buffer _); [apply take_buffer_Some in Hk as [Ha Ho]|injection Hk as <-];
        split_and!; done || lia.
  - intros k s c d k' fd row len Hk Hs. simpl in *. unfold k_completes in Hk. rewrite Hs in Hk.
    destruct (negb _); [done|]. destruct (Z.leb_spec (cqe_res c) len); [by injection Hk as <-|done].
  - intros k s c d k' row len bgid bid Hk Hs. simpl in *. unfold k_completes in Hk. rewrite Hs in Hk.
    destruct (negb _); [done|].
    destruct (Z.ltb_spec (cqe_res c) 0), (Z.leb_spec 0 (cqe_res c)); try lia; by injection Hk as <-.
  - intros k fd. split; [done|]. intros x Hx Hne. simpl. apply list_elem_of_filter. done.
Qed.

(** ** A concrete liburing *)
#[export] Instance liburing0 : liburing := {
  io_uring_get_sqe s :=
    if Z.of_nat (length (sq s)) <? RING_ENTRIES
    then Ret (Some (length (sq s)), add_sqes [Sqe Op_none 0 0 0] s) else Ret (None, s);
  io_uring_prep p op := with_sqe p (fun _ => Sqe op 0 0 0);
  io_uring_sqe_set_flags p f := with_sqe p (fun e => Sqe (sqe_op e) f (sqe_buf_group e) (sqe_user_data e));
  io_uring_submit s := Ret (sq s, UServer [] (closed s))
}.
#[export] Instance liburing0_laws : LiburingLaws.
Proof. constructor; intros; try done; eexists; reflexivity. Qed.

(** ** Concrete executions *)
Definition uenv0 : uring_env :=
  {| ue_argc := 2; ue_socket := 3; ue_bind := 0; ue_listen := 0; ue_queue_init := 0; ue_features := 32;
     ue_probe := Some true; ue_provide := fun _ => 0 |}.
Definition kernel0 : kstate := KState (seqZ 0 BUFFERS_COUNT) [].
Definition usys0 : usys kstate := usys_start kernel0 (UServer [accept_sqe 3] []).

Definition got_accept (fd : Z) : io_uring_cqe := Cqe (conn_info_bytes (ConnInfo 3 ACCEPT 0)) fd 0.
Definition got_data (fd bid n : Z) : io_uring_cqe := Cqe (conn_info_bytes (ConnInfo fd READ 0)) n (Z.shiftl bid 16 + 1).
Definition got_eof (fd flags : Z) : io_uring_cqe := Cqe (conn_info_bytes (ConnInfo fd READ 0)) 0 flags.
Definition got_sent (fd bid n : Z) : io_uring_cqe := Cqe (conn_info_bytes (ConnInfo fd WRITE bid)) n 0.
Definition got_buffer : io_uring_cqe := Cqe (conn_info_bytes (ConnInfo 0 PROV_BUF 0)) 0 0.

(** Three clients connect with descriptors 5, 6 and 7. *)
Definition connect_clients : list uevent :=
  [Esubmit; Ecomplete 0 (got_accept 5) []; Ehandle;
   Esubmit; Ecomplete 1 (got_accept 6) []; Ehandle;
   Esubmit; Ecomplete 2 (got_accept 7) []; Ehandle; Esubmit].

(** Client 5 says "hi", and its answer waits; client 6 closes; client 7 says
    "by"; then the answer to client 5 leaves. *)
Definition three_clients (flags : Z) (bid : Z) : list uevent :=
  connect_clients ++
  [Ecomplete 0 (got_data 5 0 2) [104; 105]; Ehandle; Esubmit;
   Ecomplete 0 (got_eof 6 flags) []; Ehandle; Esubmit;
   Ecomplete 3 got_buffer []; Ehandle;
   Ecomplete 0 (got_data 7 bid 2) [98; 121];
   Ecomplete 1 (got_sent 5 0 2) []].

Lemma uenv0_starts : uring_start uenv0 (UServer [] []) = Ret (None, UServer [accept_sqe 3] []).
Proof. vm_compute. reflexivity. Qed.

(** What clients 5 and 7 have sent, and what client 5 got. *)
Definition outcome_of {K} (o : option (usys K)) : option (list (list Z) * list (list Z) * list (list Z)) :=
  match o with
  | Some y => Some (history (received y) 5, history (received y) 7, history (sent y) 5)
  | None => None
  end.

Lemma three_clients_ok :
  outcome_of (urun 3 (three_clients (Z.shiftl 1 16 + 1) 1) usys0) = Some ([[104; 105]], [[98; 121]], [[104; 105]]).
Proof. vm_compute. reflexivity. Qed.

Lemma three_clients_recycled :
  outcome_of (urun 3 (three_clients 0 0) usys0) = Some ([[104; 105]], [[98; 121]], [[98; 121]]).
Proof. vm_compute. reflexivity. Qed.

Lemma kernel0_avail : avail kernel0 ⊆+ seqZ 0 BUFFERS_COUNT.
Proof. reflexivity. Qed.

Lemma three_clients_report : forallb reports_buffer (three_clients (Z.shiftl 1 16 + 1) 1) = true.
Proof. vm_compute. reflexivity. Qed.

Lemma three_clients_run : exists S, urun 3 (three_clients (Z.shiftl 1 16 + 1) 1) usys0 = Some S.
Proof.
  pose proof three_clients_ok as Hok.
  destruct (urun 3 (three_clients (Z.shiftl 1 16 + 1) 1) usys0) as [y|]; [by exists y|done].
Qed.

Lemma uring_echoes_witness :
  exists S answered waiting, urun 3 (three_clients (Z.shiftl 1 16 + 1) 1) usys0 = Some S /\
    history (received S) 5 = answered ++ waiting /\ (length waiting <= 1)%nat /\
    Forall2 (fun msg ans => ans `prefix_of` msg) answered (history (sent S) 5).
Proof.
  destruct three_clients_run as [y E].
  destruct (uring_echoes LO NOFILE uenv0 _ kernel0 _ y 5 uenv0_starts kernel0_avail three_clients_report E)
    as (a & w & H1 & H2 & H3).
  exists y, a, w. exact (conj E (conj H1 (conj H2 H3))).
Defined.

Lemma uring_requests_exclusive_witness :
  exists S, urun 3 (three_clients (Z.shiftl 1 16 + 1) 1) usys0 = Some S /\
  NoDup (avail (kern S) ++ ((sq (srv S) ++ inflight S) ≫= sqe_buffers)) /\
  NoDup ((sq (srv S) ++ inflight S) ≫= sqe_fds) /\
  Forall (fun b => 0 <= b < BUFFERS_COUNT) ((sq (srv S) ++ inflight S) ≫= sqe_buffers).
Proof.
  destruct three_clients_run as [y E].
  exists y. split; [exact E|].
  exact (uring_requests_exclusive LO NOFILE uenv0 _ kernel0 _ y uenv0_starts kernel0_avail three_clients_report E).
Defined.

Lemma uring_requests_typed_witness :
  exists S, urun 3 (three_clients (Z.shiftl 1 16 + 1) 1) usys0 = Some S /\
  Forall (sqe_typed 3) (sq (srv S) ++ inflight S).
Proof.
  destruct three_clients_run as [y E]. exists y. split; [exact E|].
  exact (uring_requests_typed LO NOFILE uenv0 _ kernel0 _ y uenv0_starts kernel0_avail three_clients_report E).
Defined.

(** The completions that wait at the end of the execution. *)
Lemma three_clients_cq :
  option_map cq (urun 3 (three_clients (Z.shiftl 1 16 + 1) 1) usys0) = Some [got_data 7 1 2; got_sent 5 0 2].
Proof. vm_compute. reflexivity. Qed.

Lemma uring_handler_returns_witness :
  exists S r s', urun 3 (three_clients (Z.shiftl 1 16 + 1) 1) usys0 = Some S /\
    handle_cqe 3 (got_data 7 1 2) (UServer (sq (srv S)) []) = Ret (r, s') /\
    Z.of_nat (length (sq s')) <= RING_ENTRIES.
Proof.
  pose proof three_clients_cq as Hcq. destruct three_clients_run as [y E]. rewrite E in Hcq. injection Hcq as Hcq.
  destruct (uring_handler_returns LO NOFILE uenv0 _ kernel0 _ y _ _ ltac:(done) uenv0_starts
              kernel0_avail three_clients_report E Hcq) as (r & s' & H1 & H2).
  exists y, r, s'. exact (conj E (conj H1 H2)).
Defined.

(** C38: when a failed receive reports no buffer (no [IORING_CQE_F_BUFFER], so
    the upper half of the flags is 0), the io_uring server gives buffer 0 away
    although it is in use: in this execution client 5 sends "hi" and is answered
    with the bytes "by" of client 7. *)
Theorem uring_recycled_buffer_leaks :
  exists S, urun 3 (three_clients 0 0) usys0 = Some S /\
    history (received S) 5 = [[104; 105]] /\ history (received S) 7 = [[98; 121]] /\
    history (sent S) 5 = [[98; 121]].
Proof.
  pose proof three_clients_recycled as H.
  destruct (urun 3 (three_clients 0 0) usys0) as [y|]; [|done].
  exists y. simpl in H. injection H as -> -> ->. done.
Qed.

(** ** Limits of the handler *)

(** C37: [io_uring_get_sqe] is not checked: when the completions of one iteration
    over the CQEs (of accepts, receives, sends and provided buffers, none of which
    makes the server exit, with descriptors and buffers in range) need more entries
    than the submission queue has left, the handler stores through [NULL].  An accept needs two entries, or one when it
    failed, a receive one, a send two. *)
Theorem uring_queue_overflow {LU : liburing} {LL : LiburingLaws} lfd T l : forall s,
  Forall2 cqe_of T l -> Forall token_ok T -> Forall (fun t => exits t = None) T ->
  Z.of_nat (length (sq s)) <= RING_ENTRIES < Z.of_nat (length (sq s)) + Z.of_nat (entries_needed T) ->
  handle_cqes lfd l s = Fault NullDeref.
Proof.
  revert l. induction T as [|t T IH]; intros l s HT Hok Hex Hlen; [unfold entries_needed in Hlen; simpl in *; lia|].
  apply Forall2_cons_inv_l in HT as (c & l' & Hc & HT & ->).
  apply Forall_cons in Hok as [Ht Hok]. apply Forall_cons in Hex as [Het Hex].
  change (entries_needed (t :: T)) with (length (next t) + entries_needed T)%nat in Hlen. cbn [handle_cqes].
  destruct (decide (room (Z.of_nat (length (next t))) s)) as [Hroom|Hfull].
  - destruct (handle_token lfd t c s Hc Ht Hroom) as (l1 & Hh & Hl). mrun Hh. rewrite Het.
    apply IH; try done. simpl. rewrite length_app, <- (Forall2_length _ _ _ Hl). unfold room in Hroom. lia.
  - apply bind_fault. apply (handle_token_full lfd t c s Hc Ht); [unfold room; lia|done].
Qed.

(** A new connection and 1024 answers that were sent. *)
Definition busy_iteration : list token :=
  TConn 2000 :: map (fun i => TWrote i (i - 5)) (seqZ 5 1024).
Definition busy_cqes : list io_uring_cqe :=
  got_accept 2000 :: map (fun i => got_sent i (i - 5) 2) (seqZ 5 1024).

Lemma uring_queue_overflow_witness : handle_cqes 3 busy_cqes (UServer [] []) = Fault NullDeref.
Proof.
  apply (uring_queue_overflow 3 busy_iteration).
  - constructor; [by vm_compute|]. apply Forall2_fmap, Forall_Forall2_diag, Forall_seqZ.
    intros i Hi. split; [|done]. apply conn_info_roundtrip_fits. unfold conn_info_fits. simpl. unfold WRITE. lia.
  - apply Forall_cons. split.
    { split_and!; [apply Forall_singleton; unfold fd_ok, INT_MAX; lia|constructor|done]. }
    apply Forall_fmap, Forall_seqZ. intros i Hi.
    split_and!; [apply Forall_singleton; unfold fd_ok, INT_MAX; lia| |done].
    apply Forall_singleton. unfold bid_ok, BUFFERS_COUNT, MAX_CONNECTIONS. lia.
  - apply Forall_cons. split; [done|]. apply Forall_fmap, Forall_seqZ. by intros i Hi.
  - by vm_compute.
Defined.

(** The result of a send is not looked at: whatever it is, the buffer is given
    back and the next receive is queued, so the rest of a short send is dropped
    and a failed connection is read again. *)
Theorem uring_write_result_ignored {LU : liburing} {LL : LiburingLaws} lfd fd b res flags s :
  fd_ok fd -> bid_ok b -> res <> - ENOBUFS -> room 2 s ->
  handle_cqe lfd (Cqe (conn_info_bytes (ConnInfo fd WRITE b)) res flags) s
  = Ret (None, add_sqes [provide_sqe b; read_sqe fd] s).
Proof.
  intros Hfd Hb Hres Hroom.
  assert (conn_info_of (conn_info_bytes (ConnInfo fd WRITE b)) = ConnInfo fd WRITE b) as Hci.
  { by apply conn_info_roundtrip_fits, fits. }
  assert (token_ok (TWrote fd b)) as Hok by (split_and!; [by apply Forall_singleton..|done]).
  destruct (handle_token lfd (TWrote fd b) (Cqe (conn_info_bytes (ConnInfo fd WRITE b)) res flags) s)
    as (l & Hh & Hl); [done..|].
  rewrite Hh. simpl. rewrite app_nil_r. apply Forall2_cons_inv_l in Hl as (y & l1 & -> & Hl & ->).
  by apply Forall2_cons_inv_l in Hl as (y & l2 & -> & ->%Forall2_nil_inv_l & ->).
Qed.

Lemma uring_write_result_ignored_witness :
  handle_cqe 3 (Cqe (conn_info_bytes (ConnInfo 5 WRITE 0)) 1 0) (UServer [] [])
  = Ret (None, UServer [provide_sqe 0; read_sqe 5] []).
Proof. apply (uring_write_result_ignored 3 5 0 1 0 (UServer [] [])); done. Defined.

(** A [conn_info] survives its journey through the 64 bits of [user_data]. *)
Theorem conn_info_roundtrip c : conn_info_fits c -> conn_info_of (conn_info_bytes c) = c.
Proof. apply conn_info_roundtrip_fits. Qed.

Lemma conn_info_roundtrip_witness :
  conn_info_of (conn_info_bytes (ConnInfo 4294967295 3 65535)) = ConnInfo 4294967295 3 65535.
Proof. apply conn_info_roundtrip. by vm_compute. Defined.

(** The io_uring server reaches its loop exactly when it has an argument and
    every step of the set-up succeeds, with one accept queued; otherwise it exits
    with status 0 or 1. *)
Theorem uring_start_outcome {LU : liburing} {LL : LiburingLaws} e :
  if uring_can_start e
  then uring_start e (UServer [] []) = Ret (None, UServer [accept_sqe (ue_socket e)] [])
  else exists code s, uring_start e (UServer [] []) = Ret (Some code, s) /\ 0 <= code <= 1.
Proof.
  unfold uring_can_start, uring_start, IORING_FEAT_FAST_POLL.
  change 32 with (2 ^ 5). rewrite !land_pow2_eqb by done.
  rewrite !Z.leb_antisym. generalize (Z.testbit (ue_features e) 5) as feat. intros feat.
  destruct (ue_argc e <? 2); simpl; [by eexists _, _|]. destruct (ue_bind e <? 0); simpl; [by eexists _, _|].
  destruct (ue_listen e <? 0); simpl; [by eexists _, _|]. destruct (ue_queue_init e <? 0); simpl; [by eexists _, _|].
  destruct feat; simpl; [|by eexists _, _].
  destruct (default false (ue_probe e)); simpl; [|by eexists _, _].
  rewrite uring_register_result. by destruct (ue_provide e [all_buffers] <? 0); simpl; [eexists _, _|].
Qed.
