(* ===== verification/Bench.v ===== *)
(** * The benchmark client (echo/rps.c)

    [main] reads its options, [init] builds the message, [bench] starts the
    threads behind a gate (a mutex, a condition variable and the flag [ready]),
    lets them send for a while, raises [shut], joins them and reports the sum of
    their counters.

    The threads are interleaved at the granularity of the calls of the pthread
    library and of accesses to the shared variables; a mutex is its owner, a
    thread inside of [pthread_cond_wait] has released it and may wake up
    spuriously.  Results of system calls are part of the events. *)
From Stdlib Require Import Ascii.
From stdpp Require Import base numbers list gmap.
From S2P Require Import Prelude Config.

Definition MAX_THREAD : Z := 1000.

Record rps_conf := RpsConf { conf_port : Z; conf_conn : Z; conf_size : Z; conf_dur : Z }.
Definition default_conf : rps_conf := RpsConf 12345 100 1000 5.

(** ** Options *)

(** [atoi]: the leading number, 0 when there is none. *)
Definition atoi (l : list ascii) : outcome Z :=
  match scan_d (Stream l false) with
  | Ret (Some v, _) => Ret v
  | Ret (None, _) => Ret 0
  | Fault f => Fault f
  | Hang => Hang
  end.

(** What [getopt_long] returns, with [optarg]. *)
Inductive rps_option :=
| Opt_p (optarg : list ascii)
| Opt_c (optarg : list ascii)
| Opt_d (optarg : list ascii)
| Opt_s (optarg : list ascii)
| Opt_other.                      (* '?' *)

(** One iteration of [do ... while (next_option != -1)]; [None] is [return 0]. *)
Definition rps_case (o : rps_option) (c : rps_conf) : outcome (option rps_conf) :=
  match o with
  | Opt_p a => match atoi a with
               | Ret v => Ret (Some (RpsConf v (conf_conn c) (conf_size c) (conf_dur c)))
               | Fault f => Fault f | Hang => Hang end
  | Opt_c a => match atoi a with
               | Ret v => if MAX_THREAD <? v then Ret None
                          else Ret (Some (RpsConf (conf_port c) v (conf_size c) (conf_dur c)))
               | Fault f => Fault f | Hang => Hang end
  | Opt_d a => match atoi a with
               | Ret v => Ret (Some (RpsConf (conf_port c) (conf_conn c) (conf_size c) v))
               | Fault f => Fault f | Hang => Hang end
  | Opt_s a => match atoi a with
               | Ret v => Ret (Some (RpsConf (conf_port c) (conf_conn c) v (conf_dur c)))
               | Fault f => Fault f | Hang => Hang end
  | Opt_other => Ret None
  end.

Fixpoint rps_options (l : list rps_option) (c : rps_conf) : outcome (option rps_conf) :=
  match l with
  | [] => Ret (Some c)
  | o :: l' => match rps_case o c with Ret (Some c') => rps_options l' c' | r => r end
  end.

(** ** init *)

(** The message in the memory [malloc] gave, [None] when it failed. *)
Definition store_msg (i v : Z) : M (option (list Z)) unit := fun s =>
  match s with
  | None => Fault NullDeref
  | Some l => match aset l i v with Some l' => Ret (tt, Some l') | None => Fault OutOfBounds end
  end.

(** [malloc] takes a [size_t]: a negative size is huge and fails; it may fail
    for another size too ([ok]). *)
Definition malloc (ok : bool) (junk : list Z) (n : Z) : option (list Z) :=
  if (n <? 0) || negb ok then None else Some (take (Z.to_nat n) (junk ++ replicate (Z.to_nat n) 0)).

Definition rps_init (ok : bool) (junk : list Z) (size : Z) : outcome (option (list Z)) :=
  match (do! for_range 0 size (fun i => store_msg i 97) in store_msg (size - 1) 0) (malloc ok junk size) with
  | Ret (_, m) => Ret m
  | Fault f => Fault f
  | Hang => Hang
  end.

(** [strlen] *)
Fixpoint strlen (l : list Z) : option nat :=
  match l with
  | [] => None
  | c :: l' => if c =? 0 then Some O else S <$> strlen l'
  end.

(** ** Threads *)

(** [bench_worker] *)
Inductive bench_wpc :=
| B_lock      (* pthread_mutex_lock(&worker_lock) *)
| B_check     (* while (!ready) *)
| B_waiting   (* inside of pthread_cond_wait *)
| B_relock    (* woken up, takes the mutex again *)
| B_unlock    (* pthread_mutex_unlock(&worker_lock) *)
| B_socket | B_connect
| B_loop      (* while (!shut) *)
| B_send | B_recv
| B_reslock   (* pthread_mutex_lock(&res_lock) *)
| B_load      (* total_success += local_success: the load, *)
| B_store (v : Z) (* and the store, [v] was loaded *)
| B_resunlock
| B_close     (* shutdown, close *)
| B_exit.

(** [bench], with [create_worker] *)
Inductive bench_mpc :=
| M_start             (* ready = false; shut = false *)
| M_create (i : Z)
| M_lock
| M_ready             (* ready = true *)
| M_broadcast
| M_unlock
| M_sleep
| M_shut              (* shut = true *)
| M_join (x : Z)
| M_report            (* free(msg), printf *)
| M_undefined.        (* pthread_join of something that is no thread *)

#[export] Instance bench_wpc_eq_dec : EqDecision bench_wpc.
Proof. solve_decision. Defined.
#[export] Instance bench_mpc_eq_dec : EqDecision bench_mpc.
Proof. solve_decision. Defined.

Record bworker := BWorker { bw_pc : bench_wpc; local_success : Z }.
Inductive owner := O_main | O_worker (i : nat).

#[export] Instance owner_eq_dec : EqDecision owner.
Proof. solve_decision. Defined.

Record bench_t := Bench {
  ready : bool;
  shut : bool;
  worker_lock : option owner;
  res_lock : option nat;
  total_success : Z;
  pt : list bworker;      (* the threads created *)
  b_main : bench_mpc;
  exited : option Z       (* exit(-1) *)
}.

Definition at_main (m : bench_mpc) (s : bench_t) : bench_t :=
  Bench (ready s) (shut s) (worker_lock s) (res_lock s) (total_success s) (pt s) m (exited s).
Definition with_ready (b : bool) (s : bench_t) : bench_t :=
  Bench b (shut s) (worker_lock s) (res_lock s) (total_success s) (pt s) (b_main s) (exited s).
Definition with_shut (b : bool) (s : bench_t) : bench_t :=
  Bench (ready s) b (worker_lock s) (res_lock s) (total_success s) (pt s) (b_main s) (exited s).
Definition with_wlock (o : option owner) (s : bench_t) : bench_t :=
  Bench (ready s) (shut s) o (res_lock s) (total_success s) (pt s) (b_main s) (exited s).
Definition with_rlock (o : option nat) (s : bench_t) : bench_t :=
  Bench (ready s) (shut s) (worker_lock s) o (total_success s) (pt s) (b_main s) (exited s).
Definition with_total (v : Z) (s : bench_t) : bench_t :=
  Bench (ready s) (shut s) (worker_lock s) (res_lock s) v (pt s) (b_main s) (exited s).
Definition with_pt (l : list bworker) (s : bench_t) : bench_t :=
  Bench (ready s) (shut s) (worker_lock s) (res_lock s) (total_success s) l (b_main s) (exited s).
Definition with_exit (s : bench_t) : bench_t :=
  Bench (ready s) (shut s) (worker_lock s) (res_lock s) (total_success s) (pt s) (b_main s) (Some (-1)).
Definition set_worker (i : nat) (pc : bench_wpc) (n : Z) (s : bench_t) : bench_t :=
  with_pt (<[i := BWorker pc n]> (pt s)) s.

(** [pthread_cond_broadcast(&worker_wait)] *)
Definition wake (t : bworker) : bworker :=
  match bw_pc t with B_waiting => BWorker B_relock (local_success t) | _ => t end.

Section bench.
Context (conn : Z). (* conf_conn *)

(** A step of [bench]; [r] is what [pthread_create] returns. *)
Definition bench_main_step (r : Z) (s : bench_t) : option bench_t :=
  match b_main s with
  | M_start => Some (at_main (M_create 0) (with_ready false (with_shut false s)))
  | M_create i =>
      if i <? conn then
        if r =? 0 then Some (at_main (M_create (i + 1)) (with_pt (pt s ++ [BWorker B_lock 0]) s))
        else Some (with_exit s)
      else Some (at_main M_lock s)
  | M_lock => match worker_lock s with None => Some (at_main M_ready (with_wlock (Some O_main) s)) | _ => None end
  | M_ready => Some (at_main M_broadcast (with_ready true s))
  | M_broadcast => Some (at_main M_unlock (with_pt (map wake (pt s)) s))
  | M_unlock => Some (at_main M_sleep (with_wlock None s))
  | M_sleep => Some (at_main M_shut s)
  | M_shut => Some (at_main (M_join 0) (with_shut true s))
  | M_join x =>
      if x <? MAX_THREAD then
        match pt s !! Z.to_nat x with
        | Some t => if decide (bw_pc t = B_exit) then Some (at_main (M_join (x + 1)) s) else None
        | None => Some (at_main M_undefined s)
        end
      else Some (at_main M_report s)
  | M_report | M_undefined => None
  end.

(** A step of thread [i]; [r] is the result of the call it makes, if any. *)
Definition bench_worker_step (i : nat) (r : Z) (s : bench_t) : option bench_t :=
  match pt s !! i with
  | None => None
  | Some (BWorker pc n) =>
    match pc with
    | B_lock | B_relock =>
        match worker_lock s with
        | None => Some (set_worker i B_check n (with_wlock (Some (O_worker i)) s))
        | _ => None
        end
    | B_check =>
        if ready s then Some (set_worker i B_unlock n s)
        else if r =? 0 then Some (set_worker i B_waiting n (with_wlock None s))
        else Some (with_exit s)
    | B_waiting => Some (set_worker i B_relock n s)
    | B_unlock => Some (set_worker i B_socket n (with_wlock None s))
    | B_socket => if r =? -1 then Some (with_exit s) else Some (set_worker i B_connect n s)
    | B_connect => if r =? -1 then Some (with_exit s) else Some (set_worker i B_loop n s)
    | B_loop => Some (set_worker i (if shut s then B_reslock else B_send) n s)
    | B_send => Some (set_worker i B_recv n s)
    | B_recv => Some (set_worker i B_loop (if r <? 0 then n else to_ull (n + 1)) s)
    | B_reslock =>
        match res_lock s with None => Some (set_worker i B_load n (with_rlock (Some i) s)) | _ => None end
    | B_load => Some (set_worker i (B_store (total_success s)) n s)
    | B_store v => Some (set_worker i B_resunlock n (with_total (to_ull (v + n)) s))
    | B_resunlock => Some (set_worker i B_close n (with_rlock None s))
    | B_close => Some (set_worker i B_exit n s)
    | B_exit => None
    end
  end.

Inductive bevent := E_main (r : Z) | E_worker (i : nat) (r : Z).

Definition bstep (e : bevent) (s : bench_t) : option bench_t :=
  match exited s with
  | Some _ => None
  | None => match e with E_main r => bench_main_step r s | E_worker i r => bench_worker_step i r s end
  end.

Fixpoint brun (l : list bevent) (s : bench_t) : option bench_t :=
  match l with
  | [] => Some s
  | e :: l' => match bstep e s with Some s' => brun l' s' | None => None end
  end.
End bench.

(** The static variables at the start of [bench]. *)
Definition bench_0 : bench_t := Bench false false None None 0 [] M_start None.
