(* ===== verification/BenchProps.v ===== *)
(** * The threads of the benchmark

    An invariant of all interleavings of [bench] and its threads: who holds the
    mutexes, who may have passed the gate, and what the shared counter sums up. *)
From stdpp Require Import base numbers list gmap.
From S2P Require Import Prelude Config Bench.

(** ** Where a thread is *)
Definition opened_by (m : bench_mpc) : bool :=
  match m with M_start | M_create _ | M_lock | M_ready => false | _ => true end.
Definition broadcast_by (m : bench_mpc) : bool :=
  match m with M_start | M_create _ | M_lock | M_ready | M_broadcast => false | _ => true end.
Definition stopped_by (m : bench_mpc) : bool :=
  match m with M_join _ | M_report | M_undefined => true | _ => false end.
Definition main_holds (m : bench_mpc) : bool :=
  match m with M_ready | M_broadcast | M_unlock => true | _ => false end.
Definition holds_worker_lock (pc : bench_wpc) : bool :=
  match pc with B_check | B_unlock => true | _ => false end.
Definition holds_res_lock (pc : bench_wpc) : bool :=
  match pc with B_load | B_store _ | B_resunlock => true | _ => false end.
Definition past_gate (pc : bench_wpc) : bool :=
  match pc with B_lock | B_check | B_waiting | B_relock => false | _ => true end.
Definition counted (pc : bench_wpc) : bool :=
  match pc with B_resunlock | B_close | B_exit => true | _ => false end.

(** A thread about to store a sum of something else than the counter. *)
Definition stale (total : Z) (pc : bench_wpc) : bool :=
  match pc with B_store v => negb (v =? total) | _ => false end.

(** A property of the program point of thread [i]. *)
Definition at_pc (f : bench_wpc -> bool) (l : list bworker) (i : nat) : bool :=
  match l !! i with Some t => f (bw_pc t) | None => false end.

Lemma at_pc_lookup f l i t : l !! i = Some t -> at_pc f l i = f (bw_pc t).
Proof. unfold at_pc. by intros ->. Qed.

Lemma at_pc_insert f l i t j :
  is_Some (l !! i) -> at_pc f (<[i := t]> l) j = if decide (i = j) then f (bw_pc t) else at_pc f l j.
Proof.
  intros Hi. apply lookup_lt_is_Some_1 in Hi. unfold at_pc. case_decide as E.
  - subst j. by rewrite list_lookup_insert_eq.
  - by rewrite list_lookup_insert_ne.
Qed.

Lemma at_pc_app f l t j : f (bw_pc t) = false -> at_pc f (l ++ [t]) j = at_pc f l j.
Proof.
  intros Ht. unfold at_pc. destruct (l !! j) as [x|] eqn:Ej; [by rewrite (lookup_app_l_Some _ _ _ _ Ej)|].
  rewrite lookup_app_r by (by apply lookup_ge_None). apply lookup_ge_None in Ej.
  destruct (j - length l)%nat as [|k] eqn:Ek; simpl; [done|]. by destruct k.
Qed.

Lemma at_pc_wake f l j : f B_waiting = f B_relock -> at_pc f (map wake l) j = at_pc f l j.
Proof.
  intros Hf. unfold at_pc. rewrite list_lookup_fmap. destruct (l !! j) as [[pc n]|]; simpl; [|done].
  by destruct pc.
Qed.

(** ** The counter *)
Definition contribution (t : bworker) : Z := if counted (bw_pc t) then local_success t else 0.
Fixpoint contributions (l : list bworker) : Z :=
  match l with [] => 0 | t :: l' => contribution t + contributions l' end.

Lemma contributions_app l l' : contributions (l ++ l') = contributions l + contributions l'.
Proof. induction l as [|t l IH]; simpl; lia. Qed.

Lemma contributions_insert l i t t' :
  l !! i = Some t -> contributions (<[i := t']> l) = contributions l - contribution t + contribution t'.
Proof.
  revert i. induction l as [|x l IH]; intros [|i] H; simpl in *; try done.
  - injection H as ->. lia.
  - rewrite (IH _ H). lia.
Qed.

Lemma contributions_wake l : contributions (map wake l) = contributions l.
Proof. induction l as [|[pc n] l IH]; simpl; [done|]. rewrite IH. by destruct pc. Qed.

Lemma to_ull_add a b : to_ull (to_ull a + b) = to_ull (a + b).
Proof. unfold to_ull, wrap_u. apply Z.add_mod_idemp_l. done. Qed.

(** ** The invariant *)
Definition threads_ok (conn : Z) (m : bench_mpc) (l : list bworker) : Prop :=
  match m with
  | M_start => l = []
  | M_create i => Z.of_nat (length l) = i /\ i <= Z.max 0 conn
  | M_join x => Z.of_nat (length l) = Z.max 0 conn /\ 0 <= x <= Z.of_nat (length l) /\
                (forall i, Z.of_nat i < x -> at_pc (fun pc => bool_decide (pc = B_exit)) l i = true)
  | M_report => Z.of_nat (length l) = Z.max 0 conn /\ MAX_THREAD <= Z.of_nat (length l) /\
                (forall i, Z.of_nat i < MAX_THREAD -> at_pc (fun pc => bool_decide (pc = B_exit)) l i = true)
  | M_undefined => Z.of_nat (length l) = Z.max 0 conn /\ Z.of_nat (length l) < MAX_THREAD
  | _ => Z.of_nat (length l) = Z.max 0 conn
  end.

Record binv (conn : Z) (s : bench_t) : Prop := {
  bi_ready : ready s = opened_by (b_main s);
  bi_shut : shut s = stopped_by (b_main s);
  bi_main : worker_lock s = Some O_main <-> main_holds (b_main s) = true;
  bi_wlock : forall i, worker_lock s = Some (O_worker i) <-> at_pc holds_worker_lock (pt s) i = true;
  bi_rlock : forall i, res_lock s = Some i <-> at_pc holds_res_lock (pt s) i = true;
  bi_gate : forall i, at_pc past_gate (pt s) i = true -> ready s = true;
  bi_wait : broadcast_by (b_main s) = true -> forall i, at_pc (fun pc => bool_decide (pc = B_waiting)) (pt s) i = false;
  bi_threads : threads_ok conn (b_main s) (pt s);
  bi_total : total_success s = to_ull (contributions (pt s));
  bi_read : forall i, at_pc (stale (total_success s)) (pt s) i = false
}.

Lemma binv_start conn : binv conn bench_0.
Proof. by constructor. Qed.

(** Threads change their program points without undoing a [pthread_join]. *)
Lemma threads_ok_insert conn m l i t t' :
  l !! i = Some t -> bw_pc t <> B_exit -> threads_ok conn m l -> threads_ok conn m (<[i := t']> l).
Proof.
  intros Hi Hne. assert (is_Some (l !! i)) as Hs by eauto.
  assert (forall j, at_pc (fun pc => bool_decide (pc = B_exit)) l j = true ->
                    at_pc (fun pc => bool_decide (pc = B_exit)) (<[i := t']> l) j = true) as Hexit.
  { intros j Hj. rewrite at_pc_insert by done. case_decide as E; [|done]. subst j.
    unfold at_pc in Hj. rewrite Hi in Hj. by apply bool_decide_eq_true in Hj. }
  destruct m; simpl; rewrite ?length_insert; naive_solver.
Qed.

(** A step of thread [i] from [pc] to [pc'], with what it does to the mutexes
    and to the counter. *)
Lemma binv_worker conn s i pc n pc' n' wl rl tot :
  binv conn s -> pt s !! i = Some (BWorker pc n) -> pc <> B_exit ->
  (wl = Some O_main <-> worker_lock s = Some O_main) ->
  (forall j, wl = Some (O_worker j) <->
     (if decide (i = j) then holds_worker_lock pc' = true else worker_lock s = Some (O_worker j))) ->
  (forall j, rl = Some j <-> (if decide (i = j) then holds_res_lock pc' = true else res_lock s = Some j)) ->
  (past_gate pc' = true -> ready s = true) -> (ready s = true -> pc' <> B_waiting) ->
  tot = to_ull (total_success s - contribution (BWorker pc n) + contribution (BWorker pc' n')) ->
  tot = total_success s \/ holds_res_lock pc = true -> stale tot pc' = false ->
  binv conn (Bench (ready s) (shut s) wl rl tot (<[i := BWorker pc' n']> (pt s)) (b_main s) (exited s)).
Proof.
  intros [H1 H2 H3 H4 H5 H6 H7 H8 H9 H10] Hi Hne Hm Hw Hr Hg Hwait Ht Hl Hst.
  assert (is_Some (pt s !! i)) as Hs by eauto.
  constructor; simpl; try done.
  - by rewrite Hm.
  - intros j. rewrite Hw, at_pc_insert by done. by case_decide.
  - intros j. rewrite Hr, at_pc_insert by done. by case_decide.
  - intros j. rewrite at_pc_insert by done. case_decide; [apply Hg|apply H6].
  - intros Hb j. rewrite at_pc_insert by done. case_decide; [|by apply H7].
    apply bool_decide_eq_false, Hwait. rewrite H1. by destruct (b_main s).
  - by eapply threads_ok_insert.
  - rewrite Ht, H9, (contributions_insert _ _ _ _ Hi).
    replace (to_ull (contributions (pt s)) - contribution (BWorker pc n) + contribution (BWorker pc' n'))
      with (to_ull (contributions (pt s)) + (contribution (BWorker pc' n') - contribution (BWorker pc n))) by lia.
    rewrite to_ull_add. f_equal. lia.
  - intros j. rewrite at_pc_insert by done. case_decide as Hij; [done|].
    destruct Hl as [->|Hl]; [apply H10|]. apply not_true_iff_false. intros Hj.
    assert (at_pc holds_res_lock (pt s) j = true) as Hj' by (unfold at_pc in *; destruct (pt s !! j) as [[[]]|]; done).
    apply H5 in Hj'. assert (res_lock s = Some i) as Hi' by (apply H5; by rewrite (at_pc_lookup _ _ _ _ Hi)).
    congruence.
Qed.

(** What thread [i] holds follows from its program point. *)
Lemma binv_holds conn s i pc n :
  binv conn s -> pt s !! i = Some (BWorker pc n) ->
  (worker_lock s = Some (O_worker i) <-> holds_worker_lock pc = true) /\
  (res_lock s = Some i <-> holds_res_lock pc = true) /\ (past_gate pc = true -> ready s = true).
Proof.
  intros [_ _ _ H4 H5 H6 _ _ _ _] Hi. specialize (H4 i). specialize (H5 i). specialize (H6 i).
  rewrite (at_pc_lookup _ _ _ _ Hi) in H4. rewrite (at_pc_lookup _ _ _ _ Hi) in H5.
  by rewrite (at_pc_lookup _ _ _ _ Hi) in H6.
Qed.

Lemma binv_exit conn s : binv conn s -> binv conn (with_exit s).
Proof. intros [H1 H2 H3 H4 H5 H6 H7 H8 H9 H10]. by constructor. Qed.

Lemma to_ull_total conn s : binv conn s -> to_ull (total_success s) = total_success s.
Proof. intros H. rewrite (bi_total _ _ H). unfold to_ull, wrap_u. by rewrite Z.mod_mod. Qed.

Lemma keep_total conn s c : binv conn s -> total_success s = to_ull (total_success s - c + c).
Proof. intros H. rewrite <- (to_ull_total _ _ H) at 1. f_equal. lia. Qed.

(** A step that leaves the mutexes alone. *)
Lemma binv_move conn s i pc n pc' n' tot :
  binv conn s -> pt s !! i = Some (BWorker pc n) -> pc <> B_exit ->
  holds_worker_lock pc' = holds_worker_lock pc -> holds_res_lock pc' = holds_res_lock pc ->
  (past_gate pc' = true -> ready s = true) -> (ready s = true -> pc' <> B_waiting) ->
  tot = to_ull (total_success s - contribution (BWorker pc n) + contribution (BWorker pc' n')) ->
  tot = total_success s \/ holds_res_lock pc = true -> stale tot pc' = false ->
  binv conn (Bench (ready s) (shut s) (worker_lock s) (res_lock s) tot
               (<[i := BWorker pc' n']> (pt s)) (b_main s) (exited s)).
Proof.
  intros Hinv Hi Hne Ew Er Hg Hwait Ht Hl Hst. destruct (binv_holds _ _ _ _ _ Hinv Hi) as (Hw & Hr & _).
  eapply binv_worker; try done.
  - intros j. case_decide as E; [|done]. subst j. by rewrite Ew.
  - intros j. case_decide as E; [|done]. subst j. by rewrite Er.
Qed.

(** A step that takes or releases [worker_lock]. *)
Lemma binv_wlock conn s i pc n pc' b :
  binv conn s -> pt s !! i = Some (BWorker pc n) -> pc <> B_exit ->
  holds_worker_lock pc = negb b -> holds_worker_lock pc' = b -> (b = true -> worker_lock s = None) ->
  holds_res_lock pc' = holds_res_lock pc ->
  (past_gate pc' = true -> ready s = true) -> (ready s = true -> pc' <> B_waiting) ->
  counted pc' = counted pc -> stale (total_success s) pc' = false ->
  binv conn (set_worker i pc' n (with_wlock (if b then Some (O_worker i) else None) s)).
Proof.
  intros Hinv Hi Hne Hb Hb' Hfree Er Hg Hwait Hc Hst. destruct (binv_holds _ _ _ _ _ Hinv Hi) as (Hw & Hr & _).
  rewrite Hb in Hw.
  eapply (binv_worker conn s i pc n pc' n); try done; try (by left); destruct b; simpl in *.
  - rewrite Hfree by done. done.
  - split; [done|]. rewrite (proj2 Hw) by done. done.
  - intros j. case_decide as E; [subst j; by rewrite Hb'|]. rewrite Hfree by done. split; [congruence|done].
  - intros j. case_decide as E; [subst j; by rewrite Hb'|]. rewrite (proj2 Hw) by done. split; [done|congruence].
  - intros j. case_decide as E; [|done]. subst j. by rewrite Er.
  - intros j. case_decide as E; [|done]. subst j. by rewrite Er.
  - unfold contribution. simpl. rewrite Hc. by eapply keep_total.
  - unfold contribution. simpl. rewrite Hc. by eapply keep_total.
Qed.

(** A step that takes or releases [res_lock]. *)
Lemma binv_rlock conn s i pc n pc' b :
  binv conn s -> pt s !! i = Some (BWorker pc n) -> pc <> B_exit ->
  holds_res_lock pc = negb b -> holds_res_lock pc' = b -> (b = true -> res_lock s = None) ->
  holds_worker_lock pc' = holds_worker_lock pc ->
  (past_gate pc' = true -> ready s = true) -> (ready s = true -> pc' <> B_waiting) ->
  counted pc' = counted pc -> stale (total_success s) pc' = false ->
  binv conn (set_worker i pc' n (with_rlock (if b then Some i else None) s)).
Proof.
  intros Hinv Hi Hne Hb Hb' Hfree Ew Hg Hwait Hc Hst. destruct (binv_holds _ _ _ _ _ Hinv Hi) as (Hw & Hr & _).
  rewrite Hb in Hr.
  eapply (binv_worker conn s i pc n pc' n); try done; try (by left).
  - intros j. case_decide as E; [|done]. subst j. by rewrite Ew.
  - intros j. destruct b; simpl in *; (case_decide as E; [subst j; by rewrite Hb'|]).
    + rewrite Hfree by done. split; [congruence|done].
    + rewrite (proj2 Hr) by done. split; [done|congruence].
  - unfold contribution. simpl. rewrite Hc. by eapply keep_total.
Qed.

Lemma bench_worker_step_inv conn i r s s' : binv conn s -> bench_worker_step i r s = Some s' -> binv conn s'.
Proof.
  intros Hinv Hst. unfold bench_worker_step in Hst. destruct (pt s !! i) as [[pc n]|] eqn:Hi; [|done].
  destruct (binv_holds _ _ _ _ _ Hinv Hi) as (_ & _ & Hg).
  assert (forall pc' n', holds_worker_lock pc' = holds_worker_lock pc -> holds_res_lock pc' = holds_res_lock pc ->
    (past_gate pc' = true -> ready s = true) -> (ready s = true -> pc' <> B_waiting) -> pc <> B_exit ->
    contribution (BWorker pc' n') = contribution (BWorker pc n) -> stale (total_success s) pc' = false ->
    binv conn (set_worker i pc' n' s)) as Hmove.
  { intros pc' n' E1 E2 E3 E4 E5 E6 E7. eapply (binv_move conn s i pc n pc' n'); try done; [|by left].
    rewrite E6. by eapply keep_total. }
  destruct pc; simpl in Hst, Hg.
  - destruct (worker_lock s) eqn:El; [done|]. injection Hst as <-. by apply (binv_wlock conn s i B_lock n B_check true).
  - destruct (ready s) eqn:Er; [injection Hst as <-; by apply Hmove|].
    destruct (r =? 0); injection Hst as <-; [|by apply binv_exit].
    by apply (binv_wlock conn s i B_check n B_waiting false); rewrite ?Er.
  - injection Hst as <-. by apply Hmove.
  - destruct (worker_lock s) eqn:El; [done|]. injection Hst as <-. by apply (binv_wlock conn s i B_relock n B_check true).
  - injection Hst as <-. by apply (binv_wlock conn s i B_unlock n B_socket false).
  - destruct (r =? -1); injection Hst as <-; [by apply binv_exit|by apply Hmove].
  - destruct (r =? -1); injection Hst as <-; [by apply binv_exit|by apply Hmove].
  - injection Hst as <-. destruct (shut s); by apply Hmove.
  - injection Hst as <-. by apply Hmove.
  - injection Hst as <-. by apply Hmove.
  - destruct (res_lock s) eqn:El; [done|]. injection Hst as <-. by apply (binv_rlock conn s i B_reslock n B_load true).
  - injection Hst as <-. apply Hmove; try done. simpl. by rewrite Z.eqb_refl.
  - injection Hst as <-. pose proof (bi_read _ _ Hinv i) as Hv. rewrite (at_pc_lookup _ _ _ _ Hi) in Hv. simpl in Hv.
    apply negb_false_iff, Z.eqb_eq in Hv. subst v.
    eapply (binv_move conn s i (B_store (total_success s)) n B_resunlock n); try done; [|by right].
    unfold contribution. simpl. by rewrite Z.sub_0_r.
  - injection Hst as <-. by apply (binv_rlock conn s i B_resunlock n B_close false).
  - injection Hst as <-. by apply Hmove.
  - done.
Qed.

(** ** The main thread *)

(** A step of the main thread that changes its program point only, between
    points with the same rights. *)
Lemma binv_main conn s m :
  binv conn s -> opened_by m = opened_by (b_main s) -> broadcast_by m = broadcast_by (b_main s) ->
  stopped_by m = stopped_by (b_main s) -> main_holds m = main_holds (b_main s) ->
  threads_ok conn m (pt s) -> binv conn (at_main m s).
Proof.
  intros [H1 H2 H3 H4 H5 H6 H7 H8 H9 H10] E1 E2 E3 E4 Ht.
  constructor; simpl; rewrite ?E1, ?E2, ?E3, ?E4; done.
Qed.

Lemma binv_create conn s i :
  binv conn s -> b_main s = M_create i -> i < conn ->
  binv conn (at_main (M_create (i + 1)) (with_pt (pt s ++ [BWorker B_lock 0]) s)).
Proof.
  intros [H1 H2 H3 H4 H5 H6 H7 H8 H9 H10] Em Hi. rewrite Em in *. constructor; simpl; try done.
  - intros j. by rewrite at_pc_app.
  - intros j. by rewrite at_pc_app.
  - intros j. rewrite at_pc_app by done. apply H6.
  - destruct H8 as [Hl Hc]. rewrite length_app. change (length [BWorker B_lock 0]) with 1%nat. lia.
  - rewrite H9, contributions_app. simpl. f_equal. unfold contribution. simpl. lia.
  - intros j. by rewrite at_pc_app.
Qed.

Lemma binv_broadcast conn s :
  binv conn s -> b_main s = M_broadcast -> binv conn (at_main M_unlock (with_pt (map wake (pt s)) s)).
Proof.
  intros [H1 H2 H3 H4 H5 H6 H7 H8 H9 H10] Em. rewrite Em in *. constructor; simpl; try done.
  - intros j. by rewrite at_pc_wake.
  - intros j. by rewrite at_pc_wake.
  - intros _ j. unfold at_pc. rewrite list_lookup_fmap. destruct (pt s !! j) as [[pc n]|]; [|done]. by destruct pc.
  - by rewrite length_map.
  - by rewrite contributions_wake.
  - intros j. by rewrite at_pc_wake.
Qed.

Lemma bench_main_step_inv conn r s s' :
  conn <= MAX_THREAD -> binv conn s -> bench_main_step conn r s = Some s' -> binv conn s'.
Proof.
  intros Hconn Hinv Hst. unfold bench_main_step in Hst.
  pose proof Hinv as [H1 H2 H3 H4 H5 H6 H7 H8 H9 H10].
  destruct (b_main s) as [|i| | | | | | |x| |] eqn:Em; simpl in *.
  - injection Hst as <-. constructor; simpl; try done; [|rewrite H8; simpl; lia].
    intros j Hj. rewrite H8 in Hj. by destruct j.
  - destruct (Z.ltb_spec i conn).
    + destruct (r =? 0); injection Hst as <-; [by apply binv_create|by apply binv_exit].
    + injection Hst as <-. apply binv_main; rewrite ?Em; simpl; try done. lia.
  - destruct (worker_lock s) eqn:El; [done|]. injection Hst as <-. constructor; simpl; try done.
    intros j. split; [done|]. intros Hj. by apply H4 in Hj.
  - injection Hst as <-. by constructor.
  - injection Hst as <-. by apply binv_broadcast.
  - injection Hst as <-. assert (worker_lock s = Some O_main) as El by (by apply H3).
    constructor; simpl; try done. intros j. split; [done|]. intros Hj. apply H4 in Hj. congruence.
  - injection Hst as <-. by apply binv_main; rewrite ?Em.
  - injection Hst as <-. constructor; simpl; try done. split; [done|]. split; [lia|]. intros i Hi. lia.
  - destruct H8 as (Hl & Hx & Hex). destruct (Z.ltb_spec x MAX_THREAD).
    + destruct (pt s !! Z.to_nat x) as [t|] eqn:Et.
      * case_decide as Ht; [|done]. injection Hst as <-. apply binv_main; rewrite ?Em; simpl; try done.
        apply lookup_lt_Some in Et as Hlt. split; [done|]. split; [lia|]. intros i Hi.
        destruct (Z.eq_dec (Z.of_nat i) x) as [E|E]; [|apply Hex; lia].
        assert (i = Z.to_nat x) as -> by lia. rewrite (at_pc_lookup _ _ _ _ Et). by apply bool_decide_eq_true.
      * injection Hst as <-. apply binv_main; rewrite ?Em; simpl; try done.
        apply lookup_ge_None in Et. split; [done|]. lia.
    + injection Hst as <-. apply binv_main; rewrite ?Em; simpl; try done. split; [done|]. split; [lia|].
      intros i Hi. apply Hex. lia.
  - done.
  - done.
Qed.

Lemma bstep_inv conn e s s' : conn <= MAX_THREAD -> binv conn s -> bstep conn e s = Some s' -> binv conn s'.
Proof.
  unfold bstep. intros Hc Hinv. destruct (exited s); [done|]. destruct e.
  - by apply bench_main_step_inv.
  - by apply bench_worker_step_inv.
Qed.

Lemma brun_inv conn l : forall s s', conn <= MAX_THREAD -> binv conn s -> brun conn l s = Some s' -> binv conn s'.
Proof.
  induction l as [|e l IH]; intros s s' Hc Hinv; simpl; [by intros [= <-]|].
  destruct (bstep conn e s) as [s1|] eqn:E; [|done]. apply IH; [done|]. by eapply bstep_inv.
Qed.

Lemma brun_start_inv conn l s : conn <= MAX_THREAD -> brun conn l bench_0 = Some s -> binv conn s.
Proof. intros Hc. by apply brun_inv, binv_start. Qed.
