(* ===== verification/BenchRuns.v ===== *)
(** * Executions of the benchmark

    The gate, the report and the end of a benchmark, and its options and message. *)
From Stdlib Require Import Ascii String.
From stdpp Require Import base numbers list gmap.
From S2P Require Import Prelude Config Bench BenchProps.

Local Open Scope Z_scope.
Local Open Scope list_scope.

(** ** The end of a benchmark *)

(** Steps a thread has left once [shut] is true. *)
Definition rank (pc : bench_wpc) : nat :=
  match pc with
  | B_waiting => 14 | B_lock | B_relock => 13 | B_check => 12 | B_unlock => 11 | B_socket => 10 | B_connect => 9
  | B_send => 8 | B_recv => 7 | B_loop => 6 | B_reslock => 5 | B_load => 4 | B_store _ => 3 | B_resunlock => 2
  | B_close => 1
  | B_exit => 0
  end.
Definition ranks (l : list bworker) : nat := sum_list_with (fun t => rank (bw_pc t)) l.

Lemma ranks_insert l i t t' :
  l !! i = Some t -> (rank (bw_pc t') < rank (bw_pc t))%nat -> (ranks (<[i := t']> l) < ranks l)%nat.
Proof.
  unfold ranks. revert i. induction l as [|x l IH]; intros [|i] H Hr; simpl in *; try done.
  - injection H as ->. lia.
  - specialize (IH _ H Hr). lia.
Qed.

(** A thread that does not wait for a mutex makes progress. *)
Lemma worker_can_step conn s i pc n :
  exited s = None -> pt s !! i = Some (BWorker pc n) -> pc <> B_exit -> ready s = true -> shut s = true ->
  (pc = B_lock \/ pc = B_relock -> worker_lock s = None) -> (pc = B_reslock -> res_lock s = None) ->
  exists s', bstep conn (E_worker i 0) s = Some s' /\ (ranks (pt s') < ranks (pt s))%nat /\
    b_main s' = b_main s /\ exited s' = None.
Proof.
  intros Hx Hi Hne Hr Hs Hw Hl. unfold bstep, bench_worker_step. rewrite Hx, Hi.
  assert (forall pc' n', (rank pc' < rank pc)%nat -> (ranks (<[i := BWorker pc' n']> (pt s)) < ranks (pt s))%nat) as Hrank.
  { intros pc' n' Hlt. by apply (ranks_insert _ _ _ _ Hi). }
  destruct pc; try done; rewrite ?Hw, ?Hl, ?Hr, ?Hs by auto; simpl;
    (eexists; split; [reflexivity|]; simpl; split; [apply Hrank; simpl; lia|done]).
Qed.

Lemma some_worker_steps conn s :
  binv conn s -> exited s = None -> shut s = true -> ~ Forall (fun t => bw_pc t = B_exit) (pt s) ->
  exists i s', bstep conn (E_worker i 0) s = Some s' /\ (ranks (pt s') < ranks (pt s))%nat /\
    b_main s' = b_main s /\ exited s' = None.
Proof.
  intros Hinv Hx Hs Hall. pose proof Hinv as [H1 H2 H3 H4 H5 H6 H7 H8 H9 H10].
  assert (ready s = true) as Hr by (rewrite H1; rewrite H2 in Hs; by destruct (b_main s)).
  destruct (worker_lock s) as [[|i]|] eqn:Ew.
  - exfalso. destruct H3 as [H3 _]. specialize (H3 eq_refl). rewrite H2 in Hs. by destruct (b_main s).
  - pose proof (proj1 (H4 i) eq_refl) as Hi. unfold at_pc in Hi. destruct (pt s !! i) as [[pc n]|] eqn:Ei; [|done].
    exists i. eapply worker_can_step; eauto; destruct pc; done || (intros [?|?]; done).
  - destruct (res_lock s) as [i|] eqn:Er.
    + pose proof (proj1 (H5 i) eq_refl) as Hi. unfold at_pc in Hi. destruct (pt s !! i) as [[pc n]|] eqn:Ei; [|done].
      exists i. eapply worker_can_step; eauto; destruct pc; done || (intros [?|?]; done).
    + apply not_Forall_Exists in Hall; [|intros t; apply _]. apply Exists_exists in Hall as ([pc n] & Hin & Hne).
      apply list_elem_of_lookup in Hin as [i Ei]. exists i. eapply worker_can_step; eauto.
Qed.

Lemma brun_app conn l1 l2 s s1 : brun conn l1 s = Some s1 -> brun conn (l1 ++ l2) s = brun conn l2 s1.
Proof.
  revert s. induction l1 as [|e l1 IH]; intros s; simpl; [by intros [= ->]|].
  destruct (bstep conn e s); [apply IH|done].
Qed.

(** All threads come to their end. *)
Lemma workers_finish conn m : forall s,
  conn <= MAX_THREAD -> binv conn s -> exited s = None -> shut s = true -> (ranks (pt s) <= m)%nat ->
  exists l s', brun conn l s = Some s' /\ binv conn s' /\ exited s' = None /\ b_main s' = b_main s /\
    Forall (fun t => bw_pc t = B_exit) (pt s').
Proof.
  induction m as [|m IH]; intros s Hc Hinv Hx Hs Hm;
    (destruct (decide (Forall (fun t => bw_pc t = B_exit) (pt s))) as [Hall|Hall]; [by exists [], s|]).
  - destruct (some_worker_steps _ _ Hinv Hx Hs Hall) as (i & s1 & _ & Hlt & _). lia.
  - destruct (some_worker_steps _ _ Hinv Hx Hs Hall) as (i & s1 & Hst & Hlt & Hmain & Hx1).
    assert (binv conn s1) as Hinv1 by (by eapply bstep_inv).
    destruct (IH s1) as (l & s' & Hrun & Hinv' & Hx' & Hm' & Hall'); try done.
    { rewrite (bi_shut _ _ Hinv1), Hmain, <- (bi_shut _ _ Hinv). done. }
    { lia. }
    exists (E_worker i 0 :: l), s'. simpl. rewrite Hst. split_and!; try done. congruence.
Qed.

(** The join loop, once the threads have ended. *)
Lemma join_finishes conn s x m :
  conn <= MAX_THREAD -> binv conn s -> exited s = None -> b_main s = M_join x ->
  Forall (fun t => bw_pc t = B_exit) (pt s) -> (Z.to_nat (MAX_THREAD + 1 - x) <= m)%nat ->
  exists l s', brun conn l s = Some s' /\ pt s' = pt s /\
    b_main s' = if conn <? MAX_THREAD then M_undefined else M_report.
Proof.
  revert s x. induction m as [|m IH]; intros s x Hc Hinv Hx Hm Hall Hle.
  { pose proof (bi_threads _ _ Hinv) as Ht. rewrite Hm in Ht. simpl in Ht. unfold MAX_THREAD in *. lia. }
  assert (bstep conn (E_main 0) s = bench_main_step conn 0 s) as Hst by (unfold bstep; by rewrite Hx).
  pose proof (bi_threads _ _ Hinv) as Ht. rewrite Hm in Ht. destruct Ht as (Hl & Hxr & _).
  unfold bench_main_step in Hst. rewrite Hm in Hst.
  destruct (Z.ltb_spec x MAX_THREAD).
  - destruct (pt s !! Z.to_nat x) as [t|] eqn:Et.
    + rewrite Forall_lookup in Hall. pose proof (Hall _ _ Et) as Hex. case_decide; [|done].
      destruct (IH (at_main (M_join (x + 1)) s) (x + 1)) as (l & s' & Hrun & Hpt & Hmain); try done.
      * by eapply bstep_inv.
      * by apply Forall_lookup.
      * lia.
      * exists (E_main 0 :: l), s'. simpl. by rewrite Hst.
    + exists [E_main 0], (at_main M_undefined s). simpl. rewrite Hst. split_and!; [done..|].
      apply lookup_ge_None in Et. destruct (Z.ltb_spec conn MAX_THREAD); [done|]. unfold MAX_THREAD in *. simpl. lia.
  - exists [E_main 0], (at_main M_report s). simpl. rewrite Hst. split_and!; [done..|].
    destruct (Z.ltb_spec conn MAX_THREAD); [|done]. unfold MAX_THREAD in *. lia.
Qed.

Lemma bench_finishes conn l s :
  conn <= MAX_THREAD -> brun conn l bench_0 = Some s -> exited s = None -> shut s = true ->
  exists l' s', brun conn l' s = Some s' /\ b_main s' = if conn <? MAX_THREAD then M_undefined else M_report.
Proof.
  intros Hc Hrun Hx Hs. pose proof (brun_start_inv _ _ _ Hc Hrun) as Hinv.
  destruct (workers_finish conn _ s Hc Hinv Hx Hs (le_n _)) as (l1 & s1 & Hr1 & Hinv1 & Hx1 & Hm1 & Hall).
  pose proof (bi_threads _ _ Hinv1) as Ht. rewrite (bi_shut _ _ Hinv) in Hs.
  destruct (b_main s) as [|i| | | | | | |x| |] eqn:Em; try done.
  - destruct (join_finishes conn s1 x _ Hc Hinv1 Hx1 Hm1 Hall (le_n _)) as (l2 & s2 & Hr2 & _ & Hm2).
    exists (l1 ++ l2), s2. by rewrite (brun_app _ _ _ _ _ Hr1).
  - exists l1, s1. split; [done|]. rewrite Hm1 in *. destruct Ht as (Hl & Hle & _).
    destruct (Z.ltb_spec conn MAX_THREAD); [|done]. unfold MAX_THREAD in *. lia.
  - exists l1, s1. split; [done|]. rewrite Hm1 in *. destruct Ht as [Hl Hlt].
    destruct (Z.ltb_spec conn MAX_THREAD); [done|]. unfold MAX_THREAD in *. lia.
Qed.

(** ** All executions end

    Once [shut] is true, every step of any thread takes one of a bounded number of
    steps that are left. *)
Definition main_left (m : bench_mpc) : nat :=
  match m with M_join x => Z.to_nat (MAX_THREAD + 1 - x) | _ => 0 end.
Definition steps_left (s : bench_t) : nat :=
  ranks (pt s) + main_left (b_main s) + match exited s with None => 1 | Some _ => 0 end.

Lemma worker_step_left s i r s' :
  exited s = None -> ready s = true -> shut s = true ->
  bench_worker_step i r s = Some s' -> (steps_left s' < steps_left s)%nat /\ b_main s' = b_main s.
Proof.
  intros Hx Hr Hs. unfold bench_worker_step, steps_left. rewrite Hx.
  destruct (pt s !! i) as [[pc n]|] eqn:Hi; [|done].
  assert (forall pc' n', (rank pc' < rank pc)%nat -> (ranks (<[i := BWorker pc' n']> (pt s)) < ranks (pt s))%nat) as Hrank.
  { intros pc' n' Hlt. by apply (ranks_insert _ _ _ _ Hi). }
  rewrite Hr, Hs. intros H.
  destruct pc; repeat (case_match; try done); simplify_eq; simpl; rewrite ?Hx; (split; [|done]);
    first [lia | match goal with |- context [<[i := BWorker ?p ?k]> _] => specialize (Hrank p k); simpl in Hrank end; lia].
Qed.

Lemma main_step_left conn s r s' :
  conn <= MAX_THREAD -> binv conn s -> exited s = None -> shut s = true ->
  bench_main_step conn r s = Some s' -> (steps_left s' < steps_left s)%nat.
Proof.
  intros Hc Hinv Hx Hs. pose proof (bi_threads _ _ Hinv) as Ht. rewrite (bi_shut _ _ Hinv) in Hs.
  unfold bench_main_step, steps_left. destruct (b_main s) as [|i| | | | | | |x| |] eqn:Em; try done.
  destruct Ht as (Hl & Hxr & _). rewrite Hx. destruct (Z.ltb_spec x MAX_THREAD).
  - destruct (pt s !! Z.to_nat x) as [t|]; [case_decide; [|done]|]; intros [= <-]; simpl; rewrite Hx; lia.
  - intros [= <-]. simpl. rewrite Hx. unfold MAX_THREAD in *. lia.
Qed.

Lemma step_left conn e s s' :
  conn <= MAX_THREAD -> binv conn s -> shut s = true -> bstep conn e s = Some s' ->
  (steps_left s' < steps_left s)%nat /\ shut s' = true.
Proof.
  intros Hc Hinv Hs Hst. assert (binv conn s') as Hinv' by (by eapply bstep_inv). unfold bstep in Hst.
  destruct (exited s) eqn:Hx; [done|].
  assert (ready s = true) as Hr by (rewrite (bi_ready _ _ Hinv); rewrite (bi_shut _ _ Hinv) in Hs; by destruct (b_main s)).
  destruct e as [r|i r].
  - split; [by eapply main_step_left|]. rewrite (bi_shut _ _ Hinv'). rewrite (bi_shut _ _ Hinv) in Hs.
    unfold bench_main_step in Hst. destruct (b_main s); try done; repeat case_match; by simplify_eq.
  - destruct (worker_step_left s i r s' Hx Hr Hs Hst) as [Hlt Hm]. split; [done|].
    by rewrite (bi_shut _ _ Hinv'), Hm, <- (bi_shut _ _ Hinv).
Qed.

Lemma run_left conn l : forall s s',
  conn <= MAX_THREAD -> binv conn s -> shut s = true -> brun conn l s = Some s' ->
  (length l + steps_left s' <= steps_left s)%nat /\ shut s' = true /\ binv conn s'.
Proof.
  induction l as [|e l IH]; intros s s' Hc Hinv Hs Hrun; simpl in *; [injection Hrun as <-; split_and!; done || lia|].
  destruct (bstep conn e s) as [s1|] eqn:E; [|done]. destruct (step_left _ _ _ _ Hc Hinv Hs E) as [Hlt Hs1].
  destruct (IH s1 s' Hc) as (Hle & Hs' & Hinv'); [by eapply bstep_inv|done..|]. split_and!; done || lia.
Qed.

Lemma ranks_bound l : (ranks l <= 14 * length l)%nat.
Proof.
  unfold ranks. induction l as [|[pc n] l IH]; simpl; [lia|].
  assert (rank pc <= 14)%nat by (destruct pc; simpl; lia). lia.
Qed.

(** A benchmark of [MAX_THREAD] threads that cannot go on has reported. *)
Lemma stuck_reported s :
  binv MAX_THREAD s -> exited s = None -> shut s = true -> (forall e, bstep MAX_THREAD e s = None) ->
  b_main s = M_report.
Proof.
  intros Hinv Hx Hs Hstuck.
  destruct (decide (Forall (fun t => bw_pc t = B_exit) (pt s))) as [Hall|Hall].
  2: { destruct (some_worker_steps _ _ Hinv Hx Hs Hall) as (i & s1 & Hst & _). by rewrite Hstuck in Hst. }
  specialize (Hstuck (E_main 0)). unfold bstep, bench_main_step in Hstuck. rewrite Hx in Hstuck.
  pose proof (bi_threads _ _ Hinv) as Ht. rewrite (bi_shut _ _ Hinv) in Hs.
  destruct (b_main s) as [|i| | | | | | |x| |]; try done; exfalso.
  - destruct Ht as (Hl & Hxr & _). destruct (Z.ltb_spec x MAX_THREAD); [|done].
    destruct (lookup_lt_is_Some_2 (pt s) (Z.to_nat x)) as [t Hlk]; [unfold MAX_THREAD in *; lia|].
    rewrite Hlk in Hstuck. case_decide as Hne; [done|]. rewrite Forall_lookup in Hall. by destruct Hne; eapply Hall.
  - destruct Ht as [Hl Hlt]. unfold MAX_THREAD in *. lia.
Qed.

(** ** Theorems *)

(** C26: in every interleaving of the benchmark, a thread that has passed the
    gate has done so after [ready] was set, when all threads had been created: no
    thread opens its connection before. *)
Theorem bench_gate conn l s i :
  conn <= MAX_THREAD -> brun conn l bench_0 = Some s -> at_pc past_gate (pt s) i = true ->
  ready s = true /\ Z.of_nat (length (pt s)) = Z.max 0 conn.
Proof.
  intros Hc Hrun Hi. pose proof (brun_start_inv _ _ _ Hc Hrun) as Hinv.
  pose proof (bi_gate _ _ Hinv i Hi) as Hr. split; [done|].
  rewrite (bi_ready _ _ Hinv) in Hr. pose proof (bi_threads _ _ Hinv) as Ht.
  destruct (b_main s); simpl in *; try done; tauto.
Qed.

(** C17: when [bench] reports, all threads have ended and [total_success] is
    the sum of their counters, at 64 bits: no addition is lost. *)
Theorem bench_report_sums conn l s :
  conn <= MAX_THREAD -> brun conn l bench_0 = Some s -> b_main s = M_report ->
  Forall (fun t => bw_pc t = B_exit) (pt s) /\
  total_success s = to_ull (foldr (fun t a => local_success t + a) 0 (pt s)).
Proof.
  intros Hc Hrun Hm. pose proof (brun_start_inv _ _ _ Hc Hrun) as Hinv.
  pose proof (bi_threads _ _ Hinv) as Ht. rewrite Hm in Ht. destruct Ht as (Hl & Hle & Hex).
  assert (Forall (fun t => bw_pc t = B_exit) (pt s)) as Hall.
  { apply Forall_lookup. intros i t Hi. pose proof (lookup_lt_Some _ _ _ Hi).
    assert (Z.of_nat i < MAX_THREAD) as Hlt by (unfold MAX_THREAD in *; lia). specialize (Hex i Hlt). rewrite (at_pc_lookup _ _ _ _ Hi) in Hex.
    by apply bool_decide_eq_true in Hex. }
  split; [done|]. rewrite (bi_total _ _ Hinv). f_equal. clear -Hall.
  induction Hall as [|[pc n] l Hpc Hl IH]; simpl in *; [done|]. subst pc. unfold contribution. simpl. lia.
Qed.

(** Once the broadcast of [bench] is done no thread waits on the condition
    variable any more, in every interleaving: the wake-up cannot be lost. *)
Theorem bench_no_lost_wakeup conn l s i :
  conn <= MAX_THREAD -> brun conn l bench_0 = Some s -> broadcast_by (b_main s) = true ->
  at_pc (fun pc => bool_decide (pc = B_waiting)) (pt s) i = false.
Proof. intros Hc Hrun Hb. by apply (bi_wait _ _ (brun_start_inv _ _ _ Hc Hrun) Hb). Qed.


(** C40: with fewer than [MAX_THREAD] connections, the default included,
    [bench] never reaches its report by defined behaviour: it joins all entries of
    [pt], also those for which no thread was created. *)
Theorem bench_joins_no_thread conn l s :
  conn < MAX_THREAD -> brun conn l bench_0 = Some s -> b_main s <> M_report.
Proof.
  intros Hc Hrun Hm. pose proof (bi_threads _ _ (brun_start_inv _ _ _ (Z.lt_le_incl _ _ Hc) Hrun)) as Ht.
  rewrite Hm in Ht. destruct Ht as (Hl & Hle & _). unfold MAX_THREAD in *. lia.
Qed.

(** ** The message *)
Lemma store_msg_ok l i v : 0 <= i < Z.of_nat (length l) -> store_msg i v (Some l) = Ret (tt, Some (<[Z.to_nat i := v]> l)).
Proof. intros Hi. unfold store_msg. by rewrite aset_in_range. Qed.

Lemma fill_msg (l : list Z) :
  exists m, for_range 0 (Z.of_nat (length l)) (fun i => store_msg i 97) (Some l) = Ret (tt, Some m) /\
    m = replicate (length l) 97.
Proof.
  set (I := fun (i : Z) (s : option (list Z)) =>
    exists m, s = Some m /\ length m = length l /\ take (Z.to_nat i) m = replicate (Z.to_nat i) 97).
  destruct (for_range_inv I (fun i => store_msg i 97) 0 (Z.of_nat (length l)) (Some l)) as (s' & Hrun & m & -> & Hlen & Ht).
  - lia.
  - by exists l.
  - intros k s Hk (m & -> & Hlen & Ht). rewrite store_msg_ok by lia. eexists. split; [done|].
    eexists. split; [done|]. rewrite length_insert. split; [done|].
    replace (Z.to_nat (k + 1)) with (S (Z.to_nat k)) by lia.
    rewrite (take_S_r _ _ 97) by (apply list_lookup_insert_eq; lia).
    rewrite take_insert_ge by lia. by rewrite Ht, <- replicate_cons_app.
  - exists m. split; [done|]. rewrite Nat2Z.id in Ht. rewrite <- Ht. symmetry. apply take_ge. lia.
Qed.

(** [init] builds a message of [size - 1] letters for every positive size when
    [malloc] succeeds, and faults for size 0 or less. *)
Theorem rps_init_message junk size :
  if 0 <? size
  then rps_init true junk size = Ret (Some (replicate (Z.to_nat (size - 1)) 97 ++ [0])) /\
       strlen (replicate (Z.to_nat (size - 1)) 97 ++ [0]) = Some (Z.to_nat (size - 1))
  else exists f, rps_init true junk size = Fault f.
Proof.
  unfold rps_init. destruct (Z.ltb_spec 0 size).
  - assert (malloc true junk size = Some (take (Z.to_nat size) (junk ++ replicate (Z.to_nat size) 0))) as ->.
    { unfold malloc. destruct (Z.ltb_spec size 0); [lia|done]. }
    set (l := take _ _). assert (length l = Z.to_nat size) as Hl.
    { unfold l. rewrite length_take, length_app, length_replicate. lia. }
    destruct (fill_msg l) as (m & Hrun & ->). rewrite Hl, Z2Nat.id in Hrun by lia.
    mrun Hrun. rewrite store_msg_ok by (rewrite length_replicate; lia). split.
    + do 2 f_equal. replace (Z.to_nat size) with (Z.to_nat (size - 1) + 1)%nat by lia.
      rewrite replicate_add. rewrite insert_app_r_alt by (rewrite length_replicate; lia).
      rewrite length_replicate, Nat.sub_diag. done.
    + clear. induction (Z.to_nat (size - 1)) as [|n IH]; simpl; [done|]. by rewrite IH.
  - unfold malloc. unfold for_range. replace (Z.to_nat (size - 0)) with 0%nat by lia.
    unfold bind. simpl. destruct (Z.ltb_spec size 0); simpl; [by eexists|].
    assert (size = 0) as -> by lia. by eexists.
Qed.

(** ** The options *)
Lemma rps_case_bound o c c' :
  conf_conn c <= MAX_THREAD -> rps_case o c = Ret (Some c') -> conf_conn c' <= MAX_THREAD.
Proof.
  destruct o as [a|a|a|a|]; simpl; intros Hc; try (destruct (atoi a); try done; by intros [= <-]); [|done].
  destruct (atoi a) as [v| |]; try done. destruct (Z.ltb_spec MAX_THREAD v); [done|]. by intros [= <-].
Qed.

Lemma rps_options_conn l : forall c c',
  conf_conn c <= MAX_THREAD -> rps_options l c = Ret (Some c') -> conf_conn c' <= MAX_THREAD.
Proof.
  induction l as [|o l IH]; intros c c' Hc; simpl; [by intros [= <-]|].
  destruct (rps_case o c) as [[c1|]| |] eqn:E; try done. apply IH. by eapply rps_case_bound.
Qed.

(** Options that are accepted never create more threads than [pt] has room for. *)
Theorem rps_threads_bounded l c evs s :
  rps_options l default_conf = Ret (Some c) -> brun (conf_conn c) evs bench_0 = Some s ->
  conf_conn c <= MAX_THREAD /\ Z.of_nat (length (pt s)) <= MAX_THREAD.
Proof.
  intros Ho Hrun. assert (conf_conn c <= MAX_THREAD) as Hc by (by eapply rps_options_conn; [|exact Ho]).
  split; [done|]. pose proof (bi_threads _ _ (brun_start_inv _ _ _ Hc Hrun)) as Ht. unfold MAX_THREAD in *.
  destruct (b_main s); simpl in Ht; try (rewrite Ht; simpl); lia.
Qed.

(** ** Concrete executions *)

(** Two threads: the first waits at the gate, the second arrives after it was
    opened; the first counts two messages. *)
Definition two_threads : list bevent :=
  [E_main 0; E_main 0; E_main 0;
   E_worker 0 0; E_worker 0 0;                               (* waits for [ready] *)
   E_main 0; E_main 0; E_main 0; E_main 0; E_main 0;         (* opens the gate *)
   E_worker 0 0; E_worker 0 0; E_worker 0 0; E_worker 0 0; E_worker 0 0;
   E_worker 0 0; E_worker 0 0; E_worker 0 1; E_worker 0 0; E_worker 0 0; E_worker 0 1].

Lemma two_threads_run : exists s, brun 2 two_threads bench_0 = Some s /\
  pt s = [BWorker B_loop 2; BWorker B_lock 0] /\ b_main s = M_sleep /\ ready s = true.
Proof. eexists. split; [vm_compute; reflexivity|]. by vm_compute. Qed.

Lemma bench_gate_witness :
  exists s, brun 2 two_threads bench_0 = Some s /\ ready s = true /\ Z.of_nat (List.length (pt s)) = 2.
Proof.
  destruct two_threads_run as (s & Hrun & Hpt & _). exists s. split; [exact Hrun|].
  apply (bench_gate 2 two_threads s 0); [done|exact Hrun|by rewrite Hpt].
Defined.

Lemma bench_no_lost_wakeup_witness :
  exists s, brun 2 two_threads bench_0 = Some s /\
    at_pc (fun pc => bool_decide (pc = B_waiting)) (pt s) 0 = false.
Proof.
  destruct two_threads_run as (s & Hrun & _ & Hm & _). exists s. split; [exact Hrun|].
  apply (bench_no_lost_wakeup 2 two_threads s 0); [done|exact Hrun|by rewrite Hm].
Defined.

Lemma bench_joins_no_thread_witness : exists s, brun 2 two_threads bench_0 = Some s /\ b_main s <> M_report.
Proof.
  destruct two_threads_run as (s & Hrun & _). exists s. split; [exact Hrun|].
  exact (bench_joins_no_thread 2 two_threads s eq_refl Hrun).
Defined.

(** The main thread alone, up to the first [pthread_join]. *)
Definition main_alone (conn : nat) : list bevent := replicate (conn + 8) (E_main 0).

Lemma main_alone_1000 :
  match brun 1000 (main_alone 1000) bench_0 with
  | Some s => bool_decide (exited s = None) && shut s && bool_decide (b_main s = M_join 0)
  | None => false
  end = true.
Proof. vm_compute. reflexivity. Qed.

Lemma main_alone_run :
  exists s, brun 1000 (main_alone 1000) bench_0 = Some s /\ exited s = None /\ shut s = true.
Proof.
  pose proof main_alone_1000 as H. destruct (brun 1000 (main_alone 1000) bench_0) as [s|]; [|done].
  apply andb_true_iff in H as [[H1 H2]%andb_true_iff _]. exists s. apply bool_decide_eq_true in H1. done.
Qed.


Lemma bench_report_sums_witness :
  exists l s, brun 1000 l bench_0 = Some s /\ b_main s = M_report /\
    Forall (fun t => bw_pc t = B_exit) (pt s) /\
    total_success s = to_ull (foldr (fun t a => local_success t + a) 0 (pt s)).
Proof.
  destruct main_alone_run as (s & Hrun & Hx & Hs).
  destruct (bench_finishes 1000 _ s (Z.le_refl _) Hrun Hx Hs) as (l' & s' & Hr & Hm).
  pose proof (brun_app 1000 _ l' _ _ Hrun) as Happ. rewrite Hr in Happ.
  exists (main_alone 1000 ++ l'), s'. split; [exact Happ|]. split; [exact Hm|].
  exact (bench_report_sums 1000 _ s' (Z.le_refl _) Happ Hm).
Defined.

Lemma rps_threads_bounded_witness :
  exists c s, rps_options [Opt_c ["2"%char]; Opt_d ["1"%char]] default_conf = Ret (Some c) /\
    brun (conf_conn c) two_threads bench_0 = Some s /\
    conf_conn c <= MAX_THREAD /\ Z.of_nat (List.length (pt s)) <= MAX_THREAD.
Proof.
  destruct two_threads_run as (s & Hrun & _). exists (RpsConf 12345 2 1000 1), s.
  split; [by vm_compute|]. split; [exact Hrun|].
  apply (rps_threads_bounded [Opt_c ["2"%char]; Opt_d ["1"%char]] _ two_threads); [by vm_compute|exact Hrun].
Defined.
